(* ===== verification/_CoqProject ===== *)
-Q . S2P
Prelude.v
Machine.v
Kernel.v
Common.v
Monitor.v
OrderedArray.v
Isr.v
DescriptorTables.v
Keyboard.v
KeyboardRace.v
Frames.v
Kmalloc.v
Paging.v
Kheap.v
KheapSpec.v
KheapFree.v
KheapBoot.v
KheapAligned.v
KheapWf.v
KheapRelease.v
KheapGrow.v
KheapShrink.v
PagingInit.v
Task.v
TaskInit.v
Timer.v
Fs.v
Initrd.v
Mkinit.v
Syscall.v
Main.v
Boot.v
System.v
