(* ===== verification/Prelude.v ===== *)
(** * fotix: the kernel's components as executable definitions, and what they do

    The repository is a small monolithic kernel for 32-bit x86 ([src/sys],
    [src/include]) and a program for the host that builds its ramdisk
    ([src/utils/mkinit.c]).  [kernel_start] (sys/main.c) initialises, in this
    order, the descriptor tables, the timer, paging with the kernel heap,
    multitasking, the ramdisk, the system calls and the keyboard, enters user
    mode, and means to echo what is typed.  This library is a shallow embedding of all
    of its C code that compiles, with the theorems that make it correct.

    ** How the code is modelled

    A function of the kernel is a function of the monad [M] of this file over the
    state [kstate] of [Kernel.v]: it returns ([Ok]), stops the processor
    ([Halted]), has no meaning in C ([Undefined]), or exhausts the bound of its
    loops ([Diverged]).  Theorems are total-correctness statements ([wp], and
    [halts] for the functions that stop the processor): a body that does not
    return satisfies none of them.  The state is linear memory as bytes, a record
    for the globals of each C file, the processor registers that the code reads,
    the bytes that the input ports present, and the trace of what the hardware
    observes: port output, [cli], [sti], [hlt], loads of descriptor tables and
    control registers, stack switches, jumps to tasks.  Integers have their
    width: every sum, difference, product and shift is wrapped with [u8], [u16],
    [u32], [s8] or [s32], except the counters of loops between constants.  Objects behind pointers are in memory at the offsets
    that the ABI gives their members, so that aliasing and overrunning behave as
    they do in C; the globals that only one file touches are records and lists.

    Loops are [while], [loop] and [for_range].  [loop] runs at most
    [max_rounds] = 2^40 rounds: the loops are driven by 32-bit counters or
    pointers, so that one which runs longer has repeated itself and never ends.
    The rule [wp_loop] needs a measure below that bound.  [kmalloc_depth] = 256
    bounds the recursion of the allocator through [get_page] and [expand]; each
    level is a call on a kernel stack of two pages.

    ** The files

    - [Prelude.v]: machine integers, bits, the monad, [wp], the loop rule, the
      tactics [wrap_id], [bool_hyps], [blia], [dlia], [wp_step].
    - [Machine.v]: byte memory, loads and stores, [region], [same_outside] and
      [same_on] (what a computation leaves alone), arrays of words.
    - [Kernel.v]: the types of the headers, [kstate], memory and port
      access (inb, outb of sys/common.c), [for_range], strings, [Linkage] (the
      addresses that the linker assigns).
    - [Common.v]: memcpy, memset, strcmp, strcpy, strcat, strlen (sys/common.c).
    - [Monitor.v]: sys/monitor.c; panic and panic_assert of sys/common.c.
      [Module Terminal] is the abstract console: cells and a cursor.
    - [OrderedArray.v]: sys/ordered_array.c.  [Module Spec]: insertion in a list.
    - [Isr.v]: sys/isr.c; [Handlers] is the call through a handler's pointer.
    - [DescriptorTables.v]: sys/descriptor_tables.c, with the decoding of
      descriptors and gates that the processor does.
    - [Keyboard.v]: sys/keyboard.c.  [Module Queue]: the buffer is a queue;
      [Module KeySpec]: the abstract handler of a scancode.
    - [KeyboardRace.v]: keyboard_getchar with interrupts between its accesses to the
      buffer: keys, and other tasks.
    - [Frames.v]: the bitset of frames and page entries (sys/paging.c).
    - [Kmalloc.v]: the interface of the allocator: [Kmalloc] (its operation),
      [KmallocLaws] (what get_page needs) and [AllocatorLaws] (what the ramdisk
      needs).
    - [Paging.v]: get_page, switch_page_directory, page_fault, clone_table,
      clone_directory (sys/paging.c), over [Kmalloc].
    - [Kheap.v]: sys/kheap.c, all operations; [kernel_kmalloc] is the instance
      of [Kmalloc] that the kernel has.
    - [KheapSpec.v], [KheapAligned.v], [KheapFree.v], [KheapBoot.v]: the heap in
      memory ([heap_at], [tiles]); allocation, aligned allocation, release; the
      allocator before the heap, which has instances of both laws, and
      create_heap.
    - [KheapWf.v], [KheapRelease.v]: the well-formed heap ([heap_wf]), which
      alloc, aligned alloc and free keep; the instance of [AllocatorLaws] that the
      heap is; allocation followed by release.
    - [KheapGrow.v]: expand, contract, and the growth of the heap by alloc.
    - [KheapShrink.v]: release of the last block, which contracts the heap.
    - [PagingInit.v]: initialise_paging (sys/paging.c); [translate] is what the
      processor makes of the tables, [user_reads] and [user_writes] what it
      allows a program in user mode.
    - [Task.v]: sys/task.c.  [Module RoundRobin] is the abstract scheduler.
    - [TaskInit.v]: initialise_tasking on the heap, the frames and the directories
      that initialise_paging leaves.
    - [Timer.v]: sys/timer.c.
    - [Fs.v], [Initrd.v]: sys/fs.c and sys/initrd.c; [Vfs] is the call through
      the pointers of a node.
    - [Mkinit.v]: utils/mkinit.c; the round trip from the host to the kernel.
    - [Syscall.v]: sys/syscall.c, the macros of include/syscall.h, and
      [kernel_handlers], which says what each registered handler is.
    - [Main.v]: sys/main.c.
    - [Boot.v]: [kernel_boot] as a whole: what each part of the start needs and
      leaves, and the state in which the loop begins ([booted]).
    - [System.v]: the kernel at its loop, as a step relation: key presses,
      ticks, steps of the loop, system calls, in every order, at either privilege and
      with interrupts on or off; what that makes of the kernel that has started.

    ** What the theorems show

    - Refinement of an abstract specification: the console ([Terminal]), the
      ordered array ([Spec]), the keyboard ([KeySpec], [Queue]), the scheduler
      ([RoundRobin], also when it is reached through the timer's interrupt), and
      the running kernel ([System.react]), of which every execution is one.
    - The heap: first fit, best fit in a sorted index, the managed addresses
      stay tiled by blocks and holes, aligned blocks, the three outcomes of
      free inside the heap, create_heap, growth, contraction, and the release of
      the last block.
    - Memory management: the bitset, alloc_frame, page tables, cloning, and the
      address space that initialise_paging builds: the identity below four
      megabytes, the heap's pages on the frames behind, injective.  That is what
      makes a flat linear memory a faithful picture of physical memory.
    - Interrupts: registration and dispatch, acknowledgement before the handler,
      the table that the processor reads, system calls from user mode.
    - End to end: under the conditions of [can_boot] the start
      returns, with paging, the first task, files, system calls and keyboard at work;
      a file that mkinit packs is read back through the virtual file system of the
      started kernel.  The kernel at its loop is [System.react] in every
      interleaving, as far as its mode lets it; in the mode that main.c puts it in it
      hears no key and no tick, and its first character is a page fault.  Keys
      that arrive inside keyboard_getchar are no different from others; without a ramdisk
      the start ends in an assertion.
    - Faults of the code, proved as its behaviour: remove_ordered_array counts
      up, free_frame frees frame 0, clone_table drops mapped pages,
      initrd_read's size wraps, the keyboard buffer loses its contents when
      full, new tasks have a stale kernel stack, a forked task has no stack, user mode
      runs with interrupts off on pages it may not write, aligned blocks can overrun
      their hole, the heap takes a null pointer in its index for a hole, the bitset of frames is allocated a quarter of its size, a heap
      that grows behind a block hands out that block's memory, one that grows
      twice has an unmapped last page, and one that is
      contracted keeps its pages present without a frame.

    Each theorem with hypotheses has a lemma [<name>_witness] in a sample module
    that applies it to concrete values.

    ** Assumptions and limits

    - Memory is flat and linear: after paging is on, an access goes to its
      linear address.  For the first directory [initialise_paging_maps] shows
      that this loses nothing where a page is mapped, and [kernel_serves_files] says that
      its buffer is.  A forked child has another directory:
      what it does there is not modelled ([fork_queues_child] ends with the parent), and
      pages that are copied physically ([CopyPagePhysical]) are events.
    - Privilege and the interrupt flag ([mode_of]) and the rights of pages decide in
      [System.v] what happens in the loop.  Not modelled: that the processor
      takes the stack of the handlers from the task state segment, that it fetches the
      program and its stack through the tables, and a scancode or a tick that stays pending
      while interrupts are off.
    - Interrupts arrive between the calls that the loop makes ([System.point]),
      not inside them.  For keyboard_getchar and keys [KeyboardRace.v] shows that
      this loses nothing, and for other tasks that read the buffer that it does;
      what a switch inside monitor_put does is not modelled, nor is a tick during the start.
    - [read_eip] returns twice: the functions that call it are split there.
      [LeftInEax] and the parameter [stack] of [Main.v] stand for values that C
      leaves indeterminate.
    - The start is proved for machines as [can_boot] says; the comment of
      [kernel_boots] lists what that is.  The result that a system call leaves in eax is a
      parameter.
    - The heap's theorems keep to what the code survives.  free of the last block, which
      contracts the heap, is specified when the hole begins at least 20 bytes in front
      of the minimum; growth when the endmost hole is at the end and the end is a page
      boundary; free when the footer of a hole on its left is right.  [GrowSample],
      [ReleaseSample] and [ShrinkSample] show what happens otherwise.
    - Not modelled: the assembly files (their effects are events and
      parameters); sys/elf.c and include/elf.h, which are not in the Makefile
      and do not compile, so that there is no behaviour to be faithful to;
      DEFN_SYSCALL2 and DEFN_SYSCALL5, which are unused and malformed. *)

From Stdlib Require Import ZArith Lia List String Ascii.
From stdpp Require Import base list gmap.

Declare Scope fotix_scope.
Delimit Scope fotix_scope with fotix.
#[global] Open Scope Z_scope.
#[global] Open Scope fotix_scope.

(** ** Machine integers

    [include/common.h] fixes the widths: [u32int], [s32int], [u16int], [u8int]
    and [s8int] ([char] is signed for the i686 target).  A value of such a type
    is the integer it denotes; every arithmetic result is wrapped with one of
    the functions below. *)

Definition u8 (z : Z) : Z := z mod 256.
Definition u16 (z : Z) : Z := z mod 65536.
Definition u32 (z : Z) : Z := z mod 4294967296.
Definition s8 (z : Z) : Z := (z + 128) mod 256 - 128.
Definition s32 (z : Z) : Z := (z + 2147483648) mod 4294967296 - 2147483648.

(** The truth value of a C condition on an integer. *)
Definition truth (z : Z) : bool := negb (z =? 0).

Lemma u8_range z : 0 <= u8 z < 256.
Proof. apply Z.mod_pos_bound; lia. Qed.
Lemma u16_range z : 0 <= u16 z < 65536.
Proof. apply Z.mod_pos_bound; lia. Qed.
Lemma u32_range z : 0 <= u32 z < 4294967296.
Proof. apply Z.mod_pos_bound; lia. Qed.
Lemma u8_id z : 0 <= z < 256 -> u8 z = z.
Proof. apply Z.mod_small. Qed.
Lemma u16_id z : 0 <= z < 65536 -> u16 z = z.
Proof. apply Z.mod_small. Qed.
Lemma u32_id z : 0 <= z < 4294967296 -> u32 z = z.
Proof. apply Z.mod_small. Qed.
Lemma s8_range z : -128 <= s8 z < 128.
Proof. unfold s8. pose proof (Z.mod_pos_bound (z + 128) 256). lia. Qed.
Lemma s32_range z : -2147483648 <= s32 z < 2147483648.
Proof. unfold s32. pose proof (Z.mod_pos_bound (z + 2147483648) 4294967296). lia. Qed.
Lemma s8_id z : -128 <= z < 128 -> s8 z = z.
Proof. intros. unfold s8. rewrite Z.mod_small; lia. Qed.
Lemma s32_id z : -2147483648 <= z < 2147483648 -> s32 z = z.
Proof. intros. unfold s32. rewrite Z.mod_small; lia. Qed.

Create HintDb wrap.
#[export] Hint Resolve u8_range u16_range u32_range : wrap.

(** [wrap_id] removes the wrap-arounds that the hypotheses show to be no-ops. *)
Ltac wrap_id :=
  repeat match goal with
  | |- context [u8 ?z] => rewrite (u8_id z) by lia
  | |- context [u16 ?z] => rewrite (u16_id z) by lia
  | |- context [u32 ?z] => rewrite (u32_id z) by lia
  | |- context [s8 ?z] => rewrite (s8_id z) by lia
  | |- context [s32 ?z] => rewrite (s32_id z) by lia
  end.

(** Splitting boolean comparisons of integers into propositions. *)
Ltac bool_hyps :=
  repeat match goal with
  | H : (_ && _)%bool = true |- _ => apply andb_prop in H as [? ?]
  | H : (_ <? _) = true |- _ => apply Z.ltb_lt in H
  | H : (_ <? _) = false |- _ => apply Z.ltb_ge in H
  | H : (_ <=? _) = true |- _ => apply Z.leb_le in H
  | H : (_ <=? _) = false |- _ => apply Z.leb_gt in H
  | H : (_ =? _) = true |- _ => apply Z.eqb_eq in H
  | H : (_ =? _) = false |- _ => apply Z.eqb_neq in H
  end.

(** Boolean comparisons that arithmetic decides, [Z.of_nat] included. *)
Ltac blia :=
  try match goal with |- true = _ => symmetry | |- false = _ => symmetry end;
  rewrite ?andb_true_iff, ?andb_false_iff, ?orb_true_iff, ?orb_false_iff,
    ?Z.ltb_lt, ?Z.leb_le, ?Z.ltb_ge, ?Z.leb_gt, ?Z.eqb_eq, ?Z.eqb_neq; lia.

(** Two boolean comparisons that hold together. *)
Ltac bool_eq_lia :=
  apply Bool.eq_iff_eq_true; rewrite ?Z.ltb_lt, ?Z.leb_le, ?Z.eqb_eq; lia.

(** Linear arithmetic with division and remainder by constants. *)
Ltac dlia := Z.div_mod_to_equations; lia.

(** Case analysis on the condition of the conditional in the goal. *)
Ltac case_if :=
  match goal with
  | |- context [if ?b then _ else _] =>
      lazymatch b with
      | context [if _ then _ else _] => fail
      | _ => destruct b eqn:?; bool_hyps
      end
  end.

(** The bytes of a string literal, without its terminator. *)
Definition str (s : string) : list Z := Z.of_nat <$> (nat_of_ascii <$> list_ascii_of_string s).

(** ** Bit operations *)

(** Equality of integers by their bits. *)
Ltac bits_ext :=
  apply Z.bits_inj'; let n := fresh "n" in let Hn := fresh "Hn" in intros n Hn.

Lemma testbit_high z w n : 0 <= z < 2 ^ w -> 0 <= w <= n -> Z.testbit z n = false.
Proof.
  intros Hz Hw. rewrite <- (Z.mod_small z (2 ^ w)) by done.
  apply Z.mod_pow2_bits_high. lia.
Qed.

Lemma lor_disjoint a b k :
  0 <= k -> 0 <= a < 2 ^ k -> Z.lor a (b * 2 ^ k) = a + b * 2 ^ k.
Proof.
  intros Hk Ha. rewrite <- Z.lxor_lor, <- Z.add_nocarry_lxor; [done| |].
  all: bits_ext; rewrite Z.land_spec, Z.bits_0;
    destruct (decide (n < k));
    [ rewrite Z.mul_pow2_bits_low, andb_false_r by lia; done
    | rewrite (testbit_high a k) by lia; done ].
Qed.

Lemma land_high_mask z k w :
  0 <= k <= w -> 0 <= z < 2 ^ w ->
  Z.land z (2 ^ w - 2 ^ k) = z - z mod 2 ^ k.
Proof.
  intros Hk Hz.
  assert (Hm : z - z mod 2 ^ k = Z.shiftl (Z.shiftr z k) k).
  { rewrite Z.shiftl_mul_pow2, Z.shiftr_div_pow2 by lia.
    pose proof (Z.div_mod z (2 ^ k)). lia. }
  assert (Hd : 2 ^ w - 2 ^ k = Z.shiftl (Z.ones (w - k)) k).
  { rewrite Z.shiftl_mul_pow2, Z.ones_equiv by lia.
    unfold Z.pred. rewrite Z.mul_add_distr_r, <- Z.pow_add_r by lia.
    replace (w - k + k) with w by lia. lia. }
  rewrite Hm, Hd. bits_ext.
  rewrite Z.land_spec, !Z.shiftl_spec by lia.
  destruct (decide (n < k)).
  { rewrite !(Z.testbit_neg_r _ (n - k)) by lia. apply andb_false_r. }
  rewrite Z.shiftr_spec by lia. replace (n - k + k) with n by lia.
  destruct (decide (n < w)).
  - rewrite Z.ones_spec_low by lia. apply andb_true_r.
  - rewrite (testbit_high z w) by lia. done.
Qed.

Lemma truth_bit z i : 0 <= i -> truth (Z.land z (Z.shiftl 1 i)) = Z.testbit z i.
Proof.
  intros Hi. unfold truth. rewrite Z.shiftl_1_l.
  destruct (Z.testbit z i) eqn:E.
  - destruct (Z.land z (2 ^ i) =? 0) eqn:E'; bool_hyps; [|done].
    assert (Z.testbit (Z.land z (2 ^ i)) i = true) as H.
    { by rewrite Z.land_spec, E, Z.pow2_bits_true by done. }
    rewrite E', Z.bits_0 in H. done.
  - replace (Z.land z (2 ^ i)) with 0; [done|]. bits_ext.
    rewrite Z.bits_0, Z.land_spec. destruct (decide (n = i)) as [->|].
    + by rewrite E.
    + by rewrite Z.pow2_bits_false, andb_false_r by done.
Qed.

(** An integer without bits above the 32nd is a 32-bit integer. *)
Lemma u32_bits z : (forall i, 32 <= i -> Z.testbit z i = false) -> 0 <= z < 4294967296.
Proof.
  intros H. replace z with (u32 z); [apply u32_range|].
  unfold u32. change 4294967296 with (2 ^ 32). bits_ext. destruct (decide (n < 32)).
  - by rewrite Z.mod_pow2_bits_low.
  - by rewrite Z.mod_pow2_bits_high, H by lia.
Qed.

Lemma lor_range a b : 0 <= a < 4294967296 -> 0 <= b < 4294967296 -> 0 <= Z.lor a b < 4294967296.
Proof.
  intros. apply u32_bits. intros i Hi. by rewrite Z.lor_spec, !(testbit_high _ 32) by lia.
Qed.

Lemma land_range a b : 0 <= a < 4294967296 -> 0 <= Z.land a b < 4294967296.
Proof.
  intros. apply u32_bits. intros i Hi. by rewrite Z.land_spec, (testbit_high a 32) by lia.
Qed.

Lemma u32_bit w i : 0 <= i < 32 -> Z.testbit (u32 w) i = Z.testbit w i.
Proof. intros. unfold u32. change 4294967296 with (2 ^ 32). rewrite Z.mod_pow2_bits_low by lia. done. Qed.

(** ** A state monad with the outcomes a C function can have

    - [Ok a s]: it returns [a] in state [s];
    - [Halted s]: the processor was stopped by [panic] or [panic_assert];
    - [Undefined]: the C standard gives the execution no meaning (an
      indeterminate value is used, an array is accessed out of bounds);
    - [Diverged]: the loop bound below was exhausted. *)

Inductive result (S A : Type) : Type :=
  | Ok (a : A) (s : S)
  | Halted (s : S)
  | Undefined
  | Diverged.
Arguments Ok {S A} _ _.
Arguments Halted {S A} _.
Arguments Undefined {S A}.
Arguments Diverged {S A}.

Section Monad.
Context {S : Type}.

Definition M (A : Type) : Type := S -> result S A.

Definition ret {A} (a : A) : M A := fun s => Ok a s.
Definition bind {A B} (c : M A) (k : A -> M B) : M B :=
  fun s => match c s with
           | Ok a s' => k a s'
           | Halted s' => Halted s'
           | Undefined => Undefined
           | Diverged => Diverged
           end.
Definition halt {A} : M A := fun s => Halted s.
Definition undefined {A} : M A := fun _ => Undefined.
Definition diverge {A} : M A := fun _ => Diverged.
Definition gets {A} (f : S -> A) : M A := fun s => Ok (f s) s.
Definition modify (f : S -> S) : M unit := fun s => Ok tt (f s).
Definition when (b : bool) (c : M unit) : M unit := if b then c else ret tt.

(** Up to [p] rounds of a loop body; [inr] leaves the loop. *)
Fixpoint rounds {X R} (p : positive) (body : X -> M (X + R)) (x : X) : M (X + R) :=
  match p with
  | xH => body x
  | xO q => bind (rounds q body x) (fun y =>
              match y with inl x' => rounds q body x' | inr r => ret (inr r) end)
  | xI q => bind (body x) (fun y0 =>
              match y0 with
              | inr r => ret (inr r)
              | inl x0 => bind (rounds q body x0) (fun y =>
                  match y with inl x' => rounds q body x' | inr r => ret (inr r) end)
              end)
  end.

(** Every loop of the kernel is driven by 32-bit counters, so one that runs
    for [2 ^ 40] rounds has repeated a counter value and never ends. *)
Definition max_rounds : positive := (2 ^ 40)%positive.

Definition loop {X R} (body : X -> M (X + R)) (x : X) : M R :=
  bind (rounds max_rounds body x) (fun y =>
    match y with inl _ => diverge | inr r => ret r end).

Definition while {X} (cond : X -> M bool) (body : X -> M X) : X -> M X :=
  loop (fun x => bind (cond x) (fun b =>
          if b then bind (body x) (fun x' => ret (inl x')) else ret (inr x))).
End Monad.
Arguments M : clear implicits.

Notation "x <- c ; k" := (bind c (fun x => k))
  (at level 100, c at next level, k at level 200, right associativity) : fotix_scope.
Notation "c >> k" := (bind c (fun _ => k))
  (at level 100, k at level 200, right associativity) : fotix_scope.

(** ** Total-correctness weakest preconditions

    [wp c Q s]: run from [s], [c] returns normally, and [Q] holds of its result
    and final state.  A computation that halts, is undefined or diverges
    satisfies no postcondition. *)

Section Wp.
Context {S : Type}.

Definition wp {A} (c : M S A) (Q : A -> S -> Prop) (s : S) : Prop :=
  match c s with Ok a s' => Q a s' | _ => False end.

(** [halts c Q s]: run from [s], [c] stops the processor in a state in [Q]. *)
Definition halts {A} (c : M S A) (Q : S -> Prop) (s : S) : Prop :=
  match c s with Halted s' => Q s' | _ => False end.

Lemma wp_ret {A} (a : A) (Q : A -> S -> Prop) s : Q a s -> wp (ret a) Q s.
Proof. done. Qed.

Lemma wp_bind {A B} (c : M S A) (k : A -> M S B) Q s :
  wp c (fun a s' => wp (k a) Q s') s -> wp (bind c k) Q s.
Proof. unfold wp, bind. destruct (c s); done. Qed.

Lemma wp_bind_inv {A B} (c : M S A) (k : A -> M S B) Q s :
  wp (bind c k) Q s -> wp c (fun a s' => wp (k a) Q s') s.
Proof. unfold wp, bind. destruct (c s); done. Qed.

Lemma halts_bind {A B} (c : M S A) (k : A -> M S B) Q s :
  wp c (fun a s' => halts (k a) Q s') s -> halts (bind c k) Q s.
Proof. unfold wp, halts, bind. destruct (c s); done. Qed.

Lemma halts_bind_now {A B} (c : M S A) (k : A -> M S B) Q s :
  halts c Q s -> halts (bind c k) Q s.
Proof. unfold halts, bind. destruct (c s); done. Qed.

Lemma wp_mono {A} (c : M S A) (Q Q' : A -> S -> Prop) s :
  wp c Q s -> (forall a s', Q a s' -> Q' a s') -> wp c Q' s.
Proof. unfold wp. destruct (c s); auto. Qed.

Lemma halts_mono {A} (c : M S A) (Q Q' : S -> Prop) s :
  halts c Q s -> (forall s', Q s' -> Q' s') -> halts c Q' s.
Proof. unfold halts. destruct (c s); auto. Qed.

Lemma wp_and {A} (c : M S A) (Q Q' : A -> S -> Prop) s :
  wp c Q s -> wp c Q' s -> wp c (fun a s' => Q a s' /\ Q' a s') s.
Proof. unfold wp. destruct (c s); auto. Qed.

Lemma wp_result {A} (c : M S A) (Q : A -> S -> Prop) s a s' : c s = Ok a s' -> wp c Q s -> Q a s'.
Proof. unfold wp. by intros ->. Qed.

Lemma wp_gets {A} (f : S -> A) (Q : A -> S -> Prop) s : Q (f s) s -> wp (gets f) Q s.
Proof. done. Qed.

Lemma wp_modify (f : S -> S) (Q : unit -> S -> Prop) s : Q tt (f s) -> wp (modify f) Q s.
Proof. done. Qed.

Lemma wp_eq {A} (c : M S A) s a s' :
  wp c (fun r t => r = a /\ t = s') s <-> c s = Ok a s'.
Proof.
  unfold wp. destruct (c s) as [r t| | |]; [|by split; intros ?..].
  split; [intros [-> ->]; done|by intros [= -> ->]].
Qed.

Lemma wp_ok {A} (c : M S A) (Q : A -> S -> Prop) s :
  wp c Q s <-> exists a s', c s = Ok a s' /\ Q a s'.
Proof.
  unfold wp. destruct (c s) as [r t| | |]; split.
  all: try (by intros (? & ? & ? & ?)); try done.
  - intros. by exists r, t.
  - by intros (? & ? & [= <- <-] & ?).
Qed.

(** The loop rule: an invariant, and a measure that decreases at each round
    and starts below the bound of [loop]. *)
Section LoopRule.
Context {X R : Type} (body : X -> M S (X + R)).
Context (I : X -> S -> Prop) (m : X -> S -> Z) (Q : R -> S -> Prop).
Hypothesis m_pos : forall x s, I x s -> 0 <= m x s.
Hypothesis step : forall x s, I x s ->
  wp (body x) (fun y s' => match y with
                           | inl x' => I x' s' /\ m x' s' < m x s
                           | inr r => Q r s'
                           end) s.

Lemma wp_rounds p x s :
  I x s ->
  wp (rounds p body x) (fun y s' => match y with
                          | inl x' => I x' s' /\ m x' s' <= m x s - Z.pos p
                          | inr r => Q r s'
                          end) s.
Proof using step.
  revert x s. induction p as [q IH|q IH|]; intros x s HI; cbn [rounds].
  - apply wp_bind. eapply wp_mono; [by apply step|].
    intros [x0|r] s0; [intros [HI0 Hm0]|done].
    apply wp_bind. eapply wp_mono; [by apply IH|].
    intros [x1|r] s1; [intros [HI1 Hm1]|done].
    eapply wp_mono; [by apply IH|].
    intros [x2|r] s2; [intros [HI2 Hm2]|done]. split; [done|lia].
  - apply wp_bind. eapply wp_mono; [by apply IH|].
    intros [x1|r] s1; [intros [HI1 Hm1]|done].
    eapply wp_mono; [by apply IH|].
    intros [x2|r] s2; [intros [HI2 Hm2]|done]. split; [done|lia].
  - eapply wp_mono; [by apply step|].
    intros [x1|r] s1; [intros [HI1 Hm1]|done]. split; [done|lia].
Qed.

Lemma wp_loop x s :
  I x s -> m x s < 2 ^ 40 -> wp (loop body x) Q s.
Proof using step m_pos.
  intros HI Hm. apply wp_bind. eapply wp_mono; [by apply wp_rounds|].
  intros [x1|r] s1; [intros [HI1 Hm1]|done].
  pose proof (m_pos _ _ HI1).
  assert (Z.pos max_rounds = 2 ^ 40) by reflexivity. lia.
Qed.
End LoopRule.

Lemma wp_while {X} (cond : X -> M S bool) (body : X -> M S X)
    (I : X -> S -> Prop) (m : X -> S -> Z) (Q : X -> S -> Prop) x s :
  (forall x s, I x s -> 0 <= m x s) ->
  (forall x s, I x s ->
     wp (cond x) (fun b s1 =>
       if b : bool
       then wp (body x) (fun x' s' => I x' s' /\ m x' s' < m x s) s1
       else Q x s1) s) ->
  I x s -> m x s < 2 ^ 40 -> wp (while cond body x) Q s.
Proof.
  intros Hpos Hstep HI Hm. apply (wp_loop _ I m); [done| |done|done].
  intros y t Hy. apply wp_bind. eapply wp_mono; [by apply Hstep|].
  intros [] t1 H; [|done]. apply wp_bind. eapply wp_mono; [exact H|].
  intros y' t' [??]. apply wp_ret. done.
Qed.
End Wp.

(** One step of symbolic execution. *)
Ltac wp_step :=
  lazymatch goal with
  | |- wp (bind _ _) _ _ => apply wp_bind
  | |- wp (ret _) _ _ => apply wp_ret
  | |- wp (gets _) _ _ => apply wp_gets
  | |- wp (modify _) _ _ => apply wp_modify
  end; cbv beta.
Ltac wp_steps := repeat wp_step.
