(* ===== verification/Machine.v ===== *)
(** * The machine the kernel runs on

    Linear memory as a little-endian byte store, the input/output trace, and
    the record of every global variable of the kernel's C files. *)

From Stdlib Require Import ZArith Lia List.
From stdpp Require Import base list gmap.
From S2P Require Import Prelude.

(** ** Memory

    A 32-bit linear address space of bytes.  Absent keys hold 0 and no key maps
    to 0, so two memories with the same bytes are equal.  Addresses wrap at
    [2 ^ 32] as the processor's do. *)

Abbreviation memory := (gmap Z Z).

Definition load8 (m : memory) (a : Z) : Z := u8 (default 0 (m !! u32 a)).
Definition store8 (m : memory) (a v : Z) : memory :=
  if u8 v =? 0 then delete (u32 a) m else <[u32 a := u8 v]> m.

Definition load16 (m : memory) (a : Z) : Z := load8 m a + 256 * load8 m (a + 1).
Definition store16 (m : memory) (a v : Z) : memory :=
  store8 (store8 m a v) (a + 1) (v / 256).

Definition load32 (m : memory) (a : Z) : Z :=
  load8 m a + 256 * load8 m (a + 1) + 65536 * load8 m (a + 2) + 16777216 * load8 m (a + 3).
Definition store32 (m : memory) (a v : Z) : memory :=
  store8 (store8 (store8 (store8 m a v) (a + 1) (v / 256)) (a + 2) (v / 65536))
    (a + 3) (v / 16777216).

(** [n] bytes (resp. [n] 32-bit words, [n] 16-bit words) from address [a]. *)
Definition bytes (m : memory) (a : Z) (n : nat) : list Z :=
  (fun i : nat => load8 m (a + Z.of_nat i)) <$> seq 0 n.
Definition words (m : memory) (a : Z) (n : nat) : list Z :=
  (fun i : nat => load32 m (a + 4 * Z.of_nat i)) <$> seq 0 n.
Definition halves (m : memory) (a : Z) (n : nat) : list Z :=
  (fun i : nat => load16 m (a + 2 * Z.of_nat i)) <$> seq 0 n.

(** [lo, hi) is a range of addresses that does not wrap. *)
Definition region (lo hi : Z) : Prop := 0 <= lo < 4294967296 /\ lo <= hi <= 4294967296.

(** [m'] differs from [m] only inside [lo, hi). *)
Definition same_outside (lo hi : Z) (m m' : memory) : Prop :=
  forall b, 0 <= b < 4294967296 -> ~ (lo <= b < hi) -> load8 m' b = load8 m b.

Lemma load8_range m a : 0 <= load8 m a < 256.
Proof. apply u8_range. Qed.
Lemma load16_range m a : 0 <= load16 m a < 65536.
Proof. unfold load16. pose proof (load8_range m a). pose proof (load8_range m (a + 1)). lia. Qed.
Lemma load32_range m a : 0 <= load32 m a < 4294967296.
Proof.
  unfold load32. pose proof (load8_range m a). pose proof (load8_range m (a + 1)).
  pose proof (load8_range m (a + 2)). pose proof (load8_range m (a + 3)). lia.
Qed.
#[export] Hint Resolve load8_range load16_range load32_range : wrap.

Lemma load8_store8 m a v b :
  load8 (store8 m a v) b = if decide (u32 a = u32 b) then u8 v else load8 m b.
Proof.
  unfold load8, store8. destruct (u8 v =? 0) eqn:E.
  - apply Z.eqb_eq in E. rewrite lookup_delete. case_decide; [by rewrite E|done].
  - rewrite lookup_insert. case_decide; [|done]. apply u8_id, u8_range.
Qed.

Lemma load8_store8_eq m a v : load8 (store8 m a v) a = u8 v.
Proof. rewrite load8_store8. by rewrite decide_True. Qed.

Lemma load8_store8_ne m a v b :
  0 <= a < 4294967296 -> 0 <= b < 4294967296 -> a <> b ->
  load8 (store8 m a v) b = load8 m b.
Proof. intros. rewrite load8_store8, decide_False; [done|]. by rewrite !u32_id. Qed.

Lemma same_outside_refl lo hi m : same_outside lo hi m m.
Proof. done. Qed.

Lemma same_outside_trans lo hi m1 m2 m3 :
  same_outside lo hi m1 m2 -> same_outside lo hi m2 m3 -> same_outside lo hi m1 m3.
Proof. intros H1 H2 b Hb Hn. by rewrite H2, H1. Qed.

Lemma same_outside_weaken lo hi lo' hi' m m' :
  lo' <= lo -> hi <= hi' -> same_outside lo hi m m' -> same_outside lo' hi' m m'.
Proof. intros ?? H b Hb Hn. apply H; [done|lia]. Qed.

Lemma store8_outside m a v :
  0 <= a < 4294967296 -> same_outside a (a + 1) m (store8 m a v).
Proof. intros Ha b Hb Hn. apply load8_store8_ne; lia. Qed.

Lemma store16_outside m a v :
  region a (a + 2) -> same_outside a (a + 2) m (store16 m a v).
Proof.
  intros [??] b Hb Hn. unfold store16. by rewrite !load8_store8_ne by lia.
Qed.

Lemma store32_outside m a v :
  region a (a + 4) -> same_outside a (a + 4) m (store32 m a v).
Proof.
  intros [??] b Hb Hn. unfold store32. by rewrite !load8_store8_ne by lia.
Qed.
#[export] Hint Resolve same_outside_refl store8_outside store16_outside store32_outside : wrap.

Section Frame.
Context (lo hi : Z) (m m' : memory) (H : same_outside lo hi m m').

Lemma load8_frame b :
  0 <= b < 4294967296 -> (b < lo \/ hi <= b) -> load8 m' b = load8 m b.
Proof using H. intros. apply H; lia. Qed.

Lemma load16_frame b :
  region b (b + 2) -> (b + 2 <= lo \/ hi <= b) -> load16 m' b = load16 m b.
Proof using H. intros [??] ?. unfold load16. rewrite !H by lia. done. Qed.

Lemma load32_frame b :
  region b (b + 4) -> (b + 4 <= lo \/ hi <= b) -> load32 m' b = load32 m b.
Proof using H. intros [??] ?. unfold load32. rewrite !H by lia. done. Qed.

Lemma bytes_frame a n :
  region a (a + Z.of_nat n) -> (a + Z.of_nat n <= lo \/ hi <= a) ->
  bytes m' a n = bytes m a n.
Proof using H.
  intros [??] ?. apply list_fmap_ext. intros i x [-> ?]%lookup_seq. apply H; lia.
Qed.

Lemma words_frame a n :
  region a (a + 4 * Z.of_nat n) -> (a + 4 * Z.of_nat n <= lo \/ hi <= a) ->
  words m' a n = words m a n.
Proof using H.
  intros [??] ?. apply list_fmap_ext. intros i x [-> ?]%lookup_seq.
  apply load32_frame; unfold region; lia.
Qed.
End Frame.

Lemma u8_div_sum v :
  u8 v + 256 * u8 (v / 256) + 65536 * u8 (v / 65536) + 16777216 * u8 (v / 16777216) = u32 v.
Proof.
  unfold u8, u32.
  replace (v / 65536) with (v / 256 / 256) by (by rewrite Z.div_div by lia).
  replace (v / 16777216) with (v / 256 / 256 / 256) by (by rewrite !Z.div_div by lia).
  change 4294967296 with (256 * (256 * (256 * 256))).
  rewrite !Z.rem_mul_r by lia. lia.
Qed.

Lemma load32_store32_eq m a v :
  region a (a + 4) -> load32 (store32 m a v) a = u32 v.
Proof.
  intros [??]. unfold load32, store32.
  rewrite load8_store8_eq.
  rewrite (load8_store8_ne _ (a + 3) _ (a + 2)), load8_store8_eq by lia.
  rewrite !(load8_store8_ne _ _ _ (a + 1)), load8_store8_eq by lia.
  rewrite !(load8_store8_ne _ _ _ a), load8_store8_eq by lia.
  apply u8_div_sum.
Qed.

Lemma load16_store16_eq m a v :
  region a (a + 2) -> load16 (store16 m a v) a = u16 v.
Proof.
  intros [??]. unfold load16, store16.
  rewrite load8_store8_eq, load8_store8_ne, load8_store8_eq by lia.
  unfold u8, u16. change 65536 with (256 * 256). rewrite Z.rem_mul_r; lia.
Qed.

Lemma load32_store32_ne m a v b :
  region a (a + 4) -> region b (b + 4) -> (b + 4 <= a \/ a + 4 <= b) ->
  load32 (store32 m a v) b = load32 m b.
Proof. intros. eapply load32_frame; [by apply store32_outside|done|lia]. Qed.

Lemma load16_store16_ne m a v b :
  region a (a + 2) -> region b (b + 2) -> (b + 2 <= a \/ a + 2 <= b) ->
  load16 (store16 m a v) b = load16 m b.
Proof. intros. eapply load16_frame; [by apply store16_outside|done|lia]. Qed.

Lemma load32_store8_ne m a v b :
  0 <= a < 4294967296 -> region b (b + 4) -> (b + 4 <= a \/ a < b) ->
  load32 (store8 m a v) b = load32 m b.
Proof. intros. eapply load32_frame; [by apply store8_outside|done|lia]. Qed.

Lemma load8_store32_ne m a v b :
  region a (a + 4) -> 0 <= b < 4294967296 -> (b < a \/ a + 4 <= b) ->
  load8 (store32 m a v) b = load8 m b.
Proof. intros. eapply load8_frame; [by apply store32_outside|done|lia]. Qed.

(** Reading through stores to the same or to other addresses. *)
Ltac read_stores :=
  repeat first
    [ rewrite load8_store8_eq
    | rewrite load8_store8_ne by lia
    | rewrite load32_store32_eq by (unfold region; lia)
    | rewrite load32_store32_ne by (unfold region; lia)
    | rewrite load32_store8_ne by (unfold region; lia)
    | rewrite load8_store32_ne by (unfold region; lia) ].

(** *** Lists of cells *)

Lemma length_bytes m a n : length (bytes m a n) = n.
Proof. unfold bytes. by rewrite length_fmap, length_seq. Qed.
Lemma length_words m a n : length (words m a n) = n.
Proof. unfold words. by rewrite length_fmap, length_seq. Qed.
Lemma length_halves m a n : length (halves m a n) = n.
Proof. unfold halves. by rewrite length_fmap, length_seq. Qed.

Lemma lookup_bytes m a n (i : nat) :
  (i < n)%nat -> bytes m a n !! i = Some (load8 m (a + Z.of_nat i)).
Proof. intros. unfold bytes. rewrite list_lookup_fmap, lookup_seq_lt by done. done. Qed.
Lemma lookup_words m a n (i : nat) :
  (i < n)%nat -> words m a n !! i = Some (load32 m (a + 4 * Z.of_nat i)).
Proof. intros. unfold words. rewrite list_lookup_fmap, lookup_seq_lt by done. done. Qed.
Lemma lookup_halves m a n (i : nat) :
  (i < n)%nat -> halves m a n !! i = Some (load16 m (a + 2 * Z.of_nat i)).
Proof. intros. unfold halves. rewrite list_lookup_fmap, lookup_seq_lt by done. done. Qed.

(** A list of cells is determined by its length and its elements. *)
Lemma list_eq_lookup_total {A} (l1 l2 : list A) n :
  length l1 = n -> length l2 = n ->
  (forall (i : nat) x, (i < n)%nat -> l2 !! i = Some x -> l1 !! i = Some x) -> l1 = l2.
Proof.
  intros H1 H2 H. apply (list_eq_same_length _ _ n); [done|done|].
  intros i x y Hi Hx Hy. rewrite (H i y) in Hx by done. congruence.
Qed.

Lemma bytes_ext m a m' b n :
  (forall i, 0 <= i < Z.of_nat n -> load8 m (a + i) = load8 m' (b + i)) ->
  bytes m a n = bytes m' b n.
Proof.
  intros H. apply list_fmap_ext. intros i x [-> ?]%lookup_seq. simpl. apply H. lia.
Qed.

Lemma words_ext m a m' b n :
  (forall i, 0 <= i < Z.of_nat n -> load32 m (a + 4 * i) = load32 m' (b + 4 * i)) ->
  words m a n = words m' b n.
Proof.
  intros H. apply list_fmap_ext. intros i x [-> ?]%lookup_seq. simpl. apply H. lia.
Qed.

Lemma bytes_replicate m a n v :
  (forall i, 0 <= i < Z.of_nat n -> load8 m (a + i) = v) -> bytes m a n = replicate n v.
Proof.
  intros H. apply (list_eq_lookup_total _ _ n); [apply length_bytes|apply length_replicate|].
  intros i x Hi Hx. rewrite lookup_bytes by done. apply lookup_replicate in Hx as [-> _].
  by rewrite H by lia.
Qed.

(** *** Arrays of words

    [array_at m a l]: the words of [l] are stored from address [a]. *)

Definition array_at (m : memory) (a : Z) (l : list Z) : Prop :=
  forall i x, l !! i = Some x -> load32 m (a + 4 * Z.of_nat i) = x.

(** [m'] agrees with [m] on the addresses in [P]. *)
Definition same_on (P : Z -> Prop) (m m' : memory) : Prop :=
  forall b, 0 <= b < 4294967296 -> P b -> load8 m' b = load8 m b.

Lemma same_on_refl P m : same_on P m m.
Proof. done. Qed.
Lemma same_on_trans P m1 m2 m3 : same_on P m1 m2 -> same_on P m2 m3 -> same_on P m1 m3.
Proof. intros H1 H2 b ??. by rewrite H2, H1. Qed.
Lemma same_outside_on lo hi m m' (P : Z -> Prop) :
  same_outside lo hi m m' -> (forall b, P b -> ~ (lo <= b < hi)) -> same_on P m m'.
Proof. intros H HP b ??. by apply H, HP. Qed.

Lemma load32_same_on P m m' a :
  same_on P m m' -> region a (a + 4) -> (forall b, a <= b < a + 4 -> P b) ->
  load32 m' a = load32 m a.
Proof. intros H [??] HP. unfold load32. rewrite !H by (lia || apply HP; lia). done. Qed.

Lemma load32_word m a n i j v :
  region a (a + 4 * n) -> 0 <= i < n -> 0 <= j < n ->
  load32 (store32 m (a + 4 * i) v) (a + 4 * j) = if i =? j then u32 v else load32 m (a + 4 * j).
Proof.
  intros [??] ??. destruct (i =? j) eqn:E; bool_hyps.
  - subst. apply load32_store32_eq. unfold region. lia.
  - apply load32_store32_ne; unfold region; lia.
Qed.

Lemma array_at_lookup m a l i x :
  array_at m a l -> l !! i = Some x -> load32 m (a + 4 * Z.of_nat i) = x.
Proof. intros H. apply H. Qed.

Lemma array_at_range m a l i x : array_at m a l -> l !! i = Some x -> 0 <= x < 4294967296.
Proof. intros H Hi. rewrite <- (H _ _ Hi). apply load32_range. Qed.

Lemma array_at_words m a l : array_at m a l <-> words m a (length l) = l.
Proof.
  split; intros H.
  - apply (list_eq_lookup_total _ _ (length l)); [apply length_words|done|].
    intros i x Hi Hx. rewrite lookup_words by done. f_equal. by apply H.
  - intros i x Hx. pose proof (lookup_lt_Some _ _ _ Hx). rewrite <- H in Hx.
    rewrite lookup_words in Hx by done. congruence.
Qed.

Lemma array_at_same_on P m m' a l :
  array_at m a l -> same_on P m m' -> region a (a + 4 * Z.of_nat (length l)) ->
  (forall b, a <= b < a + 4 * Z.of_nat (length l) -> P b) -> array_at m' a l.
Proof.
  intros H Hs [??] HP i x Hx. pose proof (lookup_lt_Some _ _ _ Hx).
  rewrite <- (H _ _ Hx). eapply load32_same_on; [exact Hs|unfold region; lia|].
  intros b Hb. apply HP. lia.
Qed.
