(* ===== verification/Kernel.v ===== *)
(** * The state of the kernel

    The C types that several files share, the record of every global variable
    of [sys/*.c], and the primitive operations of the kernel monad: memory
    access through a pointer, port input and output, and access to globals. *)

From Stdlib Require Import ZArith Lia List.
From stdpp Require Import base list gmap.
From S2P Require Import Prelude Machine.

(** ** Types of [include/isr.h] *)

(** [registers_t]: the stack frame the assembly stubs build. *)
Record registers_t : Type := Registers {
  reg_ds : Z;
  reg_edi : Z; reg_esi : Z; reg_ebp : Z; reg_esp : Z;
  reg_ebx : Z; reg_edx : Z; reg_ecx : Z; reg_eax : Z;
  reg_int_no : Z; reg_err_code : Z;
  reg_eip : Z; reg_cs : Z; reg_eflags : Z; reg_useresp : Z; reg_ss : Z
}.

(** [isr_t] is a pointer to a handler; these are the functions the kernel
    registers. *)
Inductive isr_t : Type :=
  | ptr_timer_callback
  | ptr_keyboard_handler
  | ptr_page_fault
  | ptr_syscall_handler.

#[export] Instance isr_t_eq_dec : EqDecision isr_t.
Proof. solve_decision. Defined.

(** ** Types of [include/descriptor_tables.h] *)

Record gdt_entry_t : Type := GdtEntry {
  limit_low : Z; base_low : Z; base_middle : Z; access : Z; granularity : Z; base_high : Z
}.

(** [gdt_ptr_t] and [idt_ptr_t] have the same two members. *)
Record table_ptr_t : Type := TablePtr { ptr_limit : Z; ptr_base : Z }.

Record idt_entry_t : Type := IdtEntry {
  base_lo : Z; sel : Z; always_zero : Z; flags : Z; base_hi : Z
}.

(** The members of [tss_entry_t] the kernel writes after zeroing it. *)
Record tss_entry_t : Type := TssEntry {
  tss_esp0 : Z; tss_ss0 : Z; tss_es : Z; tss_cs : Z; tss_ss : Z; tss_ds : Z;
  tss_fs : Z; tss_gs : Z
}.

Definition zero_gdt_entry : gdt_entry_t := GdtEntry 0 0 0 0 0 0.
Definition zero_idt_entry : idt_entry_t := IdtEntry 0 0 0 0 0.
Definition zero_tss_entry : tss_entry_t := TssEntry 0 0 0 0 0 0 0 0.

(** ** Types of [include/keyboard.h] *)

Record keymap_t : Type := Keymap {
  scancodes : list Z; shift_scancodes : list Z; control_map : list Z; controls : Z
}.

(** ** What the hardware observes, newest event first *)

Inductive event : Type :=
  | Outb (port value : Z)
  | Cli
  | Sti
  | Hlt
  | Lgdt (ptr : table_ptr_t)
  | Lidt (ptr : table_ptr_t)
  | Ltr (selector : Z)
  | LoadCR3 (v : Z)
  | LoadCR0 (v : Z)
  | CopyPagePhysical (src dest : Z)
  | SwitchStack (esp ebp : Z)
  | JumpToTask (eip esp ebp cr3 : Z)
  | IretToUser (useresp : Z).

(** Whether the processor runs at the privilege of user mode, and its interrupt flag. *)
Record mode : Type := Mode { in_user : bool; if_set : bool }.

(** What the instructions in a trace make of it, from the mode in which the boot loader
    enters the kernel.  An interrupt leaves it as it was: the stubs of
    [interrupt.s] end in [iret], which restores both.  [JumpToTask] stands for
    the assembly at the end of [switch_task], which has a [sti] in front of its jump;
    the flags that [switch_to_user_mode] pushes for its [iret] are those of the moment. *)
Definition mode_after (e : event) (md : mode) : mode :=
  match e with
  | Cli => Mode (in_user md) false
  | Sti | JumpToTask _ _ _ _ => Mode (in_user md) true
  | IretToUser _ => Mode true (if_set md)
  | _ => md
  end.
Definition mode_of (tr : list event) : mode := foldr mode_after (Mode false false) tr.

(** The processor registers that the C code reads with inline assembly. *)
Record cpu_t : Type := Cpu { cpu_esp : Z; cpu_ebp : Z; cpu_cr0 : Z; cpu_cr2 : Z; cpu_cr3 : Z }.

(** ** The global variables, by C file *)

Record monitor_globals : Type := MonitorGlobals { cursor_x : Z; cursor_y : Z }.

Record keyboard_globals : Type := KeyboardGlobals {
  keymaps : gmap Z keymap_t;        (** the [keymap_t] objects, by address *)
  current_layout : Z;
  keyboard_buffer_start : Z;
  keyboard_buffer_end : Z;
  keyboard_buffer : list Z
}.

Record descriptor_globals : Type := DescriptorGlobals {
  gdt_entries : list gdt_entry_t;
  gdt_ptr : table_ptr_t;
  idt_entries : list idt_entry_t;
  idt_ptr : table_ptr_t;
  tss_entry : tss_entry_t
}.

Record heap_globals : Type := HeapGlobals { placement_address : Z; kheap : Z }.

Record paging_globals : Type := PagingGlobals {
  kernel_directory : Z; current_directory : Z; frames : Z; nframes : Z
}.

Record task_globals : Type := TaskGlobals {
  current_task : Z; ready_queue : Z; next_pid : Z
}.

Record fs_globals : Type := FsGlobals {
  fs_root : Z; initrd_header : Z; file_headers : Z; initrd_root : Z; initrd_dev : Z;
  root_nodes : Z; nroot_nodes : Z
}.

Record boot_globals : Type := BootGlobals { initial_esp : Z; failure : Z }.

Record kstate : Type := KState {
  mem : memory;
  trace : list event;
  port_in : Z -> Z;                 (** the byte each input port presents *)
  cpu : cpu_t;
  mon : monitor_globals;
  kbd : keyboard_globals;
  dt : descriptor_globals;
  interrupt_handlers : gmap Z isr_t; (** absent: a null pointer *)
  tick : Z;
  hp : heap_globals;
  pg : paging_globals;
  tk : task_globals;
  fs : fs_globals;
  boot : boot_globals
}.

Definition set_mem (m : memory) (s : kstate) : kstate :=
  KState m (trace s) (port_in s) (cpu s) (mon s) (kbd s) (dt s) (interrupt_handlers s)
    (tick s) (hp s) (pg s) (tk s) (fs s) (boot s).
Definition set_trace (t : list event) (s : kstate) : kstate :=
  KState (mem s) t (port_in s) (cpu s) (mon s) (kbd s) (dt s) (interrupt_handlers s)
    (tick s) (hp s) (pg s) (tk s) (fs s) (boot s).
Definition set_cpu (c : cpu_t) (s : kstate) : kstate :=
  KState (mem s) (trace s) (port_in s) c (mon s) (kbd s) (dt s) (interrupt_handlers s)
    (tick s) (hp s) (pg s) (tk s) (fs s) (boot s).
Definition set_mon (g : monitor_globals) (s : kstate) : kstate :=
  KState (mem s) (trace s) (port_in s) (cpu s) g (kbd s) (dt s) (interrupt_handlers s)
    (tick s) (hp s) (pg s) (tk s) (fs s) (boot s).
Definition set_kbd (g : keyboard_globals) (s : kstate) : kstate :=
  KState (mem s) (trace s) (port_in s) (cpu s) (mon s) g (dt s) (interrupt_handlers s)
    (tick s) (hp s) (pg s) (tk s) (fs s) (boot s).
Definition set_dt (g : descriptor_globals) (s : kstate) : kstate :=
  KState (mem s) (trace s) (port_in s) (cpu s) (mon s) (kbd s) g (interrupt_handlers s)
    (tick s) (hp s) (pg s) (tk s) (fs s) (boot s).
Definition set_handlers (h : gmap Z isr_t) (s : kstate) : kstate :=
  KState (mem s) (trace s) (port_in s) (cpu s) (mon s) (kbd s) (dt s) h
    (tick s) (hp s) (pg s) (tk s) (fs s) (boot s).
Definition set_tick (t : Z) (s : kstate) : kstate :=
  KState (mem s) (trace s) (port_in s) (cpu s) (mon s) (kbd s) (dt s) (interrupt_handlers s)
    t (hp s) (pg s) (tk s) (fs s) (boot s).
Definition set_hp (g : heap_globals) (s : kstate) : kstate :=
  KState (mem s) (trace s) (port_in s) (cpu s) (mon s) (kbd s) (dt s) (interrupt_handlers s)
    (tick s) g (pg s) (tk s) (fs s) (boot s).
Definition set_pg (g : paging_globals) (s : kstate) : kstate :=
  KState (mem s) (trace s) (port_in s) (cpu s) (mon s) (kbd s) (dt s) (interrupt_handlers s)
    (tick s) (hp s) g (tk s) (fs s) (boot s).
Definition set_tk (g : task_globals) (s : kstate) : kstate :=
  KState (mem s) (trace s) (port_in s) (cpu s) (mon s) (kbd s) (dt s) (interrupt_handlers s)
    (tick s) (hp s) (pg s) g (fs s) (boot s).
Definition set_fs (g : fs_globals) (s : kstate) : kstate :=
  KState (mem s) (trace s) (port_in s) (cpu s) (mon s) (kbd s) (dt s) (interrupt_handlers s)
    (tick s) (hp s) (pg s) (tk s) g (boot s).
Definition set_boot (g : boot_globals) (s : kstate) : kstate :=
  KState (mem s) (trace s) (port_in s) (cpu s) (mon s) (kbd s) (dt s) (interrupt_handlers s)
    (tick s) (hp s) (pg s) (tk s) (fs s) g.

(** Two updates of the same component: the later one wins. *)
Lemma set_mem_set_mem m m' s : set_mem m (set_mem m' s) = set_mem m s.
Proof. done. Qed.
Lemma set_mem_id s : set_mem (mem s) s = s.
Proof. by destruct s. Qed.
Create Rewrite HintDb kstate.
#[export] Hint Rewrite set_mem_set_mem set_mem_id : kstate.

(** ** Addresses the linker assigns

    Nothing below depends on their values beyond the hypotheses that each
    theorem names. *)

Class Linkage : Type := {
  sym_end : Z;
  sym_gdt_entries : Z;
  sym_idt_entries : Z;
  sym_tss_entry : Z;
  sym_us : Z;
  sym_dirent : Z;
  sym_keyboard_buffer : Z;
  sym_keyboard_buffer_start : Z;
  sym_keyboard_buffer_end : Z;
  sym_isr : Z -> Z;
  sym_irq : Z -> Z;
  sym_standard_lessthan_predicate : Z;
  sym_header_t_less_than : Z;
  sym_initrd_read : Z;
  sym_initrd_readdir : Z;
  sym_initrd_finddir : Z;
  eip_switch_task : Z;   (** where [read_eip] returns to in [switch_task] *)
  eip_fork : Z           (** where [read_eip] returns to in [fork] *)
}.

(** ** Primitive operations *)

Abbreviation K := (M kstate).

Definition ld8 (a : Z) : K Z := gets (fun s => load8 (mem s) a).
Definition ld16 (a : Z) : K Z := gets (fun s => load16 (mem s) a).
Definition ld32 (a : Z) : K Z := gets (fun s => load32 (mem s) a).
Definition st8 (a v : Z) : K unit := modify (fun s => set_mem (store8 (mem s) a v) s).
Definition st16 (a v : Z) : K unit := modify (fun s => set_mem (store16 (mem s) a v) s).
Definition st32 (a v : Z) : K unit := modify (fun s => set_mem (store32 (mem s) a v) s).
Definition emit (e : event) : K unit := modify (fun s => set_trace (e :: trace s) s).

(** [outb] and [inb] of [sys/common.c]. *)
Definition outb (port value : Z) : K unit := emit (Outb (u16 port) (u8 value)).
Definition inb (port : Z) : K Z := gets (fun s => u8 (port_in s (u16 port))).
Definition inw (port : Z) : K Z :=
  gets (fun s => u16 (u8 (port_in s (u16 port)) + 256 * u8 (port_in s (u16 (port + 1))))).

Lemma wp_ld8 a Q s : Q (load8 (mem s) a) s -> wp (ld8 a) Q s.
Proof. done. Qed.
Lemma wp_ld16 a Q s : Q (load16 (mem s) a) s -> wp (ld16 a) Q s.
Proof. done. Qed.
Lemma wp_ld32 a Q s : Q (load32 (mem s) a) s -> wp (ld32 a) Q s.
Proof. done. Qed.
Lemma wp_st8 a v (Q : unit -> kstate -> Prop) s :
  Q tt (set_mem (store8 (mem s) a v) s) -> wp (st8 a v) Q s.
Proof. done. Qed.
Lemma wp_st16 a v (Q : unit -> kstate -> Prop) s :
  Q tt (set_mem (store16 (mem s) a v) s) -> wp (st16 a v) Q s.
Proof. done. Qed.
Lemma wp_st32 a v (Q : unit -> kstate -> Prop) s :
  Q tt (set_mem (store32 (mem s) a v) s) -> wp (st32 a v) Q s.
Proof. done. Qed.
Lemma wp_outb p v (Q : unit -> kstate -> Prop) s :
  Q tt (set_trace (Outb (u16 p) (u8 v) :: trace s) s) -> wp (outb p v) Q s.
Proof. done. Qed.
Lemma wp_emit e (Q : unit -> kstate -> Prop) s :
  Q tt (set_trace (e :: trace s) s) -> wp (emit e) Q s.
Proof. done. Qed.

(** One step of symbolic execution, memory and ports included. *)
Ltac k_step :=
  lazymatch goal with
  | |- wp (ld8 _) _ _ => apply wp_ld8
  | |- wp (ld16 _) _ _ => apply wp_ld16
  | |- wp (ld32 _) _ _ => apply wp_ld32
  | |- wp (st8 _ _) _ _ => apply wp_st8
  | |- wp (st16 _ _) _ _ => apply wp_st16
  | |- wp (st32 _ _) _ _ => apply wp_st32
  | |- wp (outb _ _) _ _ => apply wp_outb
  | |- wp (emit _) _ _ => apply wp_emit
  | |- _ => wp_step
  end; cbv beta.
Ltac k_steps := repeat k_step.

(** A loop that changes nothing but memory: the invariant speaks of the loop's
    variables and the memory. *)
Lemma wp_mem_loop {X R} (body : X -> K (X + R)) (I : X -> memory -> Prop)
    (meas : X -> Z) (Q : R -> memory -> Prop) x s :
  (forall x m, I x m -> 0 <= meas x) ->
  (forall x m, I x m ->
     wp (body x) (fun y s' => exists m', s' = set_mem m' s /\
       match y with inl x' => I x' m' /\ meas x' < meas x | inr r => Q r m' end)
       (set_mem m s)) ->
  I x (mem s) -> meas x < 2 ^ 40 ->
  wp (loop body x) (fun r s' => exists m', s' = set_mem m' s /\ Q r m') s.
Proof.
  intros Hpos Hstep HI Hm.
  apply (wp_loop body (fun x t => exists m, t = set_mem m s /\ I x m) (fun x _ => meas x)).
  - intros y t (m & -> & H). by eapply Hpos.
  - intros y t (m & -> & H). eapply wp_mono; [by apply Hstep|].
    intros [y'|r] t' (m' & -> & Hm'); [|by eauto]. destruct Hm'; eauto.
  - exists (mem s). by rewrite set_mem_id.
  - done.
Qed.

Lemma wp_mem_while {X} (cond : X -> K bool) (body : X -> K X) (I : X -> memory -> Prop)
    (meas : X -> Z) (Q : X -> memory -> Prop) x s :
  (forall x m, I x m -> 0 <= meas x) ->
  (forall x m, I x m ->
     wp (cond x) (fun b t => t = set_mem m s /\
       if b : bool
       then wp (body x) (fun x' s' => exists m', s' = set_mem m' s /\
                           I x' m' /\ meas x' < meas x) (set_mem m s)
       else Q x m) (set_mem m s)) ->
  I x (mem s) -> meas x < 2 ^ 40 ->
  wp (while cond body x) (fun x s' => exists m', s' = set_mem m' s /\ Q x m') s.
Proof.
  intros Hpos Hstep HI Hm. apply (wp_mem_loop _ I meas); [done| |done|done].
  intros y m Hy. apply wp_bind. eapply wp_mono; [by apply Hstep|].
  intros [] t [-> H].
  - apply wp_bind. eapply wp_mono; [exact H|]. intros y' t' (m' & -> & ?).
    apply wp_ret. eauto.
  - apply wp_ret. eauto.
Qed.

(** *** Counted loops: [for (i = a; i < b; i += d)] *)

Definition for_range (a b d : Z) (body : Z -> K unit) : K unit :=
  while (fun i => ret (i <? b)) (fun i => body i >> ret (i + d)) a >> ret tt.

Lemma wp_for (I : Z -> kstate -> Prop) a b body s :
  (forall i t, a <= i < b -> I i t -> wp (body i) (fun _ t' => I (i + 1) t') t) ->
  I a s -> a <= b -> b - a < 2 ^ 40 ->
  wp (for_range a b 1 body) (fun _ t => I b t) s.
Proof.
  intros Hbody Ha Hab Hd. unfold for_range. apply wp_bind. eapply wp_mono.
  - apply (wp_while _ _ (fun i t => a <= i <= b /\ I i t) (fun i _ => b - i)
             (fun i t => I b t)).
    + lia.
    + intros i t [Hi HI]. k_steps. destruct (i <? b) eqn:E; bool_hyps.
      * k_steps. eapply wp_mono; [apply Hbody; [lia|done]|]. intros [] t' H. k_steps.
        split; [split; [lia|done]|lia].
      * assert (i = b) as -> by lia. done.
    + split; [lia|done].
    + done.
  - intros i t H. by k_steps.
Qed.

Lemma wp_for_mem (I : Z -> memory -> Prop) a b body s :
  (forall i m, a <= i < b -> I i m ->
     wp (body i) (fun _ t => exists m', t = set_mem m' s /\ I (i + 1) m') (set_mem m s)) ->
  I a (mem s) -> a <= b -> b - a < 2 ^ 40 ->
  wp (for_range a b 1 body) (fun _ t => exists m', t = set_mem m' s /\ I b m') s.
Proof.
  intros Hbody Ha Hab Hd.
  eapply (wp_for (fun i t => exists m', t = set_mem m' s /\ I i m')); [|by exists (mem s); rewrite set_mem_id|done..].
  intros i t Hi (m & -> & HI). by apply Hbody.
Qed.

(** ** Pointers to characters

    A [char *] argument is given by what reading its [i]th element yields: a
    string literal (its bytes and a terminator), a local array of the caller,
    or a pointer into memory.  Elements are signed. *)

Definition charp : Type := Z -> K Z.

Definition ptr (p : Z) : charp := fun i => c <- ld8 (p + i); ret (s8 c).
Definition arr (l : list Z) : charp := fun i =>
  match l !! Z.to_nat i with
  | Some c => if i <? 0 then undefined else ret (s8 c)
  | None => undefined
  end.
Definition lit (l : list Z) : charp := arr (l ++ [0]).

(** ** The state in which [kernel_start] is entered

    Memory, input ports and processor registers are arbitrary; the globals have
    their initialisers ([.data]) or zero ([.bss]). *)

Definition initial_state `{Linkage} (m : memory) (ports : Z -> Z) (c : cpu_t)
    (kms : gmap Z keymap_t) : kstate :=
  KState m [] ports c (MonitorGlobals 0 0)
    (KeyboardGlobals kms 0 0 0 (replicate 256 0))
    (DescriptorGlobals (replicate 6 zero_gdt_entry) (TablePtr 0 0)
       (replicate 256 zero_idt_entry) (TablePtr 0 0) zero_tss_entry)
    ∅ 0 (HeapGlobals sym_end 0) (PagingGlobals 0 0 0 0) (TaskGlobals 0 0 1)
    (FsGlobals 0 0 0 0 0 0 0) (BootGlobals 0 0).

(** An assignment of addresses, for evaluating the definitions. *)
Definition sample_linkage : Linkage := {|
  sym_end := 1142784; sym_gdt_entries := 1122304; sym_idt_entries := 1122560;
  sym_tss_entry := 1124864; sym_us := 1118208; sym_dirent := 1125376;
  sym_keyboard_buffer := 1126400; sym_keyboard_buffer_start := 1126656; sym_keyboard_buffer_end := 1126660;
  sym_isr := fun n => 1048576 + 16 * n; sym_irq := fun n => 1052672 + 16 * n;
  sym_standard_lessthan_predicate := 1056768; sym_header_t_less_than := 1056832;
  sym_initrd_read := 1060864; sym_initrd_readdir := 1060928; sym_initrd_finddir := 1060992;
  eip_switch_task := 1064960; eip_fork := 1065024 |}.

(** An initial state with zero memory, for evaluating the definitions. *)
Definition sample_state : kstate :=
  @initial_state sample_linkage ∅ (fun _ => 0) (Cpu 0 0 0 0 0) ∅.
