(* ===== verification/Common.v ===== *)
(** * The string and memory routines of [sys/common.c]

    [memcpy], [memset], [strcmp], [strcpy], [strcat] and [strlen]; the port
    routines are primitive operations of [Kernel.v], and [panic] and
    [panic_assert], which print, are in [Monitor.v]. *)

From Stdlib Require Import ZArith Lia List String.
From stdpp Require Import base list gmap.
From S2P Require Import Prelude Machine Kernel.

(** ** Definitions *)

Definition memcpy (dest src len : Z) : K unit :=
  while (fun '(sp, dp, len) => ret (negb (len =? 0)))
        (fun '(sp, dp, len) =>
           c <- ld8 sp;
           st8 dp c >>
           ret (u32 (sp + 1), u32 (dp + 1), u32 (len - 1)))
        (src, dest, u32 len) >> ret tt.

Definition memset (dest val len : Z) : K unit :=
  while (fun '(temp, len) => ret (negb (len =? 0)))
        (fun '(temp, len) =>
           st8 temp val >>
           ret (u32 (temp + 1), u32 (len - 1)))
        (dest, u32 len) >> ret tt.

(** The loop leaves with [failed] set when it broke on a difference. *)
Definition strcmp (str1 str2 : charp) : K Z :=
  r <- loop (fun i =>
      a <- str1 i; b <- str2 i;
      if truth a && truth b
      then if negb (a =? b) then ret (inr (i, 1)) else ret (inl (s32 (i + 1)))
      else ret (inr (i, 0))) 0;
  let '(i, failed) := r in
  a <- str1 i; b <- str2 i;
  if (a =? 0) && truth b || truth a && (b =? 0) then ret 1 else ret failed.

(** The function has no [return]; no caller uses its value. *)
Definition strcpy (dest : Z) (src : charp) : K unit :=
  loop (fun i =>
    c <- src i;
    st8 (dest + i) c >>
    c' <- src (i + 1);
    if truth c' then ret (inl (i + 1)) else ret (inr tt)) 0.

(** [*dest = *dest++] modifies and reads [dest] without a sequence point, so
    the first loop is only defined when [dest] is the empty string.  The result
    is the advanced pointer. *)
Definition strcat (dest : Z) (src : charp) : K Z :=
  d <- ld8 dest;
  if truth d then undefined
  else
    loop (fun i =>
      c <- src i;
      st8 (dest + i) c >>
      c' <- src (i + 1);
      if truth c' then ret (inl (i + 1)) else ret (inr (u32 (dest + i + 1)))) 0.

Definition strlen (src : charp) : K Z :=
  r <- while (fun '(i, p) => c <- src p; ret (truth c))
             (fun '(i, p) => ret (s32 (i + 1), p + 1)) (0, 0);
  ret (fst r).

(** ** [memcpy] and [memset] *)

(** The bytes [memcpy] leaves: those of the source over the destination. *)
Lemma memcpy_spec dest src len s :
  region dest (dest + len) -> region src (src + len) ->
  (dest <= src \/ src + len <= dest) -> len < 4294967296 ->
  wp (memcpy dest src len) (fun _ s' => exists m', s' = set_mem m' s /\
    same_outside dest (dest + len) (mem s) m' /\
    bytes m' dest (Z.to_nat len) = bytes (mem s) src (Z.to_nat len)) s.
Proof.
  intros [Hd1 Hd2] [Hs1 Hs2] Hov Hlen. unfold memcpy. rewrite u32_id by lia.
  apply wp_bind. eapply wp_mono.
  - apply (wp_mem_while _ _
      (fun '(sp, dp, n) m => exists k, 0 <= k <= len /\ sp = u32 (src + k) /\
         dp = u32 (dest + k) /\ n = len - k /\
         forall b, 0 <= b < 4294967296 -> load8 m b =
           if (dest <=? b) && (b <? dest + k) then load8 (mem s) (src + (b - dest))
           else load8 (mem s) b)
      (fun '(_, _, n) => n)
      (fun '(_, _, n) m => forall b, 0 <= b < 4294967296 -> load8 m b =
           if (dest <=? b) && (b <? dest + len) then load8 (mem s) (src + (b - dest))
           else load8 (mem s) b)).
    + intros [[sp dp] n] m (k & ? & ? & ? & ? & ?). lia.
    + intros [[sp dp] n] m (k & Hk & -> & -> & -> & Hm). k_steps. split; [done|].
      destruct (len - k =? 0) eqn:E; bool_hyps; simpl.
      { replace len with k by lia. done. }
      k_steps. eexists. split; [done|]. split; [|rewrite u32_id by lia; lia].
      exists (k + 1). repeat split; try lia.
      { rewrite (u32_id (src + k)) by lia. f_equal. lia. }
      { rewrite (u32_id (dest + k)) by lia. f_equal. lia. }
      { rewrite u32_id; lia. }
      intros b Hb. simpl. rewrite load8_store8, !(u32_id (dest + k)), (u32_id b) by lia.
      assert (Hsrc : load8 m (u32 (src + k)) = load8 (mem s) (src + k)).
      { rewrite u32_id, Hm by lia.
        destruct ((dest <=? src + k) && (src + k <? dest + k)) eqn:E1; [|done].
        bool_hyps. lia. }
      case_decide.
      * subst b. rewrite Hsrc. replace (_ && _) with true by blia.
        rewrite u8_id by apply load8_range. f_equal. lia.
      * rewrite Hm by done. f_equal.
        replace (b <? dest + (k + 1)) with (b <? dest + k) by lia. done.
    + exists 0. repeat split; try lia.
      * by rewrite u32_id, Z.add_0_r by lia.
      * by rewrite u32_id, Z.add_0_r by lia.
      * intros b Hb. replace (_ && _) with false by blia. done.
    + lia.
  - intros [[? ?] ?] ? (m' & -> & Hm). k_steps. exists m'. split; [done|]. split.
    + intros b Hb Hn. rewrite Hm by done. replace (_ && _) with false by blia. done.
    + apply bytes_ext. intros i Hi. rewrite Hm by lia.
      replace (_ && _) with true by blia. f_equal. lia.
Qed.

Lemma memset_spec dest val len s :
  region dest (dest + len) -> len < 4294967296 ->
  wp (memset dest val len) (fun _ s' => exists m', s' = set_mem m' s /\
    same_outside dest (dest + len) (mem s) m' /\
    bytes m' dest (Z.to_nat len) = replicate (Z.to_nat len) (u8 val)) s.
Proof.
  intros [Hd1 Hd2] Hlen. unfold memset. rewrite u32_id by lia.
  apply wp_bind. eapply wp_mono.
  - apply (wp_mem_while _ _
      (fun '(p, n) m => exists k, 0 <= k <= len /\ p = u32 (dest + k) /\ n = len - k /\
         forall b, 0 <= b < 4294967296 -> load8 m b =
           if (dest <=? b) && (b <? dest + k) then u8 val else load8 (mem s) b)
      (fun '(_, n) => n)
      (fun '(_, n) m => forall b, 0 <= b < 4294967296 -> load8 m b =
           if (dest <=? b) && (b <? dest + len) then u8 val else load8 (mem s) b)).
    + intros [p n] m (k & ? & ? & ? & ?). lia.
    + intros [p n] m (k & Hk & -> & -> & Hm). k_steps. split; [done|].
      destruct (len - k =? 0) eqn:E; bool_hyps; simpl.
      { replace len with k by lia. done. }
      k_steps. eexists. split; [done|]. split; [|rewrite u32_id by lia; lia].
      exists (k + 1). rewrite (u32_id (dest + k)), (u32_id (len - k - 1)) by lia.
      repeat split; try lia. { f_equal. lia. }
      intros b Hb. simpl. rewrite load8_store8, !u32_id by lia.
      case_decide.
      * subst b. by replace (_ && _) with true by blia.
      * rewrite Hm by done. by replace (b <? dest + (k + 1)) with (b <? dest + k) by lia.
    + exists 0. repeat split; try lia.
      * by rewrite Z.add_0_r, u32_id by lia.
      * intros b Hb. by replace (_ && _) with false by blia.
    + lia.
  - intros [? ?] ? (m' & -> & Hm). k_steps. exists m'. split; [done|]. split.
    + intros b Hb Hn. rewrite Hm by done. by replace (_ && _) with false by blia.
    + apply bytes_replicate. intros i Hi. rewrite Hm by lia.
      by replace (_ && _) with true by blia.
Qed.

(** ** Strings

    [cstring c l s]: in state [s] the pointer [c] reads the bytes [l] followed
    by the terminator, and reading changes nothing. *)

Record cstring (c : charp) (l : list Z) (s : kstate) : Prop := CString {
  cstr_bytes : Forall (fun b => 0 < b < 256) l;
  cstr_len : Z.of_nat (length l) < 2147483647;
  cstr_read : forall (i : nat) b, (l ++ [0]) !! i = Some b -> c (Z.of_nat i) s = Ok (s8 b) s
}.

Lemma lit_cstring l s :
  Forall (fun b => 0 < b < 256) l -> Z.of_nat (length l) < 2147483647 -> cstring (lit l) l s.
Proof.
  intros ??. constructor; [done|done|]. intros i b Hb. unfold lit, arr.
  rewrite Nat2Z.id, Hb. by replace (Z.of_nat i <? 0) with false by blia.
Qed.

Lemma ptr_cstring p l s :
  Forall (fun b => 0 < b < 256) l -> Z.of_nat (length l) < 2147483647 ->
  bytes (mem s) p (S (length l)) = l ++ [0] -> cstring (ptr p) l s.
Proof.
  intros ?? Hm. constructor; [done|done|]. intros i b Hb.
  pose proof (lookup_lt_Some _ _ _ Hb) as Hi. rewrite length_app in Hi. simpl in Hi.
  rewrite <- Hm, lookup_bytes in Hb by lia. injection Hb as <-. done.
Qed.

Lemma s8_zero b : 0 <= b < 256 -> (s8 b =? 0) = (b =? 0).
Proof.
  unfold s8. intros. apply Bool.eq_iff_eq_true. rewrite !Z.eqb_eq. dlia.
Qed.
Lemma s8_inj a b : 0 <= a < 256 -> 0 <= b < 256 -> (s8 a =? s8 b) = (a =? b).
Proof.
  unfold s8. intros. apply Bool.eq_iff_eq_true. rewrite !Z.eqb_eq. dlia.
Qed.

(** The element at an index up to and including the terminator. *)
Lemma cstring_at c l s (k : nat) :
  cstring c l s -> (k <= length l)%nat ->
  exists b, (l ++ [0]) !! k = Some b /\ 0 <= b < 256 /\ c (Z.of_nat k) s = Ok (s8 b) s /\
    (b = 0 <-> k = length l).
Proof.
  intros Hc Hk. destruct (decide (k = length l)) as [->|].
  - exists 0. rewrite lookup_app_r, Nat.sub_diag by lia. repeat split; try done.
    apply (cstr_read _ _ _ Hc). by rewrite lookup_app_r, Nat.sub_diag by lia.
  - destruct (lookup_lt_is_Some_2 l k ltac:(lia)) as [b Hb]. exists b.
    assert (0 < b < 256) by (eapply Forall_lookup_1 in Hb; [|apply Hc]; done).
    assert ((l ++ [0]) !! k = Some b) by by apply lookup_app_l_Some.
    repeat split; try lia; try done. by apply (cstr_read _ _ _ Hc).
Qed.

(** Running a read of a string, with what is known of the element. *)
Ltac cstring_read H k b :=
  let Hb := fresh "Hb" in let Hr := fresh "Hr" in
  destruct (cstring_at _ _ _ k H ltac:(lia)) as (b & Hb & ? & Hr & ?);
  k_steps; unfold wp at 1; rewrite Hr; cbv beta iota.

Lemma strlen_spec c l s :
  cstring c l s -> wp (strlen c) (fun r s' => s' = s /\ r = Z.of_nat (length l)) s.
Proof.
  intros Hc. pose proof (cstr_len _ _ _ Hc). unfold strlen. apply wp_bind.
  apply (wp_while _ _
    (fun '(i, p) t => t = s /\ exists k, (k <= length l)%nat /\ i = Z.of_nat k /\ p = i)
    (fun '(i, p) _ => Z.of_nat (length l) - i)).
  - intros [i p] t (-> & k & ? & -> & _). lia.
  - intros [i p] t (-> & k & Hk & -> & ->). cstring_read Hc k b. k_steps.
    unfold truth. rewrite s8_zero by done. destruct (b =? 0) eqn:E; bool_hyps; simpl.
    + k_steps. split; [done|]. simpl. lia.
    + k_steps. rewrite s32_id by lia. split; [|lia]. split; [done|]. exists (S k). lia.
  - split; [done|]. exists 0%nat. lia.
  - lia.
Qed.

Lemma take_S_app_eq (l1 l2 : list Z) k b :
  (k < length l1)%nat -> (k < length l2)%nat ->
  (l1 ++ [0]) !! k = Some b -> (l2 ++ [0]) !! k = Some b ->
  take k l1 = take k l2 -> take (S k) l1 = take (S k) l2.
Proof.
  intros ?? H1 H2 Ht. rewrite lookup_app_l in H1, H2 by done.
  by rewrite (take_S_r _ _ _ H1), (take_S_r _ _ _ H2), Ht.
Qed.

(** What [strcmp] returns once its loop has stopped at index [k]. *)
Lemma strcmp_end c1 c2 l1 l2 s (k : nat) x y f :
  cstring c1 l1 s -> cstring c2 l2 s -> (k <= length l1)%nat -> (k <= length l2)%nat ->
  take k l1 = take k l2 -> (l1 ++ [0]) !! k = Some x -> (l2 ++ [0]) !! k = Some y ->
  (x = 0 -> y = 0 -> f = 0) -> (x <> 0 -> y <> 0 -> x <> y /\ f = 1) ->
  wp (a <- c1 (Z.of_nat k); b <- c2 (Z.of_nat k);
      if (a =? 0) && truth b || truth a && (b =? 0) then ret 1 else ret f)
     (fun r s' => s' = s /\ r = if decide (l1 = l2) then 0 else 1) s.
Proof.
  intros H1 H2 Hk1 Hk2 Ht Hx Hy Hf0 Hf1.
  cstring_read H1 k a. cstring_read H2 k b. simplify_eq. unfold truth.
  rewrite !s8_zero by done.
  assert (x = 0 -> y = 0 -> l1 = l2).
  { intros. rewrite <- (firstn_all l1), <- (firstn_all l2).
    by replace (length l1) with k by lia; replace (length l2) with k by lia. }
  destruct (decide (l1 = l2)) as [E|E].
  - assert (x = y) by congruence. assert (x = 0) by lia.
    replace (x =? 0) with true by blia. replace (y =? 0) with true by blia.
    by rewrite Hf0 by lia.
  - assert (x = 0 -> y = 0 -> False) by auto.
    destruct (x =? 0) eqn:?, (y =? 0) eqn:?; bool_hyps; simpl; k_steps; (split; [done|lia]).
Qed.

(** [strcmp] is 0 exactly on equal strings. *)
Lemma strcmp_spec c1 c2 l1 l2 s :
  cstring c1 l1 s -> cstring c2 l2 s ->
  wp (strcmp c1 c2) (fun r s' => s' = s /\ r = if decide (l1 = l2) then 0 else 1) s.
Proof.
  intros H1 H2. pose proof (cstr_len _ _ _ H1). unfold strcmp. apply wp_bind.
  apply (wp_loop _ (fun i t => t = s /\ exists k : nat, i = Z.of_nat k /\
           (k <= length l1)%nat /\ (k <= length l2)%nat /\ take k l1 = take k l2)
           (fun i _ => Z.of_nat (length l1) - i)).
  - intros i t (-> & k & -> & ? & _). lia.
  - intros i t (-> & k & -> & Hk1 & Hk2 & Ht). cstring_read H1 k x. cstring_read H2 k y.
    unfold truth at 1 2. rewrite !s8_zero, s8_inj by done.
    destruct (x =? 0) eqn:E1, (y =? 0) eqn:E2, (x =? y) eqn:E3; simpl; apply wp_ret;
      bool_hyps; try (by apply (strcmp_end _ _ _ _ _ _ x y); try done; lia).
    subst y. rewrite s32_id by lia. split; [|lia]. split; [done|]. exists (S k).
    split; [lia|]. split; [lia|]. split; [lia|]. eapply take_S_app_eq; eauto; lia.
  - split; [done|]. exists 0%nat. split; [done|]. repeat split; lia.
  - lia.
Qed.

(** [src] reads [l] whatever the memory in [dest, dest + length l) holds. *)
Definition source_apart (src : charp) (l : list Z) (dest : Z) (s : kstate) : Prop :=
  forall m, same_outside dest (dest + Z.of_nat (length l)) (mem s) m ->
            cstring src l (set_mem m s).

Lemma lit_source_apart l dest s :
  Forall (fun b => 0 < b < 256) l -> Z.of_nat (length l) < 2147483647 ->
  source_apart (lit l) l dest s.
Proof. intros ?? m _. by apply lit_cstring. Qed.

Lemma ptr_source_apart p l dest s :
  Forall (fun b => 0 < b < 256) l -> Z.of_nat (length l) < 2147483647 ->
  region p (p + Z.of_nat (length l) + 1) ->
  (p + Z.of_nat (length l) + 1 <= dest \/ dest + Z.of_nat (length l) <= p) ->
  bytes (mem s) p (S (length l)) = l ++ [0] -> source_apart (ptr p) l dest s.
Proof.
  intros ?? [??] ? Hb m Hm. apply ptr_cstring; [done|done|]. rewrite <- Hb. simpl.
  eapply bytes_frame; [exact Hm| |]; unfold region; lia.
Qed.

Lemma u8_s8 b : 0 <= b < 256 -> u8 (s8 b) = b.
Proof. unfold u8, s8. intros. dlia. Qed.

(** [strcpy] copies the bytes of a non-empty string.  The terminator is not
    among them: the byte after the copy keeps its value. *)
Lemma strcpy_spec dest src l s :
  l <> [] -> region dest (dest + Z.of_nat (length l)) -> source_apart src l dest s ->
  wp (strcpy dest src) (fun _ s' => exists m', s' = set_mem m' s /\
    same_outside dest (dest + Z.of_nat (length l)) (mem s) m' /\
    bytes m' dest (length l) = l) s.
Proof.
  intros Hl [Hd1 Hd2] Hsrc. unfold strcpy.
  assert (0 < length l)%nat by (destruct l; [done|simpl; lia]).
  apply (wp_mem_loop _
    (fun i m => exists k : nat, i = Z.of_nat k /\ (k < length l)%nat /\
       same_outside dest (dest + Z.of_nat (length l)) (mem s) m /\
       bytes m dest k = take k l)
    (fun i => Z.of_nat (length l) - i)).
  - intros i m (k & -> & ? & _). lia.
  - intros i m (k & -> & Hk & Hout & Hm). pose proof (Hsrc _ Hout) as Hc.
    cstring_read Hc k b. k_steps.
    set (m1 := store8 (mem (set_mem m s)) (dest + Z.of_nat k) (s8 b)).
    assert (Hout1 : same_outside dest (dest + Z.of_nat (length l)) (mem s) m1).
    { eapply same_outside_trans; [exact Hout|].
      eapply same_outside_weaken; [..|apply store8_outside]; lia. }
    assert (Hm1 : bytes m1 dest (S k) = take (S k) l).
    { rewrite (take_S_r l k b) by by rewrite lookup_app_l in Hb.
      unfold bytes. rewrite seq_S, fmap_app. simpl. f_equal.
      - rewrite <- Hm. apply bytes_ext. intros i Hi. unfold m1. simpl.
        rewrite load8_store8_ne by lia. done.
      - unfold m1. by rewrite load8_store8_eq, u8_s8. }
    pose proof (Hsrc _ Hout1) as Hc1. replace (Z.of_nat k + 1) with (Z.of_nat (S k)) by lia.
    rewrite set_mem_set_mem. cstring_read Hc1 (S k) b'. unfold truth.
    rewrite s8_zero by done. destruct (b' =? 0) eqn:E; bool_hyps; simpl; k_steps.
    + exists m1. split; [done|]. split; [done|].
      rewrite <- (firstn_all l) at 2. by replace (length l) with (S k) by lia.
    + exists m1. split; [done|]. split; [|lia]. exists (S k). repeat split; try done. lia.
  - exists 0%nat. repeat split; lia.
  - lia.
Qed.

(** ** Properties *)

(** [memcpy] copies [len] bytes and writes nothing else, also when the source
    overlaps the destination from above. *)
Theorem memcpy_copies dest src len s :
  region dest (dest + len) -> region src (src + len) ->
  (dest <= src \/ src + len <= dest) -> len < 4294967296 ->
  wp (memcpy dest src len) (fun _ s' => exists m', s' = set_mem m' s /\
    same_outside dest (dest + len) (mem s) m' /\
    bytes m' dest (Z.to_nat len) = bytes (mem s) src (Z.to_nat len)) s.
Proof. apply memcpy_spec. Qed.

(** [memset] fills [len] bytes and writes nothing else. *)
Theorem memset_fills dest val len s :
  region dest (dest + len) -> len < 4294967296 ->
  wp (memset dest val len) (fun _ s' => exists m', s' = set_mem m' s /\
    same_outside dest (dest + len) (mem s) m' /\
    bytes m' dest (Z.to_nat len) = replicate (Z.to_nat len) (u8 val)) s.
Proof. apply memset_spec. Qed.

(** C35: [strcmp] terminates on terminated strings, writes nothing, and is 0 exactly
    when they are equal.  Otherwise it is 1, also when the first is the lesser, where
    the comment in front of the function promises -1. *)
Theorem strcmp_decides_equality c1 c2 l1 l2 s :
  cstring c1 l1 s -> cstring c2 l2 s ->
  wp (strcmp c1 c2) (fun r s' => s' = s /\ r = if decide (l1 = l2) then 0 else 1) s.
Proof. apply strcmp_spec. Qed.

(** [strcpy] copies the bytes of a non-empty string but not its terminator:
    everything outside these bytes, the byte after them included, keeps its
    value. *)
Theorem strcpy_copies_without_terminator dest src l s :
  l <> [] -> region dest (dest + Z.of_nat (length l)) -> source_apart src l dest s ->
  wp (strcpy dest src) (fun _ s' => exists m', s' = set_mem m' s /\
    same_outside dest (dest + Z.of_nat (length l)) (mem s) m' /\
    bytes m' dest (length l) = l) s.
Proof. apply strcpy_spec. Qed.

Module CommonSample.
Definition state : kstate :=
  set_mem (foldr (fun p m => store8 m p.1 p.2) ∅ (imap (fun i b => (4096 + Z.of_nat i, b)) (str "initrd")))
    sample_state.

Lemma memcpy_copies_witness :
  wp (memcpy 4094 4096 6) (fun _ s' => bytes (mem s') 4094 6 = str "initrd") state.
Proof.
  eapply wp_mono; [apply (memcpy_copies 4094 4096 6 state); unfold region; lia|].
  intros [] s' (m' & -> & _ & Hb). exact Hb.
Defined.

Lemma memset_fills_witness :
  wp (memset 4097 65 2) (fun _ s' => bytes (mem s') 4097 2 = str "AA") state.
Proof.
  eapply wp_mono; [apply (memset_fills 4097 65 2 state); unfold region; lia|].
  intros [] s' (m' & -> & _ & Hb). exact Hb.
Defined.

Lemma strcmp_decides_equality_witness :
  wp (strcmp (ptr 4096) (lit (str "dev"))) (fun r s' => r = 1) state.
Proof.
  eapply wp_mono.
  - apply (strcmp_decides_equality _ _ (str "initrd") (str "dev") state).
    + apply ptr_cstring; [by repeat constructor|simpl; lia|vm_compute; reflexivity].
    + apply lit_cstring; [by repeat constructor|simpl; lia].
  - intros r s' [_ ->]. reflexivity.
Defined.

Lemma strcpy_copies_without_terminator_witness :
  wp (strcpy 4096 (lit (str "dev"))) (fun _ s' => bytes (mem s') 4096 6 = str "devtrd") state.
Proof.
  eapply wp_mono.
  - apply (strcpy_copies_without_terminator 4096 (lit (str "dev")) (str "dev") state).
    + discriminate.
    + unfold region. simpl. lia.
    + apply lit_source_apart; [by repeat constructor|simpl; lia].
  - intros [] s' (m' & -> & Ho & Hb). cbn [mem set_mem].
    change (bytes m' 4096 6) with (bytes m' 4096 (length (str "dev")) ++ bytes m' 4099 3).
    rewrite Hb, (bytes_frame _ _ _ _ Ho 4099 3) by (unfold region; simpl; lia).
    reflexivity.
Defined.
End CommonSample.
