(* ===== verification/Monitor.v ===== *)
(** * The text console of [sys/monitor.c] and the panic routines

    The first sections translate the files; [Module Terminal] is the abstract
    console it implements: 80 columns and 25 rows of cells and a cursor. *)

From Stdlib Require Import ZArith Lia List String Ascii.
From stdpp Require Import base list gmap.
From S2P Require Import Prelude Machine Kernel Common.

(** ** [sys/monitor.c] *)

(** The VGA framebuffer starts at 0xB8000; [vga i] is [video_memory + i]. *)
Definition video_memory : Z := 753664.
Definition vga (i : Z) : Z := video_memory + 2 * i.

Definition get_cursor_x : K Z := gets (fun s => cursor_x (mon s)).
Definition get_cursor_y : K Z := gets (fun s => cursor_y (mon s)).
Definition set_cursor_x (x : Z) : K unit :=
  modify (fun s => set_mon (MonitorGlobals (u8 x) (cursor_y (mon s))) s).
Definition set_cursor_y (y : Z) : K unit :=
  modify (fun s => set_mon (MonitorGlobals (cursor_x (mon s)) (u8 y)) s).

(** Update the hardware cursor. *)
Definition move_cursor : K unit :=
  y <- get_cursor_y; x <- get_cursor_x;
  let cursorLocation := u16 (y * 80 + x) in
  outb 980 14 >>
  outb 981 (Z.shiftr cursorLocation 8) >>
  outb 980 15 >>
  outb 981 cursorLocation.

(** The default attribute byte: white on black. *)
Definition attributeByte : Z := u8 (Z.lor (Z.shiftl 0 4) (Z.land 15 15)).
Definition blank : Z := u16 (Z.lor 32 (Z.shiftl attributeByte 8)).

(** Scroll the text on the screen up by one line. *)
Definition scroll : K unit :=
  y <- get_cursor_y;
  when (25 <=? y)
    (for_range 0 (24 * 80) 1 (fun counter =>
       c <- ld16 (vga (counter + 80));
       st16 (vga counter) c) >>
     for_range (24 * 80) (25 * 80) 1 (fun counter => st16 (vga counter) blank) >>
     set_cursor_y 24).

(** Writes a single character to the screen. *)
Definition monitor_put (c : Z) : K unit :=
  let attribute := u16 (Z.shiftl attributeByte 8) in
  x <- get_cursor_x;
  (if (c =? 8) && truth x then set_cursor_x (x - 1)
   else if c =? 9 then set_cursor_x (Z.land (x + 8) (Z.lnot (8 - 1)))
   else if c =? 13 then set_cursor_x 0
   else if c =? 10 then
     set_cursor_x 0 >>
     y <- get_cursor_y;
     set_cursor_y (y + 1)
   else when (32 <=? c)
     (y <- get_cursor_y;
      st16 (vga (y * 80 + x)) (u16 (Z.lor c attribute)) >>
      set_cursor_x (x + 1))) >>
  x <- get_cursor_x;
  when (80 <=? x)
    (set_cursor_x 0 >>
     y <- get_cursor_y;
     set_cursor_y (y + 1)) >>
  scroll >>
  move_cursor.

(** Clear the screen. *)
Definition monitor_clear : K unit :=
  for_range 0 (80 * 25) 1 (fun counter => st16 (vga counter) blank) >>
  set_cursor_x 0 >>
  set_cursor_y 0 >>
  move_cursor.

(** Output a null-terminated ASCII string to the screen. *)
Definition monitor_write (c : charp) : K unit :=
  while (fun counter => x <- c counter; ret (truth x))
        (fun counter => x <- c counter; monitor_put x >> ret (s32 (counter + 1))) 0 >>
  ret tt.

(** The digits that the first loop of [monitor_write_dec] stores in [c],
    least significant first. *)
Definition dec_digits (acc : Z) : K (list Z) :=
  r <- while (fun '(acc, c) => ret (0 <? acc))
             (fun '(acc, c) => ret (Z.quot acc 10, c ++ [s8 (48 + Z.rem acc 10)]))
             (acc, []);
  ret (snd r).

(** The second loop copies [c] backwards into [c2]; both arrays have 32
    elements, more than the ten digits of a 32-bit number. *)
Definition monitor_write_dec (number : Z) : K unit :=
  if number =? 0 then monitor_put 48
  else
    c <- dec_digits (s32 number);
    monitor_write (lit (rev c)).

Definition hex_digit (temp : Z) : Z :=
  if 10 <=? temp then s8 (temp - 10 + 97) else s8 (temp + 48).

Definition monitor_write_hex (number : Z) : K unit :=
  monitor_write (lit (str "0x")) >>
  while (fun '(counter, noZeroes) => ret (0 <? counter))
        (fun '(counter, noZeroes) =>
           let temp := Z.land (Z.shiftr number counter) 15 in
           if (temp =? 0) && truth noZeroes then ret (counter - 4, noZeroes)
           else monitor_put (hex_digit temp) >> ret (counter - 4, 0))
        (28, 1) >>
  monitor_put (hex_digit (Z.land number 15)).

(** [buff] is a local array of 80 characters and is printed without a
    terminator: [stack] stands for the bytes that follow it on the stack, up to
    and including the first zero.  A message of more than 80 characters
    overruns the array. *)
Definition monitor_write_padded (stack : list Z) (message : charp) (success : Z) : K unit :=
  r <- while (fun '(strln, buff) => x <- message strln; ret (truth x))
             (fun '(strln, buff) =>
                x <- message strln;
                if strln <? 80 then ret (u16 (strln + 1), buff ++ [u8 x]) else undefined)
             (0, []);
  let '(strln, msg) := r in
  let dots := msg ++ replicate (Z.to_nat (75 - strln)) 46 in
  let tag := if truth success then str "[OK]" else str "[FL]" in
  monitor_write (arr (take 75 dots ++ tag ++ [10] ++ stack)).

(** ** [panic] and [panic_assert] of [sys/common.c]

    Both print a message, execute [hlt] with interrupts disabled, and never
    return.  The strings [file] and [desc] and the line number are the ones the
    [PANIC] and [ASSERT] macros supply. *)

Definition panic {A} (message file : list Z) (line : Z) : K A :=
  emit Cli >>
  monitor_write (lit (str "PANIC(")) >>
  monitor_write (lit message) >>
  monitor_write (lit (str ") at ")) >>
  monitor_write (lit file) >>
  monitor_write (lit (str ":")) >>
  monitor_write_dec line >>
  monitor_write (lit [10]) >>
  monitor_write (lit (str "Computer halting now!" ++ [10])) >>
  emit Hlt >>
  halt.

Definition panic_assert {A} (file : list Z) (line : Z) (desc : list Z) : K A :=
  emit Cli >>
  monitor_write (lit (str "ASSERTION-FAILED(")) >>
  monitor_write (lit desc) >>
  monitor_write (lit (str ") at ")) >>
  monitor_write (lit file) >>
  monitor_write (lit (str ":")) >>
  monitor_write_dec line >>
  monitor_write (lit [10]) >>
  monitor_write (lit (str "Computer halting now!" ++ [10])) >>
  emit Hlt >>
  halt.

(** The [ASSERT] macro. *)
Definition ASSERT (b : bool) (file : string) (line : Z) (desc : string) : K unit :=
  if b then ret tt else panic_assert (str file) line (str desc).

(** ** The abstract console *)

Module Terminal.
Record terminal : Type := Terminal { cells : list Z; col : Z; row : Z }.

Definition blank_cell : Z := 3872.

Definition wf (t : terminal) : Prop :=
  length (cells t) = 2000%nat /\ 0 <= col t < 80 /\ 0 <= row t < 25.

(** To the start of the next row; past the last one the text moves up. *)
Definition newline (t : terminal) : terminal :=
  if row t =? 24
  then Terminal (drop 80 (cells t) ++ replicate 80 blank_cell) 0 24
  else Terminal (cells t) 0 (row t + 1).

Definition goto_col (x : Z) (t : terminal) : terminal :=
  if x <? 80 then Terminal (cells t) x (row t) else newline t.

Definition put (c : Z) (t : terminal) : terminal :=
  if c =? 8 then Terminal (cells t) (Z.max 0 (col t - 1)) (row t)
  else if c =? 9 then goto_col ((col t / 8 + 1) * 8) t
  else if c =? 13 then Terminal (cells t) 0 (row t)
  else if c =? 10 then newline t
  else if c <? 32 then t
  else goto_col (col t + 1)
         (Terminal (<[Z.to_nat (row t * 80 + col t) := 3840 + c]> (cells t)) (col t) (row t)).

Definition write (l : list Z) (t : terminal) : terminal := foldl (fun t c => put c t) t l.

Definition clear : terminal := Terminal (replicate 2000 blank_cell) 0 0.

(** The port writes that place the hardware cursor, newest first. *)
Definition cursor_events (t : terminal) : list event :=
  [Outb 981 ((row t * 80 + col t) mod 256); Outb 980 15;
   Outb 981 ((row t * 80 + col t) / 256); Outb 980 14].

Lemma newline_wf t : wf t -> wf (newline t).
Proof.
  intros (Hl & Hc & Hr). unfold newline. destruct (row t =? 24) eqn:E; bool_hyps.
  - split; [|split]; cbn [cells col row]; try lia. rewrite length_app, length_drop, length_replicate. lia.
  - repeat split; simpl; lia.
Qed.

Lemma goto_col_wf x t : 0 <= x -> wf t -> wf (goto_col x t).
Proof.
  intros Hx Ht. unfold goto_col. destruct (x <? 80) eqn:E; bool_hyps; [|by apply newline_wf].
  destruct Ht as (? & ? & ?). repeat split; simpl; lia.
Qed.

Lemma put_wf c t : wf t -> wf (put c t).
Proof.
  intros Ht. pose proof Ht as (Hl & Hc & Hr). unfold put.
  destruct (c =? 8); [repeat split; simpl; lia|].
  destruct (c =? 9).
  { apply goto_col_wf; [|done]. pose proof (Z.div_pos (col t) 8). lia. }
  destruct (c =? 13); [repeat split; simpl; lia|].
  destruct (c =? 10); [by apply newline_wf|].
  destruct (c <? 32); [done|].
  apply goto_col_wf; [lia|]. repeat split; simpl; try lia. by rewrite length_insert.
Qed.

Lemma write_wf l t : wf t -> wf (write l t).
Proof. revert t. induction l as [|c l IH]; intros t Ht; [done|]. by apply IH, put_wf. Qed.

Lemma write_app l1 l2 t : write (l1 ++ l2) t = write l2 (write l1 t).
Proof. apply foldl_app. Qed.
End Terminal.
Import Terminal.

(** The framebuffer of [m] shows the cells [l]. *)
Definition screen (m : memory) (l : list Z) : Prop := halves m video_memory 2000 = l.

(** The state [s] implements the console [t]. *)
Definition shows (s : kstate) (t : terminal) : Prop :=
  screen (mem s) (cells t) /\ mon s = MonitorGlobals (col t) (row t) /\ wf t.

(** What printing may change of the state. *)
Definition screen_frame (s s' : kstate) : Prop :=
  exists m tr g, s' = set_mem m (set_trace tr (set_mon g s)) /\
    same_outside video_memory (video_memory + 4000) (mem s) m.

(** Output to ports, as opposed to the other instructions that the trace records. *)
Definition port_output (e : event) : Prop := match e with Outb _ _ => True | _ => False end.

(** What the console routines may change; the instructions of theirs that the trace
    records are output to ports. *)
Definition console_frame (s s' : kstate) : Prop :=
  screen_frame s s' /\ exists es, trace s' = es ++ trace s /\ Forall port_output es.

#[export] Instance screen_frame_preorder : PreOrder screen_frame.
Proof.
  split.
  - intros s. exists (mem s), (trace s), (mon s). split; [by destruct s|apply same_outside_refl].
  - intros s1 s2 s3 (m & tr & g & -> & H1) (m' & tr' & g' & -> & H2).
    exists m', tr', g'. split; [done|]. by eapply same_outside_trans.
Qed.

#[export] Instance console_frame_preorder : PreOrder console_frame.
Proof.
  split.
  - intros s. split; [reflexivity|]. by exists [].
  - intros s1 s2 s3 [H1 (es1 & E1 & F1)] [H2 (es2 & E2 & F2)]. split; [by etransitivity|].
    exists (es2 ++ es1). rewrite E2, E1, app_assoc. split; [done|]. by apply Forall_app.
Qed.

Lemma screen_lookup m l j :
  screen m l -> 0 <= j < 2000 -> l !! Z.to_nat j = Some (load16 m (vga j)).
Proof.
  intros <- Hj. rewrite lookup_halves by lia. unfold vga. by rewrite Z2Nat.id by lia.
Qed.

Lemma screen_intro m l :
  length l = 2000%nat ->
  (forall j, 0 <= j < 2000 -> l !! Z.to_nat j = Some (load16 m (vga j))) -> screen m l.
Proof.
  intros Hl H. apply (list_eq_lookup_total _ _ 2000); [apply length_halves|done|].
  intros i x Hi Hx. rewrite lookup_halves by done. rewrite <- Hx.
  specialize (H (Z.of_nat i) ltac:(lia)). by rewrite Nat2Z.id in H.
Qed.

Lemma load16_vga m i v j :
  0 <= i < 2000 -> 0 <= j < 2000 ->
  load16 (store16 m (vga i) v) (vga j) = if i =? j then u16 v else load16 m (vga j).
Proof.
  intros Hi Hj. unfold vga, video_memory. destruct (i =? j) eqn:E; bool_hyps.
  - subst. apply load16_store16_eq. unfold region. lia.
  - apply load16_store16_ne; unfold region; lia.
Qed.

Lemma store16_vga_outside m i v :
  0 <= i < 2000 ->
  same_outside video_memory (video_memory + 4000) m (store16 m (vga i) v).
Proof.
  intros Hi. eapply same_outside_weaken; [..|apply store16_outside];
    unfold region, vga, video_memory; lia.
Qed.

Lemma u16_load16 m a : u16 (load16 m a) = load16 m a.
Proof. apply u16_id, load16_range. Qed.

(** Blanking the cells from [a] to the end. *)
Lemma fill_blank_spec a s :
  0 <= a <= 2000 ->
  wp (for_range a 2000 1 (fun counter => st16 (vga counter) blank))
     (fun _ s' => exists m, s' = set_mem m s /\
        same_outside video_memory (video_memory + 4000) (mem s) m /\
        forall j, 0 <= j < 2000 -> load16 m (vga j) =
          if a <=? j then blank_cell else load16 (mem s) (vga j)) s.
Proof.
  intros Ha. eapply wp_mono.
  - apply (wp_for_mem (fun i m => same_outside video_memory (video_memory + 4000) (mem s) m /\
      forall j, 0 <= j < 2000 -> load16 m (vga j) =
        if (a <=? j) && (j <? i) then blank_cell else load16 (mem s) (vga j))); [|split|lia..].
    + intros i m Hi [Hout Hm]. k_steps. eexists. split; [done|]. cbn [mem set_mem]. split.
      { eapply same_outside_trans; [done|]. apply store16_vga_outside. lia. }
      intros j Hj. rewrite load16_vga, !Hm by lia.
      destruct (i =? j) eqn:Eij; bool_hyps.
      * subst. by replace (_ && _) with true by blia.
      * by replace (j <? i + 1) with (j <? i) by bool_eq_lia.
    + apply same_outside_refl.
    + intros j Hj. by replace (_ && _) with false by blia.
  - intros [] s' (m & -> & Hout & Hm). exists m. split; [done|]. split; [done|].
    intros j Hj. rewrite Hm by done. by replace (j <? 2000) with true by blia; rewrite andb_true_r.
Qed.

(** Moving every row up by one. *)
Lemma move_up_spec s :
  wp (for_range 0 1920 1 (fun counter => c <- ld16 (vga (counter + 80)); st16 (vga counter) c))
     (fun _ s' => exists m, s' = set_mem m s /\
        same_outside video_memory (video_memory + 4000) (mem s) m /\
        forall j, 0 <= j < 2000 -> load16 m (vga j) =
          if j <? 1920 then load16 (mem s) (vga (j + 80)) else load16 (mem s) (vga j)) s.
Proof.
  apply (wp_for_mem (fun i m => same_outside video_memory (video_memory + 4000) (mem s) m /\
    forall j, 0 <= j < 2000 -> load16 m (vga j) =
      if j <? i then load16 (mem s) (vga (j + 80)) else load16 (mem s) (vga j))); [|split|lia..].
  - intros i m Hi [Hout Hm]. k_steps. eexists. split; [done|]. cbn [mem set_mem]. split.
    { eapply same_outside_trans; [done|]. apply store16_vga_outside. lia. }
    intros j Hj. rewrite load16_vga, u16_load16, !Hm by lia.
    replace (i + 80 <? i) with false by blia.
    destruct (i =? j) eqn:Eij; bool_hyps.
    + subst. by replace (j <? j + 1) with true by blia.
    + by replace (j <? i + 1) with (j <? i) by bool_eq_lia.
  - apply same_outside_refl.
  - intros j Hj. by replace (j <? 0) with false by blia.
Qed.

Lemma scroll_spec l s :
  screen (mem s) l -> length l = 2000%nat -> 0 <= cursor_y (mon s) < 256 ->
  wp scroll (fun _ s' => exists m, same_outside video_memory (video_memory + 4000) (mem s) m /\
    if 25 <=? cursor_y (mon s)
    then s' = set_mem m (set_mon (MonitorGlobals (cursor_x (mon s)) 24) s) /\
         screen m (drop 80 l ++ replicate 80 blank_cell)
    else s' = s) s.
Proof.
  intros Hl Hlen Hy. unfold scroll, get_cursor_y, when. k_steps.
  destruct (25 <=? cursor_y (mon s)) eqn:E; bool_hyps; cycle 1.
  { k_steps. exists (mem s). split; [apply same_outside_refl|done]. }
  apply wp_bind. eapply wp_mono; [apply move_up_spec|].
  intros [] s1 (m1 & -> & Hout1 & Hm1).
  apply wp_bind. eapply wp_mono; [apply fill_blank_spec; lia|].
  intros [] s2 (m2 & -> & Hout2 & Hm2). unfold set_cursor_y. k_steps.
  exists m2. split; [by eapply same_outside_trans|]. split; [by destruct s|].
  apply screen_intro.
  { rewrite length_app, length_drop, length_replicate. lia. }
  intros j Hj. rewrite Hm2 by lia. cbn [mem set_mem]. rewrite Hm1 by lia.
  destruct (j <? 1920) eqn:Ej; bool_hyps.
  - replace (24 * 80 <=? j) with false by blia.
    rewrite lookup_app_l by (rewrite length_drop; lia). rewrite lookup_drop.
    replace (80 + Z.to_nat j)%nat with (Z.to_nat (j + 80)) by lia.
    apply screen_lookup; [done|lia].
  - replace (24 * 80 <=? j) with true by blia.
    rewrite lookup_app_r by (rewrite length_drop; lia).
    rewrite lookup_replicate. split; [done|]. rewrite length_drop. lia.
Qed.

Lemma move_cursor_spec t s :
  mon s = MonitorGlobals (col t) (row t) -> wf t ->
  wp move_cursor (fun _ s' => s' = set_trace (cursor_events t ++ trace s) s) s.
Proof.
  intros Hmon (_ & Hc & Hr). unfold move_cursor, get_cursor_x, get_cursor_y. k_steps.
  rewrite Hmon. simpl. unfold set_trace; simpl. do 2 f_equal; [|f_equal].
  all: rewrite (u16_id (row t * 80 + col t)) by lia; unfold u16, u8; simpl.
  all: rewrite ?Z.shiftr_div_pow2 by lia; f_equal.
  change (981 mod 65536) with 981. change (2 ^ 8) with 256. f_equal. apply Z.mod_small. dlia.
Qed.

Lemma console_frame_eq m es g s s' :
  s' = set_mem m (set_trace (es ++ trace s) (set_mon g s)) -> Forall port_output es ->
  same_outside video_memory (video_memory + 4000) (mem s) m -> console_frame s s'.
Proof. intros -> ??. split; [by eexists _, _, _|by exists es]. Qed.

Lemma console_frame_mon g s : console_frame s (set_mon g s).
Proof. by apply (console_frame_eq (mem s) [] g); [| |apply same_outside_refl]. Qed.

Lemma set_mon_set_mon g g' s : set_mon g (set_mon g' s) = set_mon g s.
Proof. done. Qed.

(** [move_cursor] in a state that shows [t]. *)
Lemma move_cursor_shows t s :
  shows s t ->
  wp move_cursor (fun _ s' => console_frame s s' /\ shows s' t /\
                    trace s' = cursor_events t ++ trace s) s.
Proof.
  intros Hs. pose proof Hs as (? & ? & ?). eapply wp_mono; [by apply move_cursor_spec|].
  intros [] s2 ->. split; [|done].
  apply (console_frame_eq (mem s) (cursor_events t) (mon s));
    [reflexivity|by repeat constructor|apply same_outside_refl].
Qed.

(** [scroll] in a state where the row may be 25. *)
Lemma scroll_shows x y l s :
  screen (mem s) l -> length l = 2000%nat -> 0 <= x < 80 -> 0 <= y <= 25 ->
  mon s = MonitorGlobals x y ->
  let t := if y =? 25 then Terminal (drop 80 l ++ replicate 80 blank_cell) x 24
           else Terminal l x y in
  wp scroll (fun _ s' => console_frame s s' /\ shows s' t /\ trace s' = trace s) s.
Proof.
  intros Hscr Hl Hx Hy Hmon t. eapply wp_mono.
  { apply (scroll_spec l); [done|done|]. rewrite Hmon. simpl. lia. }
  intros [] s1 (m & Hout & Hs1). rewrite Hmon in Hs1. cbn [cursor_x cursor_y] in Hs1.
  subst t. destruct (y =? 25) eqn:E; bool_hyps.
  - replace (25 <=? y) with true in Hs1 by blia. destruct Hs1 as [-> Hm].
    split; [|split; [|done]].
    + by apply (console_frame_eq m [] (MonitorGlobals x 24)).
    + split; [done|]. split; [done|]. split; [|split]; cbn [cells col row]; try lia.
      rewrite length_app, length_drop, length_replicate. lia.
  - replace (25 <=? y) with false in Hs1 by blia. subst s1. split; [reflexivity|].
    split; [|done]. split; [done|]. split; [done|]. split; [|split]; cbn [cells col row]; lia.
Qed.

(** The console with cells [l] and cursor [x, y], once the line has been wrapped
    and the text scrolled. *)
Definition roll (l : list Z) (x y : Z) : terminal :=
  if y =? 25 then Terminal (drop 80 l ++ replicate 80 blank_cell) x 24 else Terminal l x y.
Definition settle (l : list Z) (x y : Z) : terminal :=
  if x <? 80 then roll l x y else roll l 0 (y + 1).

Lemma newline_settle t : wf t -> newline t = settle (cells t) 0 (row t + 1).
Proof.
  intros (_ & _ & ?). unfold newline, settle, roll. simpl.
  by replace (row t =? 24) with (row t + 1 =? 25) by bool_eq_lia.
Qed.

Lemma goto_col_settle x t : wf t -> goto_col x t = settle (cells t) x (row t).
Proof.
  intros Hwf. unfold goto_col. rewrite newline_settle by done. unfold settle, roll.
  destruct Hwf as (_ & _ & ?). by replace (row t =? 25) with false by blia.
Qed.

(** The end of [monitor_put] wraps the line, scrolls and moves the cursor; [s1]
    is the state it starts in, reached from [s]. *)
Lemma put_tail l x y s s1 :
  console_frame s s1 -> trace s1 = trace s -> screen (mem s1) l -> length l = 2000%nat ->
  0 <= x < 256 -> 0 <= y <= 25 -> (80 <= x -> y <= 24) -> mon s1 = MonitorGlobals x y ->
  wp (x <- get_cursor_x;
      when (80 <=? x) (set_cursor_x 0 >> y <- get_cursor_y; set_cursor_y (y + 1)) >>
      scroll >> move_cursor)
     (fun _ s' => console_frame s s' /\ shows s' (settle l x y) /\
        trace s' = cursor_events (settle l x y) ++ trace s) s1.
Proof.
  intros Hfr0 Htr0 Hscr Hl Hx Hy Hxy Hmon. rewrite <- Htr0.
  unfold get_cursor_x, get_cursor_y, set_cursor_x, set_cursor_y, when, settle. k_steps.
  rewrite Hmon. cbn [cursor_x]. destruct (80 <=? x) eqn:E; bool_hyps; k_steps.
  - replace (x <? 80) with false by blia.
    eapply wp_mono; [apply (scroll_shows 0 (y + 1) l); try done; try lia|].
    { simpl. rewrite Hmon. simpl. by rewrite (u8_id (y + 1)) by lia. }
    intros [] s2 (Hfr & Hsh & Htr). cbn [trace set_mon] in Htr. rewrite <- Htr.
    eapply wp_mono; [by apply move_cursor_shows|]. intros [] s3 (Hfr2 & ? & Htr2).
    split; [|done]. etransitivity; [exact Hfr0|]. etransitivity; [|exact Hfr2].
    etransitivity; [|exact Hfr]. rewrite set_mon_set_mon. apply console_frame_mon.
  - replace (x <? 80) with true by blia.
    eapply wp_mono; [apply (scroll_shows x y l); try done; lia|].
    intros [] s2 (Hfr & Hsh & Htr). rewrite <- Htr.
    eapply wp_mono; [by apply move_cursor_shows|]. intros [] s3 (Hfr2 & ? & Htr2).
    split; [|done]. etransitivity; [exact Hfr0|]. by etransitivity.
Qed.

Lemma tab_stop x : 0 <= x < 80 -> u8 (Z.land (x + 8) (Z.lnot (8 - 1))) = (x / 8 + 1) * 8.
Proof.
  intros Hx. change (8 - 1) with (Z.ones 3). rewrite <- Z.ldiff_land, Z.ldiff_ones_r by lia.
  rewrite Z.shiftr_div_pow2, Z.shiftl_mul_pow2 by lia. change (2 ^ 3) with 8.
  replace ((x + 8) / 8) with (x / 8 + 1) by dlia. rewrite u8_id; dlia.
Qed.

Lemma char_cell c : 32 <= c < 128 -> u16 (Z.lor c (u16 (Z.shiftl attributeByte 8))) = 3840 + c.
Proof.
  intros Hc. change (u16 (Z.shiftl attributeByte 8)) with (15 * 2 ^ 8).
  rewrite lor_disjoint by lia. rewrite u16_id; lia.
Qed.

Lemma screen_store m l i v :
  screen m l -> length l = 2000%nat -> 0 <= i < 2000 -> u16 v = v ->
  screen (store16 m (vga i) v) (<[Z.to_nat i := v]> l).
Proof.
  intros Hl Hlen Hi Hv. apply screen_intro; [by rewrite length_insert|].
  intros j Hj. rewrite load16_vga by done. destruct (i =? j) eqn:E; bool_hyps.
  - subst. rewrite Hv. apply list_lookup_insert_eq. lia.
  - rewrite list_lookup_insert_ne by lia. by apply screen_lookup.
Qed.

Lemma settle_id t x :
  wf t -> 0 <= x < 80 -> settle (cells t) x (row t) = Terminal (cells t) x (row t).
Proof.
  intros (_ & _ & ?) ?. unfold settle, roll. replace (x <? 80) with true by blia.
  by replace (row t =? 25) with false by blia.
Qed.

(** The cells, column and row with which the end of [monitor_put] is reached. *)
Definition put_args (c : Z) (t : terminal) : list Z * Z * Z :=
  if c =? 8 then (cells t, Z.max 0 (col t - 1), row t)
  else if c =? 9 then (cells t, (col t / 8 + 1) * 8, row t)
  else if c =? 13 then (cells t, 0, row t)
  else if c =? 10 then (cells t, 0, row t + 1)
  else if c <? 32 then (cells t, col t, row t)
  else (<[Z.to_nat (row t * 80 + col t) := 3840 + c]> (cells t), col t + 1, row t).

Lemma put_args_settle c t :
  wf t -> put c t = let '(l, x, y) := put_args c t in settle l x y.
Proof.
  intros Hwf. pose proof Hwf as (Hl & Hc & Hr). unfold put, put_args.
  destruct (c =? 8). { rewrite settle_id by (done || lia). done. }
  destruct (c =? 9). { by apply goto_col_settle. }
  destruct (c =? 13). { rewrite settle_id by (done || lia). done. }
  destruct (c =? 10). { by apply newline_settle. }
  destruct (c <? 32). { rewrite settle_id by (done || lia). by destruct t. }
  rewrite goto_col_settle; [done|]. split; [|done]. simpl. by rewrite length_insert.
Qed.

(** [monitor_put] implements the abstract [put]. *)
Lemma monitor_put_spec c t s :
  shows s t -> c < 128 ->
  wp (monitor_put c) (fun _ s' => console_frame s s' /\ shows s' (put c t) /\
    trace s' = cursor_events (put c t) ++ trace s) s.
Proof.
  intros (Hscr & Hmon & Hwf) Hc8. pose proof Hwf as (Hl & Hc & Hr).
  rewrite put_args_settle by done. unfold put_args.
  unfold monitor_put. unfold get_cursor_x at 1, set_cursor_x at 1 2 3 4. k_steps.
  rewrite Hmon. cbn [cursor_x]. unfold truth.
  destruct (c =? 8) eqn:E8; bool_hyps.
  { subst c. destruct (col t =? 0) eqn:E0; bool_hyps; simpl.
    - k_steps. rewrite E0. apply put_tail; try done; lia || reflexivity || idtac.
      by rewrite E0 in Hmon.
    - k_steps. rewrite Z.max_r by lia. apply put_tail; try done; try lia.
      + apply console_frame_mon.
      + simpl. rewrite Hmon. simpl. by rewrite (u8_id (col t - 1)) by lia. }
  destruct (c =? 9) eqn:E9; bool_hyps; simpl.
  { k_steps. apply put_tail; try done; try dlia.
    - apply console_frame_mon.
    - simpl. rewrite Hmon. simpl. f_equal. by apply tab_stop. }
  destruct (c =? 13) eqn:E13; bool_hyps; simpl.
  { k_steps. apply put_tail; try done; try lia.
    - apply console_frame_mon.
    - simpl. by rewrite Hmon. }
  destruct (c =? 10) eqn:E10; bool_hyps; simpl.
  { unfold get_cursor_y at 1, set_cursor_y at 1. k_steps.
    apply put_tail; try done; try lia.
    - rewrite set_mon_set_mon. apply console_frame_mon.
    - simpl. rewrite Hmon. simpl. by rewrite (u8_id (row t + 1)) by lia. }
  unfold when at 1. destruct (32 <=? c) eqn:E32; bool_hyps.
  - replace (c <? 32) with false by blia. unfold get_cursor_y at 1. k_steps.
    rewrite Hmon. cbn [cursor_x cursor_y mon set_mem]. rewrite char_cell by lia.
    apply put_tail; try done; try lia.
    + eapply (console_frame_eq _ []); [reflexivity|constructor|]. apply store16_vga_outside. lia.
    + apply screen_store; [done|done|lia|]. apply u16_id. lia.
    + by rewrite length_insert.
    + simpl. rewrite Hmon. simpl. by rewrite (u8_id (col t + 1)) by lia.
  - replace (c <? 32) with true by blia. k_steps. by apply put_tail; try done; lia.
Qed.

(** ** Strings and numbers on the console *)

(** [c] reads the string [l] whatever the console routines do. *)
Definition console_string (c : charp) (l : list Z) (s : kstate) : Prop :=
  forall s', console_frame s s' -> cstring c l s'.

Lemma lit_console_string l s :
  Forall (fun b => 0 < b < 256) l -> Z.of_nat (length l) < 2147483647 ->
  console_string (lit l) l s.
Proof. intros ?? s' _. by apply lit_cstring. Qed.

Lemma console_string_trans c l s s' :
  console_string c l s -> console_frame s s' -> console_string c l s'.
Proof. intros H ? s'' ?. apply H. by etransitivity. Qed.

Lemma s8_lt b : s8 b < 128.
Proof. apply s8_range. Qed.

Lemma monitor_write_spec c l t s :
  shows s t -> console_string c l s ->
  wp (monitor_write c) (fun _ s' => console_frame s s' /\ shows s' (write (s8 <$> l) t)) s.
Proof.
  intros Hs Hc. unfold monitor_write. apply wp_bind. eapply wp_mono.
  - apply (wp_while _ _
      (fun i s' => exists k : nat, i = Z.of_nat k /\ (k <= length l)%nat /\ console_frame s s' /\
         shows s' (write (s8 <$> take k l) t))
      (fun i _ => Z.of_nat (length l) - i)
      (fun i s' => console_frame s s' /\ shows s' (write (s8 <$> l) t))).
    + intros i s' (k & -> & ? & _). lia.
    + intros i s' (k & -> & Hk & Hfr & Hsh). pose proof (Hc _ Hfr) as Hcs.
      cstring_read Hcs k b. k_steps. unfold truth. rewrite s8_zero by done.
      destruct (b =? 0) eqn:E; bool_hyps; simpl.
      { split; [done|]. by rewrite <- (firstn_all l), <- (proj1 H0 E). }
      cstring_read Hcs k b'. simplify_eq. k_steps.
      eapply wp_mono; [apply monitor_put_spec; [done|apply s8_lt]|].
      intros [] s2 (Hfr2 & Hsh2 & _). k_steps.
      assert (Z.of_nat (length l) < 2147483647) by exact (cstr_len _ _ _ Hcs).
      rewrite (s32_id (Z.of_nat k + 1)) by lia. split; [|lia].
      exists (S k). split; [lia|]. split; [lia|]. split; [by etransitivity|].
      rewrite (take_S_r l k b) by by rewrite lookup_app_l in Hb by lia.
      by rewrite fmap_app, write_app.
    + exists 0%nat. split; [done|]. split; [lia|]. split; [reflexivity|done].
    + pose proof (cstr_len _ _ _ (Hc s ltac:(reflexivity))). lia.
  - intros i s' H. by apply wp_ret.
Qed.

(** Characters the kernel's literals are made of are their own values. *)
Lemma s8_fmap_id l : Forall (fun b => 0 < b < 128) l -> s8 <$> l = l.
Proof.
  intros H. rewrite <- (list_fmap_id l) at 2. apply list_fmap_ext.
  intros i x Hx. eapply Forall_lookup_1 in Hx; [|done]. simpl in *. apply s8_id. lia.
Qed.

Lemma monitor_write_lit l t s :
  shows s t -> Forall (fun b => 0 < b < 128) l -> Z.of_nat (length l) < 2147483647 ->
  wp (monitor_write (lit l)) (fun _ s' => console_frame s s' /\ shows s' (write l t)) s.
Proof.
  intros Hs Hl Hn. pose proof (monitor_write_spec (lit l) l t s Hs) as H.
  rewrite s8_fmap_id in H by done. apply H. apply lit_console_string; [|done].
  eapply Forall_impl; [exact Hl|]. simpl. lia.
Qed.

(** The number a sequence of digits denotes in base [b]. *)
Definition number_of (b : Z) (digit : Z -> Z) (l : list Z) : Z :=
  foldl (fun a c => a * b + digit c) 0 l.
Definition dec_value (c : Z) : Z := c - 48.
Definition hex_value (c : Z) : Z := if c <? 58 then c - 48 else c - 87.
Definition decimal_digit (c : Z) : Prop := 48 <= c <= 57.
Definition hexadecimal_digit (c : Z) : Prop := 48 <= c <= 57 \/ 97 <= c <= 102.

Lemma number_of_snoc b digit l c :
  number_of b digit (l ++ [c]) = number_of b digit l * b + digit c.
Proof. unfold number_of. by rewrite foldl_app. Qed.

Lemma number_of_cons b digit l c :
  number_of b digit (c :: l) = digit c * b ^ Z.of_nat (length l) + number_of b digit l.
Proof.
  induction l as [|d l IH] using rev_ind; [unfold number_of; simpl; lia|].
  rewrite app_comm_cons, !number_of_snoc, IH, length_app. simpl.
  replace (Z.of_nat (length l + 1)) with (Z.succ (Z.of_nat (length l))) by lia.
  rewrite Z.pow_succ_r; lia.
Qed.

(** The digits [dec_digits] produces, least significant first. *)
Lemma dec_digits_spec n s :
  0 < n < 2147483648 ->
  wp (dec_digits n) (fun c s' => s' = s /\ c <> [] /\ Forall decimal_digit c /\
    number_of 10 dec_value (rev c) = n /\ hd 0 (rev c) <> 48) s.
Proof.
  intros Hn. unfold dec_digits. apply wp_bind. eapply wp_mono.
  - apply (wp_while _ _
      (fun '(acc, c) t => t = s /\ 0 <= acc < 2147483648 /\ Forall decimal_digit c /\
         n = acc * 10 ^ Z.of_nat (length c) + number_of 10 dec_value (rev c) /\
         (acc = 0 -> c <> [] /\ hd 0 (rev c) <> 48))
      (fun '(acc, _) _ => acc)
      (fun '(acc, c) t => t = s /\ c <> [] /\ Forall decimal_digit c /\
         number_of 10 dec_value (rev c) = n /\ hd 0 (rev c) <> 48)).
    + intros [acc c] t (_ & ? & _). lia.
    + intros [acc c] t (-> & Hacc & Hc & Hv & Hz). k_steps.
      destruct (0 <? acc) eqn:E; bool_hyps; k_steps; cycle 1.
      { assert (acc = 0) as -> by lia. destruct (Hz eq_refl). repeat split; try done; lia. }
      rewrite Z.quot_div_nonneg, Z.rem_mod_nonneg by lia.
      rewrite (s8_id (48 + acc mod 10)) by dlia. split; [|dlia].
      split; [done|]. split; [dlia|]. split.
      { apply Forall_app. split; [done|]. repeat constructor; dlia. }
      rewrite rev_unit, number_of_cons, length_rev, length_app. simpl. split.
      { replace (Z.of_nat (length c + 1)) with (Z.succ (Z.of_nat (length c))) by lia.
        rewrite Z.pow_succ_r by lia. unfold dec_value at 1. rewrite Hv.
        rewrite (Z.div_mod acc 10) at 1 by lia. ring. }
      intros. split; [by destruct c|dlia].
    + repeat split; try done; try lia. unfold number_of. simpl. lia.
    + lia.
  - intros [acc c] t H. by apply wp_ret.
Qed.

Lemma number_of_nonneg l : Forall decimal_digit l -> 0 <= number_of 10 dec_value l.
Proof.
  induction l as [|d l IH]; intros H; [done|]. apply Forall_cons in H as [Hd Hl].
  rewrite number_of_cons. specialize (IH Hl). unfold decimal_digit, dec_value in *.
  pose proof (Z.pow_nonneg 10 (Z.of_nat (length l))). nia.
Qed.

(** A numeral without a leading zero has as many digits as its value needs. *)
Lemma decimal_length l n :
  Forall decimal_digit l -> number_of 10 dec_value l = n -> hd 0 l <> 48 ->
  n < 10 ^ 10 -> (length l <= 10)%nat.
Proof.
  destruct l as [|d l]; intros H Hv Hd Hn; simpl in *; [lia|].
  apply Forall_cons in H as [Hdd Hl]. rewrite number_of_cons in Hv.
  pose proof (number_of_nonneg l Hl). unfold decimal_digit, dec_value in *.
  destruct (decide (10 <= length l)%nat); [|lia].
  assert (10 ^ 10 <= 10 ^ Z.of_nat (length l)) by (apply Z.pow_le_mono_r; lia). nia.
Qed.

Lemma hex_digit_spec d :
  0 <= d < 16 ->
  hexadecimal_digit (hex_digit d) /\ hex_value (hex_digit d) = d /\
  (hex_digit d = 48 -> d = 0) /\ hex_digit d < 128.
Proof.
  intros Hd. unfold hex_digit, hexadecimal_digit, hex_value.
  destruct (10 <=? d) eqn:E; bool_hyps; rewrite s8_id by lia.
  - replace (d - 10 + 97 <? 58) with false by blia. lia.
  - replace (d + 48 <? 58) with true by blia. lia.
Qed.

Lemma land_15 n : Z.land n 15 = n mod 16.
Proof. change 15 with (Z.ones 4). by rewrite Z.land_ones by lia. Qed.

(** What one more hexadecimal digit does to a numeral. *)
Lemma hex_snoc n l k :
  0 <= k -> number_of 16 hex_value l = n / 2 ^ (k + 4) ->
  number_of 16 hex_value (l ++ [hex_digit (Z.land (Z.shiftr n k) 15)]) = n / 2 ^ k.
Proof.
  intros Hk Hl. rewrite number_of_snoc, Hl, land_15, Z.shiftr_div_pow2 by lia.
  destruct (hex_digit_spec ((n / 2 ^ k) mod 16)) as (_ & -> & _); [dlia|].
  rewrite Z.pow_add_r, <- Z.div_div by lia. change (2 ^ 4) with 16. dlia.
Qed.

(** The invariant of the loop of [monitor_write_hex]: the digits shown so far
    are those of [n] above bit [counter + 4], without leading zeros. *)
Definition hex_inv (n : Z) (t : terminal) (s : kstate) (x : Z * Z) (s' : kstate) : Prop :=
  let '(counter, noZeroes) := x in
  exists l, 0 <= counter <= 28 /\ counter mod 4 = 0 /\
    console_frame s s' /\ shows s' (write (str "0x" ++ l) t) /\
    Forall hexadecimal_digit l /\ number_of 16 hex_value l = n / 2 ^ (counter + 4) /\
    Z.of_nat (length l) <= (28 - counter) / 4 /\
    (noZeroes = if decide (l = []) then 1 else 0) /\ (l <> [] -> hd 0 l <> 48).

Lemma hex_step n t s counter noZeroes s' :
  hex_inv n t s (counter, noZeroes) s' -> 0 < counter ->
  wp (let temp := Z.land (Z.shiftr n counter) 15 in
      if (temp =? 0) && truth noZeroes then ret (counter - 4, noZeroes)
      else monitor_put (hex_digit temp) >> ret (counter - 4, 0))
     (fun x' t' => hex_inv n t s x' t' /\ fst x' < counter) s'.
Proof.
  intros (l & Hc & Hm & Hfr & Hsh & Hd & Hv & Hn & Hz & Hh) Hpos. cbv zeta.
  assert (Hc4 : 4 <= counter) by dlia.
  pose proof (hex_snoc n l counter ltac:(lia) Hv) as Hsnoc.
  set (temp := Z.land (Z.shiftr n counter) 15) in *.
  assert (Ht : 0 <= temp < 16) by (subst temp; rewrite land_15; dlia).
  destruct (hex_digit_spec temp Ht) as (Hdig & Hval & Hzero & H128).
  destruct (decide (temp = 0 /\ l = [])) as [[Ht0 ->]|Hne].
  - rewrite Ht0, Hz. k_steps. split; [|simpl; lia].
    exists []. replace (counter - 4 + 4) with counter by lia.
    rewrite number_of_snoc, Hval, Ht0 in Hsnoc.
    split; [lia|]. split; [dlia|]. repeat (split; [done|]).
    split; [simpl; dlia|done].
  - replace ((temp =? 0) && truth noZeroes) with false.
    2:{ symmetry. apply andb_false_iff. destruct (decide (temp = 0)); [right|left].
        - rewrite Hz. rewrite decide_False; [done|]. intros ->. by apply Hne.
        - by apply Z.eqb_neq. }
    k_steps. eapply wp_mono; [by apply monitor_put_spec|].
    intros [] s2 (Hfr2 & Hsh2 & _). k_steps. split; [|simpl; lia].
    exists (l ++ [hex_digit temp]). replace (counter - 4 + 4) with counter by lia.
    split; [lia|]. split; [dlia|]. split; [by etransitivity|].
    split. { rewrite app_assoc. by rewrite write_app. }
    split. { apply Forall_app. split; [done|by constructor]. }
    split; [done|]. split. { rewrite length_app. simpl. dlia. }
    split. { rewrite decide_False; [done|]. by destruct l. }
    intros _. destruct l as [|d l]; simpl; [|by apply Hh].
    intros E%Hzero. by apply Hne.
Qed.

(** *** Main properties of the console *)

(** C5: monitor_put implements the abstract console for every character: control characters, wrapping and scrolling included, and moves the hardware cursor to the new position. *)
Theorem monitor_put_refines_terminal c t s :
  shows s t -> c < 128 ->
  wp (monitor_put c) (fun _ s' => console_frame s s' /\ shows s' (put c t) /\
    trace s' = cursor_events (put c t) ++ trace s) s.
Proof. apply monitor_put_spec. Qed.

Lemma write_dec_spec n t s :
  shows s t -> 0 <= n < 2147483648 ->
  wp (monitor_write_dec n) (fun _ s' => exists l,
    console_frame s s' /\ shows s' (write l t) /\
    Forall decimal_digit l /\ number_of 10 dec_value l = n /\
    (hd 0 l = 48 -> l = [48]) /\ (1 <= length l <= 10)%nat) s.
Proof.
  intros Hs Hn. unfold monitor_write_dec. destruct (n =? 0) eqn:E; bool_hyps.
  - subst n. eapply wp_mono; [by apply monitor_put_spec|]. intros [] s' (Hfr & Hsh & _).
    exists [48]. do 2 (split; [done|]). split; [|simpl; repeat split; lia].
    constructor; [unfold decimal_digit; lia|constructor].
  - rewrite s32_id by lia. apply wp_bind. eapply wp_mono; [apply dec_digits_spec; lia|].
    intros c s' (-> & Hne & Hd & Hv & Hh).
    apply Forall_rev in Hd. pose proof (decimal_length _ _ Hd Hv Hh ltac:(lia)) as Hlen.
    eapply wp_mono.
    { apply monitor_write_lit; [done| |lia]. eapply Forall_impl; [exact Hd|].
      unfold decimal_digit. simpl. lia. }
    intros [] s'' (Hfr & Hsh). exists (rev c). do 4 (split; [done|]). split; [done|].
    split; [|done]. rewrite length_rev. destruct c; [done|simpl; lia].
Qed.

(** C34: monitor_write_dec prints the decimal numeral of a number below 2^31, without leading zeroes. *)
Theorem monitor_write_dec_correct n t s :
  shows s t -> 0 <= n < 2147483648 ->
  wp (monitor_write_dec n) (fun _ s' => exists l,
    console_frame s s' /\ shows s' (write l t) /\
    Forall decimal_digit l /\ number_of 10 dec_value l = n /\
    (hd 0 l = 48 -> l = [48]) /\ (1 <= length l <= 10)%nat) s.
Proof. apply write_dec_spec. Qed.

(** Beyond [2 ^ 31] the conversion to [s32int] is negative and no digit is
    printed. *)
Theorem monitor_write_dec_large n s :
  2147483648 <= n < 4294967296 -> wp (monitor_write_dec n) (fun _ s' => s' = s) s.
Proof.
  intros Hn. unfold monitor_write_dec. replace (n =? 0) with false by blia.
  apply wp_bind. unfold dec_digits. apply wp_bind.
  apply (wp_while _ _ (fun x t => x = (s32 n, []) /\ t = s) (fun _ _ => 0)).
  - lia.
  - intros x t [-> ->]. k_steps. replace (0 <? s32 n) with false by (unfold s32; dlia).
    k_steps. apply wp_bind.
    apply (wp_while _ _ (fun x t => x = 0 /\ t = s) (fun _ _ => 0)); try lia; [|done].
    intros x t [-> ->]. unfold lit, arr. simpl. by k_steps.
  - done.
  - lia.
Qed.

Lemma write_hex_spec n t s :
  shows s t -> 0 <= n < 4294967296 ->
  wp (monitor_write_hex n) (fun _ s' => exists l,
    console_frame s s' /\ shows s' (write (str "0x" ++ l) t) /\
    Forall hexadecimal_digit l /\ number_of 16 hex_value l = n /\
    (hd 0 l = 48 -> l = [48]) /\ (1 <= length l <= 8)%nat) s.
Proof.
  intros Hs Hn. unfold monitor_write_hex. apply wp_bind.
  eapply wp_mono; [apply monitor_write_lit; [done|by repeat constructor|simpl; lia]|].
  intros [] s1 (Hfr1 & Hsh1). apply wp_bind. eapply wp_mono.
  { apply (wp_while _ _ (hex_inv n t s) (fun x _ => fst x)
      (fun x s' => hex_inv n t s x s' /\ fst x <= 0)).
    - intros [counter z] s' (l & ? & _). simpl. lia.
    - intros [counter z] s' Hinv. k_steps. destruct (0 <? counter) eqn:E; bool_hyps.
      + by apply hex_step.
      + done.
    - exists []. split; [lia|]. do 2 (split; [done|]). split; [by rewrite app_nil_r|].
      split; [done|]. split; [|done]. symmetry. apply Z.div_small. lia.
    - simpl. lia. }
  intros [counter z] s2 [(l & Hc & _ & Hfr & Hsh & Hd & Hv & Hlen & _ & Hh) Hc0].
  simpl in Hc0. assert (counter = 0) as -> by lia.
  pose proof (hex_snoc n l 0 ltac:(lia) Hv) as Hsnoc.
  rewrite Z.shiftr_0_r, Z.div_1_r in Hsnoc.
  assert (Ht : 0 <= Z.land n 15 < 16) by (rewrite land_15; dlia).
  destruct (hex_digit_spec _ Ht) as (Hdig & _ & _ & H128).
  eapply wp_mono; [by apply monitor_put_spec|]. intros [] s3 (Hfr3 & Hsh3 & _).
  exists (l ++ [hex_digit (Z.land n 15)]). split; [by etransitivity|].
  split; [by rewrite app_assoc, write_app|].
  split; [apply Forall_app; split; [done|by constructor]|]. split; [done|].
  split. { destruct l as [|d l]; simpl; [by intros ->|]. intros ->. by destruct Hh. }
  rewrite length_app. simpl. change ((28 - 0) / 4) with 7 in Hlen. lia.
Qed.

(** monitor_write_hex prints 0x and the hexadecimal numeral of the number without leading zeroes. *)
Theorem monitor_write_hex_correct n t s :
  shows s t -> 0 <= n < 4294967296 ->
  wp (monitor_write_hex n) (fun _ s' => exists l,
    console_frame s s' /\ shows s' (write (str "0x" ++ l) t) /\
    Forall hexadecimal_digit l /\ number_of 16 hex_value l = n /\
    (hd 0 l = 48 -> l = [48]) /\ (1 <= length l <= 8)%nat) s.
Proof. apply write_hex_spec. Qed.

(** monitor_write terminates and writes the characters of a terminated string one by one on the abstract console. *)
Theorem monitor_write_refines_terminal c l t s :
  shows s t -> console_string c l s ->
  wp (monitor_write c) (fun _ s' => console_frame s s' /\ shows s' (write (s8 <$> l) t)) s.
Proof. apply monitor_write_spec. Qed.

Lemma clear_spec s :
  wp monitor_clear (fun _ s' => console_frame s s' /\ shows s' clear /\
    trace s' = cursor_events clear ++ trace s) s.
Proof.
  unfold monitor_clear. apply wp_bind. eapply wp_mono; [apply (fill_blank_spec 0); lia|].
  intros [] s1 (m & -> & Hout & Hm). unfold set_cursor_x, set_cursor_y. k_steps.
  assert (Hsh : shows (set_mon (MonitorGlobals 0 0) (set_mem m s)) clear).
  { split; [|split; [done|]].
    - apply screen_intro; [apply length_replicate|]. intros j Hj. rewrite Hm by done.
      replace (0 <=? j) with true by blia. apply lookup_replicate. lia.
    - split; [apply length_replicate|]. cbn [col row clear]. lia. }
  rewrite set_mon_set_mon. eapply wp_mono; [by apply move_cursor_shows|].
  intros [] s2 (Hfr & ? & ?). split; [|done]. etransitivity; [|exact Hfr].
  by apply (console_frame_eq m [] (MonitorGlobals 0 0)).
Qed.

(** monitor_clear blanks the 2000 cells, homes the cursor and changes nothing else. *)
Theorem monitor_clear_correct s :
  wp monitor_clear (fun _ s' => console_frame s s' /\ shows s' clear /\
    trace s' = cursor_events clear ++ trace s) s.
Proof. apply clear_spec. Qed.

(** The two bytes sent to the cursor registers are the cell index. *)
Theorem cursor_events_position t :
  exists hi lo, cursor_events t = [Outb 981 lo; Outb 980 15; Outb 981 hi; Outb 980 14] /\
    hi * 256 + lo = row t * 80 + col t.
Proof. eexists _, _. split; [reflexivity|dlia]. Qed.

(** An array on the stack reads as the bytes before its first zero. *)
Lemma arr_console_string l rest s :
  Forall (fun b => 0 < b < 256) l -> Z.of_nat (length l) < 2147483647 ->
  console_string (arr (l ++ 0 :: rest)) l s.
Proof.
  intros Hl Hn s' _. constructor; [done|done|]. intros i b Hb.
  pose proof (lookup_lt_Some _ _ _ Hb) as Hi. rewrite length_app in Hi. cbn in Hi.
  assert (Hb' : (l ++ 0 :: rest) !! i = Some b).
  { change (0 :: rest) with ([0] ++ rest). rewrite app_assoc, lookup_app_l; [done|]. rewrite length_app. cbn. lia. }
  unfold arr. rewrite Nat2Z.id, Hb'. by replace (Z.of_nat i <? 0) with false by blia.
Qed.

(** The status line of [monitor_write_padded]. *)
Definition status_line (l : list Z) (success : Z) : list Z :=
  l ++ replicate (75 - length l) 46 ++ (if truth success then str "[OK]" else str "[FL]") ++ [10].

Lemma status_line_char l success :
  Forall (fun b => 0 < b < 128) l -> Forall (fun b => 0 < b < 128) (status_line l success).
Proof.
  intros Hl. unfold status_line. apply Forall_app. split; [done|]. apply Forall_app. split.
  - apply Forall_replicate. lia.
  - by destruct (truth success); repeat constructor.
Qed.

Lemma read_message l s :
  Forall (fun b => 0 < b < 128) l -> (length l <= 75)%nat ->
  wp (while (fun '(strln, buff) => x <- lit l strln; ret (truth x))
        (fun '(strln, buff) => x <- lit l strln;
           if strln <? 80 then ret (u16 (strln + 1), buff ++ [u8 x]) else undefined) (0, []))
    (fun r s' => r = (Z.of_nat (length l), l) /\ s' = s) s.
Proof.
  intros Hl Hn.
  assert (Hc : cstring (lit l) l s).
  { apply lit_cstring; [|lia]. eapply Forall_impl; [exact Hl|]. simpl. lia. }
  apply (wp_while _ _ (fun r s' => s' = s /\ exists k : nat, (k <= length l)%nat /\ r = (Z.of_nat k, take k l))
    (fun r _ => Z.of_nat (length l) - fst r)).
  - intros r s' (_ & k & Hk & ->). cbn [fst]. lia.
  - intros r s' (-> & k & Hk & ->). cstring_read Hc k b. k_steps. unfold truth. rewrite s8_zero by done.
    destruct (b =? 0) eqn:E; bool_hyps; simpl.
    + replace k with (length l) by (symmetry; by apply H0). by rewrite firstn_all.
    + cstring_read Hc k b'. simplify_eq. k_steps. replace (Z.of_nat k <? 80) with true by blia. k_steps.
      rewrite (u16_id (Z.of_nat k + 1)) by lia.
      split; [|cbn [fst]; lia]. split; [done|]. exists (S k). split; [lia|].
      assert (Hlk : l !! k = Some b) by by rewrite lookup_app_l in Hb by lia.
      rewrite (take_S_r l k b Hlk). f_equal; [lia|]. do 2 f_equal. unfold u8, s8. dlia.
  - split; [done|]. exists 0%nat. split; [lia|done].
  - cbn [fst]. lia.
Qed.

Lemma write_padded_spec l success junk rest t s :
  shows s t -> Forall (fun b => 0 < b < 128) l -> (length l <= 75)%nat ->
  Forall (fun b => 0 < b < 256) junk -> Z.of_nat (length junk) < 2147483000 ->
  wp (monitor_write_padded (junk ++ 0 :: rest) (lit l) success) (fun _ s' => console_frame s s' /\
    shows s' (write (s8 <$> junk) (write (status_line l success) t))) s.
Proof.
  intros Hs Hl Hn Hj Hjn. unfold monitor_write_padded. apply wp_bind.
  eapply wp_mono; [by apply read_message|]. intros r s' (-> & ->).
  replace (Z.to_nat (75 - Z.of_nat (length l))) with (75 - length l)%nat by lia.
  rewrite take_ge by (rewrite length_app, length_replicate; lia).
  match goal with |- wp (monitor_write (arr ?x)) _ _ =>
    replace x with ((status_line l success ++ junk) ++ 0 :: rest)
  end.
  2: { unfold status_line. by rewrite <- !app_assoc. }
  eapply wp_mono; [apply (monitor_write_spec _ (status_line l success ++ junk) t); [done|]|].
  - pose proof (status_line_char l success Hl) as Hline. apply arr_console_string.
    + apply Forall_app. split; [|done]. eapply Forall_impl; [exact Hline|]. simpl. lia.
    + unfold status_line. rewrite !length_app, length_replicate. destruct (truth success); cbn [length str]; simpl length; lia.
  - intros [] s' [Hfr Hsh]. split; [done|].
    rewrite fmap_app, write_app, (s8_fmap_id (status_line l success)) in Hsh by by apply status_line_char.
    exact Hsh.
Qed.

(** [monitor_write_padded] prints the message, dots up to column 75, the verdict
    and a line feed; and then, as the array has no terminator, the bytes that
    follow it on the stack up to a zero. *)
Theorem monitor_write_padded_correct l success junk rest t s :
  shows s t -> Forall (fun b => 0 < b < 128) l -> (length l <= 75)%nat ->
  Forall (fun b => 0 < b < 256) junk -> Z.of_nat (length junk) < 2147483000 ->
  wp (monitor_write_padded (junk ++ 0 :: rest) (lit l) success) (fun _ s' => console_frame s s' /\
    shows s' (write (s8 <$> junk) (write (status_line l success) t))) s.
Proof. apply write_padded_spec. Qed.

(** Writing several literals one after the other. *)
Lemma write_then {A} l (k : K A) t s (Q : kstate -> Prop) :
  shows s t -> Forall (fun b => 0 < b < 128) l -> Z.of_nat (length l) < 2147483647 ->
  (forall s', console_frame s s' -> shows s' (write l t) -> halts k Q s') ->
  halts (monitor_write (lit l) >> k) Q s.
Proof.
  intros Hs Hl Hn Hk. apply halts_bind. eapply wp_mono; [by apply monitor_write_lit|].
  intros [] s' [? ?]. by apply Hk.
Qed.

(** What [panic] leaves on the screen. *)
Definition panic_text (message file digits : list Z) : list Z :=
  str "PANIC(" ++ message ++ str ") at " ++ file ++ str ":" ++ digits ++ [10] ++
  (str "Computer halting now!" ++ [10]).

Lemma panic_spec {A} message file line t s :
  shows s t -> 0 <= line < 2147483648 ->
  Forall (fun b => 0 < b < 128) message -> Z.of_nat (length message) < 2147483647 ->
  Forall (fun b => 0 < b < 128) file -> Z.of_nat (length file) < 2147483647 ->
  halts (A := A) (panic message file line) (fun s' => exists digits,
    number_of 10 dec_value digits = line /\
    shows s' (write (panic_text message file digits) t) /\
    head (trace s') = Some Hlt) s.
Proof.
  intros Hs Hline Hm Hml Hf Hfl. unfold panic. apply halts_bind. apply wp_emit.
  set (s1 := set_trace (Cli :: trace s) s). assert (H1 : shows s1 t) by done.
  apply (write_then _ _ t); [done|by repeat constructor|simpl; lia|]. intros s2 _ H2.
  eapply write_then; [exact H2|done|done|]. intros s3 _ H3.
  eapply write_then; [exact H3|by repeat constructor|simpl; lia|]. intros s4 _ H4.
  eapply write_then; [exact H4|done|done|]. intros s5 _ H5.
  eapply write_then; [exact H5|by repeat constructor|simpl; lia|]. intros s6 _ H6.
  apply halts_bind. eapply wp_mono; [by apply write_dec_spec|].
  intros [] s7 (digits & _ & H7 & _ & Hv & _).
  eapply write_then; [exact H7|by repeat constructor|simpl; lia|]. intros s8 _ H8.
  eapply write_then; [exact H8|by repeat constructor|simpl; lia|]. intros s9 _ H9.
  apply halts_bind, wp_emit. exists digits. split; [done|]. split; [|done].
  unfold panic_text. rewrite !write_app in *. exact H9.
Qed.

(** panic prints message, file and line and stops the processor. *)
Theorem panic_halts message file line t s :
  shows s t -> 0 <= line < 2147483648 ->
  Forall (fun b => 0 < b < 128) message -> Z.of_nat (length message) < 2147483647 ->
  Forall (fun b => 0 < b < 128) file -> Z.of_nat (length file) < 2147483647 ->
  halts (A := unit) (panic message file line) (fun s' => exists digits,
    number_of 10 dec_value digits = line /\
    shows s' (write (panic_text message file digits) t) /\
    head (trace s') = Some Hlt) s.
Proof. apply panic_spec. Qed.

(** [panic] stops the machine. *)
Lemma panic_stops {A} message file line t s :
  shows s t -> 0 <= line < 2147483648 ->
  Forall (fun b => 0 < b < 128) message -> Z.of_nat (length message) < 2147483647 ->
  Forall (fun b => 0 < b < 128) file -> Z.of_nat (length file) < 2147483647 ->
  halts (A := A) (panic message file line) (fun s' => head (trace s') = Some Hlt) s.
Proof.
  intros Hs Hline Hm Hml Hf Hfl.
  eapply halts_mono; [by apply (panic_spec message file line t)|].
  by intros s' (? & _ & _ & ?).
Qed.

Lemma screen_frame_trace tr s : screen_frame s (set_trace tr s).
Proof. exists (mem s), tr, (mon s). split; [by destruct s|apply same_outside_refl]. Qed.

(** A failed assertion stops the machine after printing its message. *)
Lemma panic_assert_halts {A} file line desc t s :
  shows s t -> 0 <= line < 2147483648 ->
  Forall (fun b => 0 < b < 128) file -> Z.of_nat (length file) < 2147483647 ->
  Forall (fun b => 0 < b < 128) desc -> Z.of_nat (length desc) < 2147483647 ->
  halts (A := A) (panic_assert file line desc)
    (fun s' => head (trace s') = Some Hlt /\ screen_frame s s') s.
Proof.
  intros Hs Hline Hm Hml Hf Hfl. unfold panic_assert. apply halts_bind. apply wp_emit.
  set (s1 := set_trace (Cli :: trace s) s). assert (H1 : shows s1 t) by done.
  pose proof (screen_frame_trace (Cli :: trace s) s : screen_frame s s1) as F1.
  apply (write_then _ _ t); [done|by repeat constructor|simpl; lia|]. intros s2 [F2 _] H2.
  eapply write_then; [exact H2|done|done|]. intros s3 [F3 _] H3.
  eapply write_then; [exact H3|by repeat constructor|simpl; lia|]. intros s4 [F4 _] H4.
  eapply write_then; [exact H4|done|done|]. intros s5 [F5 _] H5.
  eapply write_then; [exact H5|by repeat constructor|simpl; lia|]. intros s6 [F6 _] H6.
  apply halts_bind. eapply wp_mono; [by apply write_dec_spec|].
  intros [] s7 (digits & [F7 _] & H7 & _).
  eapply write_then; [exact H7|by repeat constructor|simpl; lia|]. intros s8 [F8 _] H8.
  eapply write_then; [exact H8|by repeat constructor|simpl; lia|]. intros s9 [F9 _] H9.
  apply halts_bind, wp_emit. split; [done|].
  rewrite F1, F2, F3, F4, F5, F6, F7, F8, F9. apply screen_frame_trace.
Qed.

(** ** The theorems at concrete states *)

Module ConsoleSample.
Definition blank_terminal : terminal := Terminal (replicate 2000 0) 0 0.

Lemma sample_shows : shows sample_state blank_terminal.
Proof. split; [vm_compute; done|]. split; [done|]. split; [done|]. simpl. lia. Defined.

Lemma monitor_put_refines_terminal_witness :
  wp (monitor_put 65) (fun _ s' => console_frame sample_state s' /\
    shows s' (put 65 blank_terminal) /\
    trace s' = cursor_events (put 65 blank_terminal) ++ []) sample_state.
Proof.
  apply (monitor_put_refines_terminal 65 blank_terminal sample_state);
    [exact sample_shows|lia].
Defined.

Lemma monitor_write_refines_terminal_witness :
  wp (monitor_write (lit (str "Fotix"))) (fun _ s' => console_frame sample_state s' /\
    shows s' (write (s8 <$> str "Fotix") blank_terminal)) sample_state.
Proof.
  apply (monitor_write_refines_terminal _ (str "Fotix") blank_terminal sample_state);
    [exact sample_shows|]. apply lit_console_string; [by repeat constructor|simpl; lia].
Defined.

Lemma monitor_write_dec_correct_witness :
  wp (monitor_write_dec 1204) (fun _ s' => exists l,
    console_frame sample_state s' /\ shows s' (write l blank_terminal) /\
    Forall decimal_digit l /\ number_of 10 dec_value l = 1204 /\
    (hd 0 l = 48 -> l = [48]) /\ (1 <= length l <= 10)%nat) sample_state.
Proof.
  apply (monitor_write_dec_correct 1204 blank_terminal sample_state);
    [exact sample_shows|lia].
Defined.

Lemma monitor_write_dec_large_witness :
  wp (monitor_write_dec 3000000000) (fun _ s' => s' = sample_state) sample_state.
Proof. apply (monitor_write_dec_large 3000000000 sample_state). lia. Defined.

Lemma monitor_write_hex_correct_witness :
  wp (monitor_write_hex 3735928559) (fun _ s' => exists l,
    console_frame sample_state s' /\ shows s' (write (str "0x" ++ l) blank_terminal) /\
    Forall hexadecimal_digit l /\ number_of 16 hex_value l = 3735928559 /\
    (hd 0 l = 48 -> l = [48]) /\ (1 <= length l <= 8)%nat) sample_state.
Proof.
  apply (monitor_write_hex_correct 3735928559 blank_terminal sample_state);
    [exact sample_shows|lia].
Defined.

Lemma monitor_write_padded_correct_witness :
  wp (monitor_write_padded ([65] ++ 0 :: [7]) (lit (str "Initializing timer")) 1) (fun _ s' => console_frame sample_state s' /\
    shows s' (write (s8 <$> [65]) (write (status_line (str "Initializing timer") 1) blank_terminal))) sample_state.
Proof.
  apply (monitor_write_padded_correct (str "Initializing timer") 1 [65] [7] blank_terminal sample_state);
    [exact sample_shows|by repeat constructor|simpl; lia|by repeat constructor|simpl; lia].
Defined.

Lemma panic_halts_witness :
  halts (A := unit) (panic (str "Page fault") (str "sys/paging.c") 252) (fun s' => exists digits,
    number_of 10 dec_value digits = 252 /\
    shows s' (write (panic_text (str "Page fault") (str "sys/paging.c") digits) blank_terminal) /\
    head (trace s') = Some Hlt) sample_state.
Proof.
  apply (panic_halts (str "Page fault") (str "sys/paging.c") 252 blank_terminal sample_state);
    [exact sample_shows|lia|by repeat constructor|simpl; lia|by repeat constructor|simpl; lia].
Defined.
End ConsoleSample.
