(* ===== verification/OrderedArray.v ===== *)
(** * The ordered array of [sys/ordered_array.c]

    An insertion-sorted array of pointers.  The structure lives in memory:
    [array] at offset 0, [size] at 4, [max_size] at 8, [less_than] at 12.
    [Module Spec] is the abstract operation on lists that it implements. *)

From Stdlib Require Import ZArith Lia List String Sorted Permutation.
From stdpp Require Import base list gmap.
From S2P Require Import Prelude Machine Kernel Common Monitor.

(** ** Definitions *)

(** The structure, as a value. *)
Record ordered_array_t : Type := OrderedArray {
  oa_array : Z; oa_size : Z; oa_max_size : Z; oa_less_than : Z
}.

Definition store_ordered_array (p : Z) (oa : ordered_array_t) : K unit :=
  st32 p (oa_array oa) >> st32 (p + 4) (oa_size oa) >>
  st32 (p + 8) (oa_max_size oa) >> st32 (p + 12) (oa_less_than oa).

Definition standard_lessthan_predicate (a b : Z) : K Z := ret (if a <? b then 1 else 0).

(** [call_less_than f a b] is a call of the function at address [f]. *)
Class LessThan : Type := call_less_than : Z -> Z -> Z -> K Z.

Section OrderedArray.
Context `{LessThan}.

Definition place_ordered_array (addr max_size less_than : Z) : K ordered_array_t :=
  memset addr 0 (u32 (max_size * 4)) >>
  ret (OrderedArray addr 0 max_size less_than).

Definition create_ordered_array (kmalloc : Z -> K Z) (max_size less_than : Z) :
    K ordered_array_t :=
  array <- kmalloc (u32 (max_size * 4));
  memset array 0 (u32 (max_size * 4)) >>
  ret (OrderedArray array 0 max_size less_than).

(** The call of [kfree] is commented out in the source. *)
Definition destroy_ordered_array (array : Z) : K unit := ret tt.

Definition insert_ordered_array (item array : Z) : K unit :=
  f <- ld32 (array + 12);
  ASSERT (truth f) "sys/ordered_array.c" 52 "array->less_than" >>
  iterator <- while (fun iterator =>
      size <- ld32 (array + 4);
      if iterator <? size then
        a <- ld32 array;
        e <- ld32 (a + 4 * iterator);
        f <- ld32 (array + 12);
        r <- call_less_than f e item;
        ret (truth r)
      else ret false)
    (fun iterator => ret (u32 (iterator + 1))) 0;
  size <- ld32 (array + 4);
  if iterator =? size then
    (* just add at the end of the array *)
    a <- ld32 array;
    st32 (a + 4 * size) item >>
    st32 (array + 4) (size + 1)
  else
    a <- ld32 array;
    temp <- ld32 (a + 4 * iterator);
    st32 (a + 4 * iterator) item >>
    while (fun '(iterator, temp) => size <- ld32 (array + 4); ret (iterator <? size))
          (fun '(iterator, temp) =>
             let iterator := u32 (iterator + 1) in
             a <- ld32 array;
             temp2 <- ld32 (a + 4 * iterator);
             st32 (a + 4 * iterator) temp >>
             ret (iterator, temp2))
          (iterator, temp) >>
    size <- ld32 (array + 4);
    st32 (array + 4) (size + 1).

Definition lookup_ordered_array (i array : Z) : K Z :=
  size <- ld32 (array + 4);
  ASSERT (i <? size) "sys/ordered_array.c" 80 "i < array->size" >>
  a <- ld32 array;
  ld32 (a + 4 * i).

(** The last statement is [array->size++], as in the source. *)
Definition remove_ordered_array (i array : Z) : K unit :=
  while (fun i => size <- ld32 (array + 4); ret (i <? size))
        (fun i =>
           a <- ld32 array;
           e <- ld32 (a + 4 * (i + 1));
           st32 (a + 4 * i) e >>
           ret (u32 (i + 1))) i >>
  size <- ld32 (array + 4);
  st32 (array + 4) (size + 1).
End OrderedArray.

(** ** Insertion and removal on lists *)

Module Spec.
(** The number of elements that precede an insertion. *)
Fixpoint rank (lt : Z -> bool) (l : list Z) : nat :=
  match l with
  | x :: r => if lt x then S (rank lt r) else 0%nat
  | [] => 0%nat
  end.

Definition insert (lt : Z -> bool) (item : Z) (l : list Z) : list Z :=
  take (rank lt l) l ++ item :: drop (rank lt l) l.

(** Removal as it is: the elements after the [i]th move down, the word [x]
    that followed the array moves in, and one more word is counted. *)
Definition remove (i : nat) (x : Z) (l : list Z) : list Z :=
  delete i l ++ [x; x].

Lemma rank_le lt l : (rank lt l <= length l)%nat.
Proof. induction l as [|y r IH]; simpl; [lia|]. destruct (lt y); lia. Qed.

Lemma rank_before lt l i x : (i < rank lt l)%nat -> l !! i = Some x -> lt x = true.
Proof.
  revert i. induction l as [|y r IH]; intros i Hi Hx; [done|]. simpl in Hi.
  destruct (lt y) eqn:E; [|lia]. destruct i; simpl in Hx; [congruence|].
  apply (IH i); [lia|done].
Qed.

Lemma rank_at lt l x : l !! rank lt l = Some x -> lt x = false.
Proof.
  induction l as [|y r IH]; [done|]. simpl. destruct (lt y) eqn:E; simpl; [auto|congruence].
Qed.

Lemma rank_intro lt l k :
  (forall i x, (i < k)%nat -> l !! i = Some x -> lt x = true) ->
  (k <= length l)%nat -> (forall x, l !! k = Some x -> lt x = false) -> rank lt l = k.
Proof.
  revert k. induction l as [|y r IH]; intros k Hb Hk Ha; simpl in *; [lia|].
  destruct k as [|k].
  - by rewrite (Ha y eq_refl).
  - rewrite (Hb 0%nat y) by (lia || done). f_equal. apply IH; [|lia|].
    + intros i x Hi Hx. apply (Hb (S i)); [lia|done].
    + intros x Hx. by apply Ha.
Qed.

Lemma length_insert_spec lt item l : length (insert lt item l) = S (length l).
Proof.
  unfold insert. rewrite length_app, length_take. simpl. rewrite length_drop.
  pose proof (rank_le lt l). lia.
Qed.

Lemma insert_perm lt item l : Permutation (insert lt item l) (item :: l).
Proof.
  unfold insert. rewrite <- Permutation_middle. by rewrite take_drop.
Qed.

(** Where the elements of the result of a removal come from. *)
Lemma remove_lookup i x l (q : nat) v :
  (i < length l)%nat -> remove i x l !! q = Some v ->
  (q <= length l)%nat /\
  (l ++ [x]) !! (if decide (q < i)%nat then q else Nat.min (S q) (length l)) = Some v.
Proof.
  intros Hi Hq. pose proof (lookup_lt_Some _ _ _ Hq) as Hlt. unfold remove in *.
  rewrite length_app, length_delete in Hlt by (by apply lookup_lt_is_Some_2). simpl in Hlt.
  assert (Hd : length (delete i l) = (length l - 1)%nat)
    by (apply length_delete; by apply lookup_lt_is_Some_2).
  split; [lia|]. destruct (decide (q < length l - 1)%nat) as [Hq1|Hq1].
  - rewrite lookup_app_l in Hq by lia. case_decide.
    + rewrite list_lookup_delete_lt in Hq by done. by apply lookup_app_l_Some.
    + rewrite list_lookup_delete_ge in Hq by lia. rewrite Nat.min_l by lia.
      by apply lookup_app_l_Some.
  - rewrite lookup_app_r in Hq by lia. rewrite decide_False by lia. rewrite Nat.min_r by lia.
    rewrite lookup_app_r, Nat.sub_diag by lia. simpl.
    destruct (q - length (delete i l))%nat as [|[|]]; done.
Qed.

Lemma length_remove i x l : (i < length l)%nat -> length (remove i x l) = S (length l).
Proof.
  intros Hi. unfold remove. rewrite length_app, length_delete by (by apply lookup_lt_is_Some_2).
  simpl. lia.
Qed.

(** Insertion keeps an array sorted by a key sorted. *)
Lemma insert_sorted (key : Z -> Z) item l :
  StronglySorted (fun x y => key x <= key y) l ->
  StronglySorted (fun x y => key x <= key y) (insert (fun x => key x <? key item) item l).
Proof.
  induction l as [|x r IH]; intros Hs; [by repeat constructor|].
  apply StronglySorted_inv in Hs as [Hs Hx].
  unfold insert. simpl. destruct (key x <? key item) eqn:E; bool_hyps; simpl.
  - constructor; [by apply IH|].
    eapply (Permutation_Forall (P := fun y => key x <= key y)).
    { symmetry. apply insert_perm. }
    constructor; [lia|done].
  - constructor; [by constructor|]. constructor; [lia|].
    eapply Forall_impl; [exact Hx|]. simpl. lia.
Qed.
End Spec.

(** ** The operations implement their specification *)

(** The structure at [p] holds the list [l] in its array at [base], with room
    for one more element, and the two do not overlap. *)
Record oa_at (m : memory) (p base : Z) (l : list Z) : Prop := OaAt {
  oa_base : load32 m p = base;
  oa_length : load32 m (p + 4) = Z.of_nat (length l);
  oa_elems : array_at m base l;
  oa_struct : region p (p + 16);
  oa_room : region base (base + 4 * (Z.of_nat (length l) + 1));
  oa_apart : p + 16 <= base \/ base + 4 * (Z.of_nat (length l) + 1) <= p
}.

(** The addresses an operation on that array leaves alone: all but the size
    field, the elements and the word after them. *)
Definition oa_others (p base : Z) (n : nat) (b : Z) : Prop :=
  ~ (p + 4 <= b < p + 8) /\ ~ (base <= b < base + 4 * (Z.of_nat n + 1)).

Section Refinement.
Context `{LessThan} (p base : Z) (l : list Z).

(** Storing one of the [length l + 1] words. *)
Lemma oa_store m m' i v :
  oa_at m p base l -> same_on (oa_others p base (length l)) m m' -> 0 <= i <= Z.of_nat (length l) ->
  same_on (oa_others p base (length l)) m (store32 m' (base + 4 * i) v).
Proof.
  intros Ho Hs Hi. pose proof (oa_room _ _ _ _ Ho) as [??].
  eapply same_on_trans; [exact Hs|]. eapply same_outside_on.
  - apply store32_outside. unfold region. lia.
  - intros b [_ Hb]. lia.
Qed.

(** The fields that stay put while elements are written. *)
Lemma oa_fields m m' :
  oa_at m p base l -> same_on (oa_others p base (length l)) m m' ->
  load32 m' p = base /\ load32 m' (p + 8) = load32 m (p + 8) /\
  load32 m' (p + 12) = load32 m (p + 12).
Proof.
  intros Ho Hs. pose proof (oa_struct _ _ _ _ Ho) as [??]. pose proof (oa_apart _ _ _ _ Ho).
  pose proof (oa_room _ _ _ _ Ho) as [??].
  rewrite <- (oa_base _ _ _ _ Ho). unfold oa_others in *.
  repeat split; eapply load32_same_on; try exact Hs; unfold region; try lia.
Qed.

Lemma oa_size_stays m m' i v :
  oa_at m p base l -> 0 <= i <= Z.of_nat (length l) ->
  load32 (store32 m' (base + 4 * i) v) (p + 4) = load32 m' (p + 4).
Proof.
  intros Ho Hi. pose proof (oa_struct _ _ _ _ Ho) as [??]. pose proof (oa_apart _ _ _ _ Ho).
  pose proof (oa_room _ _ _ _ Ho) as [??].
  apply load32_store32_ne; unfold region; lia.
Qed.

(** Storing the new size keeps the elements, and completes the operation. *)
Lemma oa_finish m m' l' :
  oa_at m p base l -> same_on (oa_others p base (length l)) m m' ->
  load32 m' (p + 4) = Z.of_nat (length l) -> array_at m' base l' ->
  length l' = S (length l) ->
  let m2 := store32 m' (p + 4) (Z.of_nat (length l) + 1) in
  array_at m2 base l' /\ load32 m2 (p + 4) = Z.of_nat (length l') /\
  load32 m2 p = base /\ same_on (oa_others p base (length l)) m m2.
Proof.
  intros Ho Hs Hsz Ha Hl m2. pose proof (oa_struct _ _ _ _ Ho) as [??].
  pose proof (oa_apart _ _ _ _ Ho). pose proof (oa_room _ _ _ _ Ho) as [??].
  pose proof (oa_fields _ _ Ho Hs) as (Hb & _).
  assert (Hout : same_outside (p + 4) (p + 4 + 4) m' m2)
    by (apply store32_outside; unfold region; lia).
  split; [|split; [|split]].
  - intros i x Hx. pose proof (lookup_lt_Some _ _ _ Hx). rewrite <- (Ha _ _ Hx).
    eapply load32_frame; [exact Hout| |]; unfold region; lia.
  - unfold m2. rewrite load32_store32_eq by (unfold region; lia). rewrite u32_id; lia.
  - rewrite <- Hb. eapply load32_frame; [exact Hout| |]; unfold region; lia.
  - eapply same_on_trans; [exact Hs|]. eapply same_outside_on; [exact Hout|].
    intros b [Hb2 _]. lia.
Qed.

(** The predicate the structure holds compares with [lt item] and leaves the
    state alone, for the elements of [l]. *)
Definition compares (f item : Z) (lt : Z -> bool) (s : kstate) : Prop :=
  forall x, x ∈ l -> exists r, call_less_than f x item s = Ok r s /\ truth r = lt x.

Lemma lookup_spec i s :
  oa_at (mem s) p base l -> 0 <= i < Z.of_nat (length l) ->
  wp (lookup_ordered_array i p) (fun r s' => s' = s /\ l !! Z.to_nat i = Some r) s.
Proof.
  intros Ho Hi. unfold lookup_ordered_array. k_steps. rewrite (oa_length _ _ _ _ Ho).
  unfold ASSERT. replace (i <? Z.of_nat (length l)) with true by blia. k_steps.
  split; [done|]. rewrite (oa_base _ _ _ _ Ho).
  destruct (lookup_lt_is_Some_2 l (Z.to_nat i) ltac:(lia)) as [x Hx].
  rewrite Hx. f_equal. symmetry. rewrite <- (Z2Nat.id i) by lia.
  by apply (oa_elems _ _ _ _ Ho).
Qed.

(** The scan stops at the rank of the new item. *)
Lemma scan_spec item lt s :
  oa_at (mem s) p base l -> compares (load32 (mem s) (p + 12)) item lt s ->
  wp (while (fun iterator =>
        size <- ld32 (p + 4);
        if iterator <? size then
          a <- ld32 p;
          e <- ld32 (a + 4 * iterator);
          f <- ld32 (p + 12);
          r <- call_less_than f e item;
          ret (truth r)
        else ret false)
      (fun iterator => ret (u32 (iterator + 1))) 0)
    (fun k s' => s' = s /\ k = Z.of_nat (Spec.rank lt l)) s.
Proof.
  intros Ho Hlt. pose proof (oa_room _ _ _ _ Ho) as [??].
  apply (wp_while _ _
    (fun k t => t = s /\ exists i : nat, k = Z.of_nat i /\ (i <= length l)%nat /\
       forall j x, (j < i)%nat -> l !! j = Some x -> lt x = true)
    (fun k _ => Z.of_nat (length l) - k)).
  - intros k t (-> & i & -> & ? & _). lia.
  - intros k t (-> & i & -> & Hi & Hpre). k_steps. rewrite (oa_length _ _ _ _ Ho).
    destruct (Z.of_nat i <? Z.of_nat (length l)) eqn:E; bool_hyps; k_steps; cycle 1.
    { split; [done|]. f_equal. symmetry. apply Spec.rank_intro; [done|done|].
      intros x Hx%lookup_lt_Some. lia. }
    destruct (lookup_lt_is_Some_2 l i ltac:(lia)) as [x Hx].
    rewrite (oa_base _ _ _ _ Ho), (oa_elems _ _ _ _ Ho _ _ Hx).
    destruct (Hlt x) as (r & Hr & Htr); [by eapply list_elem_of_lookup_2|].
    unfold wp at 1. rewrite Hr. k_steps. rewrite Htr. destruct (lt x) eqn:Ex; k_steps.
    + rewrite u32_id by lia. split; [|lia]. split; [done|]. exists (S i).
      split; [lia|]. split; [lia|]. intros j y Hj Hy.
      destruct (decide (j = i)) as [->|]; [congruence|]. apply (Hpre j); [lia|done].
    + split; [done|]. f_equal. symmetry. apply Spec.rank_intro; [done|done|]. congruence.
  - split; [done|]. exists 0%nat. split; [done|]. split; lia.
  - lia.
Qed.

(** The state of the shifting loop: [l'] is complete up to [it], the old
    elements are still behind it, and [temp] is the element to store next. *)
Definition shifting (l' : list Z) (m m' : memory) (it temp : Z) : Prop :=
  same_on (oa_others p base (length l)) m m' /\
  load32 m' (p + 4) = Z.of_nat (length l) /\
  (forall (j : nat) x, Z.of_nat j <= it -> l' !! j = Some x ->
     load32 m' (base + 4 * Z.of_nat j) = x) /\
  (forall (j : nat) x, it < Z.of_nat j -> l !! j = Some x ->
     load32 m' (base + 4 * Z.of_nat j) = x) /\
  (it < Z.of_nat (length l) -> l' !! S (Z.to_nat it) = Some temp).

Lemma shift_spec l' k temp s m :
  oa_at m p base l -> 0 <= k <= Z.of_nat (length l) -> length l' = S (length l) ->
  (forall j : nat, k < Z.of_nat j -> l' !! S j = l !! j) ->
  (forall x, x ∈ l' -> 0 <= x < 4294967296) ->
  shifting l' m (mem s) k temp ->
  wp (while (fun '(iterator, temp) => size <- ld32 (p + 4); ret (iterator <? size))
        (fun '(iterator, temp) =>
           let iterator := u32 (iterator + 1) in
           a <- ld32 p;
           temp2 <- ld32 (a + 4 * iterator);
           st32 (a + 4 * iterator) temp >>
           ret (iterator, temp2))
        (k, temp))
     (fun _ s' => exists m', s' = set_mem m' s /\ array_at m' base l' /\
        same_on (oa_others p base (length l)) m m' /\
        load32 m' (p + 4) = Z.of_nat (length l)) s.
Proof.
  intros Ho Hk Hl' Htail Hrng Hinit. pose proof (oa_room _ _ _ _ Ho) as [??].
  apply (wp_mem_while _ _
    (fun '(it, temp) m' => k <= it <= Z.of_nat (length l) /\ shifting l' m m' it temp)
    (fun '(it, _) => Z.of_nat (length l) - it)
    (fun _ m' => array_at m' base l' /\ same_on (oa_others p base (length l)) m m' /\
        load32 m' (p + 4) = Z.of_nat (length l))).
  - intros [it tp] m' [? _]. lia.
  - intros [it tp] m' (Hit & Hs & Hsz & Hdone & Htodo & Htemp).
    pose proof (oa_fields _ _ Ho Hs) as (Hb & _). k_steps. cbn [mem set_mem].
    rewrite Hsz. split; [done|].
    destruct (it <? Z.of_nat (length l)) eqn:E; bool_hyps; k_steps; cbn [mem set_mem]; cycle 1.
    { split; [|done]. intros i x Hx. apply Hdone; [|done].
      apply lookup_lt_Some in Hx. lia. }
    rewrite Hb, u32_id by lia. eexists. split; [done|]. split; [|lia].
    specialize (Htemp E). pose proof (Hrng _ (list_elem_of_lookup_2 _ _ _ Htemp)).
    split; [lia|]. split; [by apply oa_store; try done; lia|].
    split; [by rewrite (oa_size_stays m m') by (done || lia)|].
    assert (Hreg : region base (base + 4 * (Z.of_nat (length l) + 1))) by done.
    split; [|split].
    + intros j x Hj Hx. pose proof (lookup_lt_Some _ _ _ Hx).
      rewrite (load32_word _ _ _ _ _ _ Hreg) by lia.
      destruct (it + 1 =? Z.of_nat j) eqn:Ej; bool_hyps; [|apply Hdone; [lia|done]].
      replace (S (Z.to_nat it)) with j in Htemp by lia. rewrite u32_id; [congruence|done].
    + intros j x Hj Hx. pose proof (lookup_lt_Some _ _ _ Hx).
      rewrite (load32_word _ _ _ _ _ _ Hreg) by lia.
      replace (it + 1 =? Z.of_nat j) with false by blia. apply Htodo; [lia|done].
    + intros Hlt. destruct (lookup_lt_is_Some_2 l (Z.to_nat (it + 1)) ltac:(lia)) as [y Hy].
      rewrite Htail by lia. rewrite Hy. f_equal. symmetry.
      rewrite <- (Z2Nat.id (it + 1)) at 1 by lia. apply Htodo; [lia|done].
  - split; [lia|done].
  - lia.
Qed.
End Refinement.

Section Insertion.
Context `{LessThan} (p base : Z) (l : list Z) (item : Z) (lt : Z -> bool) (m : memory).
Hypothesis Ho : oa_at m p base l.
Hypothesis Hitem : 0 <= item < 4294967296.

Lemma insert_in_range x : x ∈ Spec.insert lt item l -> 0 <= x < 4294967296.
Proof using Ho Hitem.
  rewrite Spec.insert_perm. intros [->|Hx]%elem_of_cons; [done|].
  apply list_elem_of_lookup in Hx as [i Hi].
  by eapply array_at_range; [apply (oa_elems _ _ _ _ Ho)|].
Qed.

(** Insertion at the end. *)
Lemma append_array_at :
  Spec.rank lt l = length l ->
  array_at (store32 m (base + 4 * Z.of_nat (length l)) item) base (Spec.insert lt item l).
Proof using Ho Hitem.
  intros E. pose proof (oa_room _ _ _ _ Ho) as Hreg.
  unfold Spec.insert. rewrite E, firstn_all, drop_all. intros i x Hx.
  pose proof (lookup_lt_Some _ _ _ Hx) as Hi. rewrite length_app in Hi. simpl in Hi.
  rewrite (load32_word _ _ _ _ _ _ Hreg) by lia.
  destruct (_ =? _) eqn:Ei; bool_hyps.
  - assert (i = length l) as -> by lia. rewrite lookup_app_r, Nat.sub_diag in Hx by lia.
    injection Hx as <-. by apply u32_id.
  - rewrite lookup_app_l in Hx by lia. by apply (oa_elems _ _ _ _ Ho).
Qed.

(** Insertion before the element [temp] at the rank: the shifting starts. *)
Lemma start_shifting temp :
  l !! Spec.rank lt l = Some temp ->
  shifting p base l (Spec.insert lt item l) m
    (store32 m (base + 4 * Z.of_nat (Spec.rank lt l)) item) (Z.of_nat (Spec.rank lt l)) temp.
Proof using Ho Hitem.
  intros Ht. pose proof (lookup_lt_Some _ _ _ Ht) as Hk.
  pose proof (oa_room _ _ _ _ Ho) as Hreg. pose proof (oa_elems _ _ _ _ Ho) as Ha.
  set (k := Spec.rank lt l) in *. split; [|split; [|split; [|split]]].
  - apply (oa_store p base l); [done|apply same_on_refl|lia].
  - rewrite (oa_size_stays p base l m) by (done || lia). apply (oa_length _ _ _ _ Ho).
  - intros j x Hj Hx. rewrite (load32_word _ _ _ _ _ _ Hreg) by lia.
    unfold Spec.insert in Hx. fold k in Hx. destruct (_ =? _) eqn:Ej; bool_hyps.
    + assert (j = k) as -> by lia.
      rewrite lookup_app_r, length_take, Nat.min_l, Nat.sub_diag in Hx
        by (rewrite ?length_take; lia).
      injection Hx as <-. by apply u32_id.
    + rewrite lookup_app_l in Hx by (rewrite length_take; lia).
      rewrite lookup_take_lt in Hx by lia. by apply Ha.
  - intros j x Hj Hx. pose proof (lookup_lt_Some _ _ _ Hx).
    rewrite (load32_word _ _ _ _ _ _ Hreg) by lia.
    replace (_ =? _) with false by blia. by apply Ha.
  - intros _. unfold Spec.insert. fold k. rewrite Nat2Z.id.
    rewrite lookup_app_r by (rewrite length_take; lia).
    rewrite length_take, Nat.min_l by lia. replace (S k - k)%nat with 1%nat by lia.
    simpl. rewrite lookup_drop, Nat.add_0_r. done.
Qed.

Lemma insert_tail (j : nat) :
  (Spec.rank lt l < j)%nat -> Spec.insert lt item l !! S j = l !! j.
Proof.
  intros Hj. pose proof (Spec.rank_le lt l). unfold Spec.insert.
  rewrite lookup_app_r by (rewrite length_take; lia). rewrite length_take, Nat.min_l by lia.
  replace (S j - Spec.rank lt l)%nat with (S (j - Spec.rank lt l)) by lia. simpl.
  rewrite lookup_drop. f_equal. lia.
Qed.
End Insertion.

Section Removal.
Context `{LessThan} (p base : Z) (l : list Z) (m : memory) (i : nat).
Hypothesis Ho : oa_at m p base l.
Hypothesis Hi : (i < length l)%nat.
Let x := load32 m (base + 4 * Z.of_nat (length l)).

(** The words of the array and the one behind it. *)
Lemma with_next (q : nat) v :
  (l ++ [x]) !! q = Some v -> load32 m (base + 4 * Z.of_nat q) = v.
Proof using Ho Hi.
  intros Hq. pose proof (lookup_lt_Some _ _ _ Hq) as Hlt. rewrite length_app in Hlt.
  simpl in Hlt. destruct (decide (q = length l)) as [->|].
  - rewrite lookup_app_r, Nat.sub_diag in Hq by lia. by injection Hq.
  - rewrite lookup_app_l in Hq by lia. by apply (oa_elems _ _ _ _ Ho).
Qed.

Lemma move_down_spec s :
  mem s = m ->
  wp (while (fun j => size <- ld32 (p + 4); ret (j <? size))
        (fun j =>
           a <- ld32 p;
           e <- ld32 (a + 4 * (j + 1));
           st32 (a + 4 * j) e >>
           ret (u32 (j + 1))) (Z.of_nat i))
     (fun _ s' => exists m', s' = set_mem m' s /\ array_at m' base (Spec.remove i x l) /\
        same_on (oa_others p base (length l)) m m' /\
        load32 m' (p + 4) = Z.of_nat (length l)) s.
Proof using Ho Hi.
  intros Hm. pose proof (oa_room _ _ _ _ Ho) as Hreg. pose proof Hreg as [??].
  apply (wp_mem_while _ _
    (fun j m' => Z.of_nat i <= j <= Z.of_nat (length l) /\
       same_on (oa_others p base (length l)) m m' /\
       load32 m' (p + 4) = Z.of_nat (length l) /\
       forall q, 0 <= q <= Z.of_nat (length l) -> load32 m' (base + 4 * q) =
         load32 m (base + 4 * (if (Z.of_nat i <=? q) && (q <? j) then q + 1 else q)))
    (fun j => Z.of_nat (length l) - j)
    (fun _ m' => array_at m' base (Spec.remove i x l) /\
       same_on (oa_others p base (length l)) m m' /\
       load32 m' (p + 4) = Z.of_nat (length l))).
  - intros j m' [? _]. lia.
  - intros j m' (Hj & Hs & Hsz & Hq). pose proof (oa_fields _ _ _ _ _ Ho Hs) as (Hb & _).
    k_steps. cbn [mem set_mem]. rewrite Hsz. split; [done|].
    destruct (j <? Z.of_nat (length l)) eqn:E; bool_hyps; k_steps; cbn [mem set_mem].
    + rewrite Hb, u32_id by lia. eexists. split; [done|]. split; [|lia]. split; [lia|].
      split; [by apply (oa_store p base l); try done; lia|].
      split; [by rewrite (oa_size_stays p base l m) by (done || lia)|].
      intros q Hq0. rewrite (load32_word _ _ _ _ _ _ Hreg), !Hq by lia.
      destruct (j =? q) eqn:Eq; bool_hyps.
      * subst q. replace (j + 1 <? j) with false by blia. rewrite andb_false_r.
        replace ((Z.of_nat i <=? j) && (j <? j + 1)) with true by blia.
        apply u32_id, load32_range.
      * by replace (q <? j + 1) with (q <? j) by bool_eq_lia.
    + split; [|done]. intros q v (Hle & Hv)%Spec.remove_lookup; [|done].
      apply with_next in Hv. rewrite <- Hv, Hq by lia. f_equal. case_decide.
      * replace (_ && _) with false by blia. lia.
      * destruct (decide (q = length l)) as [->|].
        -- replace (_ && _) with false by blia. lia.
        -- replace (_ && _) with true by blia. lia.
  - split; [lia|]. split; [by rewrite Hm|]. rewrite Hm. split; [apply (oa_length _ _ _ _ Ho)|].
    intros q Hq. by replace (_ && _) with false by blia.
  - lia.
Qed.
End Removal.

Section Properties.
Context `{LessThan}.

Lemma insert_ordered_array_spec p base l item lt s :
  oa_at (mem s) p base l -> 0 <= item < 4294967296 ->
  load32 (mem s) (p + 12) <> 0 ->
  compares l (load32 (mem s) (p + 12)) item lt s ->
  wp (insert_ordered_array item p) (fun _ s' => exists m', s' = set_mem m' s /\
    array_at m' base (Spec.insert lt item l) /\
    load32 m' (p + 4) = Z.of_nat (S (length l)) /\ load32 m' p = base /\
    same_on (oa_others p base (length l)) (mem s) m') s.
Proof.
  intros Ho Hitem Hf Hlt. pose proof (Spec.rank_le lt l) as Hrk.
  unfold insert_ordered_array, ASSERT, truth. k_steps.
  rewrite (proj2 (Z.eqb_neq _ _) Hf). cbn [negb]. k_steps.
  eapply wp_mono; [by apply (scan_spec p base l item lt)|]. intros k t [-> ->]. k_steps.
  rewrite (oa_length _ _ _ _ Ho). destruct (_ =? _) eqn:E; bool_hyps; k_steps.
  - rewrite (oa_base _ _ _ _ Ho). cbn [mem set_mem].
    destruct (oa_finish p base l (mem s) (store32 (mem s) (base + 4 * Z.of_nat (length l)) item)
                (Spec.insert lt item l)) as (? & Hsz & ? & ?).
    + done.
    + apply (oa_store p base l); [done|apply same_on_refl|lia].
    + rewrite (oa_size_stays p base l (mem s)) by (done || lia). apply (oa_length _ _ _ _ Ho).
    + apply (append_array_at p); [done|done|lia].
    + apply Spec.length_insert_spec.
    + rewrite Spec.length_insert_spec in Hsz. eexists. by split; [reflexivity|].
  - destruct (lookup_lt_is_Some_2 l (Spec.rank lt l) ltac:(lia)) as [temp Ht].
    rewrite (oa_base _ _ _ _ Ho), (oa_elems _ _ _ _ Ho _ _ Ht). cbn [mem set_mem].
    eapply wp_mono.
    + apply (shift_spec p base l (Spec.insert lt item l) _ _ _ (mem s)); [done|lia|..].
      * apply Spec.length_insert_spec.
      * intros j Hj. apply insert_tail. lia.
      * intros x. by apply (insert_in_range p base l item lt (mem s)).
      * by apply start_shifting.
    + intros ? s' (m' & -> & Ha & Hs & Hsz). k_steps. cbn [mem set_mem]. rewrite Hsz.
      destruct (oa_finish p base l (mem s) m' (Spec.insert lt item l)) as (? & Hsz' & ? & ?);
        try done; [apply Spec.length_insert_spec|].
      rewrite Spec.length_insert_spec in Hsz'. eexists. by split; [reflexivity|].
Qed.

Lemma remove_ordered_array_spec p base l i s :
  oa_at (mem s) p base l -> (i < length l)%nat ->
  let x := load32 (mem s) (base + 4 * Z.of_nat (length l)) in
  wp (remove_ordered_array (Z.of_nat i) p) (fun _ s' => exists m', s' = set_mem m' s /\
    array_at m' base (delete i l ++ [x; x]) /\
    load32 m' (p + 4) = Z.of_nat (S (length l)) /\ load32 m' p = base /\
    same_on (oa_others p base (length l)) (mem s) m') s.
Proof.
  intros Ho Hi x. unfold remove_ordered_array. apply wp_bind.
  eapply wp_mono; [by apply (move_down_spec p base l (mem s) i)|].
  intros j s' (m' & -> & Ha & Hs & Hsz). k_steps. cbn [mem set_mem]. rewrite Hsz.
  destruct (oa_finish p base l (mem s) m' (Spec.remove i x l)) as (? & Hsz' & ? & ?);
    try done; [by apply Spec.length_remove|].
  rewrite Spec.length_remove in Hsz' by done. eexists. by split; [reflexivity|].
Qed.

(** C1: [insert_ordered_array] implements [Spec.insert]: the structure holds the
    list with the item inserted before the first element that is not less,
    and nothing outside the size field, the elements and the word that
    follows them has changed. *)
Theorem insert_ordered_array_refines p base l item lt s :
  oa_at (mem s) p base l -> 0 <= item < 4294967296 ->
  load32 (mem s) (p + 12) <> 0 ->
  compares l (load32 (mem s) (p + 12)) item lt s ->
  wp (insert_ordered_array item p) (fun _ s' => exists m', s' = set_mem m' s /\
    array_at m' base (Spec.insert lt item l) /\
    load32 m' (p + 4) = Z.of_nat (S (length l)) /\ load32 m' p = base /\
    same_on (oa_others p base (length l)) (mem s) m') s.
Proof. apply insert_ordered_array_spec. Qed.

(** [lookup_ordered_array] returns the element at a valid index ... *)
Theorem lookup_ordered_array_refines p base l i s :
  oa_at (mem s) p base l -> 0 <= i < Z.of_nat (length l) ->
  wp (lookup_ordered_array i p) (fun r s' => s' = s /\ l !! Z.to_nat i = Some r) s.
Proof. apply lookup_spec. Qed.

(** ... and the assertion stops the machine at any other. *)
Theorem lookup_ordered_array_out_of_range p base l i t s :
  oa_at (mem s) p base l -> Z.of_nat (length l) <= i -> shows s t ->
  halts (lookup_ordered_array i p) (fun s' => head (trace s') = Some Hlt) s.
Proof.
  intros Ho Hi Hs. unfold lookup_ordered_array. apply halts_bind. apply wp_ld32.
  rewrite (oa_length _ _ _ _ Ho). unfold ASSERT.
  replace (i <? Z.of_nat (length l)) with false by blia. apply halts_bind_now.
  eapply halts_mono; [eapply panic_assert_halts; [exact Hs|..]; try (by repeat constructor); simpl; lia|].
  by intros s' [? _].
Qed.

(** C21: An insertion that compares by a key keeps a sorted array sorted. *)
Theorem insert_ordered_array_sorted p base l item key s :
  oa_at (mem s) p base l -> 0 <= item < 4294967296 ->
  load32 (mem s) (p + 12) <> 0 ->
  compares l (load32 (mem s) (p + 12)) item (fun x => key x <? key item) s ->
  StronglySorted (fun x y => key x <= key y) l ->
  wp (insert_ordered_array item p) (fun _ s' => exists l',
    words (mem s') base (S (length l)) = l' /\ load32 (mem s') (p + 4) = Z.of_nat (length l') /\
    Permutation l' (item :: l) /\ StronglySorted (fun x y => key x <= key y) l') s.
Proof.
  intros Ho Hitem Hf Hlt Hsort. eapply wp_mono.
  { apply (insert_ordered_array_spec p base l item (fun x => key x <? key item)); done. }
  intros [] s' (m' & -> & Ha & Hsz & _). eexists. split; [reflexivity|].
  apply array_at_words in Ha. rewrite Spec.length_insert_spec in Ha. cbn [mem set_mem].
  rewrite Ha, Hsz, Spec.length_insert_spec. split; [done|].
  split; [apply Spec.insert_perm|by apply Spec.insert_sorted].
Qed.

(** C36: [remove_ordered_array] moves the later elements down, but counts one
    element more instead of one less: the word [x] behind the array is taken
    in twice. *)
Theorem remove_ordered_array_refines p base l i s :
  oa_at (mem s) p base l -> (i < length l)%nat ->
  let x := load32 (mem s) (base + 4 * Z.of_nat (length l)) in
  wp (remove_ordered_array (Z.of_nat i) p) (fun _ s' => exists m', s' = set_mem m' s /\
    array_at m' base (delete i l ++ [x; x]) /\
    load32 m' (p + 4) = Z.of_nat (S (length l)) /\ load32 m' p = base /\
    same_on (oa_others p base (length l)) (mem s) m') s.
Proof. apply remove_ordered_array_spec. Qed.
End Properties.

(** ** The theorems at a concrete array *)

Module Sample.
#[local] Instance sample_less_than : LessThan := fun _ a b => standard_lessthan_predicate a b.

Definition memory0 : memory :=
  foldr (fun '(a, v) m => store32 m a v) ∅
    [(4096, 8192); (4100, 3); (4104, 16); (4108, 1056768);
     (8192, 10); (8196, 20); (8200, 30); (8204, 77)].
Definition state0 : kstate := set_mem memory0 sample_state.

Lemma sample_oa : oa_at (mem state0) 4096 8192 [10; 20; 30].
Proof.
  constructor.
  - by vm_compute.
  - by vm_compute.
  - apply array_at_words. by vm_compute.
  - unfold region. lia.
  - unfold region. simpl. lia.
  - simpl. lia.
Defined.

Lemma sample_compares : compares [10; 20; 30] (load32 (mem state0) (4096 + 12)) 25
  (fun x => x <? 25) state0.
Proof.
  intros x _. eexists. split; [reflexivity|]. unfold truth. by destruct (x <? 25).
Defined.

Lemma insert_ordered_array_refines_witness :
  wp (insert_ordered_array 25 4096) (fun _ s' => exists m', s' = set_mem m' state0 /\
    array_at m' 8192 [10; 20; 25; 30] /\ load32 m' (4096 + 4) = 4 /\
    load32 m' 4096 = 8192 /\ same_on (oa_others 4096 8192 3) (mem state0) m') state0.
Proof.
  apply (insert_ordered_array_refines 4096 8192 [10; 20; 30] 25 (fun x => x <? 25) state0).
  - exact sample_oa.
  - lia.
  - vm_compute. done.
  - exact sample_compares.
Defined.

Lemma insert_ordered_array_sorted_witness :
  wp (insert_ordered_array 25 4096) (fun _ s' => exists l',
    words (mem s') 8192 4 = l' /\ load32 (mem s') (4096 + 4) = Z.of_nat (length l') /\
    Permutation l' [25; 10; 20; 30] /\ StronglySorted (fun x y => x <= y) l') state0.
Proof.
  apply (insert_ordered_array_sorted 4096 8192 [10; 20; 30] 25 (fun x => x) state0).
  - exact sample_oa.
  - lia.
  - vm_compute. done.
  - exact sample_compares.
  - repeat constructor; lia.
Defined.

Lemma lookup_ordered_array_refines_witness :
  wp (lookup_ordered_array 1 4096) (fun r s' => s' = state0 /\ [10; 20; 30] !! 1%nat = Some r)
    state0.
Proof.
  apply (lookup_ordered_array_refines 4096 8192 [10; 20; 30] 1 state0);
    [exact sample_oa|simpl; lia].
Defined.

Lemma remove_ordered_array_refines_witness :
  wp (remove_ordered_array 1 4096) (fun _ s' => exists m', s' = set_mem m' state0 /\
    array_at m' 8192 [10; 30; 77; 77] /\ load32 m' (4096 + 4) = 4 /\
    load32 m' 4096 = 8192 /\ same_on (oa_others 4096 8192 3) (mem state0) m') state0.
Proof.
  assert (H77 : load32 (mem state0) (8192 + 4 * Z.of_nat 3) = 77) by by vm_compute.
  rewrite <- H77.
  apply (remove_ordered_array_refines 4096 8192 [10; 20; 30] 1 state0);
    [exact sample_oa|simpl; lia].
Defined.

Lemma lookup_ordered_array_out_of_range_witness :
  halts (lookup_ordered_array 3 4096) (fun s' => head (trace s') = Some Hlt) state0.
Proof.
  apply (lookup_ordered_array_out_of_range 4096 8192 [10; 20; 30] 3
           (Terminal.Terminal (replicate 2000 0) 0 0) state0); [exact sample_oa|simpl; lia|].
  split; [vm_compute; done|]. split; [done|]. split; [done|]. simpl. lia.
Defined.
End Sample.
