(* ===== verification/Isr.v ===== *)
(** * Interrupt dispatch of [sys/isr.c]

    [isr_handler] and [irq_handler] receive the register frame the assembly
    stubs of [sys/interrupt.s] build.  The frame is on the stack of the stub,
    which restores the registers from it: the handlers return it. *)

From Stdlib Require Import ZArith Lia List String.
From stdpp Require Import base list gmap.
From S2P Require Import Prelude Machine Kernel Common Monitor.

(** ** Definitions *)

(** IRQ numbers of [include/isr.h]. *)
Definition IRQ0 : Z := 32.
Definition IRQ1 : Z := 33.

(** [run_handler h regs] is a call of the handler [h] with a pointer to
    [regs]; the result is the frame it leaves. *)
Class Handlers : Type := run_handler : isr_t -> registers_t -> K registers_t.

Definition register_interrupt_handler (num : Z) (handler : isr_t) : K unit :=
  modify (fun s => set_handlers (<[u8 num := handler]> (interrupt_handlers s)) s).

(** The interrupt number the stub of vector [n] pushes: [push byte n] extends
    the sign of its operand. *)
Definition pushed_int_no (n : Z) : Z := u32 (s8 n).

Definition set_int_no (n : Z) (r : registers_t) : registers_t :=
  Registers (reg_ds r) (reg_edi r) (reg_esi r) (reg_ebp r) (reg_esp r) (reg_ebx r)
    (reg_edx r) (reg_ecx r) (reg_eax r) n (reg_err_code r) (reg_eip r) (reg_cs r)
    (reg_eflags r) (reg_useresp r) (reg_ss r).

Definition set_eax (v : Z) (r : registers_t) : registers_t :=
  Registers (reg_ds r) (reg_edi r) (reg_esi r) (reg_ebp r) (reg_esp r) (reg_ebx r)
    (reg_edx r) (reg_ecx r) v (reg_int_no r) (reg_err_code r) (reg_eip r) (reg_cs r)
    (reg_eflags r) (reg_useresp r) (reg_ss r).

Section Isr.
Context `{Handlers}.

Definition isr_handler (regs : registers_t) : K registers_t :=
  let int_no := u8 (Z.land (reg_int_no regs) 255) in
  h <- gets (fun s => interrupt_handlers s !! int_no);
  match h with
  | Some handler => run_handler handler regs
  | None =>
      monitor_write (lit (str "unhandled interrupt:" ++ [10])) >>
      monitor_write (lit (str "    hex: ")) >>
      monitor_write_hex int_no >>
      monitor_put 10 >>
      monitor_write (lit (str "    dec: ")) >>
      monitor_write_dec int_no >>
      monitor_put 10 >>
      panic (str "UNABLE TO FIND HANDLER FOR INTERRUPT") (str "sys/isr.c") 44
  end.

(** The table has 256 entries and the index is not masked here. *)
Definition irq_handler (regs : registers_t) : K registers_t :=
  when (40 <=? reg_int_no regs) (outb 160 32) >>
  outb 32 32 >>
  if 256 <=? reg_int_no regs then undefined
  else
    h <- gets (fun s => interrupt_handlers s !! reg_int_no regs);
    match h with
    | Some handler => run_handler handler regs
    | None => ret regs
    end.
End Isr.

(** ** Properties *)

Lemma land_255 z : Z.land z 255 = u8 z.
Proof. change 255 with (Z.ones 8). by rewrite Z.land_ones by lia. Qed.

Lemma u8_pushed n : 0 <= n < 256 -> u8 (Z.land (pushed_int_no n) 255) = n.
Proof. intros. rewrite land_255. unfold pushed_int_no, u8, u32, s8. dlia. Qed.

(** The end-of-interrupt commands for interrupt number [n], newest first. *)
Definition eoi_events (n : Z) : list event :=
  Outb 32 32 :: if 40 <=? n then [Outb 160 32] else [].

Section IsrProperties.
Context `{Handlers}.

(** A handler registered for vector [n] runs, with the frame as it was built,
    when the stub of vector [n] is entered: vector 128 included, whose pushed
    number is 0xFFFFFF80. *)
Theorem isr_handler_runs_registered n h regs s :
  0 <= n < 256 ->
  (register_interrupt_handler n h >> isr_handler (set_int_no (pushed_int_no n) regs)) s =
  run_handler h (set_int_no (pushed_int_no n) regs)
    (set_handlers (<[n := h]> (interrupt_handlers s)) s).
Proof.
  intros Hn. unfold register_interrupt_handler, isr_handler, bind, modify, gets.
  cbn [reg_int_no set_int_no]. rewrite u8_pushed, (u8_id n) by done.
  cbn [interrupt_handlers set_handlers]. by rewrite lookup_insert_eq.
Qed.

(** Registering a handler does not disturb the other vectors. *)
Theorem isr_handler_keeps_others n h h' k regs s :
  0 <= n < 256 -> 0 <= k < 256 -> k <> n -> interrupt_handlers s !! k = Some h' ->
  (register_interrupt_handler n h >> isr_handler (set_int_no (pushed_int_no k) regs)) s =
  run_handler h' (set_int_no (pushed_int_no k) regs)
    (set_handlers (<[n := h]> (interrupt_handlers s)) s).
Proof.
  intros Hn Hk Hne Hh'. unfold register_interrupt_handler, isr_handler, bind, modify, gets.
  cbn [reg_int_no set_int_no]. rewrite u8_pushed, (u8_id n) by done.
  cbn [interrupt_handlers set_handlers]. by rewrite lookup_insert_ne, Hh' by done.
Qed.

(** An interrupt nobody registered for ends in [panic]. *)
Theorem isr_handler_unhandled_halts n regs t s :
  0 <= n < 256 -> shows s t -> interrupt_handlers s !! n = None ->
  halts (isr_handler (set_int_no (pushed_int_no n) regs))
    (fun s' => head (trace s') = Some Hlt) s.
Proof.
  intros Hn Hs Hnone. unfold isr_handler. cbn [reg_int_no set_int_no]. rewrite u8_pushed by done.
  apply halts_bind, wp_gets. rewrite Hnone.
  eapply write_then; [exact Hs|by repeat constructor|simpl; lia|]. intros s1 _ H1.
  eapply write_then; [exact H1|by repeat constructor|simpl; lia|]. intros s2 _ H2.
  apply halts_bind. eapply wp_mono; [apply write_hex_spec; [done|lia]|].
  intros [] s3 (l3 & _ & H3 & _).
  apply halts_bind. eapply wp_mono; [by apply monitor_put_spec|]. intros [] s4 (_ & H4 & _).
  eapply write_then; [exact H4|by repeat constructor|simpl; lia|]. intros s5 _ H5.
  apply halts_bind. eapply wp_mono; [apply write_dec_spec; [done|lia]|].
  intros [] s6 (l6 & _ & H6 & _).
  apply halts_bind. eapply wp_mono; [by apply monitor_put_spec|]. intros [] s7 (_ & H7 & _).
  eapply panic_stops; [exact H7|lia|by repeat constructor|simpl; lia|by repeat constructor|simpl; lia].
Qed.

(** The end-of-interrupt commands reach the controllers, slave first, before
    the handler runs. *)
Theorem irq_handler_acknowledges n regs s :
  0 <= n < 256 -> reg_int_no regs = n ->
  let s1 := set_trace (eoi_events n ++ trace s) s in
  irq_handler regs s =
    match interrupt_handlers s !! n with
    | Some h => run_handler h regs s1
    | None => Ok regs s1
    end.
Proof.
  intros Hn Hr s1. unfold irq_handler, eoi_events in *. rewrite Hr.
  replace (256 <=? n) with false by blia. subst s1.
  destruct (40 <=? n); unfold when, bind, outb, emit, modify, ret, gets; simpl;
    by destruct (interrupt_handlers s !! n).
Qed.
End IsrProperties.

Module IsrSample.
(** A handler that answers in [eax]. *)
#[local] Instance sample_handlers : Handlers := fun h regs =>
  ret (set_eax (match h with ptr_syscall_handler => 1 | _ => 2 end) regs).

Definition frame (n : Z) : registers_t := Registers 16 0 0 0 0 0 0 0 0 n 0 0 8 514 0 16.

Lemma isr_handler_runs_registered_witness :
  (register_interrupt_handler 128 ptr_syscall_handler >>
   isr_handler (set_int_no (pushed_int_no 128) (frame 0))) sample_state =
  Ok (set_eax 1 (frame 4294967168))
     (set_handlers {[128 := ptr_syscall_handler]} sample_state).
Proof.
  rewrite (isr_handler_runs_registered 128 ptr_syscall_handler (frame 0) sample_state) by lia.
  reflexivity.
Defined.

Lemma isr_handler_keeps_others_witness :
  (register_interrupt_handler 33 ptr_keyboard_handler >>
   isr_handler (set_int_no (pushed_int_no 128) (frame 0)))
    (set_handlers {[128 := ptr_syscall_handler]} sample_state) =
  Ok (set_eax 1 (frame 4294967168))
     (set_handlers (<[33 := ptr_keyboard_handler]> {[128 := ptr_syscall_handler]}) sample_state).
Proof.
  rewrite (isr_handler_keeps_others 33 ptr_keyboard_handler ptr_syscall_handler 128 (frame 0)
             (set_handlers {[128 := ptr_syscall_handler]} sample_state));
    [reflexivity|lia|lia|lia|reflexivity].
Defined.

Lemma isr_handler_unhandled_halts_witness :
  halts (isr_handler (set_int_no (pushed_int_no 13) (frame 0)))
    (fun s' => head (trace s') = Some Hlt) sample_state.
Proof.
  apply (isr_handler_unhandled_halts 13 (frame 0) ConsoleSample.blank_terminal sample_state);
    [lia|apply ConsoleSample.sample_shows|reflexivity].
Defined.

Lemma irq_handler_acknowledges_witness :
  irq_handler (frame 44) sample_state = Ok (frame 44) (set_trace [Outb 32 32; Outb 160 32] sample_state).
Proof. rewrite (irq_handler_acknowledges 44 (frame 44) sample_state); [reflexivity|lia|reflexivity]. Defined.
End IsrSample.
