(* ===== verification/DescriptorTables.v ===== *)
(** * The descriptor tables of [sys/descriptor_tables.c]

    The GDT, the IDT, the task state segment, and the remapping of the
    interrupt controllers. *)

From Stdlib Require Import ZArith Lia List.
From stdpp Require Import base list gmap.
From S2P Require Import Prelude Machine Kernel.

(** ** Definitions *)

Definition EXIT_SUCCESS : Z := 0.
Definition EXIT_FAILURE : Z := 1.

Definition set_gdt_entries (l : list gdt_entry_t) (g : descriptor_globals) : descriptor_globals :=
  DescriptorGlobals l (gdt_ptr g) (idt_entries g) (idt_ptr g) (tss_entry g).
Definition set_gdt_ptr (p : table_ptr_t) (g : descriptor_globals) : descriptor_globals :=
  DescriptorGlobals (gdt_entries g) p (idt_entries g) (idt_ptr g) (tss_entry g).
Definition set_idt_entries (l : list idt_entry_t) (g : descriptor_globals) : descriptor_globals :=
  DescriptorGlobals (gdt_entries g) (gdt_ptr g) l (idt_ptr g) (tss_entry g).
Definition set_idt_ptr (p : table_ptr_t) (g : descriptor_globals) : descriptor_globals :=
  DescriptorGlobals (gdt_entries g) (gdt_ptr g) (idt_entries g) p (tss_entry g).
Definition set_tss_entry (t : tss_entry_t) (g : descriptor_globals) : descriptor_globals :=
  DescriptorGlobals (gdt_entries g) (gdt_ptr g) (idt_entries g) (idt_ptr g) t.

Definition modify_dt (f : descriptor_globals -> descriptor_globals) : K unit :=
  modify (fun s => set_dt (f (dt s)) s).

(** The entry that [gdt_set_gate] writes. *)
Definition gdt_entry (base limit acc gran : Z) : gdt_entry_t := {|
  base_low := u16 (Z.land base 65535);
  base_middle := u8 (Z.land (Z.shiftr base 16) 255);
  base_high := u8 (Z.land (Z.shiftr base 24) 255);
  limit_low := u16 (Z.land limit 65535);
  granularity := u8 (Z.lor (u8 (Z.land (Z.shiftr limit 16) 15)) (Z.land gran 240));
  access := acc
|}.

Definition gdt_set_gate (num base limit acc gran : Z) : K unit :=
  n <- gets (fun s => Z.of_nat (length (gdt_entries (dt s))));
  if (0 <=? num) && (num <? n) then
    modify_dt (fun g => set_gdt_entries
      (<[Z.to_nat num := gdt_entry base limit acc gran]> (gdt_entries g)) g)
  else undefined.

(** The entry that [idt_set_gate] writes. *)
Definition idt_entry (base selector fl : Z) : idt_entry_t := {|
  base_lo := u16 (Z.land base 65535);
  base_hi := u16 (Z.land (Z.shiftr base 16) 65535);
  sel := selector;
  always_zero := 0;
  flags := u8 (Z.lor fl 96)
|}.

Definition idt_set_gate (num base selector fl : Z) : K unit :=
  n <- gets (fun s => Z.of_nat (length (idt_entries (dt s))));
  if (0 <=? num) && (num <? n) then
    modify_dt (fun g => set_idt_entries
      (<[Z.to_nat num := idt_entry base selector fl]> (idt_entries g)) g)
  else undefined.

(** The routines of [sys/dt_asm.s]. *)
Definition gdt_flush (p : table_ptr_t) : K unit := emit (Lgdt p).
Definition idt_flush (p : table_ptr_t) : K unit := emit (Lidt p).
Definition tss_flush : K unit := emit (Ltr 43).

Definition run_all (cs : list (K unit)) : K unit := foldr (fun c k => c >> k) (ret tt) cs.

Section Descriptors.
Context `{Linkage}.

(** [sizeof (tss_entry)] is 104. *)
Definition write_tss (num ss0 esp0 : Z) : K unit :=
  let base := sym_tss_entry in
  let limit := u32 (base + 104) in
  gdt_set_gate num base limit 233 0 >>
  modify_dt (set_tss_entry zero_tss_entry) >>
  modify_dt (set_tss_entry {|
    tss_ss0 := ss0; tss_esp0 := esp0; tss_cs := 11;
    tss_ss := 19; tss_ds := 19; tss_es := 19; tss_fs := 19; tss_gs := 19 |}).

Definition set_kernel_stack (stack : Z) : K unit :=
  modify_dt (fun g =>
    let t := tss_entry g in
    set_tss_entry (TssEntry stack (tss_ss0 t) (tss_es t) (tss_cs t) (tss_ss t) (tss_ds t)
                     (tss_fs t) (tss_gs t)) g).

Definition init_gdt : K Z :=
  modify_dt (set_gdt_ptr (TablePtr (u16 (8 * 6 - 1)) sym_gdt_entries)) >>
  gdt_set_gate 0 0 0 0 0 >>
  gdt_set_gate 1 0 4294967295 154 207 >>
  gdt_set_gate 2 0 4294967295 146 207 >>
  gdt_set_gate 3 0 4294967295 250 207 >>
  gdt_set_gate 4 0 4294967295 242 207 >>
  write_tss 5 16 0 >>
  p <- gets (fun s => gdt_ptr (dt s));
  gdt_flush p >>
  tss_flush >>
  ret EXIT_SUCCESS.

(** The 49 calls of [idt_set_gate], in the order of the source. *)
Definition idt_gates : list (Z * Z) :=
  ((fun n => (n, sym_isr n)) <$> (Z.of_nat <$> seq 0 32)) ++
  ((fun n => (n + 32, sym_irq n)) <$> (Z.of_nat <$> seq 0 16)) ++
  [(128, sym_isr 128)].

Definition init_idt : K Z :=
  modify_dt (set_idt_ptr (TablePtr (u16 (8 * 256 - 1)) sym_idt_entries)) >>
  modify_dt (set_idt_entries (replicate 256 zero_idt_entry)) >>
  (* Remap the IRQ table *)
  outb 32 17 >> outb 160 17 >>
  outb 33 32 >> outb 161 40 >>
  outb 33 4 >> outb 161 2 >>
  outb 33 1 >> outb 161 1 >>
  outb 33 0 >> outb 161 0 >>
  run_all ((fun '(n, base) => idt_set_gate n base 8 142) <$> idt_gates) >>
  p <- gets (fun s => idt_ptr (dt s));
  idt_flush p >>
  ret EXIT_SUCCESS.

Definition init_descriptor_tables : K Z :=
  success <- init_gdt;
  if negb (success =? 0) then ret EXIT_FAILURE
  else
    success <- init_idt;
    if negb (success =? 0) then ret EXIT_FAILURE
    else
      modify (set_handlers ∅) >>
      ret EXIT_SUCCESS.
End Descriptors.

(** ** What the processor reads in a descriptor *)

Definition gdt_base (e : gdt_entry_t) : Z :=
  base_low e + 65536 * base_middle e + 16777216 * base_high e.
Definition gdt_limit (e : gdt_entry_t) : Z := limit_low e + 65536 * (granularity e mod 16).
(** With the granularity bit set the limit counts pages of 4096 bytes. *)
Definition gdt_last_byte (e : gdt_entry_t) : Z :=
  if Z.testbit (granularity e) 7 then gdt_limit e * 4096 + 4095 else gdt_limit e.
Definition gdt_dpl (e : gdt_entry_t) : Z := access e / 32 mod 4.
Definition gdt_present (e : gdt_entry_t) : bool := Z.testbit (access e) 7.
Definition gdt_executable (e : gdt_entry_t) : bool := Z.testbit (access e) 3.

Definition idt_offset (e : idt_entry_t) : Z := base_lo e + 65536 * base_hi e.
Definition idt_dpl (e : idt_entry_t) : Z := flags e / 32 mod 4.
Definition idt_present (e : idt_entry_t) : bool := Z.testbit (flags e) 7.

(** ** Properties *)

Lemma land_mask z k : 0 <= k -> Z.land z (2 ^ k - 1) = z mod 2 ^ k.
Proof. intros. rewrite <- Z.land_ones by lia. f_equal. rewrite Z.ones_equiv. lia. Qed.

(** The granularity byte: limit bits below, flags above. *)
Lemma granularity_byte l g :
  0 <= l < 16 -> 0 <= g < 256 -> u8 (Z.lor (u8 l) (Z.land g 240)) = l + g / 16 * 16.
Proof.
  intros Hl Hg. rewrite (u8_id l) by lia.
  assert (Hm : Z.land g 240 = g / 16 * 2 ^ 4).
  { change 240 with (2 ^ 8 - 2 ^ 4). rewrite land_high_mask by lia. change (2 ^ 4) with 16. dlia. }
  rewrite Hm, lor_disjoint by lia. rewrite u8_id; dlia.
Qed.

(** Encoding a segment descriptor and reading it back. *)
Lemma gdt_entry_fields base limit acc gran :
  0 <= base < 4294967296 -> 0 <= limit < 4294967296 -> 0 <= gran < 256 ->
  let e := gdt_entry base limit acc gran in
  gdt_base e = base /\ gdt_limit e = limit mod 1048576 /\ access e = acc /\
  granularity e / 16 = gran / 16 /\ 0 <= granularity e < 256.
Proof.
  intros Hb Hl Hg e. subst e. unfold gdt_base, gdt_limit, gdt_entry.
  cbn [base_low base_middle base_high limit_low granularity access].
  change 65535 with (2 ^ 16 - 1). change 255 with (2 ^ 8 - 1). change 15 with (2 ^ 4 - 1).
  rewrite !land_mask, !Z.shiftr_div_pow2 by lia.
  change (2 ^ 16) with 65536. change (2 ^ 24) with 16777216. change (2 ^ 8) with 256.
  change (2 ^ 4) with 16. rewrite granularity_byte by dlia.
  unfold u8, u16. repeat split; dlia.
Qed.

(** Encoding an interrupt gate and reading it back: the offset is kept and the
    gate is callable from ring 3. *)
Lemma idt_entry_fields base selector fl :
  0 <= base < 4294967296 -> 0 <= fl < 256 ->
  let e := idt_entry base selector fl in
  idt_offset e = base /\ sel e = selector /\ always_zero e = 0 /\
  idt_dpl e = 3 /\ idt_present e = Z.testbit fl 7 /\ flags e mod 32 = fl mod 32.
Proof.
  intros Hb Hf e. subst e. unfold idt_offset, idt_dpl, idt_present, idt_entry.
  cbn [base_lo base_hi sel always_zero flags].
  change 65535 with (2 ^ 16 - 1). rewrite !land_mask, !Z.shiftr_div_pow2 by lia.
  change (2 ^ 16) with 65536. unfold u16.
  assert (Hbits : forall n, 0 <= n < 8 ->
    Z.testbit (u8 (Z.lor fl 96)) n = Z.testbit fl n || Z.testbit 96 n).
  { intros n Hn. unfold u8. change 256 with (2 ^ 8).
    rewrite Z.mod_pow2_bits_low by lia. apply Z.lor_spec. }
  repeat split; [dlia| | |].
  - bits_ext. change 4 with (2 ^ 2). destruct (decide (n < 2)).
    + rewrite Z.mod_pow2_bits_low by lia. change 32 with (2 ^ 5).
      rewrite <- Z.shiftr_div_pow2, Z.shiftr_spec, Hbits by lia.
      assert (n = 0 \/ n = 1) as [->| ->] by lia; by rewrite orb_true_r.
    + rewrite Z.mod_pow2_bits_high by lia. by rewrite (testbit_high 3 2) by lia.
  - rewrite Hbits by lia. apply orb_false_r.
  - bits_ext. change 32 with (2 ^ 5). destruct (decide (n < 5)).
    + rewrite !Z.mod_pow2_bits_low, Hbits by lia.
      assert (n = 0 \/ n = 1 \/ n = 2 \/ n = 3 \/ n = 4) as [->|[->|[->|[->| ->]]]] by lia;
        by rewrite orb_false_r.
    + by rewrite !Z.mod_pow2_bits_high by lia.
Qed.

(** *** The tables that initialisation builds *)

(** Base, last byte, privilege level, presence and executability of a segment. *)
Definition segment (e : gdt_entry_t) : Z * Z * Z * bool * bool :=
  (gdt_base e, gdt_last_byte e, gdt_dpl e, gdt_present e, gdt_executable e).

(** The segments of a flat memory model: kernel code and data, user code and
    data. *)
Definition flat_segments : list (Z * Z * Z * bool * bool) :=
  [(0, 4294967295, 0, true, true); (0, 4294967295, 0, true, false);
   (0, 4294967295, 3, true, true); (0, 4294967295, 3, true, false)].

(** The initialisation commands of the two interrupt controllers: vectors 32
    to 39 for the master, 40 to 47 for the slave, in 8086 mode, unmasked. *)
Definition pic_commands : list event :=
  [Outb 32 17; Outb 160 17; Outb 33 32; Outb 161 40; Outb 33 4; Outb 161 2;
   Outb 33 1; Outb 161 1; Outb 33 0; Outb 161 0].

Section Tables.
Context `{Linkage}.

(** The stub that should serve a vector. *)
Definition vector_stub (n : Z) : option Z :=
  if n <? 32 then Some (sym_isr n)
  else if n <? 48 then Some (sym_irq (n - 32))
  else if n =? 128 then Some (sym_isr 128)
  else None.

Definition assign_gate {A} (gate : Z -> A) (l : list A) (p : Z * Z) : list A :=
  <[Z.to_nat p.1 := gate p.2]> l.

Lemma run_all_gates ps s :
  length (idt_entries (dt s)) = 256%nat -> Forall (fun p => 0 <= p.1 < 256) ps ->
  run_all ((fun '(n, base) => idt_set_gate n base 8 142) <$> ps) s =
  Ok tt (set_dt (set_idt_entries
    (foldl (assign_gate (fun b => idt_entry b 8 142)) (idt_entries (dt s)) ps) (dt s)) s).
Proof.
  revert s. induction ps as [|[n b] ps IH]; intros s Hl Hps.
  - simpl. unfold ret. by destruct s as [? ? ? ? ? ? [] ? ? ? ? ? ? ?].
  - apply Forall_cons in Hps as [Hn Hps]. cbn [fst] in Hn.
    cbn [fmap list_fmap run_all foldr]. unfold bind at 1, idt_set_gate at 1, gets, bind at 1.
    rewrite Hl. replace ((0 <=? n) && (n <? Z.of_nat 256)) with true by blia.
    unfold modify_dt, modify. cbn [fst snd foldl].
    fold (run_all ((fun '(n, base) => idt_set_gate n base 8 142) <$> ps)).
    etransitivity; [apply IH; [by cbn; rewrite length_insert|done]|]. done.
Qed.

(** Any table filled as [init_idt] fills it serves every vector with its stub. *)
Lemma idt_gates_table {A} (zero : A) (isr irq : Z -> A) :
  foldl (fun l p => <[Z.to_nat p.1 := p.2]> l) (replicate 256 zero)
    (((fun n => (n, isr n)) <$> (Z.of_nat <$> seq 0 32)) ++
     ((fun n => (n + 32, irq n)) <$> (Z.of_nat <$> seq 0 16)) ++ [(128, isr 128)]) =
  (fun n => if n <? 32 then isr n else if n <? 48 then irq (n - 32)
            else if n =? 128 then isr 128 else zero) <$> (Z.of_nat <$> seq 0 256).
Proof. vm_compute. reflexivity. Qed.

Lemma foldl_assign_gate {A} (gate : Z -> A) l ps :
  foldl (assign_gate gate) l ps =
  foldl (fun l p => <[Z.to_nat p.1 := p.2]> l) l ((fun p => (p.1, gate p.2)) <$> ps).
Proof. revert l. induction ps as [|p ps IH]; intros l; [done|]. cbn. apply IH. Qed.

Definition idt_table : list idt_entry_t :=
  (fun n => match vector_stub n with
            | Some b => idt_entry b 8 142
            | None => zero_idt_entry
            end) <$> (Z.of_nat <$> seq 0 256).

Lemma idt_table_correct :
  foldl (assign_gate (fun b => idt_entry b 8 142)) (replicate 256 zero_idt_entry) idt_gates =
  idt_table.
Proof.
  rewrite foldl_assign_gate. unfold idt_gates. rewrite !fmap_app, <- !list_fmap_compose.
  etransitivity; [apply (idt_gates_table zero_idt_entry (fun n => idt_entry (sym_isr n) 8 142)
                          (fun n => idt_entry (sym_irq n) 8 142))|].
  apply list_fmap_ext. intros i n _. unfold vector_stub. by repeat case_match.
Qed.

Lemma init_idt_spec s :
  init_idt s = Ok EXIT_SUCCESS
    (set_trace (Lidt (TablePtr 2047 sym_idt_entries) :: rev pic_commands ++ trace s)
      (set_dt (set_idt_entries idt_table (set_idt_ptr (TablePtr 2047 sym_idt_entries) (dt s))) s)).
Proof.
  unfold init_idt. unfold modify_dt, outb, emit, modify, bind, gets, idt_flush, emit.
  rewrite run_all_gates; [|done|].
  - cbn [dt set_dt idt_entries set_idt_entries set_trace].
    rewrite idt_table_correct. done.
  - repeat (apply Forall_cons; split; [simpl; lia|]). constructor.
Qed.

Definition gdt_table : list gdt_entry_t :=
  [gdt_entry 0 0 0 0; gdt_entry 0 4294967295 154 207; gdt_entry 0 4294967295 146 207;
   gdt_entry 0 4294967295 250 207; gdt_entry 0 4294967295 242 207;
   gdt_entry sym_tss_entry (u32 (sym_tss_entry + 104)) 233 0].

Definition boot_tss : tss_entry_t := TssEntry 0 16 19 11 19 19 19 19.

Lemma init_gdt_spec s :
  length (gdt_entries (dt s)) = 6%nat ->
  init_gdt s = Ok EXIT_SUCCESS
    (set_trace (Ltr 43 :: Lgdt (TablePtr 47 sym_gdt_entries) :: trace s)
      (set_dt (set_tss_entry boot_tss (set_gdt_entries gdt_table
         (set_gdt_ptr (TablePtr 47 sym_gdt_entries) (dt s)))) s)).
Proof.
  intros Hl. destruct s as [? ? ? ? ? ? [l ? ? ? ?] ? ? ? ? ? ? ?]. cbn in Hl.
  do 6 (destruct l as [|? l]; [done|]). destruct l; [|done]. reflexivity.
Qed.

Lemma init_descriptor_tables_eq s :
  length (gdt_entries (dt s)) = 6%nat -> exists tr d, length (gdt_entries d) = 6%nat /\
  init_descriptor_tables s = Ok EXIT_SUCCESS (set_handlers ∅ (set_trace tr (set_dt d s))).
Proof.
  intros Hl. unfold init_descriptor_tables, bind at 1.
  rewrite init_gdt_spec by done. change (negb (EXIT_SUCCESS =? 0)) with false. cbv iota.
  unfold bind at 1. rewrite init_idt_spec.
  change (negb (EXIT_SUCCESS =? 0)) with false. cbv iota. unfold bind, modify, ret. do 2 eexists. by split; [|reflexivity].
Qed.

(** C14: Initialisation succeeds.  Afterwards code and data segments span the
    whole address space for rings 0 and 3; the task register selects a
    descriptor based at the task state segment; the interrupt table serves
    exactly the vectors that have a stub, through present ring-3 interrupt
    gates that enter the kernel code segment at that stub; the controllers are
    remapped and no handler is registered. *)
Theorem init_descriptor_tables_correct s :
  length (gdt_entries (dt s)) = 6%nat -> 0 <= sym_tss_entry < 4294967296 ->
  (forall n b, 0 <= n < 256 -> vector_stub n = Some b -> 0 <= b < 4294967296) ->
  wp init_descriptor_tables (fun r s' =>
    r = EXIT_SUCCESS /\ interrupt_handlers s' = ∅ /\
    segment <$> take 4 (drop 1 (gdt_entries (dt s'))) = flat_segments /\
    (exists e, gdt_entries (dt s') !! 5%nat = Some e /\ gdt_base e = sym_tss_entry /\
       gdt_limit e = (sym_tss_entry + 104) mod 1048576) /\
    tss_ss0 (tss_entry (dt s')) = 16 /\
    (forall n, 0 <= n < 256 -> exists e, idt_entries (dt s') !! Z.to_nat n = Some e /\
       match vector_stub n with
       | Some b => idt_offset e = b /\ sel e = 8 /\ idt_dpl e = 3 /\ idt_present e = true /\
                   flags e mod 32 = 14
       | None => idt_present e = false
       end) /\
    trace s' = Lidt (TablePtr 2047 sym_idt_entries) :: rev pic_commands ++
               [Ltr 43; Lgdt (TablePtr 47 sym_gdt_entries)] ++ trace s) s.
Proof.
  intros Hl Ht Hsym. unfold wp, init_descriptor_tables, bind at 1.
  rewrite init_gdt_spec by done. change (negb (EXIT_SUCCESS =? 0)) with false. cbv iota.
  unfold bind at 1. rewrite init_idt_spec.
  change (negb (EXIT_SUCCESS =? 0)) with false. cbv iota. unfold bind, modify, ret.
  cbn [dt set_dt set_trace set_handlers trace interrupt_handlers gdt_entries set_idt_entries
    set_idt_ptr set_tss_entry set_gdt_entries set_gdt_ptr tss_entry idt_entries].
  split_and!; try reflexivity.
  - eexists; split; [reflexivity|].
    pose proof (u32_range (sym_tss_entry + 104)) as Hr.
    destruct (gdt_entry_fields sym_tss_entry (u32 (sym_tss_entry + 104)) 233 0)
      as (Hb & Hlim & _); [lia..|].
    split; [done|]. rewrite Hlim. unfold u32. dlia.
  - intros n Hn. eexists. split.
    { unfold idt_table. rewrite !list_lookup_fmap, lookup_seq_lt by lia. reflexivity. }
    cbn [Nat.add]. rewrite Z2Nat.id by lia.
    destruct (vector_stub n) as [b|] eqn:Hb; [|done].
    pose proof (Hsym n b Hn Hb) as Hbr.
    destruct (idt_entry_fields b 8 142) as (H1 & H2 & _ & H3 & H4 & H5); try lia.
    split_and!; [exact H1|reflexivity|exact H3|by rewrite H4|by rewrite H5].
Qed.
End Tables.

(** Encoding a segment descriptor and reading it back as the processor does:
    the base survives, the limit is cut to 20 bits. *)
Theorem gdt_entry_roundtrip base limit acc gran :
  0 <= base < 4294967296 -> 0 <= limit < 4294967296 -> 0 <= gran < 256 ->
  gdt_base (gdt_entry base limit acc gran) = base /\
  gdt_limit (gdt_entry base limit acc gran) = limit mod 1048576 /\
  access (gdt_entry base limit acc gran) = acc /\
  granularity (gdt_entry base limit acc gran) / 16 = gran / 16.
Proof. intros. destruct (gdt_entry_fields base limit acc gran) as (? & ? & ? & ? & _); auto. Qed.

(** Encoding an interrupt gate and reading it back: the offset is kept and the
    gate can be called from ring 3. *)
Theorem idt_entry_roundtrip base selector fl :
  0 <= base < 4294967296 -> 0 <= fl < 256 ->
  idt_offset (idt_entry base selector fl) = base /\ sel (idt_entry base selector fl) = selector /\
  idt_dpl (idt_entry base selector fl) = 3 /\
  idt_present (idt_entry base selector fl) = Z.testbit fl 7.
Proof. intros. destruct (idt_entry_fields base selector fl) as (? & ? & ? & ? & ? & _); auto. Qed.

(** The processor finds the kernel stack that [set_kernel_stack] names, and the
    rest of the task state segment is as it was. *)
Theorem set_kernel_stack_correct stack s :
  wp (set_kernel_stack stack) (fun _ s' =>
    tss_esp0 (tss_entry (dt s')) = stack /\ tss_ss0 (tss_entry (dt s')) = tss_ss0 (tss_entry (dt s)) /\
    tss_cs (tss_entry (dt s')) = tss_cs (tss_entry (dt s)) /\
    gdt_entries (dt s') = gdt_entries (dt s) /\ mem s' = mem s /\ trace s' = trace s) s.
Proof. done. Qed.

Module DescriptorSample.
#[local] Existing Instance sample_linkage.

Lemma gdt_entry_roundtrip_witness : gdt_base (gdt_entry 305419896 4294967295 154 207) = 305419896.
Proof. apply (gdt_entry_roundtrip 305419896 4294967295 154 207); lia. Defined.

Lemma idt_entry_roundtrip_witness : idt_offset (idt_entry 1048832 8 142) = 1048832.
Proof. apply (idt_entry_roundtrip 1048832 8 142); lia. Defined.

Lemma init_descriptor_tables_correct_witness :
  wp init_descriptor_tables (fun r s' =>
    r = 0 /\ segment <$> take 4 (drop 1 (gdt_entries (dt s'))) = flat_segments /\
    exists e, idt_entries (dt s') !! 33%nat = Some e /\ idt_offset e = 1052688) sample_state.
Proof.
  eapply wp_mono; [apply (init_descriptor_tables_correct sample_state)|].
  - reflexivity.
  - vm_compute. split; [discriminate|reflexivity].
  - intros n b Hn Hb. unfold vector_stub in Hb. cbn in Hb. repeat case_match; simplify_eq; lia.
  - intros r s' (Hr & _ & Hseg & _ & _ & Hidt & _). split; [exact Hr|]. split; [exact Hseg|].
    destruct (Hidt 33 ltac:(lia)) as (e & He & Ho & _). by exists e.
Defined.
End DescriptorSample.
