(* ===== verification/Keyboard.v ===== *)
(** * The keyboard driver of [sys/keyboard.c]

    Scancode translation with the control-key status, and the circular buffer
    between the interrupt handler and [keyboard_getchar].  The buffer refines a
    queue of characters. *)

From Stdlib Require Import ZArith Lia List String.
From stdpp Require Import base list gmap.
From S2P Require Import Prelude Machine Kernel Isr.

(** ** Definitions *)

Definition CONTROL : Z := 1.
Definition LSHIFT : Z := 8.
Definition RSHIFT : Z := 16.
Definition CAPSLOCK : Z := 32.
Definition RELEASED_MASK : Z := 128.

(** An initialiser: the members not listed are 0. *)
Definition pad (n : nat) (l : list Z) : list Z := l ++ replicate (n - length l) 0.

(** The keymap [us]. *)
Definition us : keymap_t := {|
  scancodes := pad 128 (
    [0; 27] ++ str "1234567890-=" ++ [8] ++
    [9] ++ str "qwertyuiop[]" ++ [10] ++
    [0] ++ str "asdfghjkl;\`" ++
    [0] ++ str "\zxcvbnm,./" ++ [0] ++ str "*" ++
    [0] ++ str " " ++ replicate 10 0 ++ [0; 0; 0; 0; 0] ++ str "-" ++ [0; 0; 0] ++ str "+" ++
    replicate 10 0);
  shift_scancodes := pad 128 (
    [0; 27] ++ str "!@#$%^&*()_+" ++ [8] ++
    [9] ++ str "QWERTYUIOP{}" ++ [10] ++
    [0] ++ str "ASDFGHJKL:" ++ [34] ++ str "~" ++
    [0] ++ str "|ZXCVBNM<>?" ++ [0] ++ str "*" ++
    [0] ++ str " " ++ replicate 10 0 ++ [0; 0; 0; 0; 0] ++ str "-" ++ [0; 0; 0] ++ str "+" ++
    replicate 10 0);
  control_map := [29; 56; 0; 42; 54; 58; 70; 69];
  controls := 0
|}.

Definition set_current_layout (p : Z) (g : keyboard_globals) : keyboard_globals :=
  KeyboardGlobals (keymaps g) p (keyboard_buffer_start g) (keyboard_buffer_end g)
    (keyboard_buffer g).
Definition set_buffer_start (i : Z) (g : keyboard_globals) : keyboard_globals :=
  KeyboardGlobals (keymaps g) (current_layout g) i (keyboard_buffer_end g) (keyboard_buffer g).
Definition set_buffer_end (i : Z) (g : keyboard_globals) : keyboard_globals :=
  KeyboardGlobals (keymaps g) (current_layout g) (keyboard_buffer_start g) i (keyboard_buffer g).
Definition set_buffer (l : list Z) (g : keyboard_globals) : keyboard_globals :=
  KeyboardGlobals (keymaps g) (current_layout g) (keyboard_buffer_start g)
    (keyboard_buffer_end g) l.
Definition set_keymaps (m : gmap Z keymap_t) (g : keyboard_globals) : keyboard_globals :=
  KeyboardGlobals m (current_layout g) (keyboard_buffer_start g) (keyboard_buffer_end g)
    (keyboard_buffer g).

Definition modify_kbd (f : keyboard_globals -> keyboard_globals) : K unit :=
  modify (fun s => set_kbd (f (kbd s)) s).

(** [l[i]], for an array of [length l] elements. *)
Definition element (l : list Z) (i : Z) : K Z :=
  match l !! Z.to_nat i with
  | Some x => if i <? 0 then undefined else ret x
  | None => undefined
  end.

(** [*current_layout] *)
Definition layout : K keymap_t :=
  km <- gets (fun s => keymaps (kbd s) !! current_layout (kbd s));
  match km with Some km => ret km | None => undefined end.

Definition set_controls (v : Z) (km : keymap_t) : keymap_t :=
  Keymap (scancodes km) (shift_scancodes km) (control_map km) v.

(** [current_layout->controls = v] *)
Definition write_controls (v : Z) : K unit :=
  km <- layout;
  modify_kbd (fun g => set_keymaps (<[current_layout g := set_controls (u8 v) km]> (keymaps g)) g).

Definition switch_layout (p : Z) : K unit := modify_kbd (set_current_layout p).

Definition init_keyboard_driver `{Linkage} : K unit :=
  register_interrupt_handler IRQ1 ptr_keyboard_handler >>
  switch_layout sym_us >>
  modify_kbd (set_buffer_start 0) >>
  modify_kbd (set_buffer_end 0).

Definition keyboard_getchar : K Z :=
  start <- gets (fun s => keyboard_buffer_start (kbd s));
  end_ <- gets (fun s => keyboard_buffer_end (kbd s));
  if negb (start =? end_) then
    buf <- gets (fun s => keyboard_buffer (kbd s));
    c <- element buf start;
    modify_kbd (set_buffer_start (u32 (start + 1))) >>
    modify_kbd (fun g => set_buffer_start (Z.land (keyboard_buffer_start g) 255) g) >>
    ret c
  else ret 0.

(** The loop of the release branch: [true] when the handler has returned. *)
Definition release_control (scancode : Z) : K bool :=
  loop (fun i =>
    if i <? 5 then
      km <- layout;
      c <- element (control_map km) i;
      if c =? Z.land scancode (Z.lnot RELEASED_MASK) then
        write_controls (Z.land (controls km) (Z.lnot (Z.shiftl 1 i))) >>
        ret (inr true)
      else ret (inl (i + 1))
    else ret (inr false)) 0.

(** The loop of the press branch: [true] when the handler has returned. *)
Definition press_control (scancode : Z) : K bool :=
  loop (fun i =>
    if i <? 8 then
      km <- layout;
      c <- element (control_map km) i;
      if c =? scancode then
        if truth (Z.land (controls km) (Z.shiftl 1 i)) then
          write_controls (Z.land (controls km) (Z.lnot (Z.shiftl 1 i))) >>
          ret (inl (i + 1))
        else
          write_controls (Z.lor (controls km) (Z.shiftl 1 i)) >>
          ret (inr true)
      else ret (inl (i + 1))
    else ret (inr false)) 0.

(** The end of the handler: the character of a key that is not a control key,
    or that has just been switched off, goes into the buffer. *)
Definition store_key (scancode : Z) : K unit :=
  km <- layout;
  let map :=
    if truth (Z.land (controls km) (Z.lor (Z.lor LSHIFT RSHIFT) CAPSLOCK)) &&
       negb (truth (Z.land (controls km) CONTROL))
    then shift_scancodes km else scancodes km in
  start <- gets (fun s => keyboard_buffer_start (kbd s));
  end_ <- gets (fun s => keyboard_buffer_end (kbd s));
  when (negb (end_ =? u32 (start - 1))) (
    c <- element map scancode;
    buf <- gets (fun s => keyboard_buffer (kbd s));
    _ <- element buf end_;
    modify_kbd (set_buffer (<[Z.to_nat end_ := s8 c]> buf)) >>
    modify_kbd (set_buffer_end (u32 (end_ + 1))) >>
    modify_kbd (fun g => set_buffer_end (Z.land (keyboard_buffer_end g) 255) g)).

Definition keyboard_handler (regs : registers_t) : K registers_t :=
  scancode <- inb 96;
  if truth (Z.land scancode RELEASED_MASK) then
    _ <- release_control scancode;
    ret regs
  else
    returned <- press_control scancode;
    if returned : bool then ret regs
    else store_key scancode >> ret regs.

(** ** The buffer as a queue *)

Module Queue.
(** The characters waiting: [start], [start + 1], ... up to [end_], modulo the
    size of the buffer. *)
Definition contents (buf : list Z) (start end_ : Z) : list Z :=
  (fun i => buf !!! Z.to_nat ((start + i) mod 256)) <$> (Z.of_nat <$> seq 0 (Z.to_nat ((end_ - start) mod 256))).

Lemma length_contents buf st en : length (contents buf st en) = Z.to_nat ((en - st) mod 256).
Proof. unfold contents. by rewrite !length_fmap, length_seq. Qed.

Lemma lookup_contents buf st en i :
  contents buf st en !! i =
  if decide (i < Z.to_nat ((en - st) mod 256))%nat
  then Some (buf !!! Z.to_nat ((st + Z.of_nat i) mod 256)) else None.
Proof.
  unfold contents. rewrite !list_lookup_fmap. case_decide.
  - by rewrite lookup_seq_lt by done.
  - by rewrite lookup_seq_ge by lia.
Qed.

Lemma contents_empty buf st : contents buf st st = [].
Proof. apply nil_length_inv. rewrite length_contents, Z.sub_diag. done. Qed.

Lemma contents_pop buf st en :
  0 <= st < 256 -> 0 <= en < 256 -> st <> en ->
  contents buf st en = buf !!! Z.to_nat st :: contents buf ((st + 1) mod 256) en.
Proof.
  intros Hs He Hne. apply list_eq. intros [|i].
  - rewrite lookup_contents, decide_True by dlia. simpl.
    rewrite Z.add_0_r, Z.mod_small by lia. done.
  - cbn [lookup list_lookup]. fold (contents buf ((st + 1) mod 256) en !! i).
    change (list_lookup i ?l) with (l !! i). rewrite !lookup_contents.
    destruct (decide (S i < Z.to_nat ((en - st) mod 256))%nat);
      [rewrite decide_True by dlia|by rewrite decide_False by dlia].
    do 3 f_equal. dlia.
Qed.

Lemma contents_push buf st en c :
  0 <= st < 256 -> 0 <= en < 256 -> length buf = 256%nat -> (en + 1) mod 256 <> st ->
  contents (<[Z.to_nat en := c]> buf) st ((en + 1) mod 256) = contents buf st en ++ [c].
Proof.
  intros Hs He Hl Hne. apply list_eq. intros i.
  rewrite lookup_contents. destruct (decide (i < Z.to_nat ((en - st) mod 256))%nat).
  - rewrite decide_True by dlia. rewrite lookup_app_l by (rewrite length_contents; done).
    rewrite lookup_contents, decide_True by done. f_equal.
    apply list_lookup_total_insert_ne. dlia.
  - rewrite lookup_app_r by (rewrite length_contents; lia).
    rewrite length_contents.
    destruct (decide (i = Z.to_nat ((en - st) mod 256))) as [->|].
    + rewrite decide_True by dlia. rewrite Nat.sub_diag. simpl. f_equal.
      replace ((st + Z.of_nat (Z.to_nat ((en - st) mod 256))) mod 256) with en by dlia.
      apply list_lookup_total_insert_eq. lia.
    + rewrite decide_False by dlia. symmetry. apply lookup_ge_None_2. simpl. dlia.
Qed.
End Queue.

(** The driver's state is consistent: the indices are in the buffer and the
    current layout is a keymap. *)
Record kbd_wf (g : keyboard_globals) (km : keymap_t) : Prop := KbdWf {
  kbd_start : 0 <= keyboard_buffer_start g < 256;
  kbd_end : 0 <= keyboard_buffer_end g < 256;
  kbd_buffer : length (keyboard_buffer g) = 256%nat;
  kbd_layout : keymaps g !! current_layout g = Some km;
  kbd_scancodes : length (scancodes km) = 128%nat;
  kbd_shift_scancodes : length (shift_scancodes km) = 128%nat;
  kbd_control_map : length (control_map km) = 8%nat;
  kbd_controls : 0 <= controls km < 256
}.

Definition queue (g : keyboard_globals) : list Z :=
  Queue.contents (keyboard_buffer g) (keyboard_buffer_start g) (keyboard_buffer_end g).

Lemma land_255_mod z : Z.land z 255 = z mod 256.
Proof. change 255 with (Z.ones 8). by rewrite Z.land_ones by lia. Qed.

Lemma wp_element l i (Q : Z -> kstate -> Prop) s :
  0 <= i < Z.of_nat (length l) -> Q (l !!! Z.to_nat i) s -> wp (element l i) Q s.
Proof.
  intros Hi HQ. unfold element.
  destruct (lookup_lt_is_Some_2 l (Z.to_nat i)) as [x Hx]; [lia|].
  rewrite Hx, (list_lookup_total_correct _ _ _ Hx) in *.
  by replace (i <? 0) with false by blia.
Qed.

Lemma wp_layout km (Q : keymap_t -> kstate -> Prop) s :
  keymaps (kbd s) !! current_layout (kbd s) = Some km -> Q km s -> wp layout Q s.
Proof. intros H HQ. unfold layout. k_steps. by rewrite H. Qed.

Lemma wp_modify_kbd f (Q : unit -> kstate -> Prop) s :
  Q tt (set_kbd (f (kbd s)) s) -> wp (modify_kbd f) Q s.
Proof. done. Qed.

Ltac kbd_steps :=
  repeat (k_step || (apply wp_modify_kbd; cbv beta)).

(** [keyboard_getchar] takes the oldest character off the queue, and is 0 when
    there is none. *)
Lemma getchar_spec km s :
  kbd_wf (kbd s) km ->
  wp keyboard_getchar (fun c s' => exists g', s' = set_kbd g' s /\ kbd_wf g' km /\
    keymaps g' = keymaps (kbd s) /\
    match queue (kbd s) with
    | [] => c = 0 /\ queue g' = [] /\ keyboard_buffer_start g' = keyboard_buffer_start (kbd s)
    | x :: q => c = x /\ queue g' = q /\
        keyboard_buffer_start g' = (keyboard_buffer_start (kbd s) + 1) mod 256
    end) s.
Proof.
  intros [Hs He Hb Hl H1 H2 H3 H4]. unfold keyboard_getchar. k_steps.
  destruct (keyboard_buffer_start (kbd s) =? keyboard_buffer_end (kbd s)) eqn:E; bool_hyps; simpl.
  - k_steps. exists (kbd s). split; [by destruct s|]. split; [by constructor|]. split; [done|].
    unfold queue. by rewrite E, Queue.contents_empty.
  - k_steps. apply wp_element; [lia|]. kbd_steps.
    eexists. split; [reflexivity|]. cbn. rewrite land_255_mod, u32_id by lia.
    split; [constructor; try done; cbn; dlia|]. split; [done|].
    unfold queue. rewrite Queue.contents_pop by done. done.
Qed.

(** ** The handler, abstractly *)

Module KeySpec.
(** The position of a scancode in the first [n] entries of the control map. *)
Definition control_index (n : nat) (km : keymap_t) (sc : Z) : option nat :=
  fst <$> list_find (fun c => c = sc) (take n (control_map km)).

(** The character a key produces: the upper half of the layout when a shift
    or caps lock is on and control is not. *)
Definition char_of (km : keymap_t) (sc : Z) : Z :=
  let on i := Z.testbit (controls km) i in
  s8 ((if (on 3 || on 4 || on 5) && negb (on 0) then shift_scancodes km else scancodes km)
        !!! Z.to_nat sc).

(** A character arriving in a buffer whose oldest character is at index [st]. *)
Definition enqueue (st c : Z) (q : list Z) : list Z :=
  if (length q <? 255)%nat then q ++ [c] else if st =? 0 then [] else q.

Definition turn_on (i : nat) (km : keymap_t) : keymap_t :=
  set_controls (Z.setbit (controls km) (Z.of_nat i)) km.
Definition turn_off (i : nat) (km : keymap_t) : keymap_t :=
  set_controls (Z.clearbit (controls km) (Z.of_nat i)) km.

(** The effect of scancode [sc] on the queue and the layout. *)
Definition handle (st sc : Z) (q : list Z) (km : keymap_t) : list Z * keymap_t :=
  if 128 <=? sc then
    match control_index 5 km (sc - 128) with
    | Some i => (q, turn_off i km)
    | None => (q, km)
    end
  else
    match control_index 8 km sc with
    | Some i =>
        if Z.testbit (controls km) (Z.of_nat i)
        then (enqueue st (char_of (turn_off i km) sc) q, turn_off i km)
        else (q, turn_on i km)
    | None => (enqueue st (char_of km sc) q, km)
    end.

(** The two parts of it: the layout, and whether a character arrives. *)
Definition layout_after (sc : Z) (km : keymap_t) : keymap_t * bool :=
  if 128 <=? sc then
    match control_index 5 km (sc - 128) with Some i => (turn_off i km, false) | None => (km, false) end
  else
    match control_index 8 km sc with
    | Some i => if Z.testbit (controls km) (Z.of_nat i) then (turn_off i km, true) else (turn_on i km, false)
    | None => (km, true)
    end.

Lemma handle_layout st sc q km :
  handle st sc q km =
  let '(km', arrives) := layout_after sc km in
  (if arrives : bool then enqueue st (char_of km' sc) q else q, km').
Proof. unfold handle, layout_after. by repeat case_match. Qed.

(** Only the status changes. *)
Lemma layout_after_keeps sc km :
  exists c, fst (layout_after sc km) = set_controls c km.
Proof.
  assert (Hid : km = set_controls (controls km) km) by by destruct km.
  unfold layout_after, turn_off, turn_on. repeat case_match; cbn [fst]; eauto.
Qed.
End KeySpec.

Lemma u8_setbit z i : 0 <= z < 256 -> 0 <= i < 8 -> u8 (Z.lor z (Z.shiftl 1 i)) = Z.setbit z i.
Proof.
  intros Hz Hi. rewrite Z.setbit_spec'. unfold u8. change 256 with (2 ^ 8). bits_ext.
  rewrite Z.shiftl_1_l. destruct (decide (n < 8)).
  - by rewrite Z.mod_pow2_bits_low by done.
  - rewrite Z.mod_pow2_bits_high by lia. rewrite Z.lor_spec, (testbit_high z 8) by lia.
    by rewrite Z.pow2_bits_false by lia.
Qed.

Lemma u8_clearbit z i :
  0 <= z < 256 -> 0 <= i -> u8 (Z.land z (Z.lnot (Z.shiftl 1 i))) = Z.clearbit z i.
Proof.
  intros Hz Hi. rewrite Z.clearbit_spec', Z.ldiff_land, Z.shiftl_1_l.
  unfold u8. change 256 with (2 ^ 8). bits_ext. destruct (decide (n < 8)).
  - by rewrite Z.mod_pow2_bits_low by done.
  - rewrite Z.mod_pow2_bits_high by lia. rewrite Z.land_spec, (testbit_high z 8) by lia. done.
Qed.

Lemma setbit_u8 z i : 0 <= z < 256 -> 0 <= i < 8 -> 0 <= Z.setbit z i < 256.
Proof. intros. rewrite <- u8_setbit by done. apply u8_range. Qed.
Lemma clearbit_u8 z i : 0 <= z < 256 -> 0 <= i -> 0 <= Z.clearbit z i < 256.
Proof. intros. rewrite <- u8_clearbit by done. apply u8_range. Qed.

Lemma control_index_Some n km sc i :
  KeySpec.control_index n km sc = Some i <->
  (i < n)%nat /\ control_map km !! i = Some sc /\
  forall j, (j < i)%nat -> control_map km !! j <> Some sc.
Proof.
  unfold KeySpec.control_index. rewrite fmap_Some. split.
  - intros ([k x] & (Hk & -> & Hl)%list_find_Some & ->). cbn.
    apply lookup_take_Some in Hk as [Hk Hn]. split; [done|]. split; [done|].
    intros j Hj Hc. apply (Hl j sc); [|done|done]. apply lookup_take_Some. split; [done|lia].
  - intros (Hn & Hi & Hl). exists (i, sc). split; [|done]. apply list_find_Some.
    split; [by apply lookup_take_Some|]. split; [done|].
    intros j y [Hy ?]%lookup_take_Some Hj ->. by apply (Hl j).
Qed.

Lemma control_index_None n km sc :
  KeySpec.control_index n km sc = None <->
  forall j, (j < n)%nat -> control_map km !! j <> Some sc.
Proof.
  unfold KeySpec.control_index. rewrite fmap_None, list_find_None, Forall_lookup. split.
  - intros H j Hj Hc. by apply (H j sc); [apply lookup_take_Some|].
  - intros H j x [Hx ?]%lookup_take_Some ->. by apply (H j).
Qed.

Definition with_layout (km : keymap_t) (s : kstate) : kstate :=
  set_kbd (set_keymaps (<[current_layout (kbd s) := km]> (keymaps (kbd s))) (kbd s)) s.

Lemma with_layout_lookup km s :
  keymaps (kbd (with_layout km s)) !! current_layout (kbd (with_layout km s)) = Some km.
Proof. cbn. apply lookup_insert_eq. Qed.

Lemma with_layout_id km s :
  keymaps (kbd s) !! current_layout (kbd s) = Some km -> with_layout km s = s.
Proof.
  intros H. unfold with_layout, set_keymaps. rewrite insert_id by done.
  by destruct s as [? ? ? ? ? [] ? ? ? ? ? ? ? ?].
Qed.

Lemma wp_write_controls v km (Q : unit -> kstate -> Prop) s :
  keymaps (kbd s) !! current_layout (kbd s) = Some km ->
  Q tt (with_layout (set_controls (u8 v) km) s) -> wp (write_controls v) Q s.
Proof. intros H HQ. unfold write_controls. k_steps. eapply wp_layout; [done|]. done. Qed.

(** Reading an entry of the control map. *)
Lemma wp_control km i (Q : Z -> kstate -> Prop) s :
  length (control_map km) = 8%nat -> 0 <= i < 8 ->
  (forall c, control_map km !! Z.to_nat i = Some c -> Q c s) ->
  wp (element (control_map km) i) Q s.
Proof.
  intros Hl Hi HQ. apply wp_element; [lia|]. apply HQ.
  apply list_lookup_lookup_total_lt. lia.
Qed.

Lemma released_code sc : 0 <= sc < 256 -> Z.land sc (Z.lnot RELEASED_MASK) = sc mod 128.
Proof.
  intros Hsc. rewrite <- Z.ldiff_land. change RELEASED_MASK with (2 ^ 7). change 128 with (2 ^ 7).
  bits_ext. rewrite Z.ldiff_spec. destruct (decide (n < 7)).
  - rewrite Z.pow2_bits_false, Z.mod_pow2_bits_low by lia. apply andb_true_r.
  - rewrite Z.mod_pow2_bits_high by lia. destruct (decide (n = 7)) as [->|].
    + by rewrite Z.pow2_bits_true, andb_false_r by lia.
    + by rewrite (testbit_high sc 8) by lia.
Qed.

Section Controls.
Context (km : keymap_t) (sc : Z) (s : kstate).
Hypothesis Hkm : keymaps (kbd s) !! current_layout (kbd s) = Some km.
Hypothesis Hlen : length (control_map km) = 8%nat.
Hypothesis Hctl : 0 <= controls km < 256.
Hypothesis Hsc : 0 <= sc < 256.

Lemma release_spec :
  wp (release_control sc) (fun _ s' =>
    s' = match KeySpec.control_index 5 km (sc mod 128) with
         | Some i => with_layout (KeySpec.turn_off i km) s
         | None => s
         end) s.
Proof using Hkm Hlen Hctl Hsc.
  unfold release_control.
  apply (wp_loop _ (fun i t => t = s /\ 0 <= i <= 5 /\
           forall j, (j < Z.to_nat i)%nat -> control_map km !! j <> Some (sc mod 128))
           (fun i _ => 5 - i)); [lia| |split_and!; [done|lia..]|lia].
  intros i t (-> & Hi & Hbefore). destruct (i <? 5) eqn:E; bool_hyps.
  - k_steps. eapply wp_layout; [done|]. k_steps. apply wp_control; [done|lia|].
    intros c Hc. rewrite released_code by done. destruct (c =? sc mod 128) eqn:Ec; bool_hyps.
    + k_steps. eapply wp_write_controls; [done|]. k_steps.
      assert (KeySpec.control_index 5 km (sc mod 128) = Some (Z.to_nat i)) as ->.
      { apply control_index_Some. split; [lia|]. split; [congruence|done]. }
      unfold KeySpec.turn_off. by rewrite u8_clearbit, Z2Nat.id by lia.
    + k_steps. split_and!; [done|lia..| |lia]. intros j Hj.
      destruct (decide (j = Z.to_nat i)) as [->|]; [congruence|apply Hbefore; lia].
  - k_steps. assert (KeySpec.control_index 5 km (sc mod 128) = None) as ->; [|done].
    apply control_index_None. intros j Hj. apply Hbefore. lia.
Qed.

(** With no duplicate in the control map, what the loop reads after it has
    switched a control off is not the scancode again. *)
Lemma press_spec :
  NoDup (control_map km) ->
  wp (press_control sc) (fun r s' =>
    match KeySpec.control_index 8 km sc with
    | Some i =>
        if Z.testbit (controls km) (Z.of_nat i)
        then r = false /\ s' = with_layout (KeySpec.turn_off i km) s
        else r = true /\ s' = with_layout (KeySpec.turn_on i km) s
    | None => r = false /\ s' = s
    end) s.
Proof using Hkm Hlen Hctl.
  intros Hdup. unfold press_control.
  apply (wp_loop _ (fun i t => 0 <= i <= 8 /\
           ((t = s /\ forall j, (j < Z.to_nat i)%nat -> control_map km !! j <> Some sc) \/
            (exists k, (k < Z.to_nat i)%nat /\ control_map km !! k = Some sc /\
               Z.testbit (controls km) (Z.of_nat k) = true /\
               t = with_layout (KeySpec.turn_off k km) s)))
           (fun i _ => 8 - i)); [lia| |split; [lia|left; split; [done|lia]]|lia].
  intros i t (Hi & Ht). destruct (i <? 8) eqn:E; bool_hyps; [|k_steps].
  - destruct Ht as [[-> Hbefore]|(k & Hk & Hkc & Hbit & ->)].
    + k_steps. eapply wp_layout; [done|]. k_steps. apply wp_control; [done|lia|].
      intros c Hc. destruct (c =? sc) eqn:Ec; bool_hyps.
      * subst c. assert (KeySpec.control_index 8 km sc = Some (Z.to_nat i)) as Hidx.
        { apply control_index_Some. split; [lia|]. split; [congruence|done]. }
        rewrite truth_bit by lia. destruct (Z.testbit (controls km) i) eqn:Eb.
        -- k_steps. eapply wp_write_controls; [done|]. k_steps.
           split; [split; [lia|]|lia]. right. exists (Z.to_nat i).
           rewrite Z2Nat.id by lia. split_and!; [lia|done|done|].
           unfold KeySpec.turn_off. by rewrite u8_clearbit, Z2Nat.id by lia.
        -- k_steps. eapply wp_write_controls; [done|]. k_steps.
           rewrite Hidx, Z2Nat.id, Eb by lia. split; [done|].
           unfold KeySpec.turn_on. by rewrite u8_setbit, Z2Nat.id by lia.
      * k_steps. split; [split; [lia|left]|lia]. split; [done|]. intros j Hj.
        destruct (decide (j = Z.to_nat i)) as [->|]; [congruence|apply Hbefore; lia].
    + k_steps. eapply wp_layout; [apply with_layout_lookup|]. k_steps.
      apply wp_control; [done|lia|]. intros c Hc.
      destruct (c =? sc) eqn:Ec; bool_hyps.
      { subst c. pose proof (NoDup_lookup _ _ _ _ Hdup Hkc Hc). lia. }
      k_steps. split; [split; [lia|right]|lia]. exists k. split_and!; [lia|done..].
  - destruct Ht as [[-> Hbefore]|(k & Hk & Hkc & Hbit & ->)].
    + assert (KeySpec.control_index 8 km sc = None) as ->; [|done].
      apply control_index_None. intros j Hj. apply Hbefore. lia.
    + assert (KeySpec.control_index 8 km sc = Some k) as ->; [|by rewrite Hbit].
      apply control_index_Some. split_and!; [lia|done|].
      intros j Hj Hc. pose proof (NoDup_lookup _ _ _ _ Hdup Hkc Hc). lia.
Qed.
End Controls.

Lemma truth_shifts c :
  truth (Z.land c (Z.lor (Z.lor LSHIFT RSHIFT) CAPSLOCK)) =
  Z.testbit c 3 || Z.testbit c 4 || Z.testbit c 5.
Proof.
  change (Z.lor (Z.lor LSHIFT RSHIFT) CAPSLOCK) with
    (Z.lor (Z.lor (Z.shiftl 1 3) (Z.shiftl 1 4)) (Z.shiftl 1 5)).
  rewrite !Z.land_lor_distr_r, <- !truth_bit by lia.
  assert (Hor : forall a b, truth (Z.lor a b) = truth a || truth b).
  { intros a b. unfold truth. destruct (Z.lor a b =? 0) eqn:E; bool_hyps.
    - apply Z.lor_eq_0_iff in E as [-> ->]. done.
    - destruct (a =? 0) eqn:Ea, (b =? 0) eqn:Eb; bool_hyps; subst; done. }
  by rewrite !Hor.
Qed.

Lemma truth_control c : truth (Z.land c CONTROL) = Z.testbit c 0.
Proof. change CONTROL with (Z.shiftl 1 0). by rewrite truth_bit by lia. Qed.

Lemma store_key_spec km sc s :
  kbd_wf (kbd s) km -> 0 <= sc < 128 ->
  wp (store_key sc) (fun _ s' => exists g', s' = set_kbd g' s /\ kbd_wf g' km /\
    keyboard_buffer_start g' = keyboard_buffer_start (kbd s) /\
    queue g' = KeySpec.enqueue (keyboard_buffer_start (kbd s)) (KeySpec.char_of km sc)
                 (queue (kbd s))) s.
Proof.
  intros [Hst Hen Hb Hl H1 H2 H3 H4] Hsc. unfold store_key.
  k_steps. eapply wp_layout; [done|]. k_steps.
  rewrite truth_shifts, truth_control. unfold KeySpec.enqueue, KeySpec.char_of.
  assert (Hlen : length (queue (kbd s)) =
    Z.to_nat ((keyboard_buffer_end (kbd s) - keyboard_buffer_start (kbd s)) mod 256))
    by apply Queue.length_contents.
  set (map := if _ && _ then shift_scancodes km else scancodes km).
  assert (Hmap : length map = 128%nat) by (unfold map; case_match; done).
  destruct (keyboard_buffer_end (kbd s) =? u32 (keyboard_buffer_start (kbd s) - 1)) eqn:E;
    bool_hyps; cbn [negb when].
  - (* 255 characters wait, and the oldest is not at index 0 *)
    k_steps. exists (kbd s). split; [by destruct s|]. split; [by constructor|]. split; [done|].
    assert (keyboard_buffer_start (kbd s) <> 0) by (intros H0; rewrite H0 in E; change (u32 (0 - 1)) with 4294967295 in E; lia).
    rewrite u32_id in E by lia. rewrite Hlen, E.
    replace (Z.to_nat _ <? 255)%nat with false by (symmetry; apply Nat.ltb_ge; dlia).
    by replace (keyboard_buffer_start (kbd s) =? 0) with false by blia.
  - k_steps. apply wp_element; [lia|]. k_steps. apply wp_element; [lia|]. kbd_steps.
    eexists. split; [reflexivity|]. cbn -[Nat.ltb]. rewrite land_255_mod, u32_id by lia.
    split; [constructor; try done; cbn; [dlia|by rewrite length_insert]|]. split; [done|].
    unfold queue at 1. cbn -[Nat.ltb].
    destruct (decide ((keyboard_buffer_end (kbd s) + 1) mod 256 = keyboard_buffer_start (kbd s)))
      as [Hfull|Hroom].
    + assert (keyboard_buffer_start (kbd s) = 0) as H0.
      { destruct (decide (keyboard_buffer_start (kbd s) = 0)); [done|].
        rewrite u32_id in E by lia. dlia. }
      rewrite Hfull, Queue.contents_empty, Hlen.
      replace (Z.to_nat _ <? 255)%nat with false by (symmetry; apply Nat.ltb_ge; dlia).
      by rewrite H0.
    + rewrite Queue.contents_push by done. rewrite Hlen.
      by replace (Z.to_nat _ <? 255)%nat with true by (symmetry; apply Nat.ltb_lt; dlia).
Qed.

Lemma with_layout_wf km km' s :
  kbd_wf (kbd s) km -> 0 <= controls km' < 256 -> length (scancodes km') = 128%nat ->
  length (shift_scancodes km') = 128%nat -> length (control_map km') = 8%nat ->
  kbd_wf (kbd (with_layout km' s)) km'.
Proof. intros [] ????. constructor; try done. apply with_layout_lookup. Qed.

Section Handler.
Context (km : keymap_t) (regs : registers_t) (s : kstate).
Hypothesis Hkm : keymaps (kbd s) !! current_layout (kbd s) = Some km.
Hypothesis Hlen : length (control_map km) = 8%nat.
Hypothesis Hctl : 0 <= controls km < 256.
Hypothesis Hdup : NoDup (control_map km).

(** The handler up to the buffer: what it does to the layout, and the key that it
    stores, if any. *)
Lemma handler_layout (Q : registers_t -> kstate -> Prop) :
  let sc := u8 (port_in s 96) in
  (let '(km', arrives) := KeySpec.layout_after sc km in
   0 <= controls km' < 256 ->
   if arrives : bool then sc < 128 -> wp (store_key sc) (fun _ => Q regs) (with_layout km' s)
   else Q regs (with_layout km' s)) ->
  wp (keyboard_handler regs) Q s.
Proof using Hkm Hlen Hctl Hdup.
  cbv zeta. intros HQ. unfold keyboard_handler, inb. k_steps.
  change (u16 96) with 96. set (sc := u8 (port_in s 96)) in *.
  assert (Hsc : 0 <= sc < 256) by apply u8_range. unfold KeySpec.layout_after in HQ.
  change RELEASED_MASK with (Z.shiftl 1 7). rewrite truth_bit by lia.
  destruct (128 <=? sc) eqn:E; bool_hyps.
  - replace (Z.testbit sc 7) with true.
    2: { symmetry. apply Z.testbit_true; [lia|]. change (2 ^ 7) with 128.
         assert (sc / 128 = 1) as -> by dlia. done. }
    k_steps. eapply wp_mono; [by apply (release_spec km)|]. intros r s' ->. k_steps.
    replace (sc mod 128) with (sc - 128) by dlia. destruct (KeySpec.control_index 5 km (sc - 128)) as [i|].
    + apply HQ. apply clearbit_u8; lia.
    + rewrite with_layout_id in HQ by done. by apply HQ.
  - replace (Z.testbit sc 7) with false by (symmetry; apply (testbit_high sc 7); lia).
    k_steps. eapply wp_mono; [by apply (press_spec km)|]. intros r s' Hr.
    destruct (KeySpec.control_index 8 km sc) as [i|] eqn:Ei.
    + assert (Hi : (i < 8)%nat) by (by apply control_index_Some in Ei as [? _]).
      destruct (Z.testbit (controls km) (Z.of_nat i)); destruct Hr as [-> ->].
      * k_steps. eapply wp_mono; [apply HQ; [apply clearbit_u8; lia|lia]|]. intros [] s' Hs'. by k_steps.
      * k_steps. apply HQ. apply setbit_u8; lia.
    + destruct Hr as [-> ->]. rewrite with_layout_id in HQ by done. k_steps.
      eapply wp_mono; [apply HQ; [done|lia]|]. intros [] s' Hs'. by k_steps.
Qed.
End Handler.

Lemma handler_spec km regs s :
  kbd_wf (kbd s) km -> NoDup (control_map km) ->
  wp (keyboard_handler regs) (fun r s' => exists g' km', r = regs /\ s' = set_kbd g' s /\
    kbd_wf g' km' /\ keyboard_buffer_start g' = keyboard_buffer_start (kbd s) /\
    (queue g', km') =
      KeySpec.handle (keyboard_buffer_start (kbd s)) (u8 (port_in s 96)) (queue (kbd s)) km) s.
Proof.
  intros Hwf Hdup. pose proof Hwf as [Hst Hen Hb Hl H1 H2 H3 H4]. apply (handler_layout km); try done.
  rewrite KeySpec.handle_layout. destruct (KeySpec.layout_after_keeps (u8 (port_in s 96)) km) as [c Hc].
  destruct (KeySpec.layout_after _ km) as [km' arrives]. cbn [fst] in Hc. intros Hr.
  assert (Hwf' : kbd_wf (kbd (with_layout km' s)) km') by (subst km'; by apply (with_layout_wf km)).
  destruct arrives.
  - intros Hsc. assert (0 <= u8 (port_in s 96)) by apply u8_range.
    eapply wp_mono; [by apply (store_key_spec km')|]. intros [] s' (g' & -> & Hg & Hs' & Hq).
    exists g', km'. split_and!; try done. f_equal. exact Hq.
  - exists (kbd (with_layout km' s)), km'. by split_and!.
Qed.

Lemma us_wf g :
  keymaps g !! current_layout g = Some us -> 0 <= keyboard_buffer_start g < 256 ->
  0 <= keyboard_buffer_end g < 256 -> length (keyboard_buffer g) = 256%nat -> kbd_wf g us.
Proof. intros. constructor; try done. Qed.

Lemma us_nodup : NoDup (control_map us).
Proof. apply (bool_decide_unpack _). vm_compute. done. Qed.

(** ** Properties *)

(** C6: The handler, on every branch, does to the queue of characters and to the
    layout what [KeySpec.handle] says of the scancode the controller presents,
    and changes nothing else. *)
Theorem keyboard_handler_refines km regs s :
  kbd_wf (kbd s) km -> NoDup (control_map km) ->
  wp (keyboard_handler regs) (fun r s' => exists g' km', r = regs /\ s' = set_kbd g' s /\
    kbd_wf g' km' /\ keyboard_buffer_start g' = keyboard_buffer_start (kbd s) /\
    (queue g', km') =
      KeySpec.handle (keyboard_buffer_start (kbd s)) (u8 (port_in s 96)) (queue (kbd s)) km) s.
Proof. apply handler_spec. Qed.

(** [keyboard_getchar] takes the oldest waiting character off the queue; it is
    0, and changes nothing, when no character waits. *)
Theorem keyboard_getchar_refines km s :
  kbd_wf (kbd s) km ->
  wp keyboard_getchar (fun c s' => exists g', s' = set_kbd g' s /\ kbd_wf g' km /\
    c = hd 0 (queue (kbd s)) /\ queue g' = tl (queue (kbd s))) s.
Proof.
  intros H. eapply wp_mono; [by apply getchar_spec|]. intros c s' (g' & -> & Hg & _ & Hq).
  exists g'. split; [done|]. split; [done|]. destruct (queue (kbd s)); by destruct Hq as (-> & -> & _).
Qed.

(** *** Sequences of key presses *)

(** The controller presents a scancode and raises its interrupt. *)
Definition present (sc : Z) (s : kstate) : kstate :=
  KState (mem s) (trace s) (fun p => if p =? 96 then sc else port_in s p) (cpu s) (mon s) (kbd s)
    (dt s) (interrupt_handlers s) (tick s) (hp s) (pg s) (tk s) (fs s) (boot s).

Definition key_interrupt (regs : registers_t) (sc : Z) : K unit :=
  modify (present sc) >> _ <- keyboard_handler regs; ret tt.

Definition press_all (regs : registers_t) (scs : list Z) : K unit :=
  foldr (fun sc k => key_interrupt regs sc >> k) (ret tt) scs.

Definition read_all (n : nat) : K (list Z) :=
  Nat.iter n (fun k => c <- keyboard_getchar; l <- k; ret (c :: l)) (ret []).

(** A key that is not a control key of the layout. *)
Definition plain_key (km : keymap_t) (sc : Z) : Prop :=
  0 <= sc < 128 /\ sc ∉ control_map km.

#[export] Instance plain_key_dec km sc : Decision (plain_key km sc).
Proof. unfold plain_key. apply _. Defined.

Lemma plain_key_index n km sc : plain_key km sc -> KeySpec.control_index n km sc = None.
Proof.
  intros [_ Hn]. apply control_index_None. intros j _ Hj. apply Hn. by eapply list_elem_of_lookup_2.
Qed.

Lemma press_all_spec km regs scs s :
  kbd_wf (kbd s) km -> NoDup (control_map km) -> Forall (plain_key km) scs ->
  (length (queue (kbd s)) + length scs <= 255)%nat ->
  wp (press_all regs scs) (fun _ s' => kbd_wf (kbd s') km /\
    queue (kbd s') = queue (kbd s) ++ (KeySpec.char_of km <$> scs) /\
    mem s' = mem s /\ mon s' = mon s) s.
Proof.
  intros Hwf Hdup. revert s Hwf. induction scs as [|sc scs IH]; intros s Hwf Hp Hlen.
  - k_steps. by rewrite app_nil_r.
  - apply Forall_cons in Hp as [Hsc Hp]. unfold press_all. cbn [foldr].
    fold (press_all regs scs). unfold key_interrupt. k_steps.
    eapply wp_mono; [by apply (handler_spec km)|].
    intros r s' (g' & km' & -> & -> & Hg & Hst & Heq). k_steps.
    cbn [port_in present] in Heq. change (96 =? 96) with true in Heq. cbv iota in Heq.
    destruct Hsc as [Hr Hn]. rewrite u8_id in Heq by lia. unfold KeySpec.handle in Heq.
    replace (128 <=? sc) with false in Heq by blia.
    rewrite plain_key_index in Heq by done. injection Heq as Hq ->.
    unfold KeySpec.enqueue in Hq. cbn [length] in Hlen. cbn [kbd present] in Hq.
    replace (length (queue (kbd s)) <? 255)%nat with true in Hq
      by (symmetry; apply Nat.ltb_lt; lia).
    eapply wp_mono; [apply IH; [exact Hg|done|]|].
    + cbn [kbd set_kbd]. rewrite Hq, length_app. cbn. lia.
    + intros [] s'' (Hw & Hq' & Hm & Hc). split; [done|]. split; [|split; [exact Hm|exact Hc]].
      rewrite Hq'. cbn [kbd set_kbd]. by rewrite Hq, <- app_assoc.
Qed.

Lemma read_all_spec km n s :
  kbd_wf (kbd s) km -> (n <= length (queue (kbd s)))%nat ->
  wp (read_all n) (fun l s' => kbd_wf (kbd s') km /\ l = take n (queue (kbd s)) /\
    queue (kbd s') = drop n (queue (kbd s))) s.
Proof.
  revert s. induction n as [|n IH]; intros s Hwf Hn; [by k_steps|].
  unfold read_all. cbn [Nat.iter nat_rect]. fold (read_all n). k_steps.
  eapply wp_mono; [by apply (getchar_spec km)|]. intros c s' (g' & -> & Hg & _ & Hq).
  destruct (queue (kbd s)) as [|x q]; [cbn in Hn; lia|]. destruct Hq as (-> & Hq & _). k_steps.
  eapply wp_mono; [apply IH; [exact Hg|cbn [kbd set_kbd]; rewrite Hq; cbn in Hn; lia]|].
  intros l s'' (Hw & -> & Hq'). k_steps. cbn [kbd set_kbd] in *. rewrite Hq in *. done.
Qed.

(** What is typed is what is read: up to 255 presses of plain keys into an empty
    buffer are delivered by [keyboard_getchar] in order, translated by the
    layout, and the buffer is empty again. *)
Theorem typed_is_read km regs scs s :
  kbd_wf (kbd s) km -> NoDup (control_map km) -> Forall (plain_key km) scs ->
  queue (kbd s) = [] -> (length scs <= 255)%nat ->
  wp (press_all regs scs >> read_all (length scs))
    (fun l s' => l = KeySpec.char_of km <$> scs /\ queue (kbd s') = []) s.
Proof.
  intros Hwf Hdup Hp Hq Hl. k_steps.
  eapply wp_mono; [apply (press_all_spec km); [done..|by rewrite Hq]|].
  intros [] s1 (Hwf1 & Hq1 & _). rewrite Hq in Hq1. simpl in Hq1.
  eapply wp_mono; [apply (read_all_spec km); [done|by rewrite Hq1, length_fmap]|].
  intros l s2 (_ & -> & ->). rewrite Hq1, take_ge, drop_ge by (by rewrite length_fmap). done.
Qed.

(** The test for a full buffer compares with [start - 1] before wrapping: when
    255 characters wait and the oldest is at index 0, one more key press
    discards all of them. *)
Theorem keyboard_overflow_loses_all km regs s :
  kbd_wf (kbd s) km -> NoDup (control_map km) -> plain_key km (u8 (port_in s 96)) ->
  keyboard_buffer_start (kbd s) = 0 -> length (queue (kbd s)) = 255%nat ->
  wp (keyboard_handler regs) (fun _ s' => queue (kbd s') = []) s.
Proof.
  intros Hwf Hdup Hp H0 Hl. eapply wp_mono; [by apply (handler_spec km)|].
  intros r s' (g' & km' & -> & -> & _ & _ & Heq). unfold KeySpec.handle in Heq.
  pose proof Hp as [Hr _]. replace (128 <=? u8 (port_in s 96)) with false in Heq by blia.
  rewrite plain_key_index in Heq by done. injection Heq as Hq _.
  unfold KeySpec.enqueue in Hq. rewrite Hl, H0 in Hq. exact Hq.
Qed.

(** With the layout [us], pressing a control key that is already on switches it
    off and also puts the character 0 in the buffer, which a reader takes for an
    empty buffer. *)
Theorem control_key_enqueues_nul regs km s i :
  kbd_wf (kbd s) km -> control_map km = control_map us -> scancodes km = scancodes us ->
  shift_scancodes km = shift_scancodes us -> (i < 8)%nat ->
  control_map us !! i = Some (u8 (port_in s 96)) -> Z.testbit (controls km) (Z.of_nat i) = true ->
  (length (queue (kbd s)) < 255)%nat ->
  wp (keyboard_handler regs) (fun _ s' => queue (kbd s') = queue (kbd s) ++ [0]) s.
Proof.
  intros Hwf Hcm Hsc Hsh Hi Hc Hbit Hl.
  eapply wp_mono; [apply (handler_spec km); [done|rewrite Hcm; apply us_nodup]|].
  intros r s' (g' & km' & -> & -> & _ & _ & Heq). unfold KeySpec.handle in Heq.
  assert (Hlt : u8 (port_in s 96) < 128).
  { do 8 (destruct i as [|i]; [injection Hc; intros <-; lia|]). done. }
  replace (128 <=? u8 (port_in s 96)) with false in Heq by blia.
  assert (KeySpec.control_index 8 km (u8 (port_in s 96)) = Some i) as Hidx.
  { apply control_index_Some. rewrite Hcm. split; [done|]. split; [done|].
    intros j Hj Hj'. pose proof (NoDup_lookup _ _ _ _ us_nodup Hc Hj'). lia. }
  rewrite Hidx, Hbit in Heq. injection Heq as Hq _. cbn [kbd set_kbd]. rewrite Hq.
  unfold KeySpec.enqueue, KeySpec.char_of.
  replace (length (queue (kbd s)) <? 255)%nat with true by (symmetry; by apply Nat.ltb_lt).
  do 2 f_equal. cbn [scancodes shift_scancodes KeySpec.turn_off set_controls]. rewrite Hsc, Hsh.
  clear -Hc. set (b := _ && _). clearbody b.
  do 8 (destruct i as [|i]; [injection Hc; intros <-; by destruct b|]). done.
Qed.

(** After initialisation the layout is [us], no character waits, and the handler
    serves the keyboard's vector. *)
Theorem init_keyboard_driver_correct `{Linkage} s :
  keymaps (kbd s) !! sym_us = Some us -> length (keyboard_buffer (kbd s)) = 256%nat ->
  wp init_keyboard_driver (fun _ s' => kbd_wf (kbd s') us /\ queue (kbd s') = [] /\
    interrupt_handlers s' = <[33 := ptr_keyboard_handler]> (interrupt_handlers s) /\
    mem s' = mem s) s.
Proof. intros Hk Hl. unfold wp. cbn. split; [by constructor|done]. Qed.

(** The key of a small letter, and a check that it is the only one and that it
    carries the capital in the upper half of the layout. *)
Definition key_of (c : Z) : nat := default 0%nat (fst <$> list_find (fun x => x = c) (scancodes us)).

Definition letter_key_ok (c : Z) : bool :=
  let k := key_of c in
  bool_decide (k < 128)%nat && bool_decide (Z.of_nat k ∉ control_map us) &&
  (scancodes us !!! k =? c) && (shift_scancodes us !!! k =? c - 32) &&
  forallb (fun j => negb (scancodes us !!! j =? c) || (j =? k)%nat) (seq 0 128).

Lemma letter_keys_ok c : 97 <= c <= 122 -> letter_key_ok c = true.
Proof.
  intros Hc. assert (forallb letter_key_ok (seqZ 97 26) = true) as H by (vm_compute; done).
  rewrite forallb_forall in H. apply H. apply list_elem_of_In, elem_of_seqZ. lia.
Qed.

(** A letter key of [us] gives the capital exactly when a shift or caps lock is
    on and control is off, and every small letter has exactly one key. *)
Theorem us_letters c st :
  97 <= c <= 122 ->
  exists sc, plain_key us sc /\
    (forall sc', 0 <= sc' -> scancodes us !! Z.to_nat sc' = Some c -> sc' = sc) /\
    KeySpec.char_of (set_controls st us) sc =
      if (Z.testbit st 3 || Z.testbit st 4 || Z.testbit st 5) && negb (Z.testbit st 0)
      then c - 32 else c.
Proof.
  intros Hc. pose proof (letter_keys_ok c Hc) as Hok. unfold letter_key_ok in Hok.
  rewrite !andb_true_iff, !bool_decide_eq_true, !Z.eqb_eq, forallb_forall in Hok.
  destruct Hok as ((((Hk & Hn) & Hl) & Hu) & Honly). exists (Z.of_nat (key_of c)).
  split; [split; [lia|done]|]. split.
  - intros sc' Hp Hsc. pose proof (lookup_lt_Some _ _ _ Hsc) as Hlt.
    change (length (scancodes us)) with 128%nat in Hlt.
    specialize (Honly (Z.to_nat sc')). rewrite (list_lookup_total_correct _ _ _ Hsc), Z.eqb_refl in Honly.
    cbn [negb orb] in Honly. rewrite Nat.eqb_eq in Honly.
    rewrite <- Honly; [lia|]. apply list_elem_of_In, elem_of_seq. lia.
  - unfold KeySpec.char_of. cbn [controls set_controls scancodes shift_scancodes].
    rewrite Nat2Z.id. case_match; [rewrite Hu|rewrite Hl]; apply s8_id; lia.
Qed.

(** The ten entries the source comments F1 to F10, 59 to 68, start at index 58:
    the rest of the layout is one place early, and the keypad's minus and plus
    (scancodes 74 and 78) answer to scancodes 73 and 77. *)
Theorem us_keypad_off_by_one :
  scancodes us !! 73%nat = Some 45 /\ scancodes us !! 74%nat = Some 0 /\
  scancodes us !! 77%nat = Some 43 /\ scancodes us !! 78%nat = Some 0.
Proof. done. Qed.

Module KeyboardSample.
#[local] Existing Instance sample_linkage.

(** [n] characters from index [st] on, with the layout [us] and status [c]. *)
Definition keyboard (c st n : Z) : keyboard_globals :=
  KeyboardGlobals {[sym_us := set_controls c us]} sym_us st ((st + n) mod 256) (replicate 256 65).

Definition state (c st n sc : Z) : kstate := present sc (set_kbd (keyboard c st n) sample_state).

Definition regs : registers_t := Registers 16 0 0 0 0 0 0 0 0 33 0 0 8 514 0 16.

Lemma keyboard_wf c st n sc :
  0 <= c < 256 -> 0 <= st < 256 -> kbd_wf (kbd (state c st n sc)) (set_controls c us).
Proof. intros. constructor; try done. cbn. apply Z.mod_pos_bound. lia. Qed.

Lemma keyboard_handler_refines_witness :
  wp (keyboard_handler regs) (fun _ s' => queue (kbd s') = [65; 81]) (state 8 255 1 16).
Proof.
  eapply wp_mono; [apply (keyboard_handler_refines (set_controls 8 us))|].
  - apply keyboard_wf; lia.
  - apply us_nodup.
  - intros r s' (g' & km' & _ & -> & _ & _ & Heq). injection Heq as Hq _. exact Hq.
Defined.

Lemma keyboard_getchar_refines_witness :
  wp keyboard_getchar (fun c s' => c = 65 /\ queue (kbd s') = [65]) (state 0 255 2 0).
Proof.
  eapply wp_mono; [apply (keyboard_getchar_refines (set_controls 0 us))|].
  - apply keyboard_wf; lia.
  - intros c s' (g' & -> & _ & Hc & Hq). split; [exact Hc|exact Hq].
Defined.

Lemma typed_is_read_witness :
  wp (press_all regs [35; 18; 38; 38; 24] >> read_all 5)
    (fun l s' => l = str "hello" /\ queue (kbd s') = []) (state 0 7 0 0).
Proof.
  apply (typed_is_read (set_controls 0 us) regs [35; 18; 38; 38; 24]).
  - apply keyboard_wf; lia.
  - apply us_nodup.
  - apply (bool_decide_unpack (Forall _ _)). vm_compute. done.
  - reflexivity.
  - simpl. lia.
Defined.

Lemma keyboard_overflow_loses_all_witness :
  wp (keyboard_handler regs) (fun _ s' => queue (kbd s') = []) (state 0 0 255 30).
Proof.
  apply (keyboard_overflow_loses_all (set_controls 0 us)).
  - apply keyboard_wf; lia.
  - apply us_nodup.
  - apply (bool_decide_unpack _). vm_compute. done.
  - reflexivity.
  - vm_compute. reflexivity.
Defined.

Lemma control_key_enqueues_nul_witness :
  wp (keyboard_handler regs) (fun _ s' => queue (kbd s') = [0]) (state 32 9 0 58).
Proof.
  apply (control_key_enqueues_nul regs (set_controls 32 us) (state 32 9 0 58) 5);
    [apply keyboard_wf; lia|reflexivity..|simpl; lia|reflexivity|reflexivity|simpl; lia].
Defined.

Lemma init_keyboard_driver_correct_witness :
  wp init_keyboard_driver (fun _ s' => kbd_wf (kbd s') us /\ queue (kbd s') = [] /\
    interrupt_handlers s' = <[33 := ptr_keyboard_handler]> (interrupt_handlers (state 0 3 4 0)) /\
    mem s' = mem (state 0 3 4 0)) (state 0 3 4 0).
Proof. apply (init_keyboard_driver_correct (state 0 3 4 0)); reflexivity. Defined.

Lemma us_letters_witness :
  exists sc, plain_key us sc /\ KeySpec.char_of (set_controls 8 us) sc = 70.
Proof. destruct (us_letters 102 8 ltac:(lia)) as (sc & Hp & _ & Hc). exists sc. auto. Defined.
End KeyboardSample.
