(* ===== verification/KeyboardRace.v ===== *)
(** * [keyboard_getchar] while keys are pressed

    The loop of [kernel_start] reads the buffer with interrupts on, and the handler of
    the keyboard writes it.  [getchar_interrupted] is [keyboard_getchar] with
    something else happening at every point between its accesses to the globals.
    When that is any number of key presses the character and the buffer are those
    of some order of whole calls; when it is another task that reads the buffer
    too, they are not. *)

From Stdlib Require Import ZArith Lia List String.
From stdpp Require Import base list gmap.
From S2P Require Import Prelude Machine Kernel Isr Keyboard.

(** ** Definitions *)

(** [interrupts n] happens at point [n].  First the branch that takes a character. *)
Definition take_interrupted (interrupts : nat -> K unit) : K Z :=
  start <- gets (fun s => keyboard_buffer_start (kbd s));
  interrupts 3%nat >>
  buf <- gets (fun s => keyboard_buffer (kbd s));
  c <- element buf start;
  interrupts 4%nat >>
  modify_kbd (set_buffer_start (u32 (start + 1))) >>
  interrupts 5%nat >>
  modify_kbd (fun g => set_buffer_start (Z.land (keyboard_buffer_start g) 255) g) >>
  ret c.

Definition getchar_interrupted (interrupts : nat -> K unit) : K Z :=
  interrupts 0%nat >>
  start <- gets (fun s => keyboard_buffer_start (kbd s));
  interrupts 1%nat >>
  end_ <- gets (fun s => keyboard_buffer_end (kbd s));
  interrupts 2%nat >>
  if negb (start =? end_) then take_interrupted interrupts else ret 0.

(** Without interruptions it is [keyboard_getchar]. *)
Lemma getchar_uninterrupted s : getchar_interrupted (fun _ => ret tt) s = keyboard_getchar s.
Proof.
  unfold getchar_interrupted, take_interrupted, keyboard_getchar, bind, gets, ret, modify_kbd, modify.
  destruct (_ =? _); cbn [negb]; [done|]. by destruct (element _ _ s).
Qed.

(** What [scs] put in a buffer with room, and the layout after them. *)
Fixpoint key_chars (scs : list Z) (km : keymap_t) : list Z * keymap_t :=
  match scs with
  | [] => ([], km)
  | sc :: scs =>
      let '(t, km1) := KeySpec.handle 1 (u8 sc) [] km in
      let '(t', km2) := key_chars scs km1 in (t ++ t', km2)
  end.

Lemma key_chars_app scs scs' km :
  key_chars (scs ++ scs') km =
  let '(t, km1) := key_chars scs km in let '(t', km2) := key_chars scs' km1 in (t ++ t', km2).
Proof.
  revert km. induction scs as [|sc scs IH]; intros km; cbn [app key_chars]; [by destruct (key_chars scs' km)|].
  destruct (KeySpec.handle 1 (u8 sc) [] km) as [t km1]. rewrite IH.
  destruct (key_chars scs km1) as [t1 km2]. destruct (key_chars scs' km2) as [t2 km3]. by rewrite app_assoc.
Qed.

Lemma handle_length sc km : (length (fst (KeySpec.handle 1 sc [] km)) <= 1)%nat.
Proof. rewrite KeySpec.handle_layout. destruct (KeySpec.layout_after sc km) as [km' []]; cbn; lia. Qed.

Lemma key_chars_length scs km : (length (fst (key_chars scs km)) <= length scs)%nat.
Proof.
  revert km. induction scs as [|sc scs IH]; intros km; cbn [key_chars length]; [done|].
  pose proof (handle_length (u8 sc) km) as H1. destruct (KeySpec.handle 1 (u8 sc) [] km) as [t km1].
  pose proof (IH km1) as H2. destruct (key_chars scs km1) as [t' km2].
  cbn [fst] in *. rewrite length_app. lia.
Qed.

(** With room in the buffer the keys only add to it. *)
Lemma handle_room st sc q km :
  (length q < 255)%nat ->
  KeySpec.handle st sc q km =
  (q ++ fst (KeySpec.handle 1 sc [] km), snd (KeySpec.handle 1 sc [] km)).
Proof.
  intros Hq. rewrite !KeySpec.handle_layout. destruct (KeySpec.layout_after sc km) as [km' []]; cbn [fst snd].
  - unfold KeySpec.enqueue. by replace (length q <? 255)%nat with true by (symmetry; apply Nat.ltb_lt; lia).
  - by rewrite app_nil_r.
Qed.

Lemma key_chars_keeps_map scs km : control_map (snd (key_chars scs km)) = control_map km.
Proof.
  revert km. induction scs as [|sc scs IH]; intros km; cbn [key_chars]; [done|].
  rewrite KeySpec.handle_layout. destruct (KeySpec.layout_after_keeps (u8 sc) km) as [c Hc].
  destruct (KeySpec.layout_after (u8 sc) km) as [km' arrives]. cbn [fst] in Hc. pose proof (IH km') as H.
  destruct (key_chars scs km'). cbn [snd] in *. by rewrite H, Hc.
Qed.

(** ** The buffer between the accesses

    After the increment and before the mask the start index can be 256. *)

Definition settled (g : keyboard_globals) : keyboard_globals :=
  set_buffer_start (keyboard_buffer_start g mod 256) g.

Record kbd_mid (g : keyboard_globals) (km : keymap_t) : Prop := KbdMid {
  mid_wf : kbd_wf (settled g) km;
  mid_start : 0 <= keyboard_buffer_start g <= 256;
  mid_nodup : NoDup (control_map km)
}.

Lemma settled_id g : 0 <= keyboard_buffer_start g < 256 -> settled g = g.
Proof. intros. unfold settled. rewrite Z.mod_small by done. by destruct g. Qed.

Lemma kbd_wf_mid g km : kbd_wf g km -> NoDup (control_map km) -> kbd_mid g km.
Proof.
  intros Hg Hd. pose proof (kbd_start _ _ Hg). constructor; [|lia|done]. by rewrite settled_id by lia.
Qed.

(** Something waits exactly when the indices differ; the first is at the start index. *)
Lemma queue_empty g km :
  kbd_wf g km -> queue g = [] <-> keyboard_buffer_start g = keyboard_buffer_end g.
Proof.
  intros [Hs He _ _ _ _ _ _]. unfold queue. split; [|intros ->; apply Queue.contents_empty].
  intros Hq. destruct (decide (keyboard_buffer_start g = keyboard_buffer_end g)); [done|].
  by rewrite Queue.contents_pop in Hq.
Qed.

Lemma queue_head g km :
  kbd_wf g km -> queue g <> [] ->
  queue g = keyboard_buffer g !!! Z.to_nat (keyboard_buffer_start g) :: tl (queue g).
Proof.
  intros Hwf Hne. pose proof Hwf as [Hs He _ _ _ _ _ _]. unfold queue.
  rewrite Queue.contents_pop; [done..|]. intros E. by apply Hne, (queue_empty g km).
Qed.

(** Nothing changes but the driver's globals and what the ports present. *)
Definition set_ports (p : Z -> Z) (s : kstate) : kstate :=
  KState (mem s) (trace s) p (cpu s) (mon s) (kbd s) (dt s) (interrupt_handlers s)
    (tick s) (hp s) (pg s) (tk s) (fs s) (boot s).
Definition keyboard_frame (s s' : kstate) : Prop := exists p g, s' = set_kbd g (set_ports p s).

#[export] Instance keyboard_frame_preorder : PreOrder keyboard_frame.
Proof.
  split; [intros s; exists (port_in s), (kbd s); by destruct s|].
  intros s s' s'' (p & g & ->) (p' & g' & ->). by exists p', g'.
Qed.

(** The test for a full buffer is right in this state too, where there is room. *)
Lemma store_key_room km sc s :
  kbd_mid (kbd s) km -> 0 <= sc < 128 -> (length (queue (settled (kbd s))) < 255)%nat ->
  wp (store_key sc) (fun _ s' => exists g', s' = set_kbd g' s /\ kbd_mid g' km /\
    keyboard_buffer_start g' = keyboard_buffer_start (kbd s) /\
    queue (settled g') = queue (settled (kbd s)) ++ [KeySpec.char_of km sc]) s.
Proof.
  intros [[Hst Hen Hb Hl H1 H2 H3 H4] Hmid Hd] Hsc Hlen.
  cbn [settled set_buffer_start keymaps current_layout keyboard_buffer_start keyboard_buffer_end keyboard_buffer] in *.
  unfold queue in Hlen. rewrite Queue.length_contents in Hlen.
  cbn [settled set_buffer_start keyboard_buffer_start keyboard_buffer_end] in Hlen.
  assert (Hroom : (keyboard_buffer_end (kbd s) =? u32 (keyboard_buffer_start (kbd s) - 1)) = false).
  { apply Z.eqb_neq. intros E. unfold u32 in E. dlia. }
  unfold store_key. k_steps. eapply wp_layout; [done|]. k_steps.
  rewrite truth_shifts, truth_control. unfold KeySpec.char_of.
  set (map := if _ && _ then shift_scancodes km else scancodes km).
  assert (Hmap : length map = 128%nat) by (unfold map; case_match; done).
  rewrite Hroom. cbn [negb when]. k_steps. apply wp_element; [lia|]. k_steps. apply wp_element; [lia|]. kbd_steps.
  eexists. split; [reflexivity|]. cbn. rewrite land_255_mod, u32_id by lia.
  split; [constructor; [|done|done]; constructor; try done; cbn; [dlia|by rewrite length_insert]|].
  split; [done|]. unfold queue at 1. cbn. rewrite Queue.contents_push; [done..|]. dlia.
Qed.

Section Keys.
Context (regs : registers_t).

Lemma key_room km sc s :
  kbd_mid (kbd s) km -> (length (queue (settled (kbd s))) < 255)%nat ->
  wp (key_interrupt regs sc) (fun _ s' =>
    let '(t, km') := KeySpec.handle 1 (u8 sc) [] km in
    kbd_mid (kbd s') km' /\ keyboard_buffer_start (kbd s') = keyboard_buffer_start (kbd s) /\
    queue (settled (kbd s')) = queue (settled (kbd s)) ++ t /\ keyboard_frame s s') s.
Proof using.
  intros Hm Hlen. pose proof Hm as [[Hst Hen Hb Hl H1 H2 H3 H4] Hmid Hd].
  cbn [settled set_buffer_start keymaps current_layout keyboard_buffer] in *.
  unfold key_interrupt. k_steps. apply (handler_layout km); try done.
  cbn [port_in present kbd]. change (96 =? 96) with true. cbv iota zeta. rewrite KeySpec.handle_layout.
  destruct (KeySpec.layout_after_keeps (u8 sc) km) as [c Hc].
  destruct (KeySpec.layout_after (u8 sc) km) as [km' arrives]. cbn [fst] in Hc. intros Hr.
  set (s1 := with_layout km' (present sc s)).
  assert (Hm1 : kbd_mid (kbd s1) km').
  { subst km'. constructor; [constructor; try done; apply lookup_insert_eq|done|done]. }
  assert (Hq1 : queue (settled (kbd s1)) = queue (settled (kbd s))) by done.
  destruct arrives.
  - intros Hsc. assert (0 <= u8 sc) by apply u8_range.
    eapply wp_mono; [apply (store_key_room km'); [exact Hm1|lia|by rewrite Hq1]|].
    intros [] s' (g' & -> & Hg & Hs' & Hq). k_steps. cbn [kbd set_kbd]. rewrite Hq, Hq1.
    split_and!; [done..|]. by eexists _, g'.
  - k_steps. split; [exact Hm1|]. split; [done|]. rewrite app_nil_r. split; [done|]. by eexists _, _.
Qed.

Lemma press_room scs km s :
  kbd_mid (kbd s) km -> (length (queue (settled (kbd s))) + length scs <= 255)%nat ->
  wp (press_all regs scs) (fun _ s' =>
    kbd_mid (kbd s') (snd (key_chars scs km)) /\
    keyboard_buffer_start (kbd s') = keyboard_buffer_start (kbd s) /\
    queue (settled (kbd s')) = queue (settled (kbd s)) ++ fst (key_chars scs km) /\
    keyboard_frame s s') s.
Proof using.
  revert km s. induction scs as [|sc scs IH]; intros km s Hm Hlen; cbn [length key_chars] in *.
  - k_steps. cbn [fst snd]. by rewrite app_nil_r.
  - unfold press_all. cbn [foldr]. fold (press_all regs scs). apply wp_bind.
    eapply wp_mono; [apply (key_room km); [done|lia]|]. intros [] s1.
    pose proof (handle_length (u8 sc) km) as Hle.
    destruct (KeySpec.handle 1 (u8 sc) [] km) as [t km1]. cbn [fst] in Hle. intros (Hm1 & Hs1 & Hq1 & Hf1).
    eapply wp_mono; [apply (IH km1); [done|rewrite Hq1, length_app; lia]|]. intros [] s2 (Hm2 & Hs2 & Hq2 & Hf2).
    destruct (key_chars scs km1) as [t' km2]. cbn [fst snd] in *. split; [done|]. split; [congruence|].
    rewrite Hq2, Hq1, app_assoc. split; [done|by etransitivity].
Qed.

(** ** Any keys at any point *)

Context (scs : nat -> list Z) (q : list Z) (km : keymap_t).

(** The scancodes presented before point [n]. *)
Definition keys_before (n : nat) : list Z := concat (scs <$> seq 0 n).

Hypothesis Hroom : (length q + length (keys_before 6) <= 255)%nat.

Lemma keys_before_S n : keys_before (S n) = keys_before n ++ scs n.
Proof using. unfold keys_before. rewrite seq_S, fmap_app, concat_app. cbn [fmap list_fmap concat]. by rewrite app_nil_r. Qed.

Lemma keys_before_le n : (n <= 6)%nat -> (length (keys_before n) <= length (keys_before 6))%nat.
Proof using. clear Hroom. intros. rewrite !keys_before_S. do 7 (destruct n as [|n]; [rewrite ?keys_before_S, ?length_app; lia|]). lia. Qed.

(** At point [n] the characters [popped] have been read. *)
Definition at_point (n : nat) (popped : list Z) (s : kstate) : Prop :=
  kbd_mid (kbd s) (snd (key_chars (keys_before n) km)) /\
  popped ++ queue (settled (kbd s)) = q ++ fst (key_chars (keys_before n) km).

Lemma interrupts_at n popped s :
  (n < 6)%nat -> at_point n popped s ->
  wp (press_all regs (scs n)) (fun _ s' => at_point (S n) popped s' /\
    keyboard_buffer_start (kbd s') = keyboard_buffer_start (kbd s) /\ keyboard_frame s s' /\
    exists t, queue (settled (kbd s')) = queue (settled (kbd s)) ++ t) s.
Proof using Hroom.
  intros Hn [Hm Hq]. pose proof (key_chars_length (keys_before n) km) as Hl.
  pose proof (keys_before_le (S n) ltac:(lia)) as Hle. rewrite keys_before_S, length_app in Hle.
  pose proof (f_equal length Hq) as Hlen. rewrite !length_app in Hlen.
  eapply wp_mono; [apply press_room; [exact Hm|lia]|]. intros [] s' (Hm' & Hs' & Hq' & Hf').
  split; [|split; [done|split; [done|by eexists]]]. unfold at_point. rewrite keys_before_S, key_chars_app.
  destruct (key_chars (keys_before n) km) as [t km1]. cbn [fst snd] in *.
  destruct (key_chars (scs n) km1) as [t' km2]. cbn [fst snd] in *. split; [done|].
  by rewrite Hq', !app_assoc, Hq.
Qed.

(** Taking the character off: the increment. *)
Lemma pop_at n x r s :
  at_point n [] s -> 0 <= keyboard_buffer_start (kbd s) < 256 -> queue (kbd s) = x :: r ->
  at_point n [x] (set_kbd (set_buffer_start (u32 (keyboard_buffer_start (kbd s) + 1)) (kbd s)) s).
Proof using.
  clear Hroom. intros [[Hwf Hmid Hd] Hq] Hst Hx. rewrite settled_id in * by done.
  destruct Hwf as [_ Hen Hb Hl H1 H2 H3 H4]. unfold at_point.
  cbn [kbd set_kbd settled set_buffer_start keyboard_buffer_start]. rewrite u32_id by lia. split.
  - constructor; [|cbn; lia|done]. constructor; try done. cbn. dlia.
  - rewrite <- Hq. cbn [app]. rewrite Hx. unfold queue in Hx |- *.
    cbn [settled set_buffer_start keyboard_buffer_start keyboard_buffer_end keyboard_buffer] in *.
    destruct (decide (keyboard_buffer_start (kbd s) = keyboard_buffer_end (kbd s))) as [E|E].
    + by rewrite E, Queue.contents_empty in Hx.
    + rewrite Queue.contents_pop in Hx by done. by injection Hx as <- <-.
Qed.

(** Taking a character, when there is one. *)
Lemma take_at s :
  at_point 3 [] s -> 0 <= keyboard_buffer_start (kbd s) < 256 -> queue (kbd s) <> [] ->
  wp (take_interrupted (fun n => press_all regs (scs n))) (fun c s' =>
    kbd_wf (kbd s') (snd (key_chars (keys_before 6) km)) /\
    c :: queue (kbd s') = q ++ fst (key_chars (keys_before 6) km) /\
    keyboard_buffer_start (kbd s') = (keyboard_buffer_start (kbd s) + 1) mod 256 /\ keyboard_frame s s') s.
Proof using Hroom.
  intros P3 Hst Hne. unfold take_interrupted. k_step. k_step. set (st := keyboard_buffer_start (kbd s)) in *.
  apply wp_bind. eapply wp_mono; [by apply (interrupts_at 3 []); [lia|]|].
  intros [] s4 (P4 & S4 & F4 & t4 & Q4). fold st in S4. k_step. k_step.
  rewrite !settled_id in Q4 by lia. pose proof (mid_wf _ _ (proj1 P4)) as W4. rewrite settled_id in W4 by lia.
  assert (Hne4 : queue (kbd s4) <> []) by (rewrite Q4; by destruct (queue (kbd s))).
  pose proof (queue_head _ _ W4 Hne4) as Hx. rewrite S4 in Hx. pose proof (kbd_buffer _ _ W4).
  apply wp_bind, wp_element; [lia|]. set (x := _ !!! _) in *. apply wp_bind.
  eapply wp_mono; [by apply (interrupts_at 4 []); [lia|]|]. intros [] s5 (P5 & S5 & F5 & t5 & Q5). rewrite S4 in S5.
  rewrite !settled_id, Hx in Q5 by lia. apply wp_bind, wp_modify_kbd.
  pose proof (pop_at 5 x _ s5 P5 ltac:(lia) Q5) as P5'. rewrite S5 in P5'.
  apply wp_bind. eapply wp_mono; [apply (interrupts_at 5 [x]); [lia|exact P5']|].
  intros [] s6 ([[W6 _ _] E6] & S6 & F6 & _). apply wp_bind, wp_modify_kbd. k_steps. rewrite land_255_mod.
  split; [exact W6|]. split; [exact E6|]. split.
  - cbn [kbd set_kbd set_buffer_start keyboard_buffer_start] in *. by rewrite S6, u32_id by lia.
  - transitivity s4; [done|]. transitivity s5; [done|]. destruct F6 as (p & g & ->). by exists p, (settled g).
Qed.

(** Whatever keys are pressed at whatever points of [keyboard_getchar], with room in
    the buffer, nothing is lost, doubled or reordered: the character and what waits
    afterwards are what waited before and what was typed; or there was nothing
    before the indices were compared, and 0 is returned. *)
Theorem getchar_keys_atomic s :
  kbd_wf (kbd s) km -> NoDup (control_map km) -> queue (kbd s) = q ->
  wp (getchar_interrupted (fun n => press_all regs (scs n))) (fun c s' => keyboard_frame s s' /\
   (kbd_wf (kbd s') (snd (key_chars (keys_before 6) km)) /\
      c :: queue (kbd s') = q ++ fst (key_chars (keys_before 6) km) /\
      keyboard_buffer_start (kbd s') = (keyboard_buffer_start (kbd s) + 1) mod 256 \/
    kbd_wf (kbd s') (snd (key_chars (keys_before 3) km)) /\
      c = 0 /\ q ++ fst (key_chars (keys_before 2) km) = [] /\
      queue (kbd s') = fst (key_chars (keys_before 3) km) /\
      keyboard_buffer_start (kbd s') = keyboard_buffer_start (kbd s))) s.
Proof using Hroom.
  intros Hwf Hdup Hq. pose proof (kbd_start _ _ Hwf) as Hst. set (st := keyboard_buffer_start (kbd s)) in *.
  assert (H0 : at_point 0 [] s).
  { split; [by apply kbd_wf_mid|]. cbn [key_chars keys_before fst seq fmap list_fmap concat].
    by rewrite settled_id, Hq, app_nil_r by done. }
  unfold getchar_interrupted. apply wp_bind. eapply wp_mono; [by apply (interrupts_at 0 []); [lia|]|].
  intros [] s1 (P1 & S1 & F1 & _). k_step. k_step. fold st in S1. rewrite S1. apply wp_bind.
  eapply wp_mono; [by apply (interrupts_at 1 []); [lia|]|]. intros [] s2 (P2 & S2 & F2 & _).
  rewrite S1 in S2. k_step. k_step. apply wp_bind.
  eapply wp_mono; [by apply (interrupts_at 2 []); [lia|]|]. intros [] s3 (P3 & S3 & F3 & t3 & Q3). rewrite S2 in S3.
  assert (F : keyboard_frame s s3) by (etransitivity; [|exact F3]; by etransitivity).
  destruct P2 as [[W2 _ _] E2]. rewrite settled_id in W2, E2 by lia. rewrite !settled_id in Q3 by lia.
  pose proof (queue_empty _ _ W2) as Hempty. rewrite S2 in Hempty.
  destruct (st =? keyboard_buffer_end (kbd s2)) eqn:E; bool_hyps; cbn [negb].
  - apply Hempty in E. rewrite E in E2. destruct P3 as [[W3 _ _] E3]. rewrite settled_id in W3, E3 by lia.
    k_steps. split; [exact F|]. right. split; [exact W3|]. split; [done|]. split; [by symmetry|].
    assert (q = []) as Hnil by (by destruct q). rewrite Hnil in E3. split; [exact E3|done].
  - eapply wp_mono; [apply take_at; [exact P3|lia|]|].
    + rewrite Q3. intros Hnil. apply E, Hempty. by destruct (queue (kbd s2)).
    + intros c s' (W & Hc & Hs' & F'). split; [by etransitivity|]. left. rewrite S3 in Hs'. done.
Qed.
End Keys.

(** A task that takes the processor in front of the increment, and runs
    [keyboard_getchar] as a whole, reads the same character: both get it, and it is
    taken off once. *)
Theorem getchar_preempted_doubles km x q (other : Z -> K unit) s :
  kbd_wf (kbd s) km -> queue (kbd s) = x :: q ->
  (forall s, wp (other x) (fun _ s' => kbd s' = kbd s) s) ->
  wp (getchar_interrupted (fun n => if (n =? 4)%nat then c <- keyboard_getchar; other c else ret tt))
    (fun c s' => c = x /\ queue (kbd s') = q) s.
Proof.
  intros Hwf Hq Hother. assert (Hne : queue (kbd s) <> []) by by rewrite Hq.
  pose proof (queue_head _ _ Hwf Hne) as Hx. rewrite Hq in Hx. injection Hx as Hx.
  pose proof Hwf as [Hs He Hb _ _ _ _ _]. unfold getchar_interrupted, take_interrupted. cbn [Nat.eqb]. k_steps.
  destruct (keyboard_buffer_start (kbd s) =? keyboard_buffer_end (kbd s)) eqn:E; bool_hyps.
  { by apply (queue_empty _ _ Hwf) in E. }
  cbn [negb]. k_steps. apply wp_element; [lia|]. rewrite <- Hx. k_steps. eapply wp_mono; [by apply (getchar_spec km)|]. intros c s1 (g & -> & Hg & _ & Hr). rewrite Hq in Hr.
  destruct Hr as (-> & Hq1 & Hst1). eapply wp_mono; [apply Hother|]. intros [] s2 Hs2. cbn [kbd set_kbd] in Hs2.
  kbd_steps. split; [done|]. cbn [kbd set_kbd]. rewrite Hs2.
  cbn [set_buffer_start keyboard_buffer_start]. rewrite land_255_mod, u32_id by lia.
  rewrite <- Hq1, <- Hst1. by destruct g.
Qed.

Module RaceSample.
#[local] Existing Instance sample_linkage.
Import KeyboardSample.

(** One character at the end of the buffer; a key at each point, the last when the start
    index is 256. *)
Lemma getchar_keys_atomic_witness :
  wp (getchar_interrupted (fun n => press_all regs [nth n [30; 48; 46; 32; 18; 33] 0]))
    (fun c s' => c :: queue (kbd s') = 65 :: str "abcdef") (state 0 255 1 0).
Proof.
  eapply wp_mono.
  - apply (getchar_keys_atomic regs (fun n => [nth n [30; 48; 46; 32; 18; 33] 0]) [65] (set_controls 0 us)).
    + cbn. lia.
    + apply keyboard_wf; lia.
    + apply us_nodup.
    + reflexivity.
  - intros c s' [_ [(_ & H & _)|(_ & _ & H & _)]]; [exact H|discriminate H].
Defined.

Lemma getchar_preempted_doubles_witness :
  wp (getchar_interrupted (fun n => if (n =? 4)%nat then c <- keyboard_getchar; outb 233 c else ret tt))
    (fun c s' => c = 65 /\ queue (kbd s') = [65]) (state 0 7 2 0).
Proof.
  apply (getchar_preempted_doubles (set_controls 0 us)).
  - apply keyboard_wf; lia.
  - reflexivity.
  - reflexivity.
Defined.
End RaceSample.
