(* ===== verification/Frames.v ===== *)
(** * Physical frames: the bitset and the page entries of [sys/paging.c]

    [frames] is an array of 32-bit words in memory, one bit per frame.  The
    abstraction [used] is the set of frames whose bit is set. *)

From Stdlib Require Import ZArith Lia List.
From stdpp Require Import base list gmap.
From S2P Require Import Prelude Machine Kernel.

(** ** Definitions *)

(** [page_t] is a word with bit-fields. *)
Definition field (w lo n : Z) : Z := Z.land (Z.shiftr w lo) (Z.ones n).
Definition with_field (w lo n v : Z) : Z :=
  Z.lor (Z.ldiff w (Z.shiftl (Z.ones n) lo)) (Z.shiftl (Z.land v (Z.ones n)) lo).

Definition page_present (w : Z) : Z := field w 0 1.
Definition page_rw (w : Z) : Z := field w 1 1.
Definition page_user (w : Z) : Z := field w 2 1.
Definition page_accessed (w : Z) : Z := field w 3 1.
Definition page_dirty (w : Z) : Z := field w 4 1.
Definition page_frame (w : Z) : Z := field w 12 20.

(** [page->f = v], for the field [f] of [n] bits at [lo]. *)
Definition set_page_field (page lo n v : Z) : K unit :=
  w <- ld32 page; st32 page (with_field w lo n v).

Definition INDEX_FROM_BIT (a : Z) : Z := a / (8 * 4).
Definition OFFSET_FROM_BIT (a : Z) : Z := a mod (8 * 4).

Definition get_frames : K Z := gets (fun s => frames (pg s)).

Definition set_frame (frame_addr : Z) : K unit :=
  let frame := frame_addr / 4096 in
  let idx := INDEX_FROM_BIT frame in
  let off := OFFSET_FROM_BIT frame in
  fs <- get_frames;
  w <- ld32 (fs + 4 * idx);
  st32 (fs + 4 * idx) (Z.lor w (u32 (Z.shiftl 1 off))).

Definition clear_frame (frame_addr : Z) : K unit :=
  let frame := frame_addr / 4096 in
  let idx := INDEX_FROM_BIT frame in
  let off := OFFSET_FROM_BIT frame in
  fs <- get_frames;
  w <- ld32 (fs + 4 * idx);
  st32 (fs + 4 * idx) (Z.land w (u32 (Z.lnot (Z.shiftl 1 off)))).

Definition test_frame (frame_addr : Z) : K Z :=
  let frame := frame_addr / 4096 in
  let idx := INDEX_FROM_BIT frame in
  let off := OFFSET_FROM_BIT frame in
  fs <- get_frames;
  w <- ld32 (fs + 4 * idx);
  ret (Z.land w (u32 (Z.shiftl 1 off))).

(** When every frame is used the function ends without a [return], and its
    caller uses the value. *)
Definition first_frame : K Z :=
  r <- loop (fun i =>
    n <- gets (fun s => nframes (pg s));
    if i <? INDEX_FROM_BIT n then
      fs <- get_frames;
      w <- ld32 (fs + 4 * i);
      if negb (w =? 4294967295) then
        (* at least one bit is free here *)
        found <- loop (fun j =>
          if j <? 32 then
            let toTest := u32 (Z.shiftl 1 j) in
            w <- ld32 (fs + 4 * i);
            if negb (truth (Z.land w toTest)) then ret (inr (Some (u32 (i * 4 * 8 + j))))
            else ret (inl (j + 1))
          else ret (inr None)) 0;
        match found with
        | Some idx => ret (inr (Some idx))
        | None => ret (inl (i + 1))
        end
      else ret (inl (i + 1))
    else ret (inr None)) 0;
  match r with Some idx => ret idx | None => undefined end.

(** The branch for a failed search is empty in the source. *)
Definition alloc_frame (page is_kernel is_writeable : Z) : K unit :=
  w <- ld32 page;
  if negb (page_frame w =? 0) then ret tt
  else
    idx <- first_frame;
    (if idx =? u32 (-1) then ret tt else ret tt) >>
    set_frame (u32 (idx * 4096)) >>
    set_page_field page 0 1 1 >>
    set_page_field page 1 1 (if truth is_writeable then 1 else 0) >>
    set_page_field page 2 1 (if truth is_kernel then 0 else 1) >>
    set_page_field page 12 20 idx.

(** The argument of [clear_frame] is the frame's number, where the function
    expects an address. *)
Definition free_frame (page : Z) : K unit :=
  w <- ld32 page;
  let frame := page_frame w in
  if frame =? 0 then ret tt
  else clear_frame frame >> set_page_field page 12 20 0.

(** ** The set of used frames *)

Definition used_in (m : memory) (fs f : Z) : bool :=
  Z.testbit (load32 m (fs + 4 * (f / 32))) (f mod 32).
Definition used (s : kstate) (f : Z) : bool := used_in (mem s) (frames (pg s)) f.

(** The bitset is in memory and has a bit for each of [n] frames. *)
Definition bitset (fs n : Z) : Prop := 0 <= n /\ region fs (fs + 4 * n).

(** ** Bits *)

Lemma field_spec w lo n i :
  0 <= lo -> 0 <= n -> 0 <= i ->
  Z.testbit (field w lo n) i = (i <? n) && Z.testbit w (lo + i).
Proof.
  intros. unfold field. rewrite Z.land_spec, Z.shiftr_spec, Z.testbit_ones_nonneg by lia.
  rewrite andb_comm. do 2 f_equal. lia.
Qed.

Lemma with_field_spec w lo n v i :
  0 <= lo -> 0 <= n -> 0 <= i ->
  Z.testbit (with_field w lo n v) i =
  if (lo <=? i) && (i <? lo + n) then Z.testbit v (i - lo) else Z.testbit w i.
Proof.
  intros. unfold with_field. rewrite Z.lor_spec, Z.ldiff_spec.
  destruct (lo <=? i) eqn:E; bool_hyps; cbn [andb].
  - rewrite !Z.shiftl_spec by lia. rewrite Z.land_spec, Z.testbit_ones_nonneg by lia.
    destruct (i <? lo + n) eqn:E'; bool_hyps.
    + replace (i - lo <? n) with true by blia. by rewrite andb_false_r, andb_true_r.
    + replace (i - lo <? n) with false by blia. by rewrite andb_true_r, andb_false_r, orb_false_r.
  - rewrite !Z.shiftl_spec_low by lia. by rewrite andb_true_r, orb_false_r.
Qed.

Lemma with_field_range w lo n v :
  0 <= lo -> 0 <= n -> lo + n <= 32 -> 0 <= w < 4294967296 ->
  0 <= with_field w lo n v < 4294967296.
Proof.
  intros ??? Hw. apply u32_bits. intros i Hi. rewrite with_field_spec by lia.
  rewrite (testbit_high w 32) by lia. case_if; [lia|done].
Qed.

(** Reading the field that was written, and another one. *)
Lemma field_with_field_eq w lo n v :
  0 <= lo -> 0 <= n -> field (with_field w lo n v) lo n = v mod 2 ^ n.
Proof.
  intros. rewrite <- Z.land_ones by lia. bits_ext.
  rewrite field_spec, with_field_spec, Z.land_spec, Z.testbit_ones_nonneg by lia.
  destruct (n0 <? n) eqn:E; bool_hyps; [|by rewrite andb_false_r].
  replace ((lo <=? lo + n0) && (lo + n0 <? lo + n)) with true by blia.
  rewrite andb_true_r. cbn [andb]. f_equal. lia.
Qed.

Lemma field_with_field_ne w lo n v lo' n' :
  0 <= lo -> 0 <= n -> 0 <= lo' -> 0 <= n' -> (lo' + n' <= lo \/ lo + n <= lo') ->
  field (with_field w lo n v) lo' n' = field w lo' n'.
Proof.
  intros. bits_ext. rewrite !field_spec, with_field_spec by lia.
  destruct (n0 <? n') eqn:E; bool_hyps; [|done].
  by replace ((lo <=? lo' + n0) && (lo' + n0 <? lo + n)) with false by blia.
Qed.

Lemma word_range f n : 0 <= f < 32 * n -> 0 <= f / 32 < n.
Proof. intros. split; [apply Z.div_pos; lia|apply Z.div_lt_upper_bound; lia]. Qed.

(** Changing one word of the bitset. *)
Lemma used_store m fs n i w f :
  bitset fs n -> 0 <= i < n -> 0 <= f < 32 * n -> 0 <= w < 4294967296 ->
  used_in (store32 m (fs + 4 * i) w) fs f =
  if f / 32 =? i then Z.testbit w (f mod 32) else used_in m fs f.
Proof.
  intros [Hn Hr] Hi Hf Hw. unfold used_in. pose proof (word_range _ _ Hf).
  rewrite (load32_word _ _ n) by done. rewrite (Z.eqb_sym i).
  case_match; [by rewrite u32_id|done].
Qed.

Lemma bit_eq f g : 0 <= f -> 0 <= g -> f / 32 = g / 32 -> (f mod 32 =? g mod 32) = (f =? g).
Proof. intros. apply Bool.eq_iff_eq_true. rewrite !Z.eqb_eq. dlia. Qed.

Lemma one_bit off i : 0 <= off < 32 -> 0 <= i < 32 -> Z.testbit (u32 (Z.shiftl 1 off)) i = (i =? off).
Proof.
  intros. rewrite u32_bit, Z.shiftl_1_l by done. rewrite Z.eqb_sym. apply Z.pow2_bits_eqb. lia.
Qed.

(** The address of the word with the bit of frame [f]. *)
Definition word_of (fs f : Z) : Z := fs + 4 * (f / 32).

Section Bitset.
Context (fs n : Z) (Hbs : bitset fs n).

Lemma bitset_word i : 0 <= i < n -> region (fs + 4 * i) (fs + 4 * i + 4).
Proof using Hbs. destruct Hbs as [? [??]]. unfold region. lia. Qed.

Lemma bitset_store_outside m i w :
  0 <= i < n -> same_outside fs (fs + 4 * n) m (store32 m (fs + 4 * i) w).
Proof using Hbs.
  intros Hi. eapply same_outside_weaken; [..|apply store32_outside, bitset_word; done]; lia.
Qed.

Lemma set_frame_spec a s :
  frames (pg s) = fs -> 0 <= a / 4096 < 32 * n ->
  wp (set_frame a) (fun _ s' => exists m', s' = set_mem m' s /\
    same_outside (word_of fs (a / 4096)) (word_of fs (a / 4096) + 4) (mem s) m' /\
    forall f, 0 <= f < 32 * n -> used_in m' fs f = (f =? a / 4096) || used_in (mem s) fs f) s.
Proof using Hbs.
  intros Hfs Ha. unfold set_frame, get_frames, INDEX_FROM_BIT, OFFSET_FROM_BIT. k_steps.
  change (8 * 4) with 32. rewrite Hfs. pose proof (word_range _ _ Ha).
  assert (0 <= a / 4096 mod 32 < 32) by (apply Z.mod_pos_bound; lia).
  eexists. split; [reflexivity|]. split; [by apply store32_outside, bitset_word|].
  intros f Hf. rewrite (used_store _ _ n) by (try done; apply lor_range; auto with wrap).
  destruct (f / 32 =? a / 4096 / 32) eqn:E; bool_hyps.
  - assert (0 <= f mod 32 < 32) by (apply Z.mod_pos_bound; lia).
    rewrite Z.lor_spec, one_bit, bit_eq by (done || lia). rewrite orb_comm. unfold used_in.
    by rewrite E.
  - replace (f =? a / 4096) with false; [done|]. symmetry. apply Z.eqb_neq. congruence.
Qed.

Lemma clear_frame_spec a s :
  frames (pg s) = fs -> 0 <= a / 4096 < 32 * n ->
  wp (clear_frame a) (fun _ s' => exists m', s' = set_mem m' s /\
    same_outside fs (fs + 4 * n) (mem s) m' /\
    forall f, 0 <= f < 32 * n -> used_in m' fs f = negb (f =? a / 4096) && used_in (mem s) fs f) s.
Proof using Hbs.
  intros Hfs Ha. unfold clear_frame, get_frames, INDEX_FROM_BIT, OFFSET_FROM_BIT. k_steps.
  change (8 * 4) with 32. rewrite Hfs. pose proof (word_range _ _ Ha).
  assert (0 <= a / 4096 mod 32 < 32) by (apply Z.mod_pos_bound; lia).
  eexists. split; [reflexivity|]. split; [by apply bitset_store_outside|].
  intros f Hf. rewrite (used_store _ _ n) by (try done; apply land_range; auto with wrap; apply u32_range).
  destruct (f / 32 =? a / 4096 / 32) eqn:E; bool_hyps.
  - assert (0 <= f mod 32 < 32) by (apply Z.mod_pos_bound; lia).
    rewrite Z.land_spec, u32_bit, Z.lnot_spec, Z.shiftl_1_l, Z.pow2_bits_eqb by lia.
    rewrite (Z.eqb_sym (a / 4096 mod 32)), bit_eq, andb_comm by (done || lia). unfold used_in. by rewrite E.
  - replace (f =? a / 4096) with false; [done|]. symmetry. apply Z.eqb_neq. congruence.
Qed.

Lemma test_frame_spec a s :
  frames (pg s) = fs -> 0 <= a / 4096 < 32 * n ->
  wp (test_frame a) (fun r s' => s' = s /\ truth r = used_in (mem s) fs (a / 4096)) s.
Proof using Hbs.
  intros Hfs Ha. unfold test_frame, get_frames, INDEX_FROM_BIT, OFFSET_FROM_BIT. k_steps.
  change (8 * 4) with 32. rewrite Hfs. split; [done|].
  assert (0 <= a / 4096 mod 32 < 32) by (apply Z.mod_pos_bound; lia). unfold used_in.
  set (w := load32 _ _). set (off := _ mod 32) in *.
  assert (0 <= w < 4294967296) as Hw by apply load32_range.
  rewrite <- truth_bit by lia. f_equal. rewrite Z.shiftl_1_l.
  rewrite u32_id; [done|]. change 4294967296 with (2 ^ 32). split; [lia|]. apply Z.pow_lt_mono_r; lia.
Qed.
End Bitset.

(** ** The search for a free frame *)

Lemma full_word w : 0 <= w < 4294967296 -> (forall i, 0 <= i < 32 -> Z.testbit w i = true) <-> w = 4294967295.
Proof.
  intros Hw. split.
  - intros H. change 4294967295 with (Z.ones 32). bits_ext. rewrite Z.testbit_ones_nonneg by lia.
    destruct (n <? 32) eqn:E; bool_hyps; [by apply H|]. apply (testbit_high w 32); lia.
  - intros ->. intros i Hi. change 4294967295 with (Z.ones 32).
    rewrite Z.testbit_ones_nonneg by lia. blia.
Qed.

(** [f] is the least free frame below [32 * n]. *)
Definition least_free (m : memory) (fs n f : Z) : Prop :=
  0 <= f < 32 * n /\ used_in m fs f = false /\ forall g, 0 <= g < f -> used_in m fs g = true.

Section Search.
Context (fs n : Z) (Hbs : bitset fs n) (s : kstate).
Hypothesis Hfs : frames (pg s) = fs.
Hypothesis Hn : nframes (pg s) / 32 = n.
Hypothesis Hsmall : 32 * n < 4294967296.

Lemma used_word i j : 0 <= i < n -> 0 <= j < 32 ->
  used_in (mem s) fs (32 * i + j) = Z.testbit (load32 (mem s) (fs + 4 * i)) j.
Proof using.
  intros. unfold used_in. replace ((32 * i + j) / 32) with i by dlia.
  by replace ((32 * i + j) mod 32) with j by dlia.
Qed.

(** The frames below [32 * i] are used. *)
Definition full_below (i : Z) : Prop := forall g, 0 <= g < 32 * i -> used_in (mem s) fs g = true.

Lemma full_below_step i :
  0 <= i < n -> full_below i ->
  (forall j, 0 <= j < 32 -> Z.testbit (load32 (mem s) (fs + 4 * i)) j = true) -> full_below (i + 1).
Proof using.
  intros Hi H Hw g Hg. destruct (decide (g < 32 * i)) as [|Hge]; [apply H; lia|].
  replace g with (32 * i + (g - 32 * i)) by lia. rewrite used_word by lia. apply Hw. lia.
Qed.

Lemma scan_word i :
  0 <= i < n -> full_below i -> load32 (mem s) (fs + 4 * i) <> 4294967295 ->
  wp (loop (fun j =>
        if j <? 32 then
          w <- ld32 (fs + 4 * i);
          if negb (truth (Z.land w (u32 (Z.shiftl 1 j)))) then ret (inr (Some (u32 (i * 4 * 8 + j))))
          else ret (inl (j + 1))
        else ret (inr None)) 0)
    (fun r s' => s' = s /\ exists f, r = Some f /\ least_free (mem s) fs n f) s.
Proof using Hsmall.
  intros Hi Hfull Hw.
  apply (wp_loop _ (fun j t => t = s /\ 0 <= j <= 32 /\
           forall k, 0 <= k < j -> Z.testbit (load32 (mem s) (fs + 4 * i)) k = true)
           (fun j _ => 32 - j)); [lia| |split_and!; [done|lia..]|lia].
  intros j t (-> & Hj & Hbits). destruct (j <? 32) eqn:E; bool_hyps.
  - k_steps.
    replace (u32 (Z.shiftl 1 j)) with (Z.shiftl 1 j).
    2: { rewrite Z.shiftl_1_l, u32_id; [done|]. change 4294967296 with (2 ^ 32).
         split; [lia|]. apply Z.pow_lt_mono_r; lia. }
    rewrite truth_bit by lia. destruct (Z.testbit (load32 (mem s) (fs + 4 * i)) j) eqn:Eb; cbn [negb].
    + k_steps. split_and!; [done|lia..| |lia]. intros k Hk.
      destruct (decide (k = j)) as [->|]; [done|apply Hbits; lia].
    + k_steps. split; [done|]. exists (u32 (i * 4 * 8 + j)). split; [done|].
      rewrite u32_id by lia. replace (i * 4 * 8 + j) with (32 * i + j) by lia.
      split; [lia|]. rewrite used_word by lia. split; [done|]. intros g Hg.
      destruct (decide (g < 32 * i)) as [|Hge]; [apply Hfull; lia|].
      replace g with (32 * i + (g - 32 * i)) by lia. rewrite used_word by lia. apply Hbits. lia.
  - exfalso. apply Hw, full_word; [apply load32_range|]. intros k Hk. apply Hbits. lia.
Qed.

(** [first_frame] finds the least free frame when there is one. *)
Lemma first_frame_spec f :
  0 <= f < 32 * n -> used_in (mem s) fs f = false ->
  wp first_frame (fun r s' => s' = s /\ least_free (mem s) fs n r) s.
Proof using Hfs Hn Hsmall.
  intros Hf Hfree. unfold first_frame. apply wp_bind.
  eapply (wp_mono _ (fun r s' => s' = s /\ exists g, r = Some g /\ least_free (mem s) fs n g)).
  - apply (wp_loop _ (fun i t => t = s /\ 0 <= i <= n /\ full_below i) (fun i _ => n - i));
      [lia| |split_and!; [done|lia..|]|lia].
    + intros i t (-> & Hi & Hfull). k_steps. unfold INDEX_FROM_BIT. change (8 * 4) with 32.
      rewrite Hn. destruct (i <? n) eqn:E; bool_hyps.
      * unfold get_frames. k_steps. rewrite Hfs.
        destruct (load32 (mem s) (fs + 4 * i) =? 4294967295) eqn:Ew; bool_hyps; cbn [negb].
        -- k_steps. split_and!; [done|lia..| |lia]. apply full_below_step; [lia|done|].
           apply full_word; [apply load32_range|done].
        -- apply wp_bind. eapply wp_mono; [apply scan_word; [lia|done|done]|].
           intros r s' (-> & g & -> & Hg). k_steps. eauto.
      * exfalso. rewrite Hfull in Hfree by lia. done.
    + intros g Hg. lia.
  - intros r s' (-> & g & -> & Hg). by k_steps.
Qed.
End Search.

(** ** Allocation *)

(** The entry that [alloc_frame] writes. *)
Definition mapped_page (w is_kernel is_writeable f : Z) : Z :=
  with_field (with_field (with_field (with_field w 0 1 1)
    1 1 (if truth is_writeable then 1 else 0))
    2 1 (if truth is_kernel then 0 else 1)) 12 20 f.

Lemma mapped_page_fields w k wr f :
  0 <= f < 1048576 ->
  page_present (mapped_page w k wr f) = 1 /\
  page_rw (mapped_page w k wr f) = (if truth wr then 1 else 0) /\
  page_user (mapped_page w k wr f) = (if truth k then 0 else 1) /\
  page_accessed (mapped_page w k wr f) = page_accessed w /\
  page_dirty (mapped_page w k wr f) = page_dirty w /\
  page_frame (mapped_page w k wr f) = f.
Proof.
  intros Hf.
  unfold mapped_page, page_present, page_rw, page_user, page_accessed, page_dirty, page_frame.
  repeat first [rewrite field_with_field_eq by lia | rewrite field_with_field_ne by lia].
  split_and!; try done; try (by case_match). by apply Z.mod_small.
Qed.

(** The word at [page] becomes [w]; the rest of memory outside [lo, hi) stays. *)
Definition entry_changed (page lo hi w : Z) (m m' : memory) : Prop :=
  load32 m' page = w /\
  same_on (fun b => ~ (page <= b < page + 4) /\ ~ (lo <= b < hi)) m m'.

Lemma wp_set_page_field page lo n v (Q : unit -> kstate -> Prop) s :
  (forall m', load32 m' page = with_field (load32 (mem s) page) lo n v ->
     same_outside page (page + 4) (mem s) m' -> Q tt (set_mem m' s)) ->
  region page (page + 4) -> 0 <= lo -> 0 <= n -> lo + n <= 32 ->
  wp (set_page_field page lo n v) Q s.
Proof.
  intros HQ Hr ???. unfold set_page_field. k_steps. apply HQ.
  - rewrite load32_store32_eq by done. apply u32_id, with_field_range; auto. apply load32_range.
  - by apply store32_outside.
Qed.

(** The entry is apart from the bitset. *)
Definition page_apart (page fs n : Z) : Prop :=
  region page (page + 4) /\ (page + 4 <= fs \/ fs + 4 * n <= page).

Lemma used_in_frame m m' fs n page f :
  bitset fs n -> page_apart page fs n -> same_outside page (page + 4) m m' ->
  0 <= f < 32 * n -> used_in m' fs f = used_in m fs f.
Proof.
  intros [Hn Hr] [Hp Ha] Hs Hf. unfold used_in. pose proof (word_range _ _ Hf).
  destruct Hr. rewrite (load32_frame page (page + 4) m m' Hs) by (unfold region; lia). done.
Qed.

Section Alloc.
Context (fs n : Z) (Hbs : bitset fs n) (page : Z) (Hap : page_apart page fs n) (s : kstate).
Hypothesis Hfs : frames (pg s) = fs.
Hypothesis Hn : nframes (pg s) / 32 = n.
Hypothesis Hsmall : 32 * n <= 1048576.

Lemma alloc_frame_spec is_kernel is_writeable f :
  page_frame (load32 (mem s) page) = 0 -> 0 <= f < 32 * n -> used_in (mem s) fs f = false ->
  wp (alloc_frame page is_kernel is_writeable) (fun _ s' => exists m' g, s' = set_mem m' s /\
    least_free (mem s) fs n g /\
    (forall h, 0 <= h < 32 * n -> used_in m' fs h = (h =? g) || used_in (mem s) fs h) /\
    entry_changed page (word_of fs g) (word_of fs g + 4)
      (mapped_page (load32 (mem s) page) is_kernel is_writeable g) (mem s) m') s.
Proof using Hbs Hap Hfs Hn Hsmall.
  intros Hp Hf Hfree. pose proof Hap as [Hpr Hpa]. unfold alloc_frame. k_step. k_step.
  rewrite Hp. cbn [Z.eqb negb]. apply wp_bind.
  eapply wp_mono; [by apply (first_frame_spec fs n s Hfs Hn ltac:(lia) f)|].
  intros g s1 (-> & Hleast). pose proof Hleast as (Hg & _). apply wp_bind.
  assert (wp (if g =? u32 (-1) then ret tt else ret tt) (fun _ t => t = s) s) as Hskip by (by case_match).
  eapply wp_mono; [exact Hskip|]. intros [] ? ->. apply wp_bind.
  assert (Hgf : u32 (g * 4096) / 4096 = g) by (rewrite u32_id by lia; dlia).
  eapply wp_mono; [apply (set_frame_spec fs n Hbs); [done|rewrite Hgf; lia]|].
  intros [] s2 (m2 & -> & Hout2 & Hused2). rewrite Hgf in Hused2, Hout2.
  assert (Hword : fs <= word_of fs g /\ word_of fs g + 4 <= fs + 4 * n).
  { pose proof (word_range _ _ Hg). unfold word_of. lia. }
  assert (Hw2 : load32 m2 page = load32 (mem s) page) by (eapply load32_frame; [exact Hout2|done|lia]).
  apply wp_bind, wp_set_page_field; [|done|lia..]. intros m3 Hw3 Hout3. cbn [mem set_mem] in Hw3, Hout3.
  apply wp_bind, wp_set_page_field; [|done|lia..]. intros m4 Hw4 Hout4. cbn [mem set_mem] in Hw4, Hout4.
  apply wp_bind, wp_set_page_field; [|done|lia..]. intros m5 Hw5 Hout5. cbn [mem set_mem] in Hw5, Hout5.
  apply wp_set_page_field; [|done|lia..]. intros m6 Hw6 Hout6. cbn [mem set_mem] in Hw6, Hout6.
  rewrite !set_mem_set_mem.
  assert (Hout : same_outside page (page + 4) m2 m6).
  { eapply same_outside_trans; [exact Hout3|]. eapply same_outside_trans; [exact Hout4|].
    by eapply same_outside_trans. }
  exists m6, g. split; [done|]. split; [done|]. split.
  - intros h Hh. rewrite (used_in_frame m2 m6 fs n page h) by done. by apply Hused2.
  - split; [by rewrite Hw6, Hw5, Hw4, Hw3, Hw2|].
    intros b Hb [Hb1 Hb2]. by rewrite (Hout b), (Hout2 b).
Qed.

(** A page that has a frame keeps it. *)
Lemma alloc_frame_mapped is_kernel is_writeable :
  page_frame (load32 (mem s) page) <> 0 ->
  wp (alloc_frame page is_kernel is_writeable) (fun _ s' => s' = s) s.
Proof using.
  intros Hp. unfold alloc_frame. k_steps.
  by destruct (page_frame (load32 (mem s) page) =? 0) eqn:E; bool_hyps.
Qed.

(** [free_frame] takes the frame away from the page, but the bit it clears is
    that of frame 0 for every frame below 4096. *)
Lemma free_frame_spec :
  0 < page_frame (load32 (mem s) page) < 32 * n ->
  wp (free_frame page) (fun _ s' => exists m', s' = set_mem m' s /\
    (forall h, 0 <= h < 32 * n -> used_in m' fs h =
       negb (h =? page_frame (load32 (mem s) page) / 4096) && used_in (mem s) fs h) /\
    entry_changed page fs (fs + 4 * n) (with_field (load32 (mem s) page) 12 20 0) (mem s) m') s.
Proof using Hbs Hap Hfs.
  clear Hn Hsmall. intros Hp. pose proof Hap as [Hpr Hpa]. unfold free_frame. k_steps.
  replace (page_frame (load32 (mem s) page) =? 0) with false by blia.
  set (f := page_frame (load32 (mem s) page)) in *. apply wp_bind.
  eapply wp_mono; [apply (clear_frame_spec fs n Hbs); [done|dlia]|].
  intros [] s2 (m2 & -> & Hout2 & Hused2).
  assert (Hw2 : load32 m2 page = load32 (mem s) page) by (eapply load32_frame; [exact Hout2|done|lia]).
  apply wp_set_page_field; [|done|lia..]. intros m3 Hw3 Hout3. cbn [mem set_mem] in Hw3, Hout3.
  rewrite set_mem_set_mem. exists m3. split; [done|]. split.
  - intros h Hh. rewrite (used_in_frame m2 m3 fs n page h) by done. by apply Hused2.
  - split; [by rewrite Hw3, Hw2|]. intros b Hb [Hb1 Hb2]. by rewrite (Hout3 b), (Hout2 b).
Qed.
End Alloc.

(** ** Properties *)

(** [first_frame] returns the least free frame, whenever there is one, and
    changes nothing. *)
Theorem first_frame_least_free s n f :
  bitset (frames (pg s)) n -> nframes (pg s) / 32 = n -> 32 * n < 4294967296 ->
  0 <= f < 32 * n -> used s f = false ->
  wp first_frame (fun r s' => s' = s /\ 0 <= r < 32 * n /\ used s r = false /\
    forall g, 0 <= g < r -> used s g = true) s.
Proof.
  intros Hbs Hn Hsm Hf Hfree.
  eapply wp_mono; [by apply (first_frame_spec (frames (pg s)) n s eq_refl Hn Hsm f)|].
  intros r s' (-> & ? & ? & ?). done.
Qed.

(** C18: [alloc_frame] gives a page without a frame the least free one: the page
    becomes present with the access asked for, its other bits stay, exactly that
    frame becomes used, and nothing outside the page and the bitset changes. *)
Theorem alloc_frame_correct page is_kernel is_writeable s n f :
  bitset (frames (pg s)) n -> page_apart page (frames (pg s)) n ->
  nframes (pg s) / 32 = n -> 32 * n <= 1048576 ->
  page_frame (load32 (mem s) page) = 0 -> 0 <= f < 32 * n -> used s f = false ->
  wp (alloc_frame page is_kernel is_writeable) (fun _ s' => exists g,
    (0 <= g < 32 * n /\ used s g = false /\ forall h, 0 <= h < g -> used s h = true) /\
    (forall h, 0 <= h < 32 * n -> used s' h = (h =? g) || used s h) /\
    let w := load32 (mem s') page in
    page_frame w = g /\ page_present w = 1 /\ page_rw w = (if truth is_writeable then 1 else 0) /\
    page_user w = (if truth is_kernel then 0 else 1) /\
    page_accessed w = page_accessed (load32 (mem s) page) /\
    page_dirty w = page_dirty (load32 (mem s) page) /\
    same_on (fun b => ~ (page <= b < page + 4) /\ ~ (frames (pg s) <= b < frames (pg s) + 4 * n))
      (mem s) (mem s')) s.
Proof.
  intros Hbs Hap Hn Hsm Hp Hf Hfree.
  eapply wp_mono; [by apply (alloc_frame_spec (frames (pg s)) n Hbs page Hap s eq_refl Hn Hsm
                              is_kernel is_writeable f)|].
  intros [] s' (m' & g & -> & Hg & Hused & Hw & Hsame). exists g.
  pose proof Hg as (Hgr & _). split; [exact Hg|]. split; [exact Hused|]. cbn [mem set_mem]. rewrite Hw.
  assert (Hout : same_on (fun b => ~ (page <= b < page + 4) /\
    ~ (frames (pg s) <= b < frames (pg s) + 4 * n)) (mem s) m').
  { pose proof (word_range _ _ Hgr). intros b Hb [Hb1 Hb2]. apply Hsame; [done|]. unfold word_of. lia. }
  destruct (mapped_page_fields (load32 (mem s) page) is_kernel is_writeable g)
    as (H1 & H2 & H3 & H4 & H5 & H6); [lia|]. split_and!; done.
Qed.

(** [alloc_frame] changes nothing when the page has a frame. *)
Theorem alloc_frame_idempotent page is_kernel is_writeable s :
  page_frame (load32 (mem s) page) <> 0 ->
  wp (alloc_frame page is_kernel is_writeable) (fun _ s' => s' = s) s.
Proof. apply alloc_frame_mapped. Qed.

(** [free_frame] passes the frame's number where [clear_frame] takes an address:
    the page loses its frame, but the frame stays used, and frame 0 becomes
    free. *)
Theorem free_frame_leaks page s n :
  bitset (frames (pg s)) n -> page_apart page (frames (pg s)) n -> 32 * n <= 4096 ->
  0 < page_frame (load32 (mem s) page) < 32 * n ->
  wp (free_frame page) (fun _ s' =>
    page_frame (load32 (mem s') page) = 0 /\ used s' 0 = false /\
    forall h, 0 < h < 32 * n -> used s' h = used s h) s.
Proof.
  intros Hbs Hap Hsm Hp.
  eapply wp_mono; [by apply (free_frame_spec (frames (pg s)) n Hbs page Hap s eq_refl)|].
  intros [] s' (m' & -> & Hused & Hw & _). cbn [mem set_mem] in *.
  set (f := page_frame (load32 (mem s) page)) in *.
  assert (f / 4096 = 0) as H0 by dlia. rewrite H0 in Hused. split.
  - rewrite Hw. unfold page_frame. by rewrite field_with_field_eq by lia.
  - split; [by apply Hused; lia|]. intros h Hh.
    unfold used in *. cbn [mem set_mem pg]. rewrite Hused by lia.
    by replace (h =? 0) with false by blia.
Qed.

Module FramesSample.
(** 64 frames of which the first 33 are used; the page at 4096 holds [w]. *)
Definition state (w : Z) : kstate :=
  set_pg (PagingGlobals 0 0 8192 64)
    (set_mem (store32 (store32 (store32 ∅ 4096 w) 8192 4294967295) 8196 1) sample_state).

Lemma sample_bitset : bitset 8192 2.
Proof. split; [lia|]. unfold region. lia. Defined.

Lemma sample_apart : page_apart 4096 8192 2.
Proof. split; [unfold region; lia|lia]. Defined.

Lemma first_frame_least_free_witness :
  wp first_frame (fun r s' => s' = state 0 /\ 0 <= r < 32 * 2 /\ used (state 0) r = false /\
    forall g, 0 <= g < r -> used (state 0) g = true) (state 0).
Proof.
  apply (first_frame_least_free (state 0) 2 40);
    [exact sample_bitset|reflexivity|lia|lia|reflexivity].
Defined.

Lemma alloc_frame_correct_witness :
  wp (alloc_frame 4096 0 1) (fun _ s' => exists g, page_frame (load32 (mem s') 4096) = g /\
    used (state 16) g = false /\ used s' g = true) (state 16).
Proof.
  eapply wp_mono.
  - apply (alloc_frame_correct 4096 0 1 (state 16) 2 40);
      [exact sample_bitset|exact sample_apart|reflexivity|lia|reflexivity|lia|reflexivity].
  - intros [] s' (g & (Hg & Hfree & _) & Hused & Hf & _). exists g.
    split; [exact Hf|]. split; [exact Hfree|]. rewrite Hused, Z.eqb_refl by exact Hg. reflexivity.
Defined.

Lemma alloc_frame_idempotent_witness :
  wp (alloc_frame 4096 0 1) (fun _ s' => s' = state 4103) (state 4103).
Proof. apply alloc_frame_idempotent. vm_compute. discriminate. Defined.

Lemma free_frame_leaks_witness :
  wp (free_frame 4096) (fun _ s' =>
    page_frame (load32 (mem s') 4096) = 0 /\ used s' 0 = false /\
    forall h, 0 < h < 32 * 2 -> used s' h = used (state 131079) h) (state 131079).
Proof.
  apply (free_frame_leaks 4096 (state 131079) 2);
    [exact sample_bitset|exact sample_apart|lia|vm_compute; split; reflexivity].
Defined.
End FramesSample.
