(* ===== verification/Kmalloc.v ===== *)
(** * The interface of the kernel's memory allocator ([include/kheap.h])

    Page tables are allocated with [kmalloc_ap], and the heap behind [kmalloc]
    grows by mapping pages: [sys/paging.c] and [sys/kheap.c] call each other.
    The class [Kmalloc] is what the first needs from the second; [Kheap.v] has
    the implementation. *)

From Stdlib Require Import ZArith Lia List.
From stdpp Require Import base list gmap.
From S2P Require Import Prelude Machine Kernel.

(** [kmalloc_int sz align want_phys]: the address of the block and, when
    [want_phys] (the pointer [phys] is not null), what is stored through it. *)
Class Kmalloc : Type := kmalloc_int : Z -> Z -> bool -> K (Z * Z).

Section Kmalloc.
Context `{Kmalloc}.

Definition kmalloc_a (sz : Z) : K Z := r <- kmalloc_int sz 1 false; ret (fst r).
Definition kmalloc_p (sz : Z) : K (Z * Z) := kmalloc_int sz 0 true.
Definition kmalloc_ap (sz : Z) : K (Z * Z) := kmalloc_int sz 1 true.
Definition kmalloc (sz : Z) : K Z := r <- kmalloc_int sz 0 false; ret (fst r).
End Kmalloc.

(** ** What the allocator promises

    [km_ready sz s]: a page-aligned block of [sz] bytes can be had in [s].
    [km_live s a]: the byte at [a] is in use.  The block is page-aligned and not
    null, was not in use, and is from now on; what was in use still is, and its
    bytes have not changed; the paging structures are the same; and the physical
    address is page-aligned too. *)
Class KmallocLaws `{Kmalloc} : Type := {
  km_ready : Z -> kstate -> Prop;
  km_live : kstate -> Z -> Prop;
  km_block : forall sz s, 0 < sz -> km_ready sz s ->
    wp (kmalloc_ap sz) (fun r s' => let '(p, phys) := r in
      0 < p /\ p mod 4096 = 0 /\ 0 <= phys < 4294967296 /\ phys mod 4096 = 0 /\ region p (p + sz) /\
      (forall b, p <= b < p + sz -> ~ km_live s b /\ km_live s' b) /\
      (forall b, km_live s b -> km_live s' b) /\
      same_on (km_live s) (mem s) (mem s') /\ pg s' = pg s) s;
  km_live_mem : forall m s b, km_live (set_mem m s) b <-> km_live s b
}.

(** ** A budget of small blocks

    What a client that allocates several blocks relies on.  [al_own s b]: the
    byte at [b] belongs to the allocator, its structures or free memory; nobody
    else writes there.  [al_budget n s]: [n] bytes can still be had, of which each
    block takes 32 more than its size.  [al_clean s]: free memory is zero. *)
Class AllocatorLaws `{Kmalloc} : Type := {
  al_budget : Z -> kstate -> Prop;
  al_own : kstate -> Z -> Prop;
  al_clean : kstate -> Prop;
  al_block : forall n sz s, 0 < sz -> sz + 32 <= n -> al_budget n s ->
    wp (kmalloc sz) (fun p s' =>
      0 < p /\ p + sz < 4294967296 /\
      (forall b, p <= b < p + sz -> al_own s b /\ ~ al_own s' b) /\
      (forall b, al_own s' b -> al_own s b) /\
      same_on (fun b => ~ al_own s b) (mem s) (mem s') /\
      (exists m h, s' = set_mem m (set_hp h s)) /\
      al_budget (n - sz - 32) s' /\
      (al_clean s -> al_clean s' /\ forall b, p <= b < p + sz -> load8 (mem s') b = 0)) s;
  al_stable : forall m g s, same_on (al_own s) (mem s) m ->
    let s' := set_fs g (set_mem m s) in
    (forall n, al_budget n s -> al_budget n s') /\ (al_clean s -> al_clean s') /\
    (forall b, al_own s' b <-> al_own s b)
}.
