(* ===== verification/Paging.v ===== *)
(** * Page directories: the rest of [sys/paging.c]

    [page_directory_t] is 8196 bytes: the 1024 pointers [tables], the 1024
    words [tablesPhysical] and [physicalAddr].  The start of paging, which also
    creates the heap, is in [PagingInit.v]. *)

From Stdlib Require Import ZArith Lia List String.
From stdpp Require Import base list gmap.
From S2P Require Import Prelude Machine Kernel Common Monitor Kmalloc Frames.
Import Terminal.

(** ** Definitions *)

Definition sizeof_page_table : Z := 4096.
Definition sizeof_page_directory : Z := 8196.

(** The addresses of [dir->tables[i]], [dir->tablesPhysical[i]] and
    [dir->physicalAddr]. *)
Definition dir_table (dir i : Z) : Z := dir + 4 * i.
Definition dir_table_physical (dir i : Z) : Z := dir + 4096 + 4 * i.
Definition dir_physical_addr (dir : Z) : Z := dir + 8192.

Definition get_kernel_directory : K Z := gets (fun s => kernel_directory (pg s)).
Definition set_current_directory (d : Z) : K unit :=
  modify (fun s => set_pg (PagingGlobals (kernel_directory (pg s)) d (frames (pg s)) (nframes (pg s))) s).

Definition set_cr3 (v : Z) (c : cpu_t) : cpu_t :=
  Cpu (cpu_esp c) (cpu_ebp c) (cpu_cr0 c) (cpu_cr2 c) v.
Definition set_cr0 (v : Z) (c : cpu_t) : cpu_t :=
  Cpu (cpu_esp c) (cpu_ebp c) v (cpu_cr2 c) (cpu_cr3 c).

Definition load_cr3 (v : Z) : K unit :=
  emit (LoadCR3 v) >> modify (fun s => set_cpu (set_cr3 v (cpu s)) s).
Definition load_cr0 (v : Z) : K unit :=
  emit (LoadCR0 v) >> modify (fun s => set_cpu (set_cr0 v (cpu s)) s).

Definition switch_page_directory (dir : Z) : K unit :=
  set_current_directory dir >>
  phys <- ld32 (dir_physical_addr dir);
  load_cr3 phys >>
  cr0 <- gets (fun s => cpu_cr0 (cpu s));
  load_cr0 (u32 (Z.lor cr0 2147483648)).

Section Paging.
Context `{Kmalloc}.

Definition get_page (address make dir : Z) : K Z :=
  let address := address / 4096 in
  let table_idx := address / 1024 in
  t <- ld32 (dir_table dir table_idx);
  if truth t then ret (u32 (t + 4 * (address mod 1024)))
  else if truth make then
    r <- kmalloc_ap sizeof_page_table;
    let '(table, tmp) := r in
    st32 (dir_table dir table_idx) table >>
    t <- ld32 (dir_table dir table_idx);
    memset t 0 4096 >>
    st32 (dir_table_physical dir table_idx) (u32 (Z.lor tmp 7)) >>
    t <- ld32 (dir_table dir table_idx);
    ret (u32 (t + 4 * (address mod 1024)))
  else ret 0.

(** [copy_page_physical] of [sys/process.s] works on physical addresses with
    paging disabled: it is an event. *)
Definition copy_page_physical (src dest : Z) : K unit := emit (CopyPagePhysical src dest).

Definition copy_flag (src dest lo : Z) : K unit :=
  w <- ld32 src;
  when (truth (field w lo 1)) (set_page_field dest lo 1 1).

(** [memset] is given the size of a directory, 8196, for a table of 4096. *)
Definition clone_table (src : Z) : K (Z * Z) :=
  r <- kmalloc_ap sizeof_page_table;
  let '(table, physAddr) := r in
  memset table 0 sizeof_page_directory >>
  for_range 0 1024 1 (fun i =>
    let sp := u32 (src + 4 * i) in
    let dp := u32 (table + 4 * i) in
    w <- ld32 sp;
    if truth (page_frame w) then ret tt
    else
      alloc_frame dp 0 0 >>
      copy_flag sp dp 0 >> copy_flag sp dp 1 >> copy_flag sp dp 2 >>
      copy_flag sp dp 3 >> copy_flag sp dp 4 >>
      w <- ld32 sp;
      w' <- ld32 dp;
      copy_page_physical (u32 (page_frame w * 4096)) (u32 (page_frame w' * 4096))) >>
  ret (table, physAddr).

(** One entry of the tables: that of the kernel is shared, another is copied. *)
Definition clone_entry (src dir i : Z) : K unit :=
  t <- ld32 (dir_table src i);
  if negb (truth t) then ret tt
  else
    kd <- get_kernel_directory;
    kt <- ld32 (dir_table kd i);
    if kt =? t then
      st32 (dir_table dir i) t >>
      tp <- ld32 (dir_table_physical src i);
      st32 (dir_table_physical dir i) tp
    else
      r <- clone_table t;
      let '(table, phys) := r in
      st32 (dir_table dir i) table >>
      st32 (dir_table_physical dir i) (u32 (Z.lor phys 7)).

Definition clone_directory (src : Z) : K Z :=
  r <- kmalloc_ap sizeof_page_directory;
  let '(dir, phys) := r in
  memset dir 0 sizeof_page_directory >>
  let offset := u32 (u32 (dir + 4096) - dir) in
  st32 (dir_physical_addr dir) (u32 (phys + offset)) >>
  for_range 0 1024 1 (clone_entry src dir) >>
  ret dir.
End Paging.

Definition page_fault (regs : registers_t) : K registers_t :=
  faulting_address <- gets (fun s => cpu_cr2 (cpu s));
  let present := negb (truth (Z.land (reg_err_code regs) 1)) in
  let rw := truth (Z.land (reg_err_code regs) 2) in
  let us := truth (Z.land (reg_err_code regs) 4) in
  let reserved := truth (Z.land (reg_err_code regs) 8) in
  monitor_write (lit (str "Page fault! ( ")) >>
  when present (monitor_write (lit (str "present "))) >>
  when rw (monitor_write (lit (str "read-only "))) >>
  when us (monitor_write (lit (str "user-mode "))) >>
  when reserved (monitor_write (lit (str "reserved "))) >>
  monitor_write (lit (str ") at 0x")) >>
  monitor_write_hex faulting_address >>
  monitor_write (lit (str " - EIP: ")) >>
  monitor_write_hex (reg_eip regs) >>
  monitor_write (lit [10]) >>
  panic (str "Page fault") (str "sys/paging.c") 252.

(** ** Properties of [get_page] *)

(** The entry of an address in its page table. *)
Definition page_index (address : Z) : Z := address / 4096 mod 1024.
Definition table_index (address : Z) : Z := address / 4096 / 1024.

Lemma page_index_range a : 0 <= page_index a < 1024.
Proof. apply Z.mod_pos_bound. lia. Qed.

Lemma table_index_range a : 0 <= a < 4294967296 -> 0 <= table_index a < 1024.
Proof. intros. unfold table_index. dlia. Qed.

(** The directory and its words do not wrap around. *)
Definition directory (dir : Z) : Prop := region dir (dir + 8196).

Lemma get_page_present `{Kmalloc} address make dir t s :
  load32 (mem s) (dir_table dir (table_index address)) = t -> t <> 0 -> t + 4096 <= 4294967296 ->
  0 <= t ->
  wp (get_page address make dir) (fun r s' => s' = s /\ r = t + 4 * page_index address) s.
Proof.
  intros Ht Hne Hr H0. unfold get_page, truth. k_steps. fold (table_index address). rewrite Ht.
  replace (t =? 0) with false by blia. cbn [negb]. k_steps. split; [done|].
  fold (page_index address). pose proof (page_index_range address). by rewrite u32_id by lia.
Qed.

Lemma get_page_absent `{Kmalloc} address dir s :
  load32 (mem s) (dir_table dir (table_index address)) = 0 ->
  wp (get_page address 0 dir) (fun r s' => s' = s /\ r = 0) s.
Proof. intros Ht. unfold get_page. k_steps. fold (table_index address). by rewrite Ht. Qed.

Lemma lor_7_page z : 0 <= z < 4294967296 -> z mod 4096 = 0 -> u32 (Z.lor z 7) = z + 7.
Proof.
  intros Hz Hm. rewrite Z.lor_comm. replace z with (z / 4096 * 2 ^ 12) at 1 by (change (2 ^ 12) with 4096; dlia).
  rewrite lor_disjoint by lia. change (2 ^ 12) with 4096. rewrite u32_id; dlia.
Qed.

(** The words that [memset] cleared. *)
Lemma memset_words m' a len (i : Z) :
  bytes m' a (Z.to_nat len) = replicate (Z.to_nat len) (u8 0) -> 0 <= i -> 4 * i + 4 <= len ->
  load32 m' (a + 4 * i) = 0.
Proof.
  intros Hz Hi Hl. change (u8 0) with 0 in Hz.
  assert (H : forall k, 0 <= k < 4 -> load8 m' (a + 4 * i + k) = 0).
  { intros k Hk.
    assert (Hb : bytes m' a (Z.to_nat len) !! Z.to_nat (4 * i + k) = Some 0).
    { rewrite Hz. apply lookup_replicate. lia. }
    rewrite lookup_bytes, Z2Nat.id in Hb by lia. injection Hb as Hb.
    etransitivity; [|exact Hb]. f_equal. lia. }
  unfold load32. rewrite <- (Z.add_0_r (a + 4 * i)) at 1. by rewrite !H by lia.
Qed.

Section GetPage.
Context `{Kmalloc} (dir : Z) (Hdir : directory dir).

(** Memory in which the table [t] has been entered for [address]. *)
Definition entered (address t phys : Z) (m m' : memory) : Prop :=
  load32 m' (dir_table dir (table_index address)) = t /\
  load32 m' (dir_table_physical dir (table_index address)) = phys + 7 /\
  (forall i, 0 <= i < 1024 -> load32 m' (t + 4 * i) = 0) /\
  same_on (fun b => ~ (dir_table dir (table_index address) <= b < dir_table dir (table_index address) + 4) /\
     ~ (dir_table_physical dir (table_index address) <= b < dir_table_physical dir (table_index address) + 4) /\
     ~ (t <= b < t + 4096)) m m'.

(** What [get_page] does with the table that the allocator gives it. *)
Lemma get_page_enters address t phys s s1 :
  0 <= address < 4294967296 -> load32 (mem s) (dir_table dir (table_index address)) = 0 ->
  kmalloc_ap 4096 s = Ok (t, phys) s1 ->
  0 < t -> region t (t + 4096) -> 0 <= phys < 4294967296 -> phys mod 4096 = 0 ->
  dir + 8196 <= t \/ t + 4096 <= dir ->
  wp (get_page address 1 dir) (fun r s' => exists m', s' = set_mem m' s1 /\
    r = t + 4 * page_index address /\ entered address t phys (mem s1) m') s.
Proof using Hdir.
  intros Ha H0' Hk Ht0 [Ht1 Ht2] Hphys Hpm Hap. unfold get_page. k_steps.
  fold (table_index address) (page_index address). rewrite H0'.
  change (truth 0) with false. change (truth 1) with true. cbv iota.
  unfold sizeof_page_table. apply wp_bind, wp_ok. do 2 eexists. split; [exact Hk|].
  pose proof (table_index_range address Ha) as Hi. unfold entered. set (i := table_index address) in *.
  destruct Hdir as [Hd1 Hd2]. unfold dir_table, dir_table_physical in *. k_steps. cbn [mem set_mem].
  rewrite load32_store32_eq by (unfold region; lia). rewrite (u32_id t) by lia.
  eapply wp_mono; [apply memset_spec; [unfold region; lia|lia]|].
  intros [] s2 (m2 & -> & Hout2 & Hz). k_steps. cbn [mem set_mem] in *.
  rewrite !set_mem_set_mem. set (m1 := store32 (mem s1) (dir + 4 * i) t) in *.
  rewrite lor_7_page by done. set (m3 := store32 m2 (dir + 4096 + 4 * i) (phys + 7)).
  assert (Hm3 : load32 m3 (dir + 4 * i) = t).
  { unfold m3. read_stores. transitivity (load32 m1 (dir + 4 * i)).
    - eapply load32_frame; [exact Hout2|unfold region; lia|lia].
    - unfold m1. read_stores. apply u32_id. lia. }
  rewrite Hm3. pose proof (page_index_range address). rewrite u32_id by lia.
  exists m3. split; [done|]. split; [done|]. split; [done|]. split; [|split].
  - unfold m3. read_stores. apply u32_id. dlia.
  - intros j Hj. unfold m3. rewrite load32_store32_ne by (unfold region; lia).
    apply (memset_words m2 t 4096 j Hz); lia.
  - intros b Hb (Hb1 & Hb2 & Hb3). unfold m3. read_stores. rewrite Hout2 by lia. unfold m1. by read_stores.
Qed.
End GetPage.

Section GetPageLaws.
Context `{KmallocLaws} (dir : Z) (Hdir : directory dir).

(** The words of the directory are in use. *)
Definition directory_live (s : kstate) : Prop := forall b, dir <= b < dir + 8196 -> km_live s b.

Lemma get_page_creates_spec address s :
  0 <= address < 4294967296 -> directory_live s -> km_ready 4096 s ->
  load32 (mem s) (dir_table dir (table_index address)) = 0 ->
  wp (get_page address 1 dir) (fun r s' => exists t phys s1 m',
    s' = set_mem m' s1 /\ r = t + 4 * page_index address /\
    0 < t /\ t mod 4096 = 0 /\ phys mod 4096 = 0 /\ region t (t + 4096) /\
    (forall b, t <= b < t + 4096 -> ~ km_live s b /\ km_live s1 b) /\
    (forall b, km_live s b -> km_live s1 b) /\
    same_on (km_live s) (mem s) (mem s1) /\ pg s1 = pg s /\
    entered dir address t phys (mem s1) m') s.
Proof using Hdir.
  intros Ha Hlive Hready H0'.
  destruct (proj1 (wp_ok _ _ _) (km_block 4096 s ltac:(lia) Hready)) as ([t phys] & s1 & Hk & Hb).
  destruct Hb as (Ht0 & Htm & Hphys & Hpm & Htr & Hfresh & Hkeep & Hsame & Hpg).
  eapply wp_mono; [apply (get_page_enters dir Hdir address t phys s s1); try done|].
  - destruct Hdir, Htr. destruct (decide (dir + 8196 <= t)); [by left|]. right.
    destruct (decide (t + 4096 <= dir)); [done|]. exfalso. destruct (decide (dir <= t)).
    + apply (Hfresh t); [lia|]. apply Hlive. lia.
    + apply (Hfresh dir); [lia|]. apply Hlive. lia.
  - intros r s' (m' & -> & -> & He). by exists t, phys, s1, m'.
Qed.
End GetPageLaws.

(** C19: The first page asked for in a 4 MB range creates the page table: an aligned,
    zeroed block of unused memory, entered in both arrays of the directory (its
    physical address with the flags present, writable and user).  From then on
    every address of the range finds its entry in that table, whatever [make]. *)
Theorem get_page_creates_table `{KmallocLaws} dir address address' make s :
  directory dir -> directory_live dir s -> km_ready 4096 s -> 0 <= address < 4294967296 ->
  load32 (mem s) (dir_table dir (table_index address)) = 0 ->
  table_index address' = table_index address ->
  wp (page <- get_page address 1 dir; page' <- get_page address' make dir; ret (page, page'))
    (fun r s' => exists t phys, r = (t + 4 * page_index address, t + 4 * page_index address') /\
       0 < t /\ t mod 4096 = 0 /\ (forall b, t <= b < t + 4096 -> ~ km_live s b /\ km_live s' b) /\
       load32 (mem s') (dir_table dir (table_index address)) = t /\
       load32 (mem s') (dir_table_physical dir (table_index address)) = phys + 7 /\
       phys mod 4096 = 0 /\ forall i, 0 <= i < 1024 -> load32 (mem s') (t + 4 * i) = 0) s.
Proof.
  intros Hd Hlive Hready Ha H0' Heq. apply wp_bind.
  eapply wp_mono; [by apply (get_page_creates_spec dir Hd)|].
  intros p s' (t & phys & s1 & m' & -> & -> & Ht & Htm & Hpm & [Ht1 Ht2] & Hfresh & _ & _ & _ & He).
  destruct He as (He1 & He2 & He3 & _). apply wp_bind. eapply wp_mono.
  { apply (get_page_present address' make dir t); [by rewrite Heq|lia..]. }
  intros p' ? (-> & ->). k_steps. exists t, phys. split; [done|]. split; [done|]. split; [done|].
  split; [|done]. intros b Hb. rewrite km_live_mem. by apply Hfresh.
Qed.

(** ** What a page fault prints *)

(** The hexadecimal numeral of [n], without leading zeroes. *)
Definition hexadecimal (n : Z) (l : list Z) : Prop :=
  Forall hexadecimal_digit l /\ number_of 16 hex_value l = n /\ (hd 0 l = 48 -> l = [48]).

(** The words for the bits of the error code; [present] is printed when its bit is
    clear. *)
Definition fault_flags (err_code : Z) : list Z :=
  (if Z.testbit err_code 0 then [] else str "present ") ++
  (if Z.testbit err_code 1 then str "read-only " else []) ++
  (if Z.testbit err_code 2 then str "user-mode " else []) ++
  (if Z.testbit err_code 3 then str "reserved " else []).

(** The whole message, for the numerals of the address, the instruction pointer and the
    line of the source.  The prefix of the address is there twice. *)
Definition fault_text (err_code : Z) (address eip line : list Z) : list Z :=
  str "Page fault! ( " ++ fault_flags err_code ++ str ") at 0x0x" ++ address ++
  str " - EIP: 0x" ++ eip ++ [10] ++ panic_text (str "Page fault") (str "sys/paging.c") line.

Lemma when_write_then {A} (b : bool) l (k : K A) t s (Q : kstate -> Prop) :
  shows s t -> Forall (fun b => 0 < b < 128) l -> Z.of_nat (length l) < 2147483647 ->
  (forall s', shows s' (write (if b then l else []) t) -> halts k Q s') ->
  halts (when b (monitor_write (lit l)) >> k) Q s.
Proof.
  intros Hs Hl Hn Hk. destruct b; cbn [when]; [|by apply Hk].
  eapply write_then; [done..|]. intros s' _ H'. by apply Hk.
Qed.

Lemma hex_then {A} n (k : K A) t s (Q : kstate -> Prop) :
  shows s t -> 0 <= n < 4294967296 ->
  (forall s' l, hexadecimal n l -> shows s' (write (str "0x" ++ l) t) -> halts k Q s') ->
  halts (monitor_write_hex n >> k) Q s.
Proof.
  intros Hs Hn Hk. apply halts_bind. eapply wp_mono; [by apply write_hex_spec|].
  intros [] s' (l & _ & H' & ? & ? & ? & _). by eapply Hk.
Qed.

Lemma page_fault_spec regs t s :
  shows s t -> 0 <= cpu_cr2 (cpu s) < 4294967296 -> 0 <= reg_eip regs < 4294967296 ->
  halts (page_fault regs) (fun s' => exists address eip line,
    hexadecimal (cpu_cr2 (cpu s)) address /\ hexadecimal (reg_eip regs) eip /\
    number_of 10 dec_value line = 252 /\
    shows s' (write (fault_text (reg_err_code regs) address eip line) t) /\
    head (trace s') = Some Hlt) s.
Proof.
  intros Hs Hc He. unfold page_fault. apply halts_bind, wp_gets.
  rewrite (truth_bit _ 0 ltac:(lia) : truth (Z.land _ 1) = _), (truth_bit _ 1 ltac:(lia) : truth (Z.land _ 2) = _),
    (truth_bit _ 2 ltac:(lia) : truth (Z.land _ 4) = _), (truth_bit _ 3 ltac:(lia) : truth (Z.land _ 8) = _).
  eapply write_then; [exact Hs|by repeat constructor|simpl; lia|]. intros s1 _ H1.
  eapply when_write_then; [exact H1|by repeat constructor|simpl; lia|]. intros s2 H2.
  eapply when_write_then; [exact H2|by repeat constructor|simpl; lia|]. intros s3 H3.
  eapply when_write_then; [exact H3|by repeat constructor|simpl; lia|]. intros s4 H4.
  eapply when_write_then; [exact H4|by repeat constructor|simpl; lia|]. intros s5 H5.
  eapply write_then; [exact H5|by repeat constructor|simpl; lia|]. intros s6 _ H6.
  eapply hex_then; [exact H6|done|]. intros s7 address Ha H7.
  eapply write_then; [exact H7|by repeat constructor|simpl; lia|]. intros s8 _ H8.
  eapply hex_then; [exact H8|done|]. intros s9 eip Hi H9.
  eapply write_then; [exact H9|by repeat constructor|simpl; lia|]. intros s10 _ H10.
  eapply halts_mono; [eapply panic_spec; [exact H10|lia|by repeat constructor|simpl; lia|by repeat constructor|simpl; lia]|].
  intros s11 (line & Hl & H11 & Hh). exists address, eip, line. split_and!; try done.
  rewrite <- !write_app in H11. unfold fault_text, fault_flags. rewrite <- !app_assoc in *.
  by destruct (Z.testbit _ 0).
Qed.

(** C40: A page fault prints what the error code says (with the word present for a page
    that is not), the address and the instruction pointer, and stops the processor. *)
Theorem page_fault_halts regs t s :
  shows s t -> 0 <= cpu_cr2 (cpu s) < 4294967296 -> 0 <= reg_eip regs < 4294967296 ->
  halts (page_fault regs) (fun s' => exists address eip line,
    hexadecimal (cpu_cr2 (cpu s)) address /\ hexadecimal (reg_eip regs) eip /\
    number_of 10 dec_value line = 252 /\
    shows s' (write (fault_text (reg_err_code regs) address eip line) t) /\
    head (trace s') = Some Hlt) s.
Proof. apply page_fault_spec. Qed.

(** ** Properties of cloning *)

Section Clone.
Context `{Kmalloc}.

(** C39: The test of the copied entries is inverted: a page that has a frame is
    skipped, so the clone of a table whose pages are all mapped is empty.  And
    [memset] clears the 4100 bytes behind the new table too. *)
Theorem clone_table_drops_mapped src table phys s s1 :
  kmalloc_ap 4096 s = Ok (table, phys) s1 ->
  region table (table + 8196) -> region src (src + 4096) ->
  (src + 4096 <= table \/ table + 8196 <= src) ->
  (forall i, 0 <= i < 1024 -> page_frame (load32 (mem s1) (src + 4 * i)) <> 0) ->
  wp (clone_table src) (fun r s' => r = (table, phys) /\ exists m', s' = set_mem m' s1 /\
    (forall i, 0 <= i < 2049 -> load32 m' (table + 4 * i) = 0) /\
    same_outside table (table + 8196) (mem s1) m') s.
Proof.
  intros Hk Ht Hs Hap Hmapped. pose proof Ht as [Ht1 Ht2]. pose proof Hs as [Hs1 Hs2].
  unfold clone_table, sizeof_page_table, sizeof_page_directory.
  apply wp_bind, wp_ok. do 2 eexists. split; [exact Hk|].
  apply wp_bind. eapply wp_mono; [apply memset_spec; [done|lia]|].
  intros [] t (m1 & -> & Hout & Hz). apply wp_bind.
  eapply (wp_mono _ (fun _ t => t = set_mem m1 s1)).
  - apply (wp_for (fun _ t => t = set_mem m1 s1)); [|done|lia|lia].
    intros i t Hi ->. rewrite !u32_id by lia. k_steps. cbn [mem set_mem].
    rewrite (load32_frame table (table + 8196) (mem s1) m1 Hout) by (unfold region; lia).
    unfold truth. rewrite (proj2 (Z.eqb_neq _ _) (Hmapped i Hi)). by k_steps.
  - intros [] t ->. k_steps. split; [done|]. exists m1. split; [done|]. split; [|done].
    intros i Hi. by apply (memset_words m1 table 8196); [|lia..].
Qed.

(** The clone [dir] of [src], before entry [i] of the tables is copied; [m0] is the
    memory before the clone. *)
Record cloned_to (m0 : memory) (src dir pa i : Z) (m : memory) : Prop := ClonedTo {
  cl_out : same_outside dir (dir + 8196) m0 m;
  cl_physical : load32 m (dir_physical_addr dir) = pa;
  cl_tables : forall j, 0 <= j < 1024 ->
    load32 m (dir_table dir j) = (if j <? i then load32 m0 (dir_table src j) else 0) /\
    load32 m (dir_table_physical dir j) =
      (if (j <? i) && negb (load32 m0 (dir_table src j) =? 0)
       then load32 m0 (dir_table_physical src j) else 0)
}.

(** An entry that is empty stays so. *)
Lemma cloned_skip m0 src dir pa i m :
  load32 m0 (dir_table src i) = 0 -> cloned_to m0 src dir pa i m -> cloned_to m0 src dir pa (i + 1) m.
Proof.
  intros H0' [Hout Hpa Hj]. constructor; [done|done|]. intros j Hjr. destruct (Hj j Hjr) as [-> ->].
  destruct (decide (j = i)) as [->|Hne].
  - replace (i <? i) with false by blia. replace (i <? i + 1) with true by blia. by rewrite H0'.
  - by replace (j <? i + 1) with (j <? i) by bool_eq_lia.
Qed.

(** An entry of the kernel is shared. *)
Lemma cloned_link m0 src dir pa i m :
  region dir (dir + 8196) -> 0 <= i < 1024 -> load32 m0 (dir_table src i) <> 0 ->
  cloned_to m0 src dir pa i m ->
  cloned_to m0 src dir pa (i + 1)
    (store32 (store32 m (dir_table dir i) (load32 m0 (dir_table src i)))
       (dir_table_physical dir i) (load32 m0 (dir_table_physical src i))).
Proof.
  intros [Hd1 Hd2] Hi Hne0 [Hout Hpa Hj].
  assert (Ht : forall a, u32 (load32 m0 a) = load32 m0 a) by (intros a; apply u32_id, load32_range).
  unfold dir_table, dir_table_physical, dir_physical_addr in *. constructor.
  - intros b Hb Hn. read_stores. by apply Hout.
  - unfold dir_physical_addr. by read_stores.
  - unfold dir_table, dir_table_physical. intros j Hjr. destruct (Hj j Hjr) as [Hj1 Hj2].
    destruct (decide (j = i)) as [->|Hne].
    + replace (i <? i + 1) with true by blia. read_stores. rewrite !Ht.
      by rewrite (proj2 (Z.eqb_neq _ _) Hne0).
    + replace (j <? i + 1) with (j <? i) by bool_eq_lia. read_stores. by split.
Qed.

Lemma clone_entry_spec m0 src dir pa i s :
  region dir (dir + 8196) -> region src (src + 8196) -> (src + 8196 <= dir \/ dir + 8196 <= src) ->
  let kd := kernel_directory (pg s) in
  region kd (kd + 8196) -> (kd + 8196 <= dir \/ dir + 8196 <= kd) ->
  (load32 m0 (dir_table src i) = 0 \/ load32 m0 (dir_table kd i) = load32 m0 (dir_table src i)) ->
  0 <= i < 1024 -> cloned_to m0 src dir pa i (mem s) ->
  wp (clone_entry src dir i)
    (fun _ s' => exists m', s' = set_mem m' s /\ cloned_to m0 src dir pa (i + 1) m') s.
Proof.
  intros Hd [Hs1 Hs2] Hap kd [Hkd1 Hkd2] Hapk Hlinked Hi Hc. pose proof Hd as [Hd1 Hd2].
  assert (Hsrc : forall a, src <= a /\ a + 4 <= src + 8196 \/ kd <= a /\ a + 4 <= kd + 8196 ->
    load32 (mem s) a = load32 m0 a).
  { intros a Ha. eapply load32_frame; [exact (cl_out _ _ _ _ _ _ Hc)|unfold region; lia|lia]. }
  pose proof (cloned_skip m0 src dir pa i (mem s)) as Hskip.
  pose proof (cloned_link m0 src dir pa i (mem s) Hd Hi) as Hlink.
  unfold clone_entry, get_kernel_directory, dir_table, dir_table_physical in *.
  k_steps. cbn [mem set_mem]. rewrite (Hsrc (src + 4 * i)) by lia. unfold truth.
  destruct (load32 m0 (src + 4 * i) =? 0) eqn:Et; cbn [negb]; bool_hyps.
  - k_steps. exists (mem s). rewrite set_mem_id. split; [done|by apply Hskip].
  - k_steps. fold kd. rewrite (Hsrc (kd + 4 * i)) by lia.
    destruct Hlinked as [?|Hl]; [contradiction|]. rewrite Hl, Z.eqb_refl. k_steps. cbn [mem set_mem].
    rewrite set_mem_set_mem, load32_store32_ne by (unfold region; lia).
    rewrite (Hsrc (src + 4096 + 4 * i)) by lia. eexists. split; [reflexivity|by apply Hlink].
Qed.

Lemma clone_directory_spec src dir phys s s1 :
  kmalloc_ap 8196 s = Ok (dir, phys) s1 ->
  region dir (dir + 8196) -> region src (src + 8196) -> 0 <= phys < 4294963200 ->
  (src + 8196 <= dir \/ dir + 8196 <= src) ->
  let kd := kernel_directory (pg s1) in
  region kd (kd + 8196) -> (kd + 8196 <= dir \/ dir + 8196 <= kd) ->
  (forall i, 0 <= i < 1024 -> load32 (mem s1) (dir_table src i) = 0 \/
     load32 (mem s1) (dir_table kd i) = load32 (mem s1) (dir_table src i)) ->
  wp (clone_directory src) (fun r s' => r = dir /\ exists m', s' = set_mem m' s1 /\
    load32 m' (dir_physical_addr dir) = phys + 4096 /\
    (forall i, 0 <= i < 1024 ->
       load32 m' (dir_table dir i) = load32 (mem s1) (dir_table src i) /\
       load32 m' (dir_table_physical dir i) =
         if load32 (mem s1) (dir_table src i) =? 0 then 0
         else load32 (mem s1) (dir_table_physical src i)) /\
    same_outside dir (dir + 8196) (mem s1) m') s.
Proof.
  intros Hk [Hd1 Hd2] [Hs1 Hs2] Hp Hap kd [Hkd1 Hkd2] Hapk Hlinked.
  unfold clone_directory, sizeof_page_directory.
  apply wp_bind, wp_ok. do 2 eexists. split; [exact Hk|].
  apply wp_bind. eapply wp_mono; [apply memset_spec; [unfold region; lia|lia]|].
  intros [] t (m1 & -> & Hout & Hz). cbv zeta. k_step. k_step. cbn [mem set_mem].
  rewrite set_mem_set_mem.
  assert (Hoff : u32 (phys + u32 (u32 (dir + 4096) - dir)) = phys + 4096).
  { rewrite (u32_id (dir + 4096)) by lia. replace (dir + 4096 - dir) with 4096 by lia.
    rewrite (u32_id 4096), u32_id by lia. done. }
  rewrite Hoff. set (m2 := store32 m1 (dir_physical_addr dir) (phys + 4096)).
  assert (Hm2 : same_outside dir (dir + 8196) (mem s1) m2).
  { eapply same_outside_trans; [exact Hout|]. eapply same_outside_weaken; [..|apply store32_outside];
      unfold dir_physical_addr; [lia|lia|unfold region; lia]. }
  apply wp_bind. eapply wp_mono.
  { apply (wp_for_mem (cloned_to (mem s1) src dir (phys + 4096)) 0 1024); [|constructor|lia|lia].
    - intros i m Hi Hc. eapply wp_mono; [apply (clone_entry_spec (mem s1) src dir (phys + 4096) i)|];
        cbn [mem set_mem pg]; unfold region; auto.
    - exact Hm2.
    - unfold m2, dir_physical_addr. cbn [mem set_mem]. read_stores. apply u32_id. lia.
    - intros j Hj. unfold m2. cbn [mem set_mem].
      unfold dir_table, dir_table_physical, dir_physical_addr.
      replace (j <? 0) with false by blia. read_stores. split.
      + by apply (memset_words m1 dir 8196); [|lia..].
      + replace (dir + 4096 + 4 * j) with (dir + 4 * (1024 + j)) by lia.
        by apply (memset_words m1 dir 8196); [|lia..]. }
  intros [] t (m' & -> & [Hm Hpa Hj]). k_steps. split; [done|]. exists m'.
  rewrite set_mem_set_mem. split; [done|]. split; [done|]. split; [|done].
  intros i Hi. destruct (Hj i Hi) as [-> ->]. replace (i <? 1024) with true by blia.
  split; [done|]. by destruct (_ =? 0).
Qed.

(** C25: Cloning a directory whose tables are the kernel's links them: the new
    directory has the same tables, the same physical addresses where there is a
    table, nothing elsewhere, and its own physical address is that of its
    [tablesPhysical]. *)
Theorem clone_directory_links_kernel src dir phys s s1 :
  kmalloc_ap 8196 s = Ok (dir, phys) s1 ->
  region dir (dir + 8196) -> region src (src + 8196) -> 0 <= phys < 4294963200 ->
  (src + 8196 <= dir \/ dir + 8196 <= src) ->
  let kd := kernel_directory (pg s1) in
  region kd (kd + 8196) -> (kd + 8196 <= dir \/ dir + 8196 <= kd) ->
  (forall i, 0 <= i < 1024 -> load32 (mem s1) (dir_table src i) = 0 \/
     load32 (mem s1) (dir_table kd i) = load32 (mem s1) (dir_table src i)) ->
  wp (clone_directory src) (fun r s' => r = dir /\ exists m', s' = set_mem m' s1 /\
    load32 m' (dir_physical_addr dir) = phys + 4096 /\
    (forall i, 0 <= i < 1024 ->
       load32 m' (dir_table dir i) = load32 (mem s1) (dir_table src i) /\
       load32 m' (dir_table_physical dir i) =
         if load32 (mem s1) (dir_table src i) =? 0 then 0
         else load32 (mem s1) (dir_table_physical src i)) /\
    same_outside dir (dir + 8196) (mem s1) m') s.
Proof. apply clone_directory_spec. Qed.
End Clone.

Module PagingSample.
(** An allocator that always hands out the same block. *)
#[local] Instance fixed_kmalloc : Kmalloc := fun _ _ _ => ret (65536, 65536).

(** A page table at 8192 whose pages have the frames 1 to 1024. *)
Definition table_memory : memory :=
  foldr (fun i m => store32 m (8192 + 4 * i) (4096 * (i + 1) + 7)) ∅ (seqZ 0 1024).
Definition table_state : kstate := set_mem table_memory sample_state.

Lemma table_mapped i :
  0 <= i < 1024 -> page_frame (load32 (mem table_state) (8192 + 4 * i)) <> 0.
Proof.
  intros Hi. assert (forallb (fun i => negb (page_frame (load32 (mem table_state) (8192 + 4 * i)) =? 0))
                       (seqZ 0 1024) = true) as H by (vm_compute; reflexivity).
  rewrite forallb_forall in H. specialize (H i).
  assert (In i (seqZ 0 1024)) as Hin by (apply list_elem_of_In, elem_of_seqZ; lia).
  specialize (H Hin). apply negb_true_iff, Z.eqb_neq in H. exact H.
Qed.

Lemma clone_table_drops_mapped_witness :
  wp (clone_table 8192) (fun r s' => r = (65536, 65536) /\ load32 (mem s') (65536 + 4 * 5) = 0)
    table_state.
Proof.
  eapply wp_mono.
  - apply (clone_table_drops_mapped 8192 65536 65536 table_state table_state);
      [reflexivity|unfold region; lia|unfold region; lia|lia|exact table_mapped].
  - intros r s' (Hr & m' & -> & Hz & _). split; [exact Hr|]. apply (Hz 5). lia.
Defined.

(** A directory at 8192, the kernel's, with one table. *)
Definition directory_state : kstate :=
  set_pg (PagingGlobals 8192 8192 0 0)
    (set_mem (store32 (store32 ∅ 8204 20480) (8192 + 4096 + 12) 20487) sample_state).

Lemma clone_directory_links_kernel_witness :
  wp (clone_directory 8192) (fun r s' => r = 65536 /\
    load32 (mem s') (65536 + 12) = 20480 /\ load32 (mem s') (65536 + 8192) = 69632) directory_state.
Proof.
  eapply wp_mono.
  - apply (clone_directory_links_kernel 8192 65536 65536 directory_state directory_state);
      [reflexivity|unfold region; lia|unfold region; lia|lia|lia|cbn; unfold region; lia|cbn; lia|].
    intros i Hi. right. reflexivity.
  - intros r s' (Hr & m' & -> & Hpa & Ht & _). split; [exact Hr|]. split; [|exact Hpa].
    destruct (Ht 3 ltac:(lia)) as [H3 _]. unfold dir_table in H3. cbn [mem set_mem].
    change (65536 + 12) with (65536 + 4 * 3). rewrite H3. vm_compute. reflexivity.
Defined.

(** A write of the kernel to a page that is not present. *)
Lemma page_fault_halts_witness :
  halts (page_fault (Registers 16 0 0 0 0 0 0 0 0 14 2 1048576 8 514 0 16))
    (fun s' => head (trace s') = Some Hlt /\ exists rest,
       shows s' (write (str "Page fault! ( present read-only ) at 0x0x" ++ rest) ConsoleSample.blank_terminal))
    sample_state.
Proof.
  eapply halts_mono.
  - apply (page_fault_halts _ ConsoleSample.blank_terminal sample_state);
      [apply ConsoleSample.sample_shows|cbn; lia|cbn; lia].
  - intros s' (address & eip & line & _ & _ & _ & Hs & Hh). split; [exact Hh|]. eexists. exact Hs.
Defined.
End PagingSample.
