(* ===== verification/Kheap.v ===== *)
(** * The kernel heap of [sys/kheap.c]

    Blocks and holes carry a header and a footer in memory; an ordered array of
    the holes, by size, is the index.  The heap grows by mapping pages, and
    mapping a page may allocate a page table: the section [Heap] is over the
    allocator that [get_page] uses, and [kmalloc_level] ties the knot. *)

From Stdlib Require Import ZArith Lia List String.
From stdpp Require Import base list gmap.
From S2P Require Import Prelude Machine Kernel Common Monitor OrderedArray Kmalloc Frames Paging.

(** ** Definitions *)

Definition KHEAP_START : Z := 3221225472.
Definition KHEAP_INITIAL_SIZE : Z := 1048576.
Definition HEAP_INDEX_SIZE : Z := 131072.
Definition HEAP_MAGIC : Z := 305696939.
Definition HEAP_MIN_SIZE : Z := 458752.

(** [header_t] is [magic], [is_hole] (a byte) and [size] at offsets 0, 4 and 8;
    [footer_t] is [magic] and [header]. *)
Definition sizeof_header : Z := 12.
Definition sizeof_footer : Z := 8.

Definition get_header_magic (h : Z) : K Z := ld32 h.
Definition get_header_is_hole (h : Z) : K Z := ld8 (h + 4).
Definition get_header_size (h : Z) : K Z := ld32 (h + 8).
Definition set_header_magic (h v : Z) : K unit := st32 h v.
Definition set_header_is_hole (h v : Z) : K unit := st8 (h + 4) v.
Definition set_header_size (h v : Z) : K unit := st32 (h + 8) v.
Definition get_footer_magic (f : Z) : K Z := ld32 f.
Definition get_footer_header (f : Z) : K Z := ld32 (f + 4).
Definition set_footer_magic (f v : Z) : K unit := st32 f v.
Definition set_footer_header (f v : Z) : K unit := st32 (f + 4) v.

(** [heap_t]: the index is at offset 0; its [size] at offset 4. *)
Definition sizeof_heap : Z := 32.
Definition get_index_size (heap : Z) : K Z := ld32 (heap + 4).
Definition get_start_address (heap : Z) : K Z := ld32 (heap + 16).
Definition get_end_address (heap : Z) : K Z := ld32 (heap + 20).
Definition get_max_address (heap : Z) : K Z := ld32 (heap + 24).
Definition get_supervisor (heap : Z) : K Z := ld8 (heap + 28).
Definition get_readonly (heap : Z) : K Z := ld8 (heap + 29).
Definition set_start_address (heap v : Z) : K unit := st32 (heap + 16) v.
Definition set_end_address (heap v : Z) : K unit := st32 (heap + 20) v.
Definition set_max_address (heap v : Z) : K unit := st32 (heap + 24) v.
Definition set_supervisor (heap v : Z) : K unit := st8 (heap + 28) v.
Definition set_readonly (heap v : Z) : K unit := st8 (heap + 29) v.

(** [x & 0xFFFFF000 != 0] is [x & (0xFFFFF000 != 0)]. *)
Definition and_page_mask_ne_0 (x : Z) : bool := truth (Z.land x (Z.b2z (truth 4294963200))).

Definition header_t_less_than (a b : Z) : K Z :=
  sa <- get_header_size a; sb <- get_header_size b; ret (if sa <? sb then 1 else 0).

(** The functions a [lessthan_predicate_t] can point to. *)
#[export] Instance kernel_less_than `{Linkage} : LessThan := fun f a b =>
  if f =? sym_header_t_less_than then header_t_less_than a b
  else if f =? sym_standard_lessthan_predicate then standard_lessthan_predicate a b
  else undefined.

Section Heap.
Context `{Linkage, Kmalloc}.

Definition expand (new_size heap : Z) : K unit :=
  e <- get_end_address heap; st <- get_start_address heap;
  ASSERT (u32 (e - st) <? new_size) "sys/kheap.c" 84
    "new_size > heap->end_address - heap->start_address" >>
  let new_size :=
    if and_page_mask_ne_0 new_size then u32 (Z.land new_size 4294963200 + 4096) else new_size in
  st <- get_start_address heap; mx <- get_max_address heap;
  ASSERT (u32 (st + new_size) <=? mx) "sys/kheap.c" 94
    "heap->start_address+new_size <= heap->max_address" >>
  e <- get_end_address heap; st <- get_start_address heap;
  let old_size := u32 (e - st) in
  while (fun i => ret (i <? new_size))
        (fun i =>
           st <- get_start_address heap;
           kd <- get_kernel_directory;
           page <- get_page (u32 (st + i)) 1 kd;
           sv <- get_supervisor heap; ro <- get_readonly heap;
           alloc_frame page (if truth sv then 1 else 0) (if truth ro then 0 else 1) >>
           ret (u32 (i + 4096))) old_size >>
  st <- get_start_address heap;
  set_end_address heap (u32 (st + new_size)).

Definition contract (new_size heap : Z) : K Z :=
  e <- get_end_address heap; st <- get_start_address heap;
  ASSERT (new_size <? u32 (e - st)) "sys/kheap.c" 113
    "new_size < heap->end_address - heap->start_address" >>
  let new_size :=
    if truth (Z.land new_size 4096) then u32 (Z.land new_size 4096 + 4096) else new_size in
  let new_size := if new_size <? HEAP_MIN_SIZE then HEAP_MIN_SIZE else new_size in
  e <- get_end_address heap; st <- get_start_address heap;
  let old_size := u32 (e - st) in
  while (fun i => ret (new_size <? i))
        (fun i =>
           st <- get_start_address heap;
           kd <- get_kernel_directory;
           page <- get_page (u32 (st + i)) 0 kd;
           free_frame page >>
           ret (u32 (i - 4096))) (u32 (old_size - 4096)) >>
  st <- get_start_address heap;
  set_end_address heap (u32 (st + new_size)) >>
  ret new_size.

Definition find_smallest_hole (size page_align heap : Z) : K Z :=
  iterator <- loop (fun iterator =>
    n <- get_index_size heap;
    if iterator <? n then
      header <- lookup_ordered_array iterator heap;
      hs <- get_header_size header;
      let fits :=
        if 0 <? page_align then
          let location := header in
          let offset :=
            if and_page_mask_ne_0 (u32 (location + sizeof_header))
            then s32 (4096 - u32 (location + sizeof_header) mod 4096) else 0 in
          let hole_size := s32 (s32 hs - offset) in
          s32 size <=? hole_size
        else size <=? hs in
      if fits : bool then ret (inr iterator) else ret (inl (u32 (iterator + 1)))
    else ret (inr iterator)) 0;
  n <- get_index_size heap;
  if iterator =? n then ret (-1) else ret (s32 iterator).

Definition create_heap (start end_addr mx supervisor readonly : Z) : K Z :=
  heap <- kmalloc sizeof_heap;
  ASSERT (start mod 4096 =? 0) "sys/kheap.c" 184 "start % 0x1000 == 0" >>
  ASSERT (end_addr mod 4096 =? 0) "sys/kheap.c" 185 "end_addr % 0x1000 == 0" >>
  index <- place_ordered_array start HEAP_INDEX_SIZE sym_header_t_less_than;
  store_ordered_array heap index >>
  let start := u32 (start + 4 * HEAP_INDEX_SIZE) in
  let start := if and_page_mask_ne_0 start then u32 (Z.land start 4294963200 + 4096) else start in
  set_start_address heap start >>
  set_end_address heap end_addr >>
  set_max_address heap mx >>
  set_supervisor heap supervisor >>
  set_readonly heap readonly >>
  let hole := start in
  set_header_size hole (u32 (end_addr - start)) >>
  set_header_magic hole HEAP_MAGIC >>
  set_header_is_hole hole 1 >>
  insert_ordered_array hole heap >>
  ret heap.

(** The endmost header of the index, by location: its position, or -1. *)
Definition find_endmost (heap : Z) : K Z :=
  r <- while (fun '(iterator, idx, value) => n <- get_index_size heap; ret (u32 iterator <? n))
             (fun '(iterator, idx, value) =>
                tmp <- lookup_ordered_array (u32 iterator) heap;
                ret (if value <? tmp then (s32 (iterator + 1), u32 iterator, tmp)
                     else (s32 (iterator + 1), idx, value)))
             (0, u32 (-1), 0);
  let '(_, idx, _) := r in ret idx.

(** No hole is large enough: the heap is expanded, and the new space is joined
    to the endmost hole of the index. *)
Definition alloc_grow (new_size heap : Z) : K unit :=
  e <- get_end_address heap; st <- get_start_address heap;
  let old_length := u32 (e - st) in
  old_end_address <- get_end_address heap;
  expand (u32 (old_length + new_size)) heap >>
  e <- get_end_address heap; st <- get_start_address heap;
  let new_length := u32 (e - st) in
  idx <- find_endmost heap;
  if idx =? u32 (-1) then
    let header := old_end_address in
    set_header_magic header HEAP_MAGIC >>
    set_header_size header (u32 (new_length - old_length)) >>
    set_header_is_hole header 1 >>
    hs <- get_header_size header;
    let footer := u32 (old_end_address + hs - sizeof_footer) in
    set_footer_magic footer HEAP_MAGIC >>
    set_footer_header footer header >>
    insert_ordered_array header heap
  else
    header <- lookup_ordered_array idx heap;
    hs <- get_header_size header;
    set_header_size header (u32 (hs + u32 (new_length - old_length))) >>
    hs <- get_header_size header;
    let footer := u32 (header + hs - sizeof_footer) in
    set_footer_header footer header >>
    set_footer_magic footer HEAP_MAGIC.

(** What is in front of the page boundary stays a hole: the position and the size
    of what is left for the block. *)
Definition front_hole (orig_hole_pos orig_hole_size : Z) : K (Z * Z) :=
  let new_location :=
    u32 (orig_hole_pos + 4096 - Z.land orig_hole_pos 4095 - sizeof_header) in
  let hole_header := orig_hole_pos in
  set_header_size hole_header (u32 (4096 - Z.land orig_hole_pos 4095 - sizeof_header)) >>
  set_header_magic hole_header HEAP_MAGIC >>
  set_header_is_hole hole_header 1 >>
  let hole_footer := u32 (new_location - sizeof_footer) in
  set_footer_magic hole_footer HEAP_MAGIC >>
  set_footer_header hole_footer hole_header >>
  hs <- get_header_size hole_header;
  ret (new_location, u32 (orig_hole_size - hs)).

(** The header and the footer of the block. *)
Definition mark_block (orig_hole_pos size new_size : Z) : K unit :=
  let block_header := orig_hole_pos in
  set_header_magic block_header HEAP_MAGIC >>
  set_header_is_hole block_header 0 >>
  set_header_size block_header new_size >>
  let block_footer := u32 (orig_hole_pos + sizeof_header + size) in
  set_footer_magic block_footer HEAP_MAGIC >>
  set_footer_header block_footer block_header.

(** What the block leaves of the hole is a hole behind it. *)
Definition leave_hole (orig_hole_pos orig_hole_size size new_size heap : Z) : K unit :=
  when (0 <? u32 (orig_hole_size - new_size)) (
    let hole_header := u32 (orig_hole_pos + sizeof_header + size + sizeof_footer) in
    set_header_magic hole_header HEAP_MAGIC >>
    set_header_is_hole hole_header 1 >>
    set_header_size hole_header (u32 (orig_hole_size - new_size)) >>
    let hole_footer := u32 (hole_header + orig_hole_size - new_size - sizeof_footer) in
    e <- get_end_address heap;
    when (hole_footer <? e) (
      set_footer_magic hole_footer HEAP_MAGIC >>
      set_footer_header hole_footer hole_header) >>
    insert_ordered_array hole_header heap).

(** The hole at position [iterator] of the index is used for the block. *)
Definition alloc_place (iterator size page_align heap : Z) : K Z :=
  let new_size := u32 (size + sizeof_header + sizeof_footer) in
  orig_hole_header <- lookup_ordered_array (u32 iterator) heap;
  let orig_hole_pos := orig_hole_header in
  orig_hole_size <- get_header_size orig_hole_header;
  let '(size, new_size) :=
    if u32 (orig_hole_size - new_size) <? sizeof_header + sizeof_footer
    then (u32 (size + u32 (orig_hole_size - new_size)), orig_hole_size) else (size, new_size) in
  r <- (if truth page_align && truth (Z.land orig_hole_pos 4294963200) then
          front_hole orig_hole_pos orig_hole_size
        else
          remove_ordered_array (u32 iterator) heap >>
          ret (orig_hole_pos, orig_hole_size));
  let '(orig_hole_pos, orig_hole_size) := r in
  mark_block orig_hole_pos size new_size >>
  leave_hole orig_hole_pos orig_hole_size size new_size heap >>
  ret (u32 (orig_hole_pos + sizeof_header)).

(** One call of [alloc]: the block, or nothing when the heap has been grown and the
    function calls itself, in tail position and with its own arguments. *)
Definition alloc_round (size page_align heap : Z) : K (unit + Z) :=
  let new_size := u32 (size + sizeof_header + sizeof_footer) in
  iterator <- find_smallest_hole new_size page_align heap;
  if iterator =? -1 then alloc_grow new_size heap >> ret (inl tt)
  else p <- alloc_place iterator size page_align heap; ret (inr p).

Definition alloc (size page_align heap : Z) : K Z :=
  loop (fun _ : unit => alloc_round size page_align heap) tt.

(** The position of [header] in the index, or the size of the index. *)
Definition find_header (header heap : Z) : K Z :=
  while (fun iterator =>
           n <- get_index_size heap;
           if iterator <? n then
             e <- lookup_ordered_array iterator heap;
             ret (negb (e =? header))
           else ret false)
        (fun iterator => ret (u32 (iterator + 1))) 0.

(** [free], in the order of the source.  Unify left: the header that stands for
    the block from here on, and whether it goes into the index. *)
Definition unify_left (header footer : Z) : K (Z * Z) :=
  let test_footer := u32 (header - sizeof_footer) in
  tm <- get_footer_magic test_footer;
  th <- get_footer_header test_footer;
  ti <- (if tm =? HEAP_MAGIC then get_header_is_hole th else ret 0);
  if (tm =? HEAP_MAGIC) && (ti =? 1) then
    cache_size <- get_header_size header;
    header <- get_footer_header test_footer;
    set_footer_header footer header >>
    hs <- get_header_size header;
    set_header_size header (u32 (hs + cache_size)) >>
    ret (header, 0)
  else ret (header, 1).

(** Unify right: the footer from here on.  It is not rewritten. *)
Definition unify_right (header footer heap : Z) : K Z :=
  let test_header := u32 (footer + sizeof_footer) in
  tm <- get_header_magic test_header;
  ti <- (if tm =? HEAP_MAGIC then get_header_is_hole test_header else ret 0);
  if (tm =? HEAP_MAGIC) && truth ti then
    hs <- get_header_size header;
    ths <- get_header_size test_header;
    set_header_size header (u32 (hs + ths)) >>
    ths <- get_header_size test_header;
    let test_footer := u32 (test_header + ths - sizeof_footer) in
    iterator <- find_header test_header heap;
    n <- get_index_size heap;
    ASSERT (iterator <? n) "sys/kheap.c" 407 "iterator < heap->index.size" >>
    remove_ordered_array iterator heap >>
    ret test_footer
  else ret footer.

(** The footer is at the end address. *)
Definition free_contract (header test_header heap : Z) : K unit :=
  e <- get_end_address heap; st <- get_start_address heap;
  let old_length := u32 (e - st) in
  st <- get_start_address heap;
  new_length <- contract (u32 (header - st)) heap;
  hs <- get_header_size header;
  if 0 <? u32 (hs - u32 (old_length - new_length)) then
    set_header_size header (u32 (hs - u32 (old_length - new_length))) >>
    hs <- get_header_size header;
    let footer := u32 (header + hs - sizeof_footer) in
    set_footer_magic footer HEAP_MAGIC >>
    set_footer_header footer header
  else
    iterator <- find_header test_header heap;
    n <- get_index_size heap;
    when (iterator <? n) (remove_ordered_array iterator heap).

Definition free (p heap : Z) : K unit :=
  if p =? 0 then ret tt
  else
    let header := u32 (p - sizeof_header) in
    hs <- get_header_size header;
    let footer := u32 (header + hs - sizeof_footer) in
    hm <- get_header_magic header;
    ASSERT (hm =? HEAP_MAGIC) "sys/kheap.c" 365 "header->magic == HEAP_MAGIC" >>
    fm <- get_footer_magic footer;
    ASSERT (fm =? HEAP_MAGIC) "sys/kheap.c" 366 "footer->magic == HEAP_MAGIC" >>
    set_header_is_hole header 1 >>
    r <- unify_left header footer;
    let '(header, do_add) := r in
    let test_header := u32 (footer + sizeof_footer) in
    footer <- unify_right header footer heap;
    e <- get_end_address heap;
    when (u32 (footer + sizeof_footer) =? e) (free_contract header test_header heap) >>
    when (do_add =? 1) (insert_ordered_array header heap).

(** [kmalloc_int], over the allocator that mapping a page uses. *)
Definition kmalloc_body (sz align : Z) (phys : bool) : K (Z * Z) :=
  kh <- gets (fun s => kheap (hp s));
  if truth kh then
    addr <- alloc sz (u8 align) kh;
    if phys then
      kd <- get_kernel_directory;
      page <- get_page addr 0 kd;
      w <- ld32 page;
      ret (addr, u32 (page_frame w * 4096 + Z.land addr 4095))
    else ret (addr, 0)
  else
    (p <- gets (fun s => placement_address (hp s));
     when ((align =? 1) && truth (Z.land p 4294963200)) (
       modify (fun s => set_hp (HeapGlobals (Z.land p 4294963200) (kheap (hp s))) s) >>
       modify (fun s => set_hp (HeapGlobals (u32 (placement_address (hp s) + 4096)) (kheap (hp s))) s))) >>
    tmp <- gets (fun s => placement_address (hp s));
    modify (fun s => set_hp (HeapGlobals (u32 (placement_address (hp s) + sz)) (kheap (hp s))) s) >>
    ret (tmp, tmp).
End Heap.

(** [kmalloc_int] with at most [n] nested calls through [get_page]; each is a
    frame of the kernel's stack. *)
Fixpoint kmalloc_level `{Linkage} (n : nat) : Kmalloc :=
  match n with
  | O => fun _ _ _ => diverge
  | S n => @kmalloc_body _ (kmalloc_level n)
  end.

(** The depth is that of no more frames than the kernel's stack can hold. *)
Definition kmalloc_depth : nat := 256.
#[export] Instance kernel_kmalloc `{Linkage} : Kmalloc := kmalloc_level kmalloc_depth.

Definition kfree `{Linkage} (p : Z) : K unit :=
  kh <- gets (fun s => kheap (hp s)); free p kh.
