(* ===== verification/KheapSpec.v ===== *)
(** * What the kernel heap does

    The heap in memory: [heap_at] relates the structure to the list of holes of
    its index; [header_at] and [footer_at] are the marks around a block or hole.
    Then the search, the placement of a block, and release. *)

From Stdlib Require Import ZArith Lia List String Sorting.
From stdpp Require Import base list gmap.
From S2P Require Import Prelude Machine Kernel Common Monitor OrderedArray Kmalloc Frames Paging Kheap.

(** ** The heap in memory *)

Definition hole_size (m : memory) (h : Z) : Z := load32 m (h + 8).

(** The structure at [heap] has the index [l], stored at [base] with room for
    [cap] words, and manages the addresses [st, en). *)
Record heap_at (m : memory) (heap base cap : Z) (l : list Z) (st en : Z) : Prop := HeapAt {
  heap_index_base : load32 m heap = base;
  heap_index_size : load32 m (heap + 4) = Z.of_nat (length l);
  heap_index_elems : array_at m base l;
  heap_start : load32 m (heap + 16) = st;
  heap_end : load32 m (heap + 20) = en;
  heap_struct : region heap (heap + 32);
  heap_room : region base (base + 4 * cap);
  heap_area : region st en;
  heap_index_room : Z.of_nat (length l) + 2 <= cap;
  heap_apart : heap + 32 <= base \/ base + 4 * cap <= heap;
  heap_apart_area : (heap + 32 <= st \/ en <= heap) /\ (base + 4 * cap <= st \/ en <= base)
}.

(** The addresses of the structure's size field and of the index. *)
Definition index_mem (heap base cap b : Z) : Prop :=
  heap + 4 <= b < heap + 8 \/ base <= b < base + 4 * cap.

(** From its [n]-th word on the index is the same. *)
Definition index_tail (base cap : Z) (n : nat) (m m' : memory) : Prop :=
  forall i, Z.of_nat n <= i < cap -> load32 m' (base + 4 * i) = load32 m (base + 4 * i).

Lemma index_tail_trans base cap n1 n2 m1 m2 m3 :
  index_tail base cap n1 m1 m2 -> index_tail base cap n2 m2 m3 -> (n1 <= n2)%nat ->
  index_tail base cap n2 m1 m3.
Proof. intros H1 H2 Hn i Hi. rewrite H2 by done. apply H1. lia. Qed.

(** A header, and a footer that points back to it. *)
Definition header_at (m : memory) (a : Z) (hole : bool) (n : Z) : Prop :=
  load32 m a = HEAP_MAGIC /\ load8 m (a + 4) = Z.b2z hole /\ load32 m (a + 8) = n.
Definition footer_at (m : memory) (a n : Z) : Prop :=
  load32 m (a + n - 8) = HEAP_MAGIC /\ load32 m (a + n - 4) = a.

Section Heap.
Context (heap base cap : Z) (l : list Z) (st en : Z).

Lemma heap_oa m : heap_at m heap base cap l st en -> oa_at m heap base l.
Proof.
  intros []. destruct heap_struct0, heap_room0. constructor; try done; unfold region; lia.
Qed.

Lemma oa_others_index m b :
  heap_at m heap base cap l st en -> ~ index_mem heap base cap b -> oa_others heap base (length l) b.
Proof. intros [] Hb. unfold index_mem, oa_others in *. split; lia. Qed.
End Heap.

(** ** The search *)

(** Page addresses: rounding down, and what the test of the low bits really
    looks at. *)
Lemma page_of p : 0 <= p < 4294967296 -> Z.land p 4294963200 = p / 4096 * 4096.
Proof.
  intros Hp. change 4294963200 with (2 ^ 32 - 2 ^ 12). rewrite land_high_mask by lia.
  change (2 ^ 12) with 4096. dlia.
Qed.

Lemma even_page_mask x : x mod 2 = 0 -> and_page_mask_ne_0 x = false.
Proof.
  intros Hx. unfold and_page_mask_ne_0, truth. change (Z.b2z (negb (4294963200 =? 0))) with (Z.ones 1).
  rewrite Z.land_ones by lia. change (2 ^ 1) with 2. by rewrite Hx.
Qed.

Section Search.
Context `{Linkage, Kmalloc} (heap base cap : Z) (l : list Z) (st en : Z).

(** The first hole of the index that fits. *)
Definition first_fit (m : memory) (size : Z) : option nat :=
  fst <$> list_find (fun h => size <= hole_size m h) l.

(** The test of a hole with alignment is the test without, for headers at even
    addresses: the offset to the page boundary is not taken into account. *)
Definition plain_test (size align : Z) (m : memory) : Prop :=
  align = 0 \/ 0 < align /\ 0 <= size < 2147483648 /\
    Forall (fun h => h mod 2 = 0 /\ hole_size m h < 2147483648) l.

Lemma hole_test size align m h :
  plain_test size align m -> h ∈ l ->
  (if 0 <? align then
     s32 size <=? s32 (s32 (hole_size m h) -
       (if and_page_mask_ne_0 (u32 (h + sizeof_header)) then s32 (4096 - u32 (h + sizeof_header) mod 4096) else 0))
   else size <=? hole_size m h) = (size <=? hole_size m h).
Proof.
  intros [->|(Ha & Hs & Hl)] Hh; [done|]. replace (0 <? align) with true by blia.
  rewrite Forall_forall in Hl. destruct (Hl h Hh) as [He Hlt].
  assert (0 <= hole_size m h) by (unfold hole_size; apply load32_range).
  rewrite even_page_mask by (unfold u32, sizeof_header; dlia). by rewrite Z.sub_0_r, !s32_id by (rewrite ?s32_id; lia).
Qed.

(** [find_smallest_hole] is a first-fit search of the index. *)
Lemma find_smallest_hole_spec size align s :
  heap_at (mem s) heap base cap l st en -> Z.of_nat (length l) < 2147483648 ->
  plain_test size align (mem s) ->
  wp (find_smallest_hole size align heap) (fun r s' => s' = s /\
    r = match first_fit (mem s) size with Some k => Z.of_nat k | None => -1 end) s.
Proof.
  intros Hh Hlen Htest. pose proof (heap_oa _ _ _ _ _ _ _ Hh) as Ho.
  unfold find_smallest_hole. apply wp_bind.
  eapply (wp_mono _ (fun r s' => s' = s /\
    r = match first_fit (mem s) size with Some k => Z.of_nat k | None => Z.of_nat (length l) end)).
  - apply (wp_loop _ (fun k t => t = s /\ exists i : nat, k = Z.of_nat i /\ (i <= length l)%nat /\
             Forall (fun h => ~ size <= hole_size (mem s) h) (take i l))
             (fun k _ => Z.of_nat (length l) - k));
      [intros k t (-> & i & -> & ? & _); lia| |split; [done|exists 0%nat; split_and!; [done|lia|by constructor]]|lia].
    intros k t (-> & i & -> & Hi & Hnot). unfold get_index_size. k_steps.
    rewrite (heap_index_size _ _ _ _ _ _ _ Hh).
    destruct (Z.of_nat i <? Z.of_nat (length l)) eqn:E; bool_hyps.
    + k_steps. eapply wp_mono; [apply (lookup_spec heap base l); [done|lia]|].
      intros h ? (-> & Hl). rewrite Nat2Z.id in Hl. unfold get_header_size. k_steps.
      fold (hole_size (mem s) h).
      rewrite (hole_test size align (mem s) h Htest) by (by eapply list_elem_of_lookup_2).
      destruct (size <=? hole_size (mem s) h) eqn:Ef; bool_hyps; k_steps.
      * split; [done|]. unfold first_fit.
        assert (list_find (fun h => size <= hole_size (mem s) h) l = Some (i, h)) as ->; [|done].
        apply list_find_Some. split; [done|]. split; [done|]. intros j y Hj Hlt.
        apply (Forall_lookup_1 (fun h => ~ size <= hole_size (mem s) h) (take i l) j y Hnot).
        by apply lookup_take_Some.
      * rewrite u32_id by lia. split; [|lia]. split; [done|]. exists (S i).
        split; [lia|]. split; [lia|]. rewrite (take_S_r _ _ _ Hl). apply Forall_app.
        split; [done|]. constructor; [lia|constructor].
    + k_steps. split; [done|]. assert (i = length l) as -> by lia. rewrite firstn_all in Hnot.
      unfold first_fit.
      assert (list_find (fun h => size <= hole_size (mem s) h) l = None) as ->; [|done].
      by apply list_find_None.
  - intros r ? (-> & ->). unfold get_index_size. k_steps. rewrite (heap_index_size _ _ _ _ _ _ _ Hh).
    destruct (first_fit (mem s) size) as [k|] eqn:E; [|by rewrite Z.eqb_refl].
    unfold first_fit in E. apply fmap_Some in E as ([k' h] & (Hk & _)%list_find_Some & ->).
    apply lookup_lt_Some in Hk. cbn [fst] in *. replace (_ =? _) with false by blia.
    k_steps. by rewrite s32_id by lia.
Qed.

(** In an index sorted by size the first hole that fits is a smallest one. *)
Lemma first_fit_best m size k h :
  StronglySorted (fun x y => hole_size m x <= hole_size m y) l ->
  first_fit m size = Some k -> l !! k = Some h ->
  size <= hole_size m h /\
  forall y, y ∈ l -> size <= hole_size m y -> hole_size m h <= hole_size m y.
Proof.
  intros Hs Hf Hk. unfold first_fit in Hf.
  apply fmap_Some in Hf as ([k' h'] & (Hk' & Hfit & Hbefore)%list_find_Some & ->). cbn [fst] in *.
  assert (h' = h) as -> by congruence. split; [done|].
  intros y [j Hj]%list_elem_of_lookup Hy.
  destruct (decide (j < k')%nat) as [Hlt|]; [exfalso; eapply Hbefore; eauto|].
  destruct (decide (j = k')) as [->|]; [simplify_eq; lia|].
  clear Hbefore Hfit. revert k' j Hk' Hj Hk n n0. induction Hs as [|x r Hs IH Hx]; intros; [done|].
  destruct k' as [|k'].
  - simplify_eq/=. destruct j as [|j]; [lia|]. eapply Forall_lookup_1 in Hx; [|exact Hj]. done.
  - destruct j as [|j]; [lia|]. eapply (IH k' j); try done; lia.
Qed.
End Search.

(** ** Writing the marks of a block or hole *)

Definition write_segment (m : memory) (a hole n : Z) : memory :=
  store32 (store32 (store32 (store8 (store32 m a HEAP_MAGIC) (a + 4) hole) (a + 8) n)
    (a + n - 8) HEAP_MAGIC) (a + n - 8 + 4) a.

Lemma write_segment_spec m a hole n :
  region a (a + n) -> 20 <= n -> a + n < 4294967296 ->
  header_at (write_segment m a (Z.b2z hole) n) a hole n /\
  footer_at (write_segment m a (Z.b2z hole) n) a n /\
  same_outside a (a + n) m (write_segment m a (Z.b2z hole) n).
Proof.
  intros [Ha1 Ha2] Hn Hlt. unfold write_segment, header_at, footer_at. split_and!.
  - read_stores. done.
  - read_stores. by destruct hole.
  - read_stores. apply u32_id. lia.
  - read_stores. done.
  - replace (a + n - 4) with (a + n - 8 + 4) by lia. read_stores. apply u32_id. lia.
  - intros b Hb Hb'. read_stores. done.
Qed.

(** The marks are 20 bytes. *)
Lemma write_segment_marks m a hole n :
  0 <= a -> 20 <= n -> a + n < 4294967296 ->
  same_on (fun b => ~ (a <= b < a + 12) /\ ~ (a + n - 8 <= b < a + n)) m (write_segment m a hole n).
Proof. intros ??? b Hb [??]. unfold write_segment. by read_stores. Qed.

(** Only the header, for a hole that has no footer. *)
Definition write_header (m : memory) (a hole n : Z) : memory :=
  store32 (store8 (store32 m a HEAP_MAGIC) (a + 4) hole) (a + 8) n.

(** The marks of a segment that is apart from a change. *)
Lemma header_frame P m m' a hole n :
  header_at m a hole n -> same_on P m m' -> region a (a + 12) ->
  (forall b, a <= b < a + 12 -> P b) -> header_at m' a hole n.
Proof.
  intros (H1 & H2 & H3) Hs [??] HP. unfold header_at. rewrite <- H1, <- H2, <- H3.
  split_and!; [eapply load32_same_on|apply Hs|eapply load32_same_on]; try exact Hs;
    unfold region; try lia; intros; apply HP; lia.
Qed.

Lemma footer_frame P m m' a n :
  footer_at m a n -> same_on P m m' -> 12 <= n -> region a (a + n) ->
  (forall b, a + n - 8 <= b < a + n -> P b) -> footer_at m' a n.
Proof.
  intros (H1 & H2) Hs Hn [??] HP.
  split; (etransitivity; [eapply load32_same_on; [exact Hs| |]|eassumption]); unfold region;
    try lia; intros; apply HP; lia.
Qed.

Lemma hole_size_frame P m m' a :
  same_on P m m' -> region (a + 8) (a + 12) -> (forall b, a + 8 <= b < a + 12 -> P b) ->
  hole_size m' a = hole_size m a.
Proof. intros Hs Hr HP. eapply load32_same_on; [exact Hs| |]; destruct Hr; unfold region; [lia|]. intros. apply HP. lia. Qed.

(** ** Changing the index *)

(** The word a comparison reads in the header at [y] is not in the index. *)
Definition entry_apart (heap base cap y : Z) : Prop :=
  region (y + 8) (y + 12) /\ forall b, y + 8 <= b < y + 12 -> ~ index_mem heap base cap b.

Lemma rank_ext lt lt' l : (forall x, x ∈ l -> lt x = lt' x) -> Spec.rank lt l = Spec.rank lt' l.
Proof.
  induction l as [|x r IH]; intros H; [done|]. cbn. rewrite (H x) by (by left).
  case_match; [|done]. f_equal. apply IH. intros y Hy. apply H. by right.
Qed.

Lemma insert_ext lt lt' item l :
  (forall x, x ∈ l -> lt x = lt' x) -> Spec.insert lt item l = Spec.insert lt' item l.
Proof. intros H. unfold Spec.insert. by rewrite (rank_ext lt lt'). Qed.

Section Index.
Context (heap base cap : Z) (st en : Z).

(** The index changes, and at most the managed addresses besides. *)
Lemma heap_at_change m m' l l' :
  heap_at m heap base cap l st en -> array_at m' base l' ->
  load32 m' (heap + 4) = Z.of_nat (length l') -> load32 m' heap = base ->
  same_on (fun b => ~ index_mem heap base cap b /\ ~ (st <= b < en)) m m' ->
  Z.of_nat (length l') + 2 <= cap -> heap_at m' heap base cap l' st en.
Proof.
  intros [] Ha Hsz Hb Hs Hl. destruct heap_struct0, heap_area0, heap_room0, heap_apart_area0.
  constructor; try done; [rewrite <- heap_start0|rewrite <- heap_end0];
    (eapply load32_same_on; [exact Hs|unfold region; lia|]); unfold index_mem; lia.
Qed.

(** What lies inside the managed addresses is not part of the index. *)
Lemma area_not_index m l b :
  heap_at m heap base cap l st en -> st <= b < en -> ~ index_mem heap base cap b.
Proof. intros [] Hb. unfold index_mem. lia. Qed.

(** Only managed addresses change. *)
Lemma heap_at_area m m' l lo hi :
  heap_at m heap base cap l st en -> same_outside lo hi m m' -> st <= lo -> hi <= en -> lo <= hi ->
  heap_at m' heap base cap l st en.
Proof.
  intros Hh Hout Hlo Hhi Hle. pose proof Hh as [].
  destruct heap_struct0, heap_room0, heap_area0.
  eapply heap_at_change; [exact Hh|..].
  - intros i y Hy. rewrite <- (heap_index_elems0 i y Hy). pose proof (lookup_lt_Some _ _ _ Hy).
    eapply load32_frame; [exact Hout|unfold region; lia|lia].
  - rewrite <- heap_index_size0. eapply load32_frame; [exact Hout|unfold region; lia|lia].
  - etransitivity; [|exact heap_index_base0]. eapply load32_frame; [exact Hout|unfold region; lia|lia].
  - intros b Hb [_ Hb2]. apply Hout; [done|lia].
  - done.
Qed.

Lemma area_index_tail m m' l lo hi n :
  heap_at m heap base cap l st en -> same_outside lo hi m m' -> st <= lo -> hi <= en -> lo <= hi ->
  index_tail base cap n m m'.
Proof.
  intros [] Hout ??? i Hi. destruct heap_room0.
  eapply load32_frame; [exact Hout|unfold region; lia|lia].
Qed.

(** An operation on the array keeps the words of the index behind it. *)
Lemma others_index_tail m m' l :
  heap_at m heap base cap l st en -> same_on (oa_others heap base (length l)) m m' ->
  index_tail base cap (S (length l)) m m'.
Proof.
  intros [] Hs i Hi. destruct heap_room0.
  eapply load32_same_on; [exact Hs|unfold region; lia|]. intros b Hb. unfold oa_others. lia.
Qed.

Lemma less_than_field m l :
  heap_at m heap base cap l st en -> forall m',
  same_on (fun b => ~ index_mem heap base cap b /\ ~ (st <= b < en)) m m' ->
  load32 m' (heap + 12) = load32 m (heap + 12).
Proof.
  intros [] m' Hs. destruct heap_struct0, heap_area0, heap_room0, heap_apart_area0.
  eapply load32_same_on; [exact Hs|unfold region; lia|]. unfold index_mem. lia.
Qed.

(** Inserting a hole in the index: the place is found by comparing sizes. *)
Lemma insert_hole_spec `{Linkage} item l s :
  heap_at (mem s) heap base cap l st en ->
  load32 (mem s) (heap + 12) = sym_header_t_less_than -> sym_header_t_less_than <> 0 ->
  0 <= item < 4294967296 -> Z.of_nat (length l) + 3 <= cap ->
  Forall (entry_apart heap base cap) l -> entry_apart heap base cap item ->
  wp (insert_ordered_array item heap) (fun _ s' => exists m', s' = set_mem m' s /\
    heap_at m' heap base cap
      (Spec.insert (fun y => hole_size m' y <? hole_size m' item) item l) st en /\
    same_on (fun b => ~ index_mem heap base cap b) (mem s) m' /\
    index_tail base cap (S (length l)) (mem s) m') s.
Proof.
  intros Hh Hlt Hne Hitem Hcap Hl Hi. pose proof (heap_oa _ _ _ _ _ _ _ Hh) as Ho.
  set (lt := fun y => hole_size (mem s) y <? hole_size (mem s) item).
  eapply wp_mono.
  { apply (insert_ordered_array_spec heap base l item lt); [done|done|by rewrite Hlt|].
    intros x Hx. rewrite Hlt. unfold call_less_than, kernel_less_than. rewrite Z.eqb_refl.
    eexists. split; [reflexivity|]. unfold lt, hole_size. by case_match. }
  intros [] s' (m' & -> & Ha & Hsz & Hb & Hs). exists m'. split; [done|].
  assert (Hs' : same_on (fun b => ~ index_mem heap base cap b) (mem s) m').
  { intros b ? Hb'. apply Hs; [done|]. by eapply oa_others_index. }
  assert (Hsize : forall y, entry_apart heap base cap y -> hole_size m' y = hole_size (mem s) y).
  { intros y [Hr Hy]. by eapply hole_size_frame. }
  rewrite (insert_ext _ lt).
  2: { intros x Hx. unfold lt. rewrite !Hsize; [done|done|].
       rewrite Forall_forall in Hl. by apply Hl. }
  split; [|split; [done|by eapply others_index_tail]].
  eapply heap_at_change; [exact Hh|done|by rewrite Spec.length_insert_spec|done| |].
  - intros b ? [? _]. by apply Hs'.
  - rewrite Spec.length_insert_spec. lia.
Qed.

Lemma remove_hole_spec k l s :
  heap_at (mem s) heap base cap l st en -> (k < length l)%nat -> Z.of_nat (length l) + 3 <= cap ->
  let x := load32 (mem s) (base + 4 * Z.of_nat (length l)) in
  wp (remove_ordered_array (Z.of_nat k) heap) (fun _ s' => exists m', s' = set_mem m' s /\
    heap_at m' heap base cap (delete k l ++ [x; x]) st en /\
    same_on (fun b => ~ index_mem heap base cap b) (mem s) m' /\
    index_tail base cap (S (length l)) (mem s) m') s.
Proof.
  intros Hh Hk Hcap x. pose proof (heap_oa _ _ _ _ _ _ _ Hh) as Ho.
  eapply wp_mono; [by apply (remove_ordered_array_spec heap base l k)|].
  intros [] s' (m' & -> & Ha & Hsz & Hb & Hs). exists m'. split; [done|].
  assert (Hs' : same_on (fun b => ~ index_mem heap base cap b) (mem s) m').
  { intros b ? Hb'. apply Hs; [done|]. by eapply oa_others_index. }
  assert (Hlen : length (delete k l ++ [x; x]) = S (length l)).
  { rewrite length_app, length_delete by (by apply lookup_lt_is_Some_2). cbn. lia. }
  split; [|split; [done|by eapply others_index_tail]].
  eapply heap_at_change; [exact Hh|done|by rewrite Hlen|done| |rewrite Hlen; lia].
  intros b ? [? _]. by apply Hs'.
Qed.
End Index.

(** ** The marks that [alloc] writes *)

Section Marks.
Context `{Linkage, Kmalloc} (heap base cap st en : Z).

Lemma mark_block_spec a new s :
  0 <= a -> 20 <= new -> a + new < 4294967296 ->
  wp (mark_block a (new - 20) new) (fun _ s' => s' = set_mem (write_segment (mem s) a 0 new) s) s.
Proof.
  intros ???. unfold mark_block, set_header_magic, set_header_is_hole, set_header_size,
    set_footer_magic, set_footer_header, sizeof_header.
  k_steps. cbn [mem set_mem]. rewrite !set_mem_set_mem, (u32_id (a + 12 + (new - 20))) by lia.
  by replace (a + 12 + (new - 20)) with (a + new - 8) by lia.
Qed.

(** A hole of size [n] at [a] is marked and put in the index [l]; nothing else
    changes. *)
Definition left_hole (l : list Z) (a n : Z) (m m' : memory) : Prop :=
  header_at m' a true n /\ footer_at m' a n /\
  heap_at m' heap base cap
    (Spec.insert (fun y => hole_size m' y <? hole_size m' a) a l) st en /\
  same_on (fun b => ~ index_mem heap base cap b /\ ~ (a <= b < a + 12) /\ ~ (a + n - 8 <= b < a + n))
    m m' /\
  index_tail base cap (S (length l)) m m'.

(** The end address is not among the bytes of a header. *)
Lemma end_behind_header l a m hole n :
  heap_at m heap base cap l st en -> st <= a -> a + 12 <= en ->
  load32 (write_header m a hole n) (heap + 20) = en.
Proof.
  intros Hh ??. etransitivity; [|exact (heap_end _ _ _ _ _ _ _ Hh)].
  destruct Hh, heap_struct0, heap_area0, heap_apart_area0. unfold write_header. by read_stores.
Qed.

(** A marked hole is inserted in the index. *)
Lemma insert_marked_spec l a n s :
  heap_at (mem s) heap base cap l st en ->
  load32 (mem s) (heap + 12) = sym_header_t_less_than -> sym_header_t_less_than <> 0 ->
  Z.of_nat (length l) + 3 <= cap -> Forall (entry_apart heap base cap) l ->
  st <= a -> 20 <= n -> a + n <= en -> en < 4294967296 ->
  wp (insert_ordered_array a heap)
    (fun _ s' => exists m', s' = set_mem m' s /\ left_hole l a n (mem s) m')
    (set_mem (write_segment (mem s) a 1 n) s).
Proof.
  intros Hh Hfun Hne Hcap Hl Ha Hn Hen He. pose proof (heap_area _ _ _ _ _ _ _ Hh) as [??].
  destruct (write_segment_spec (mem s) a true n) as (Hhd & Hft & Hout); [unfold region; lia|lia..|].
  pose proof (write_segment_marks (mem s) a 1 n ltac:(lia) ltac:(lia) ltac:(lia)) as Hw.
  cbn [Z.b2z] in *. set (m1 := write_segment (mem s) a 1 n) in *.
  assert (Hna : forall b, st <= b < en -> ~ index_mem heap base cap b) by (intros b; by eapply area_not_index).
  eapply wp_mono; [apply (insert_hole_spec heap base cap st en a l); cbn [mem set_mem]|].
  - eapply heap_at_area; [exact Hh|exact Hout|lia..].
  - rewrite <- Hfun. apply (less_than_field heap base cap st en _ _ Hh).
    intros b Hb [_ Hb2]. apply Hout; [done|lia].
  - done.
  - lia.
  - lia.
  - done.
  - split; [unfold region; lia|]. intros b Hb. apply Hna. lia.
  - intros [] t (m2 & -> & Hh2 & Hs2 & Ht2). cbn [mem set_mem] in Hs2, Ht2.
    rewrite set_mem_set_mem. exists m2. split; [done|].
    split; [|split; [|split; [exact Hh2|split]]].
    + eapply header_frame; [exact Hhd|exact Hs2|unfold region; lia|]. intros b Hb. apply Hna. lia.
    + eapply footer_frame; [exact Hft|exact Hs2|lia|unfold region; lia|]. intros b Hb. apply Hna. lia.
    + intros b Hb (Hb1 & Hb2 & Hb3). rewrite Hs2 by done. by apply Hw.
    + eapply index_tail_trans; [|exact Ht2|done]. eapply area_index_tail; [exact Hh|exact Hout|lia..].
Qed.

Lemma leave_hole_spec l a n new s :
  heap_at (mem s) heap base cap l st en ->
  load32 (mem s) (heap + 12) = sym_header_t_less_than -> sym_header_t_less_than <> 0 ->
  Z.of_nat (length l) + 3 <= cap -> Forall (entry_apart heap base cap) l ->
  st <= a -> 20 <= new -> 20 <= n - new -> a + n <= en -> en < 4294967296 ->
  wp (leave_hole a n (new - 20) new heap)
    (fun _ s' => exists m', s' = set_mem m' s /\ left_hole l (a + new) (n - new) (mem s) m') s.
Proof.
  intros Hh Hfun Hne Hcap Hl Ha Hnew Hrest Hen He. pose proof (heap_area _ _ _ _ _ _ _ Hh) as [??].
  unfold leave_hole, sizeof_header, sizeof_footer. rewrite (u32_id (n - new)) by lia.
  replace (0 <? n - new) with true by blia. cbn [when].
  unfold set_header_magic, set_header_is_hole, set_header_size, set_footer_magic,
    set_footer_header, get_end_address. k_steps. cbn [mem set_mem]. rewrite !set_mem_set_mem.
  replace (a + 12 + (new - 20) + 8) with (a + new) by lia. rewrite (u32_id (a + new)) by lia.
  rewrite (u32_id (a + new + n - new - 8)) by lia.
  replace (a + new + n - new - 8) with (a + new + (n - new) - 8) by lia.
  fold (write_header (mem s) (a + new) 1 (n - new)).
  rewrite (end_behind_header l) by (done || lia).
  replace (a + new + (n - new) - 8 <? en) with true by blia. cbn [when].
  k_steps. cbn [mem set_mem]. rewrite !set_mem_set_mem. unfold write_header.
  fold (write_segment (mem s) (a + new) 1 (n - new)).
  apply insert_marked_spec; done || lia.
Qed.

(** The block takes the whole hole. *)
Lemma leave_nothing a n s :
  wp (leave_hole a n (n - 20) n heap) (fun _ s' => s' = s) s.
Proof. unfold leave_hole. rewrite Z.sub_diag. change (0 <? u32 0) with false. cbn [when]. by k_steps. Qed.
End Marks.

(** ** Placing a block *)

(** The size of the block cut from a hole of size [n] for a request of [size]
    bytes: all of it when the rest could not hold a header and a footer. *)
Definition block_size (n size : Z) : Z := if n - (size + 20) <? 20 then n else size + 20.

Lemma block_size_range n size :
  0 <= size -> size + 20 <= n ->
  size + 20 <= block_size n size <= n /\ (block_size n size = n \/ block_size n size <= n - 20).
Proof. intros. unfold block_size. case_if; lia. Qed.

Section Place.
Context `{Linkage, Kmalloc} (heap base cap : Z) (l : list Z) (st en : Z) (s : kstate).
Context (k : nat) (h n size : Z).
Hypothesis Hheap : heap_at (mem s) heap base cap l st en.
Hypothesis Hfun : load32 (mem s) (heap + 12) = sym_header_t_less_than.
Hypothesis Hfun0 : sym_header_t_less_than <> 0.
Hypothesis Hcap : Z.of_nat (length l) + 4 <= cap.
Hypothesis Hk : l !! k = Some h.
Hypothesis Hn : hole_size (mem s) h = n.
Hypothesis Hin : st <= h /\ h + n <= en /\ en < 4294967296.
Hypothesis Hsize : 0 <= size /\ size + 20 <= n.

(** The word behind the index, which removal takes in. *)
Definition stale_word : Z := load32 (mem s) (base + 4 * Z.of_nat (length l)).
Definition index_without : list Z := delete k l ++ [stale_word; stale_word].

Hypothesis Hentries : Forall (entry_apart heap base cap) index_without.

Let new := block_size n size.

(** The index and memory once the block has been cut from the hole. *)
Definition placed (m' : memory) : Prop :=
  header_at m' h false new /\ footer_at m' h new /\
  (new < n -> header_at m' (h + new) true (n - new) /\ footer_at m' (h + new) (n - new)) /\
  heap_at m' heap base cap
    (if new <? n
     then Spec.insert (fun y => hole_size m' y <? hole_size m' (h + new)) (h + new) index_without
     else index_without) st en /\
  same_on (fun b => ~ index_mem heap base cap b /\ ~ (h <= b < h + n)) (mem s) m' /\
  index_tail base cap (if new <? n then S (S (length l)) else S (length l)) (mem s) m' /\
  same_on (fun b => h + 12 <= b < h + n - 8 /\ ~ (h + new - 8 <= b < h + new + 12)) (mem s) m'.

(** The block's marks, written over the memory [m1] that removal leaves. *)
Lemma place_block m1 :
  heap_at m1 heap base cap index_without st en ->
  same_on (fun b => ~ index_mem heap base cap b) (mem s) m1 -> 
  let m2 := write_segment m1 h 0 new in
  heap_at m2 heap base cap index_without st en /\ header_at m2 h false new /\ footer_at m2 h new /\
  same_on (fun b => ~ index_mem heap base cap b /\ ~ (h <= b < h + n)) (mem s) m2 /\
  index_tail base cap (S (length l)) m1 m2.
Proof using Hheap Hin Hsize Hcap.
  intros Hh1 Hs1 m2. pose proof Hheap as []. destruct heap_area0.
  destruct (block_size_range n size) as [Hr1 Hr2]; [lia..|]. fold new in Hr1, Hr2.
  destruct (write_segment_spec m1 h false new) as (Hhd & Hft & Hout); [unfold region; lia|lia..|].
  assert (Ha : forall b, st <= b < en -> ~ index_mem heap base cap b) by (intros b; by eapply area_not_index).
  split; [|split; [exact Hhd|split; [exact Hft|split]]].
  - eapply heap_at_area; [exact Hh1|exact Hout|lia..].
  - intros b Hb [Hb1 Hb2]. rewrite <- (Hs1 b) by done. apply Hout; [done|lia].
  - eapply area_index_tail; [exact Hh1|exact Hout|lia..].
Qed.

(** Between the marks of the block and behind those of the hole nothing changes. *)
Lemma place_inside m1 :
  same_on (fun b => ~ index_mem heap base cap b) (mem s) m1 ->
  same_on (fun b => h + 12 <= b < h + n - 8 /\ ~ (h + new - 8 <= b < h + new + 12)) (mem s)
    (write_segment m1 h 0 new).
Proof using Hheap Hin Hsize.
  intros Hs1 b Hb [??]. destruct (block_size_range n size) as [Hr1 Hr2]; [lia..|]. fold new in Hr1, Hr2.
  pose proof (heap_area _ _ _ _ _ _ _ Hheap) as [??].
  rewrite (write_segment_marks m1 h 0 new) by lia. apply Hs1; [done|].
  eapply area_not_index; [exact Hheap|lia].
Qed.

Section Removed.
Context (m1 : memory).
Hypothesis Hh1 : heap_at m1 heap base cap index_without st en.
Hypothesis Hs1 : same_on (fun b => ~ index_mem heap base cap b) (mem s) m1.
Hypothesis Ht1 : index_tail base cap (S (length l)) (mem s) m1.

Lemma placed_whole : new = n -> placed (write_segment m1 h 0 new).
Proof using Hheap Hin Hsize Hcap Hh1 Hs1 Ht1.
  intros Hnew. destruct (place_block m1 Hh1 Hs1) as (Hh2 & Hhd & Hft & Hs2 & Ht2).
  unfold placed. rewrite !(proj2 (Z.ltb_ge new n)) by lia.
  split; [done|]. split; [done|]. split; [lia|]. split; [done|]. split; [done|].
  split; [by eapply index_tail_trans|by apply place_inside].
Qed.

Lemma placed_split m' :
  new <= n - 20 -> left_hole heap base cap st en index_without (h + new) (n - new) (write_segment m1 h 0 new) m' ->
  placed m'.
Proof using Hheap Hin Hsize Hcap Hk Hh1 Hs1 Ht1.
  intros Hnew (Hhr & Hfr & Hh' & Hs' & Ht'). destruct (place_block m1 Hh1 Hs1) as (_ & Hhd & Hft & Hs2 & Ht2).
  pose proof (place_inside m1 Hs1) as Hi2. set (m2 := write_segment m1 h 0 new) in *.
  destruct (block_size_range n size) as [Hr1 _]; [lia..|]. fold new in Hr1.
  pose proof (heap_area _ _ _ _ _ _ _ Hheap) as [??].
  assert (Ha : forall b, st <= b < en -> ~ index_mem heap base cap b) by (intros b; by eapply area_not_index).
  unfold placed. rewrite !(proj2 (Z.ltb_lt new n)) by lia.
  split; [|split; [|split; [done|split; [done|split; [|split]]]]].
  - eapply header_frame; [exact Hhd|exact Hs'|unfold region; lia|]. intros b Hb. split; [apply Ha; lia|lia].
  - eapply footer_frame; [exact Hft|exact Hs'|lia|unfold region; lia|]. intros b Hb. split; [apply Ha; lia|lia].
  - intros b Hb [Hb1 Hb2]. rewrite Hs' by (done || (split; [done|lia])). by apply Hs2.
  - pose proof (lookup_lt_Some _ _ _ Hk). unfold index_without in Ht'.
    rewrite length_app, length_delete in Ht' by (by apply lookup_lt_is_Some_2). cbn [length] in Ht'.
    replace (S (length l - 1 + 2)) with (S (S (length l))) in Ht' by lia.
    eapply index_tail_trans; [|exact Ht'|apply Nat.le_succ_diag_r]. by eapply index_tail_trans.
  - intros b Hb [Hb1 Hb2]. rewrite Hs' by (done || (split; [apply Ha; lia|lia])). by apply Hi2.
Qed.
End Removed.

Lemma alloc_place_spec :
  wp (alloc_place (Z.of_nat k) size 0 heap)
    (fun p s' => p = h + 12 /\ exists m', s' = set_mem m' s /\ placed m') s.
Proof using Hheap Hfun Hfun0 Hcap Hk Hn Hin Hsize Hentries.
  destruct (block_size_range n size) as [Hr1 Hr2]; [lia..|]. fold new in Hr1, Hr2.
  pose proof (heap_area _ _ _ _ _ _ _ Hheap) as [Hst1 Hst2].
  pose proof (lookup_lt_Some _ _ _ Hk) as Hlen.
  assert (Hc32 : cap < 4294967296).
  { pose proof (heap_room _ _ _ _ _ _ _ Hheap) as [??]. lia. }
  unfold alloc_place. apply wp_bind. rewrite u32_id by lia.
  eapply wp_mono; [apply (lookup_spec heap base l); [by eapply heap_oa|lia]|].
  intros h' ? (-> & Hh'). rewrite Nat2Z.id in Hh'. assert (h' = h) as -> by congruence.
  unfold get_header_size at 1. k_steps. fold (hole_size (mem s) h). rewrite Hn.
  unfold sizeof_header, sizeof_footer.
  rewrite (u32_id (size + 12 + 8)) by lia. rewrite (u32_id (n - (size + 12 + 8))) by lia.
  assert (Hif : (if n - (size + 12 + 8) <? 12 + 8 then (u32 (size + (n - (size + 12 + 8))), n)
                 else (size, size + 12 + 8)) = (new - 20, new)).
  { unfold new, block_size. replace (size + 12 + 8) with (size + 20) by lia.
    change (12 + 8) with 20. case_if; rewrite ?u32_id by lia; f_equal; lia. }
  rewrite Hif. cbv iota beta. change (truth 0 && _) with false. cbv iota. k_steps.
  eapply wp_mono; [apply (remove_hole_spec heap base cap st en k l); [done|done|lia]|].
  intros [] t (m1 & -> & Hh1 & Hs1 & Ht1). k_steps.
  eapply wp_mono; [apply mark_block_spec; lia|]. intros [] t ->. rewrite set_mem_set_mem. cbn [mem set_mem].
  destruct (place_block m1 Hh1 Hs1) as (Hh2 & _ & _ & Hs2 & _). k_steps. rewrite (u32_id (h + 12)) by lia.
  set (m2 := write_segment m1 h 0 new) in *.
  destruct Hr2 as [Hr2|Hr2].
  - rewrite Hr2. eapply wp_mono; [apply leave_nothing|]. intros [] t ->. k_steps. split; [done|].
    exists m2. split; [done|]. by apply placed_whole.
  - eapply wp_mono; [apply (leave_hole_spec heap base cap st en index_without); done || lia || idtac|].
    + cbn [mem set_mem]. rewrite <- Hfun. apply (less_than_field heap base cap st en _ _ Hheap).
      intros b Hb [Hb1 Hb2]. apply Hs2; [done|]. split; [done|lia].
    + unfold index_without. rewrite length_app, length_delete by (by apply lookup_lt_is_Some_2).
      cbn. lia.
    + intros [] t (m' & -> & Hl). cbn [mem set_mem] in Hl. k_steps. split; [done|].
      rewrite set_mem_set_mem. exists m'. split; [done|]. by apply (placed_split m1).
Qed.
End Place.

(** ** Allocation *)

(** What [alloc] needs of the heap to cut a block of [size] bytes from the hole
    at position [k] of the index, which is at [h] and has size [n]. *)
Record fits `{Linkage} (m : memory) (heap base cap : Z) (l : list Z) (st en : Z)
    (k : nat) (h n size : Z) : Prop := Fits {
  fits_heap : heap_at m heap base cap l st en;
  fits_fun : load32 m (heap + 12) = sym_header_t_less_than;
  fits_fun0 : sym_header_t_less_than <> 0;
  fits_cap : Z.of_nat (length l) + 4 <= cap < 2147483648;
  fits_k : first_fit l m (size + 20) = Some k;
  fits_h : l !! k = Some h;
  fits_n : hole_size m h = n;
  fits_in : st <= h /\ h + n <= en /\ en < 4294967296;
  fits_size : 0 <= size;
  fits_entries : Forall (entry_apart heap base cap)
    (delete k l ++ [load32 m (base + 4 * Z.of_nat (length l)); load32 m (base + 4 * Z.of_nat (length l))])
}.

Lemma first_fit_Some m l size k h :
  first_fit l m size = Some k -> l !! k = Some h -> size <= hole_size m h.
Proof.
  intros Hf Hk. unfold first_fit in Hf.
  apply fmap_Some in Hf as ([k' h'] & (Hk' & Hfit & _)%list_find_Some & ->). cbn [fst] in *. congruence.
Qed.

(** A loop whose first round leaves it. *)
Lemma wp_loop_once {S X R} (body : X -> M S (X + R)) Q x s :
  wp (body x) (fun y s' => match y with inl _ => False | inr r => Q r s' end) s ->
  wp (loop body x) Q s.
Proof.
  intros H. apply (wp_loop body (fun y t => y = x /\ t = s) (fun _ _ => 0)); [done| |done|done].
  intros y t [-> ->]. eapply wp_mono; [exact H|]. by intros [].
Qed.

Section Alloc.
Context `{Linkage, Kmalloc} (heap base cap : Z) (l : list Z) (st en : Z).

Lemma alloc_round_spec k h n size s :
  fits (mem s) heap base cap l st en k h n size ->
  wp (alloc_round size 0 heap) (fun r s' => r = inr (h + 12) /\ exists m', s' = set_mem m' s /\
    placed heap base cap l st en s k h n size m') s.
Proof.
  intros []. pose proof (first_fit_Some _ _ _ _ _ fits_k0 fits_h0) as Hfit. rewrite fits_n0 in Hfit.
  pose proof (heap_area _ _ _ _ _ _ _ fits_heap0) as [??].
  unfold alloc_round, sizeof_header, sizeof_footer.
  rewrite (u32_id (size + 12 + 8)) by lia. replace (size + 12 + 8) with (size + 20) by lia. k_steps.
  eapply wp_mono; [apply (find_smallest_hole_spec heap base cap l st en); [done|lia|by left]|].
  intros r ? (-> & ->). rewrite fits_k0. replace (Z.of_nat k =? -1) with false by blia. k_steps.
  eapply wp_mono; [apply (alloc_place_spec heap base cap l st en s k h n size); done || lia|].
  intros p t (-> & Hm). by k_steps.
Qed.

Lemma alloc_spec k h n size s :
  fits (mem s) heap base cap l st en k h n size ->
  wp (alloc size 0 heap) (fun p s' => p = h + 12 /\ exists m', s' = set_mem m' s /\
    placed heap base cap l st en s k h n size m') s.
Proof.
  intros Hf. apply wp_loop_once. eapply wp_mono; [by apply (alloc_round_spec k h n)|]. by intros r s' (-> & ?).
Qed.

(** C4: [alloc], without alignment and with a hole that fits: the first such hole of
    the index is marked as a block of the size asked for plus header and footer,
    or of the hole's whole size when less than a header and a footer would
    remain; the rest becomes a hole with header and footer, which is inserted in
    the index by its size; the address returned is behind the block's header;
    and no other byte changes. *)
Theorem alloc_first_fit k h n size s :
  fits (mem s) heap base cap l st en k h n size ->
  let new := block_size n size in
  wp (alloc size 0 heap) (fun p s' => p = h + 12 /\ exists m', s' = set_mem m' s /\
    size + 20 <= new <= n /\ (new = n \/ 20 <= n - new) /\
    header_at m' h false new /\ footer_at m' h new /\
    (new < n -> header_at m' (h + new) true (n - new) /\ footer_at m' (h + new) (n - new)) /\
    (exists l', heap_at m' heap base cap l' st en /\ let x := stale_word base l s in
       Permutation l' ((if new <? n then [h + new] else []) ++ delete k l ++ [x; x])) /\
    same_on (fun b => ~ index_mem heap base cap b /\ ~ (h <= b < h + n)) (mem s) m') s.
Proof.
  intros Hf new. eapply wp_mono; [by apply alloc_spec|].
  intros p s' (-> & m' & -> & Hhd & Hft & Hrest & Hheap & Hs & _). split; [done|].
  destruct Hf. pose proof (first_fit_Some _ _ _ _ _ fits_k0 fits_h0) as Hfit. rewrite fits_n0 in Hfit.
  destruct (block_size_range n size) as [Hr1 Hr2]; [lia..|].
  exists m'. split; [done|]. split; [done|]. split; [unfold new; lia|].
  split; [done|]. split; [done|]. split; [done|]. split; [|done].
  eexists. split; [exact Hheap|]. unfold new. case_match; [apply Spec.insert_perm|done].
Qed.
End Alloc.

(** ** The managed addresses as a sequence of segments *)

(** A segment is a flag (hole or not) and a size; from [a] to [e] memory is
    tiled by the segments of the list.  Blocks have footers. *)
Fixpoint tiles (m : memory) (a : Z) (segs : list (bool * Z)) (e : Z) : Prop :=
  match segs with
  | [] => a = e
  | (hole, n) :: rest =>
      20 <= n /\ header_at m a hole n /\ (hole = false -> footer_at m a n) /\
      tiles m (a + n) rest e
  end.

Lemma tiles_le m a segs e : tiles m a segs e -> a <= e.
Proof.
  revert a. induction segs as [|[b n] r IH]; intros a H; cbn in H; [lia|].
  destruct H as (? & _ & _ & H). apply IH in H. lia.
Qed.

Lemma tiles_app m a segs1 segs2 e :
  tiles m a (segs1 ++ segs2) e <-> exists c, tiles m a segs1 c /\ tiles m c segs2 e.
Proof.
  revert a. induction segs1 as [|[b n] r IH]; intros a; cbn.
  - split; [intros H; exists a; by split|intros (c & -> & H); exact H].
  - rewrite IH. split.
    + intros (? & ? & ? & c & ? & ?). exists c. auto.
    + intros (c & (? & ? & ? & ?) & ?). split_and!; try done. by exists c.
Qed.

Lemma tiles_frame P m m' a segs e :
  tiles m a segs e -> same_on P m m' -> region a e -> e < 4294967296 ->
  (forall b, a <= b < e -> P b) -> tiles m' a segs e.
Proof.
  revert a. induction segs as [|[hole n] r IH]; intros a H Hs [??] He HP; cbn in *; [done|].
  destruct H as (Hn & Hhd & Hft & Hr). pose proof (tiles_le _ _ _ _ Hr).
  split; [done|]. split; [|split].
  - eapply header_frame; [exact Hhd|exact Hs|unfold region; lia|]. intros; apply HP; lia.
  - intros ->. eapply footer_frame; [by apply Hft|exact Hs|lia|unfold region; lia|].
    intros; apply HP; lia.
  - apply IH; [done|done|unfold region; lia|done|]. intros; apply HP; lia.
Qed.

Section Tiling.
Context `{Linkage, Kmalloc} (heap base cap : Z) (l : list Z) (st en : Z).

(** A hole becomes a block and what is left; the segments around it stay. *)
Lemma placed_tiles k h n size pre post s m' :
  fits (mem s) heap base cap l st en k h n size -> size + 20 <= n ->
  tiles (mem s) st pre h -> tiles (mem s) (h + n) post en ->
  placed heap base cap l st en s k h n size m' ->
  let new := block_size n size in
  tiles m' st (pre ++ (false, new) :: (if new <? n then [(true, n - new)] else []) ++ post) en.
Proof.
  intros [] Hfit Hpre Hpost (Hhd & Hft & Hrest & _ & Hs & _) new.
  pose proof (heap_area _ _ _ _ _ _ _ fits_heap0) as [??].
  destruct (block_size_range n size) as [Hr1 Hr2]; [lia..|]. fold new in Hr1, Hr2.
  pose proof (tiles_le _ _ _ _ Hpre). pose proof (tiles_le _ _ _ _ Hpost).
  assert (Ha : forall b, st <= b < en -> ~ index_mem heap base cap b) by (intros b; by eapply area_not_index).
  rewrite tiles_app. exists h. split.
  { eapply tiles_frame; [exact Hpre|exact Hs|unfold region; lia|lia|].
    intros b Hb. split; [apply Ha; lia|lia]. }
  cbn [tiles]. split; [lia|]. split; [done|]. split; [done|].
  rewrite tiles_app. exists (h + n). split.
  - fold new in Hrest. destruct (new <? n) eqn:E; bool_hyps; cbn [tiles]; [|lia].
    destruct Hrest as [Hh Hft']; [lia|]. split; [lia|]. split; [done|]. split; [done|lia].
  - eapply tiles_frame; [exact Hpost|exact Hs|unfold region; lia|lia|].
    intros b Hb. split; [apply Ha; lia|lia].
Qed.

(** C27: In an index sorted by size, the search of [alloc] without alignment finds a
    smallest hole that fits, or none fits. *)
Theorem find_smallest_hole_best_fit size s :
  heap_at (mem s) heap base cap l st en -> Z.of_nat (length l) < 2147483648 ->
  StronglySorted (fun x y => hole_size (mem s) x <= hole_size (mem s) y) l ->
  wp (find_smallest_hole size 0 heap) (fun r s' => s' = s /\
    ((r = -1 /\ forall h, h ∈ l -> hole_size (mem s) h < size) \/
     (exists h, 0 <= r /\ l !! Z.to_nat r = Some h /\ size <= hole_size (mem s) h /\
        forall y, y ∈ l -> size <= hole_size (mem s) y -> hole_size (mem s) h <= hole_size (mem s) y))) s.
Proof.
  intros Hh Hl Hs. eapply wp_mono; [eapply find_smallest_hole_spec; [done|done|by left]|].
  intros r ? (-> & ->). split; [done|]. destruct (first_fit l (mem s) size) as [k|] eqn:E.
  - right. assert (exists h, l !! k = Some h) as [h Hk].
    { unfold first_fit in E. apply fmap_Some in E as ([k' h] & (Hk & _)%list_find_Some & ->). eauto. }
    destruct (first_fit_best l (mem s) size k h Hs E Hk). exists h.
    rewrite Nat2Z.id. split; [lia|]. auto.
  - left. split; [done|]. intros h Hin. unfold first_fit in E.
    apply fmap_None, list_find_None in E. rewrite Forall_forall in E. specialize (E h Hin). lia.
Qed.
End Tiling.

Module KheapSample.
#[local] Existing Instance sample_linkage.
#[local] Instance sample_kmalloc : Kmalloc := fun _ _ _ => undefined.

(** A heap at 4096 with its index at 8192, which manages [16384, 20480) as one
    block of 1024 bytes and one hole. *)
Definition words_at (ws : list (Z * Z)) (m : memory) : memory :=
  foldl (fun m w => store32 m w.1 w.2) m ws.

Definition sample_memory : memory :=
  words_at [(4096, 8192); (4100, 1); (4104, 64); (4108, sym_header_t_less_than);
            (4112, 16384); (4116, 20480); (4120, 65536); (8192, 17408);
            (16384, HEAP_MAGIC); (16388, 0); (16392, 1024); (17400, HEAP_MAGIC); (17404, 16384);
            (17408, HEAP_MAGIC); (17412, 1); (17416, 3072)] ∅.

Definition sample_heap : kstate := set_mem sample_memory sample_state.

Lemma sample_heap_at : heap_at (mem sample_heap) 4096 8192 64 [17408] 16384 20480.
Proof.
  constructor; try reflexivity; try (unfold region; simpl; lia).
  intros [|i] x Hx; [|done]. injection Hx as <-. reflexivity.
Defined.

Lemma sample_fits : fits (mem sample_heap) 4096 8192 64 [17408] 16384 20480 0 17408 3072 100.
Proof.
  constructor.
  - exact sample_heap_at.
  - vm_compute. reflexivity.
  - vm_compute. discriminate.
  - cbn [length]. lia.
  - vm_compute. reflexivity.
  - reflexivity.
  - vm_compute. reflexivity.
  - lia.
  - lia.
  - replace (load32 (mem sample_heap) (8192 + 4 * Z.of_nat (length [17408]))) with 0
      by (vm_compute; reflexivity).
    assert (entry_apart 4096 8192 64 0) as He.
    { split; [unfold region; lia|]. unfold index_mem. lia. }
    constructor; [exact He|constructor; [exact He|constructor]].
Defined.

Lemma sample_tiles_before : tiles (mem sample_heap) 16384 [(false, 1024)] 17408.
Proof.
  cbn [tiles]. split; [lia|]. split; [split_and!; vm_compute; reflexivity|].
  split; [intros _; split; vm_compute; reflexivity|reflexivity].
Defined.

Lemma alloc_first_fit_witness :
  wp (alloc 100 0 4096) (fun p s' => p = 17420 /\ header_at (mem s') 17408 false 120 /\
    header_at (mem s') 17528 true 2952) sample_heap.
Proof.
  eapply wp_mono; [apply (alloc_first_fit _ _ _ _ _ _ _ _ _ _ _ sample_fits)|].
  intros p s' (Hp & m' & -> & _ & _ & Hhd & _ & Hrest & _). split; [exact Hp|].
  split; [exact Hhd|]. apply Hrest. reflexivity.
Defined.

Lemma find_smallest_hole_best_fit_witness :
  wp (find_smallest_hole 120 0 4096) (fun r s' => s' = sample_heap /\ (r = -1 \/ r = 0)) sample_heap.
Proof.
  eapply wp_mono.
  - apply (find_smallest_hole_best_fit 4096 8192 64 [17408] 16384 20480).
    + exact sample_heap_at.
    + cbn [length]. lia.
    + repeat constructor.
  - intros r s' (Hs & [[Hr _]|(h & Hr & Hl & _)]); (split; [exact Hs|]); [left; exact Hr|right].
    apply lookup_lt_Some in Hl. cbn [length] in Hl. lia.
Defined.
End KheapSample.
