(* ===== verification/KheapFree.v ===== *)
(** * Releasing a block: [free] of [sys/kheap.c]

    The three outcomes that do not reach the end of the heap: no neighbour is a
    hole, the left one is, the right one is. *)

From Stdlib Require Import ZArith Lia List String.
From stdpp Require Import base list gmap.
From S2P Require Import Prelude Machine Kernel Common Monitor OrderedArray Kmalloc Frames Paging Kheap.
From S2P Require Import KheapSpec.

(** [free] takes the word before the block for a footer, and the word behind it
    for a header. *)
Definition left_hole (m : memory) (h : Z) : bool :=
  (load32 m (h - 8) =? HEAP_MAGIC) && (load8 m (load32 m (h - 4) + 4) =? 1).
Definition right_hole (m : memory) (e : Z) : bool :=
  (load32 m e =? HEAP_MAGIC) && truth (load8 m (e + 4)).

(** Memory once the block is marked as a hole. *)
Definition marked (m : memory) (h : Z) : memory := store8 m (h + 4) 1.

(** A change of bytes in the managed area keeps the heap. *)
Lemma heap_at_free_area heap base cap st en m m' l' :
  heap_at m heap base cap l' st en -> same_on (fun b => ~ (st <= b < en)) m m' ->
  heap_at m' heap base cap l' st en.
Proof.
  intros Hh Hs. pose proof Hh as [Hb0 Hn0 Hel Hst0 Hen0 [??] [??] ????].
  assert (Hout : forall a, heap <= a -> a + 4 <= heap + 32 -> load32 m' a = load32 m a).
  { intros a ??. eapply load32_same_on; [exact Hs|unfold region; lia|]. cbv beta. lia. }
  constructor; try done; try (by rewrite Hout by lia).
  intros i y Hy. pose proof (lookup_lt_Some _ _ _ Hy). rewrite <- (Hel i y Hy).
  eapply load32_same_on; [exact Hs|unfold region; lia|]. cbv beta. lia.
Qed.

Section Free.
Context `{Linkage, Kmalloc} (heap base cap : Z) (l : list Z) (st en : Z) (s : kstate).
Context (h n : Z).
Hypothesis Hheap : heap_at (mem s) heap base cap l st en.
Hypothesis Hin : 8 <= h /\ st <= h /\ h + n <= en /\ en < 4294967296 /\ 20 <= n.
Hypothesis Hhead : header_at (mem s) h false n.
Hypothesis Hfoot : footer_at (mem s) h n.

Lemma marked_spec :
  header_at (marked (mem s) h) h true n /\ footer_at (marked (mem s) h) h n /\
  same_outside (h + 4) (h + 5) (mem s) (marked (mem s) h).
Proof using Hin Hhead Hfoot.
  clear Hheap. destruct Hhead as (H1 & H2 & H3), Hfoot as (H4 & H5).
  unfold marked, header_at, footer_at. split_and!; read_stores; try done.
  intros b Hb Hb'. by read_stores.
Qed.

Lemma marked_heap : heap_at (marked (mem s) h) heap base cap l st en.
Proof using Hheap Hin Hhead Hfoot.
  destruct marked_spec as (_ & _ & Hs). eapply heap_at_free_area; [exact Hheap|].
  intros b Hb Hb'. apply Hs; [done|lia].
Qed.

(** The beginning of [free], up to the call of [unify_left]. *)
Lemma free_start Q :
  wp (r <- unify_left h (h + n - 8);
      let '(header, do_add) := r in
      footer <- unify_right header (h + n - 8) heap;
      e <- get_end_address heap;
      when (u32 (footer + 8) =? e) (free_contract header (h + n) heap) >>
      when (do_add =? 1) (insert_ordered_array header heap)) Q (set_mem (marked (mem s) h) s) ->
  wp (free (h + 12) heap) Q s.
Proof using Hheap Hin Hhead Hfoot.
  intros HQ. destruct Hhead as (H1 & H2 & H3), Hfoot as (H4 & H5). unfold free.
  replace (h + 12 =? 0) with false by blia. unfold sizeof_header, sizeof_footer.
  rewrite (u32_id (h + 12 - 12)) by lia. replace (h + 12 - 12) with h by lia.
  unfold get_header_size, get_header_magic, get_footer_magic, set_header_is_hole, ASSERT. k_steps.
  rewrite H1, H3, Z.eqb_refl, (u32_id (h + n - 8)) by lia. k_steps. rewrite H4, Z.eqb_refl. k_steps.
  rewrite (u32_id (h + n - 8 + 8)) by lia. replace (h + n - 8 + 8) with (h + n) by lia.
  apply wp_bind_inv in HQ. exact HQ.
Qed.

(** No hole on the left, no hole on the right. *)
Lemma unify_left_none t :
  left_hole (mem t) h = false -> wp (unify_left h (h + n - 8)) (fun r t' => r = (h, 1) /\ t' = t) t.
Proof using Hin.
  intros Hl. unfold unify_left, sizeof_footer, get_footer_magic, get_footer_header. k_steps.
  rewrite (u32_id (h - 8)) by lia. replace (h - 8 + 4) with (h - 4) by lia. unfold left_hole in Hl.
  destruct (load32 (mem t) (h - 8) =? HEAP_MAGIC); cbn [andb] in *.
  - unfold get_header_is_hole. k_steps. rewrite Hl. by k_steps.
  - by k_steps.
Qed.

Lemma unify_right_none header t :
  right_hole (mem t) (h + n) = false ->
  wp (unify_right header (h + n - 8) heap) (fun r t' => r = h + n - 8 /\ t' = t) t.
Proof using Hheap Hin.
  intros Hr. unfold unify_right, sizeof_footer, get_header_magic. k_steps.
  replace (h + n - 8 + 8) with (h + n) by lia. rewrite (u32_id (h + n)) by lia.
  unfold right_hole in Hr. destruct (load32 (mem t) (h + n) =? HEAP_MAGIC); cbn [andb] in *.
  - unfold get_header_is_hole. k_steps. rewrite Hr. by k_steps.
  - by k_steps.
Qed.

(** The left neighbour is the hole at [a], of size [k]. *)
Lemma unify_left_some a k t :
  header_at (mem t) a true k -> footer_at (mem t) a k -> a + k = h -> 0 <= a -> 20 <= k ->
  header_at (mem t) h true n ->
  wp (unify_left h (h + n - 8)) (fun r t' => r = (a, 0) /\
    t' = set_mem (store32 (store32 (mem t) (h + n - 8 + 4) a) (a + 8) (k + n)) t) t.
Proof using Hin.
  intros (Ha1 & Ha2 & Ha3) (Hf1 & Hf2) Hak Ha Hk (Hh1 & Hh2 & Hh3).
  unfold unify_left, sizeof_footer, get_footer_magic, get_footer_header. k_steps.
  rewrite (u32_id (h - 8)) by lia. replace (h - 8 + 4) with (h - 4) by lia.
  replace (h - 8) with (a + k - 8) by lia. replace (h - 4) with (a + k - 4) by lia.
  rewrite Hf1, Hf2, Z.eqb_refl. unfold get_header_is_hole. k_steps. rewrite Ha2.
  change (true && (Z.b2z true =? 1)) with true. cbv iota.
  unfold get_header_size, get_footer_header, set_footer_header, set_header_size. k_steps.
  replace (a + k - 8 + 4) with (a + k - 4) by lia. rewrite Hf2, Hh3. cbn [mem set_mem].
  rewrite set_mem_set_mem. split; [done|].
  assert (Hs : load32 (store32 (mem t) (h + n - 8 + 4) a) (a + 8) = k).
  { etransitivity; [|exact Ha3]. by read_stores. }
  rewrite Hs, u32_id by lia. done.
Qed.

(** The position of a hole in the index. *)
Lemma find_header_spec hd i t l' :
  heap_at (mem t) heap base cap l' st en -> cap < 4294967296 ->
  fst <$> list_find (fun e => e = hd) l' = Some i ->
  wp (find_header hd heap) (fun r t' => t' = t /\ r = Z.of_nat i) t.
Proof using.
  intros Hh Hcap Hi. apply fmap_Some in Hi as ([i' e] & (Hl & -> & Hbefore)%list_find_Some & ->).
  cbn [fst]. pose proof (heap_index_size _ _ _ _ _ _ _ Hh) as Hn.
  pose proof (lookup_lt_Some _ _ _ Hl) as Hlt. pose proof (heap_index_room _ _ _ _ _ _ _ Hh) as Hroom.
  unfold find_header.
  apply (wp_while _ _ (fun k t' => t' = t /\ exists j : nat, k = Z.of_nat j /\ (j <= i')%nat)
           (fun k _ => Z.of_nat i' - k)).
  - intros k ? (-> & j & -> & ?). lia.
  - intros k ? (-> & j & -> & Hj). unfold get_index_size. k_steps. rewrite Hn.
    replace (Z.of_nat j <? Z.of_nat (length l')) with true by blia. k_steps.
    eapply wp_mono; [apply (lookup_spec heap base l'); [by eapply heap_oa|lia]|].
    intros e ? (-> & He). rewrite Nat2Z.id in He. k_steps.
    destruct (decide (j = i')) as [->|Hne].
    + assert (e = hd) as -> by congruence. rewrite Z.eqb_refl. cbn. done.
    + assert (e <> hd) by (intros ->; apply (Hbefore j hd); [done|lia|done]).
      replace (e =? hd) with false by blia. cbn [negb]. k_steps.
      rewrite u32_id by lia. split; [|lia]. split; [done|]. exists (S j). lia.
  - split; [done|]. exists 0%nat. lia.
  - lia.
Qed.
(** The segment from [hd] to [e] swallows the hole at [e], whose header leaves the
    index.  The footer of the joined hole is not rewritten. *)
Lemma unify_right_some hd n1 e k i l' t :
  heap_at (mem t) heap base cap l' st en -> Z.of_nat (length l') + 3 <= cap ->
  header_at (mem t) hd true n1 -> header_at (mem t) e true k ->
  st <= hd -> hd + n1 = e -> 20 <= n1 -> 20 <= k -> e + k <= en ->
  fst <$> list_find (fun y => y = e) l' = Some i ->
  let x := stale_word base l' t in
  wp (unify_right hd (e - 8) heap) (fun r t' => r = e + k - 8 /\ exists m', t' = set_mem m' t /\
    header_at m' hd true (n1 + k) /\ heap_at m' heap base cap (delete i l' ++ [x; x]) st en /\
    same_on (fun b => ~ index_mem heap base cap b /\ ~ (hd + 8 <= b < hd + 12)) (mem t) m' /\
    index_tail base cap (S (length l')) (mem t) m') t.
Proof using Hin.
  intros Hh Hcap (Hh1 & Hh2 & Hh3) (He1 & He2 & He3) Hhd Hn1 Hsz Hk Hen Hi x.
  pose proof (heap_area _ _ _ _ _ _ _ Hh) as [Hst _]. pose proof (heap_room _ _ _ _ _ _ _ Hh) as [Hb1 Hb2].
  pose proof (heap_struct _ _ _ _ _ _ _ Hh) as [??]. pose proof (heap_apart_area _ _ _ _ _ _ _ Hh).
  unfold unify_right, sizeof_footer, get_header_magic, get_header_is_hole, get_header_size, set_header_size. k_steps.
  replace (e - 8 + 8) with e by lia. rewrite (u32_id e), He1, Z.eqb_refl by lia. k_steps. rewrite He2.
  change (true && truth (Z.b2z true)) with true. cbv iota. k_steps. cbn [mem set_mem].
  rewrite Hh3, He3, (u32_id (n1 + k)) by lia. set (m1 := store32 (mem t) (hd + 8) (n1 + k)).
  assert (Hs1 : same_on (fun b => ~ (hd + 8 <= b < hd + 12)) (mem t) m1) by (intros b Hb Hn; unfold m1; by read_stores).
  assert (Hheap1 : heap_at m1 heap base cap l' st en).
  { eapply heap_at_free_area; [exact Hh|]. intros b Hb Hn. apply Hs1; [done|lia]. }
  assert (Hw : forall a, 0 <= a -> a + 4 <= 4294967296 -> a + 4 <= hd + 8 \/ hd + 12 <= a -> load32 m1 a = load32 (mem t) a).
  { intros a ???. eapply load32_same_on; [exact Hs1|unfold region; lia|]. intros b Hb. cbv beta. lia. }
  rewrite (Hw (e + 8)), He3, (u32_id (e + k - 8)) by lia.
  eapply wp_mono; [eapply (find_header_spec e i); [exact Hheap1|lia|done]|].
  intros r t1 (-> & ->). unfold get_index_size, ASSERT. k_steps. cbn [mem set_mem].
  rewrite (heap_index_size _ _ _ _ _ _ _ Hheap1).
  assert (Hil : (i < length l')%nat).
  { apply fmap_Some in Hi as ([i' y] & (Hl' & _)%list_find_Some & ->). by eapply lookup_lt_Some. }
  replace (Z.of_nat i <? Z.of_nat (length l')) with true by blia. k_steps.
  eapply wp_mono; [apply (remove_hole_spec heap base cap st en i l'); [exact Hheap1|done|lia]|].
  cbn [mem set_mem]. intros [] t1 (m2 & -> & Hheap2 & Hs2 & Htail). k_steps. split; [done|].
  pose proof (heap_index_room _ _ _ _ _ _ _ Hh). rewrite Hw in Hheap2 by lia. fold (stale_word base l' t) in Hheap2. fold x in Hheap2.
  exists m2. split; [by rewrite set_mem_set_mem|].
  assert (Ha : forall b, st <= b < en -> ~ index_mem heap base cap b) by (intros b; by eapply area_not_index).
  split; [|split; [exact Hheap2|split]].
  - eapply (header_frame _ m1); [|exact Hs2|unfold region; lia|intros b Hb; apply Ha; lia].
    unfold m1. split_and!; read_stores; try done. apply u32_id. lia.
  - intros b Hb [Hb3 Hb4]. rewrite Hs2 by done. by apply Hs1.
  - intros j Hj. rewrite Htail by done. apply Hw; lia.
Qed.
End Free.

Section Outcomes.
Context `{Linkage, Kmalloc} (heap base cap : Z) (l : list Z) (st en : Z) (s : kstate).
Context (h n : Z).
Hypothesis Hheap : heap_at (mem s) heap base cap l st en.
Hypothesis Hfun : load32 (mem s) (heap + 12) = sym_header_t_less_than.
Hypothesis Hfun0 : sym_header_t_less_than <> 0.
Hypothesis Hcap : Z.of_nat (length l) + 4 <= cap.
Hypothesis Hin : 8 <= h /\ st <= h /\ h + n <= en /\ en < 4294967296 /\ 20 <= n.
Hypothesis Hhead : header_at (mem s) h false n.
Hypothesis Hfoot : footer_at (mem s) h n.

Lemma managed_not_index b : st <= b < en -> ~ index_mem heap base cap b.
Proof using Hheap.
  intros Hb. pose proof (heap_apart_area _ _ _ _ _ _ _ Hheap) as Ha.
  pose proof (heap_start _ _ _ _ _ _ _ Hheap). clear - Ha Hb. unfold index_mem. lia.
Qed.

(** No neighbour is a hole: the block becomes a hole of the same size, and the
    index gets it, before the first hole that is not smaller. *)
Theorem free_isolated :
  left_hole (marked (mem s) h) h = false -> right_hole (marked (mem s) h) (h + n) = false ->
  h + n <> en -> Forall (entry_apart heap base cap) l ->
  wp (free (h + 12) heap) (fun _ s' => exists m', s' = set_mem m' s /\
    header_at m' h true n /\ footer_at m' h n /\
    heap_at m' heap base cap
      (Spec.insert (fun y => hole_size m' y <? hole_size m' h) h l) st en /\
    same_on (fun b => ~ index_mem heap base cap b /\ b <> h + 4) (mem s) m') s.
Proof using Hheap Hfun Hfun0 Hcap Hin Hhead Hfoot.
  intros Hl Hr Hne Hent.
  destruct (marked_spec st en s h n Hin Hhead Hfoot) as (Hmh & Hmf & Hmo).
  eapply free_start; [done..|]. apply wp_bind.
  eapply wp_mono; [by apply (unify_left_none st en h n Hin)|]. intros r t (-> & ->). apply wp_bind.
  eapply wp_mono; [by eapply unify_right_none|]. intros r t (-> & ->).
  unfold get_end_address. k_steps. cbn [mem set_mem].
  pose proof (marked_heap heap base cap l st en s h n Hheap Hin Hhead Hfoot) as Hh1.
  rewrite (heap_end _ _ _ _ _ _ _ Hh1). replace (h + n - 8 + 8) with (h + n) by lia.
  rewrite u32_id by lia. replace (h + n =? en) with false by blia. cbn [when]. k_steps.
  change (1 =? 1) with true. cbn [when].
  eapply wp_mono; [apply (insert_hole_spec heap base cap st en h l)|].
  - exact Hh1.
  - cbn [mem set_mem]. rewrite <- Hfun. pose proof (heap_struct _ _ _ _ _ _ _ Hheap) as [??].
    pose proof (heap_apart_area _ _ _ _ _ _ _ Hheap).
    eapply load32_frame; [exact Hmo|unfold region; lia|lia].
  - done.
  - lia.
  - lia.
  - done.
  - split; [unfold region; lia|]. intros b Hb. apply managed_not_index. lia.
  - intros [] t (m' & -> & Hh' & Hs' & _). cbn [mem set_mem] in Hs'. exists m'. split; [done|].
    assert (Ha : forall b, st <= b < en -> ~ index_mem heap base cap b) by apply managed_not_index.
    split; [|split; [|split; [done|]]].
    + eapply header_frame; [exact Hmh|exact Hs'|unfold region; lia|]. intros b Hb. apply Ha. lia.
    + eapply footer_frame; [exact Hmf|exact Hs'|lia|unfold region; lia|]. intros b Hb. apply Ha. lia.
    + intros b Hb [Hb1 Hb2]. rewrite Hs' by done. apply Hmo; [done|lia].
Qed.

(** The left neighbour is a hole: it swallows the block, keeps its place in the
    index whatever its new size, and the block's footer now points to it. *)
Theorem free_joins_left a k :
  header_at (mem s) a true k -> footer_at (mem s) a k -> a + k = h -> st <= a -> 20 <= k ->
  right_hole (marked (mem s) h) (h + n) = false -> h + n + 20 <= en ->
  wp (free (h + 12) heap) (fun _ s' => exists m', s' = set_mem m' s /\
    header_at m' a true (k + n) /\ footer_at m' a (k + n) /\
    heap_at m' heap base cap l st en /\
    same_on (fun b => ~ (a + 8 <= b < a + 12) /\ ~ (h <= b < h + n)) (mem s) m') s.
Proof using Hheap Hcap Hin Hhead Hfoot.
  intros Hah Haf Hak Ha Hk Hr Hne.
  destruct (marked_spec st en s h n Hin Hhead Hfoot) as (Hmh & Hmf & Hmo).
  pose proof (heap_area _ _ _ _ _ _ _ Hheap) as [Hst _].
  assert (Hon : same_on (fun b => ~ (h + 4 <= b < h + 5)) (mem s) (marked (mem s) h)) by exact Hmo.
  assert (Hah1 : header_at (marked (mem s) h) a true k).
  { eapply header_frame; [exact Hah|exact Hon|unfold region; lia|]. cbv beta. lia. }
  assert (Haf1 : footer_at (marked (mem s) h) a k).
  { eapply footer_frame; [exact Haf|exact Hon|lia|unfold region; lia|]. cbv beta. lia. }
  eapply free_start; [done..|]. apply wp_bind.
  eapply wp_mono; [apply (unify_left_some st en h n Hin a k); done || lia|].
  intros r t (-> & ->). cbn [mem set_mem]. rewrite set_mem_set_mem.
  set (m1 := store32 (store32 (marked (mem s) h) (h + n - 8 + 4) a) (a + 8) (k + n)).
  assert (Hm1 : same_on (fun b => ~ (a + 8 <= b < a + 12) /\ ~ (h + n - 4 <= b < h + n)) (marked (mem s) h) m1).
  { intros b Hb [Hb1 Hb2]. unfold m1. by read_stores. }
  assert (Hh1 : heap_at m1 heap base cap l st en).
  { eapply heap_at_free_area; [exact Hheap|]. intros b Hb Hb'.
    rewrite Hm1 by lia. apply Hmo; [done|lia]. }
  apply wp_bind. eapply wp_mono.
  { apply (unify_right_none heap base cap l st en s h n Hheap Hin a).
    cbn [mem set_mem]. rewrite <- Hr. unfold right_hole. f_equal; [f_equal|f_equal].
    - eapply load32_same_on; [exact Hm1|unfold region; lia|cbv beta; lia].
    - apply Hm1; lia. }
  intros r t (-> & ->). unfold get_end_address. k_steps. cbn [mem set_mem].
  rewrite (heap_end _ _ _ _ _ _ _ Hh1). replace (h + n - 8 + 8) with (h + n) by lia.
  rewrite u32_id by lia. replace (h + n =? en) with false by blia. cbn [when]. k_steps.
  exists m1. split; [done|]. destruct Hah1 as (H1 & H2 & H3), Hmf as (H4 & H5).
  split; [|split; [|split; [done|]]].
  - unfold m1. split_and!; read_stores; try done. apply u32_id. lia.
  - unfold m1, footer_at. replace (a + (k + n) - 8) with (h + n - 8) by lia.
    replace (a + (k + n) - 4) with (h + n - 8 + 4) by lia. split; read_stores; [done|].
    apply u32_id. lia.
  - intros b Hb [Hb1 Hb2]. rewrite Hm1 by lia. apply Hmo; [done|lia].
Qed.

(** The block swallows the hole on the right, which leaves the index; [free] goes on
    with the insertion of what they have become. *)
Lemma free_right_start k i (Q : unit -> kstate -> Prop) :
  header_at (mem s) (h + n) true k -> 20 <= k ->
  h + n + k < en -> left_hole (marked (mem s) h) h = false ->
  fst <$> list_find (fun e => e = h + n) l = Some i ->
  let x := stale_word base l s in
  (forall m1, header_at m1 h true (n + k) -> heap_at m1 heap base cap (delete i l ++ [x; x]) st en ->
     same_on (fun b => ~ index_mem heap base cap b /\ ~ (h + 4 <= b < h + 12)) (mem s) m1 ->
     wp (insert_ordered_array h heap) Q (set_mem m1 s)) ->
  wp (free (h + 12) heap) Q s.
Proof using Hheap Hcap Hin Hhead Hfoot.
  intros Hkh Hk Hlt Hl Hi x HQ.
  destruct (marked_spec st en s h n Hin Hhead Hfoot) as (Hmh & Hmf & Hmo).
  pose proof (heap_area _ _ _ _ _ _ _ Hheap) as [Hst _].
  assert (Hon : same_on (fun b => ~ (h + 4 <= b < h + 5)) (mem s) (marked (mem s) h)) by exact Hmo.
  assert (Hkh1 : header_at (marked (mem s) h) (h + n) true k).
  { eapply header_frame; [exact Hkh|exact Hon|unfold region; lia|]. cbv beta. lia. }
  assert (Hheap1 : heap_at (marked (mem s) h) heap base cap l st en) by by apply marked_heap with n.
  assert (Hx : stale_word base l (set_mem (marked (mem s) h) s) = x).
  { pose proof (heap_index_room _ _ _ _ _ _ _ Hheap). pose proof (heap_apart_area _ _ _ _ _ _ _ Hheap).
    pose proof (heap_room _ _ _ _ _ _ _ Hheap) as [??].
    eapply load32_same_on; [exact Hon|unfold region; lia|cbv beta; lia]. }
  eapply free_start; [done..|]. apply wp_bind.
  eapply wp_mono; [by apply (unify_left_none st en h n Hin)|]. intros r t (-> & ->). apply wp_bind.
  replace (h + n - 8) with ((h + n) - 8) by lia. eapply wp_mono.
  { apply (unify_right_some heap base cap st en h n Hin h n (h + n) k i l (set_mem (marked (mem s) h) s)); done || lia. }
  cbv zeta. rewrite Hx. cbn [mem set_mem].
  intros r t (-> & m1 & -> & Hhd1 & Hheap2 & Hs1 & _). rewrite set_mem_set_mem. unfold get_end_address. k_steps.
  cbn [mem set_mem]. rewrite (heap_end _ _ _ _ _ _ _ Hheap2). replace (h + n + k - 8 + 8) with (h + n + k) by lia.
  rewrite (u32_id (h + n + k)) by lia. replace (h + n + k =? en) with false by blia. cbn [when].
  k_steps. change (1 =? 1) with true. cbn [when]. apply HQ; [exact Hhd1|exact Hheap2|].
  intros b Hb [Hn1 Hn2]. rewrite Hs1 by first [done | split; [done|lia]]. apply Hmo; [done|lia].
Qed.

(** The right neighbour is a hole: the block swallows it, its header leaves the
    index (removal counts one more word, as ever) and the block enters.  The
    footer of the joined hole is not rewritten: it points to the header that
    was swallowed. *)
Theorem free_joins_right k i :
  header_at (mem s) (h + n) true k -> footer_at (mem s) (h + n) k -> 20 <= k ->
  h + n + k < en -> left_hole (marked (mem s) h) h = false ->
  fst <$> list_find (fun e => e = h + n) l = Some i ->
  let x := stale_word base l s in
  Forall (entry_apart heap base cap) (delete i l ++ [x; x]) ->
  wp (free (h + 12) heap) (fun _ s' => exists m', s' = set_mem m' s /\
    header_at m' h true (n + k) /\
    load32 m' (h + (n + k) - 8) = HEAP_MAGIC /\ load32 m' (h + (n + k) - 4) = h + n /\
    (exists l', heap_at m' heap base cap l' st en /\
       Permutation l' (h :: delete i l ++ [x; x])) /\
    same_on (fun b => ~ index_mem heap base cap b /\ ~ (h + 4 <= b < h + 12)) (mem s) m') s.
Proof using Hheap Hfun Hfun0 Hcap Hin Hhead Hfoot.
  intros Hkh [Hkf1 Hkf2] Hk Hlt Hl Hi x Hent. apply (free_right_start k i); [done..|].
  intros m1 Hhd1 Hheap2 Hs01. fold x in Hheap2. set (l2 := delete i l ++ [x; x]) in *.
  pose proof (heap_area _ _ _ _ _ _ _ Hheap) as [Hst _].
  assert (Hil : (i < length l)%nat).
  { apply fmap_Some in Hi as ([i' e] & (Hl' & _)%list_find_Some & ->). by eapply lookup_lt_Some. }
  assert (Hlen2 : length l2 = S (length l)).
  { unfold l2. rewrite length_app, length_delete by (by apply lookup_lt_is_Some_2). cbn. lia. }
  assert (Ha : forall b, st <= b < en -> ~ index_mem heap base cap b) by apply managed_not_index.
  eapply wp_mono; [apply (insert_hole_spec heap base cap st en h l2)|]; cbn [mem set_mem].
  - exact Hheap2.
  - rewrite <- Hfun. apply (less_than_field heap base cap st en _ _ Hheap). intros b Hb [??]. apply Hs01; [done|].
    split; [done|lia].
  - done.
  - lia.
  - lia.
  - exact Hent.
  - split; [unfold region; lia|]. intros b Hb. apply Ha. lia.
  - intros [] t (m' & -> & Hh' & Hs' & _). cbn [mem set_mem] in Hs'. exists m'. split; [by rewrite set_mem_set_mem|].
    split; [eapply header_frame; [exact Hhd1|exact Hs'|unfold region; lia|intros b Hb; apply Ha; lia]|].
    assert (Hw : forall a, h + 12 <= a -> a + 4 <= en -> load32 m' a = load32 (mem s) a).
    { intros a ??. unfold load32. by rewrite !Hs', !Hs01 by (try split; try apply Ha; lia). }
    split; [|split; [|split]].
    + rewrite Hw by lia. rewrite <- Hkf1. f_equal. lia.
    + rewrite Hw by lia. rewrite <- Hkf2. f_equal. lia.
    + eexists. split; [exact Hh'|]. apply Spec.insert_perm.
    + intros b Hb [Hn1 Hn2]. rewrite Hs' by done. by apply Hs01.
Qed.
End Outcomes.

Module FreeSample.
#[local] Existing Instance sample_linkage.
#[local] Existing Instance KheapSample.sample_kmalloc.

(** Header and footer of a segment, as words (the flag is a byte of its own). *)
Definition marks (a hole n : Z) : list (Z * Z) :=
  [(a, HEAP_MAGIC); (a + 4, hole); (a + 8, n); (a + n - 8, HEAP_MAGIC); (a + n - 4, a)].

(** Blocks at 16384, 17408, 18432 and 19456, and a hole at 17920. *)
Definition memory0 : memory :=
  KheapSample.words_at
    ([(4096, 8192); (4100, 1); (4104, 64); (4108, sym_header_t_less_than);
      (4112, 16384); (4116, 20480); (4120, 65536); (8192, 17920)] ++
     marks 16384 0 1024 ++ marks 17408 0 512 ++ marks 17920 1 512 ++ marks 18432 0 1024 ++
     marks 19456 0 1024) ∅.

Definition state : kstate := set_mem memory0 sample_state.

Lemma state_heap : heap_at (mem state) 4096 8192 64 [17920] 16384 20480.
Proof.
  constructor; [vm_compute; reflexivity|vm_compute; reflexivity| |vm_compute; reflexivity
               |vm_compute; reflexivity|unfold region; simpl; lia..].
  intros [|i] x Hx; [|done]. injection Hx as <-. vm_compute. reflexivity.
Defined.

Lemma zero_apart : entry_apart 4096 8192 64 0.
Proof. split; [unfold region; lia|]. unfold index_mem. lia. Defined.

Lemma hole_apart : entry_apart 4096 8192 64 17920.
Proof. split; [unfold region; lia|]. unfold index_mem. lia. Defined.

Lemma block_marks a n : In (a, n) [(16384, 1024); (17408, 512); (18432, 1024)] ->
  header_at (mem state) a false n /\ footer_at (mem state) a n.
Proof.
  intros [[= <- <-]|[[= <- <-]|[[= <- <-]|[]]]]; (split; [split_and!|split]); vm_compute; reflexivity.
Defined.

Lemma free_isolated_witness :
  wp (free 16396 4096) (fun _ s' => header_at (mem s') 16384 true 1024 /\
    exists l', heap_at (mem s') 4096 8192 64 l' 16384 20480 /\ Permutation l' [16384; 17920]) state.
Proof.
  eapply wp_mono.
  - apply (free_isolated 4096 8192 64 [17920] 16384 20480 state 16384 1024 state_heap);
      [vm_compute; reflexivity|vm_compute; discriminate|cbn [length]; lia|lia
      |exact (proj1 (block_marks 16384 1024 ltac:(cbn; auto)))
      |exact (proj2 (block_marks 16384 1024 ltac:(cbn; auto)))
      |vm_compute; reflexivity|vm_compute; reflexivity|lia
      |constructor; [exact hole_apart|constructor]].
  - intros [] s' (m' & -> & Hh & _ & Hheap & _). split; [exact Hh|].
    eexists. split; [exact Hheap|]. apply Spec.insert_perm.
Defined.

Lemma free_joins_left_witness :
  wp (free 18444 4096) (fun _ s' => header_at (mem s') 17920 true 1536 /\
    footer_at (mem s') 17920 1536 /\ heap_at (mem s') 4096 8192 64 [17920] 16384 20480) state.
Proof.
  eapply wp_mono.
  - apply (free_joins_left 4096 8192 64 [17920] 16384 20480 state 18432 1024 state_heap) with (a := 17920) (k := 512);
      [cbn [length]; lia|lia|exact (proj1 (block_marks 18432 1024 ltac:(cbn; auto)))
      |exact (proj2 (block_marks 18432 1024 ltac:(cbn; auto)))
      |split_and!; vm_compute; reflexivity|split; vm_compute; reflexivity|lia|lia|lia
      |vm_compute; reflexivity|lia].
  - intros [] s' (m' & -> & Hh & Hf & Hheap & _). split; [exact Hh|]. split; [exact Hf|exact Hheap].
Defined.

Lemma free_joins_right_witness :
  wp (free 17420 4096) (fun _ s' => header_at (mem s') 17408 true 1024 /\
    ~ footer_at (mem s') 17408 1024) state.
Proof.
  eapply wp_mono.
  - apply (free_joins_right 4096 8192 64 [17920] 16384 20480 state 17408 512 state_heap) with (k := 512) (i := 0%nat);
      [vm_compute; reflexivity|vm_compute; discriminate|cbn [length]; lia|lia
      |exact (proj1 (block_marks 17408 512 ltac:(cbn; auto)))
      |exact (proj2 (block_marks 17408 512 ltac:(cbn; auto)))
      |split_and!; vm_compute; reflexivity|split; vm_compute; reflexivity|lia|lia
      |vm_compute; reflexivity|vm_compute; reflexivity|].
    replace (stale_word 8192 [17920] state) with 0 by (vm_compute; reflexivity).
    constructor; [exact zero_apart|constructor; [exact zero_apart|constructor]].
  - intros [] s' (m' & -> & Hh & Hf1 & Hf2 & _). split; [exact Hh|].
    intros [_ Hf]. change (17408 + 1024 - 4) with (17408 + (512 + 512) - 4) in Hf.
    cbn [mem set_mem] in Hf. rewrite Hf2 in Hf. discriminate Hf.
Defined.
End FreeSample.
