(* ===== verification/KheapBoot.v ===== *)
(** * The allocator at boot

    [kmalloc_int] before the heap exists, and the heap that [create_heap]
    builds. *)

From Stdlib Require Import ZArith Lia List String.
From stdpp Require Import base list gmap.
From S2P Require Import Prelude Machine Kernel Common Monitor OrderedArray Kmalloc Frames Paging Kheap.
From S2P Require Import KheapSpec.

(** ** Allocation before the heap exists *)

(** The address that [kmalloc_int] returns while [kheap] is null. *)
Definition placement (p align : Z) : Z :=
  if (align =? 1) && (4096 <=? p) then (p / 4096 + 1) * 4096 else p.

Lemma kmalloc_early_spec `{Linkage, Kmalloc} sz align phys s :
  kheap (hp s) = 0 -> 0 <= placement_address (hp s) -> 0 <= sz ->
  placement (placement_address (hp s)) align + sz < 4294967296 ->
  kmalloc_body sz align phys s =
  Ok (placement (placement_address (hp s)) align, placement (placement_address (hp s)) align)
     (set_hp (HeapGlobals (placement (placement_address (hp s)) align + sz) 0) s).
Proof.
  intros Hk Hp Hsz Hlt. unfold kmalloc_body, bind, gets. rewrite Hk.
  change (truth 0) with false. cbv iota. unfold placement in *.
  assert (Hp32 : placement_address (hp s) < 4294967296) by (case_match; bool_hyps; [dlia|lia]).
  unfold truth. rewrite page_of by lia.
  destruct (align =? 1) eqn:Ea; cbn [andb] in *.
  - destruct (4096 <=? placement_address (hp s)) eqn:Ep; bool_hyps.
    + replace (placement_address (hp s) / 4096 * 4096 =? 0) with false by (symmetry; apply Z.eqb_neq; dlia).
      cbn [negb when]. unfold bind, modify, ret. cbn [hp set_hp placement_address kheap].
      assert (Hq : 0 <= placement_address (hp s) / 4096) by dlia.
      rewrite Hk, (u32_id (placement_address (hp s) / 4096 * 4096 + 4096)) by lia.
      replace (placement_address (hp s) / 4096 * 4096 + 4096) with
        ((placement_address (hp s) / 4096 + 1) * 4096) by lia.
      by rewrite u32_id by lia.
    + replace (placement_address (hp s) / 4096 * 4096 =? 0) with true by (symmetry; apply Z.eqb_eq; dlia).
      cbn [negb when]. unfold ret, modify. rewrite Hk. by rewrite u32_id by lia.
  - cbn [when]. unfold ret, modify. rewrite Hk. by rewrite u32_id by lia.
Qed.

Lemma kmalloc_int_kernel `{Linkage} sz align phys :
  kmalloc_int sz align phys = @kmalloc_body _ (kmalloc_level 255) sz align phys.
Proof. done. Qed.

(** Before the heap exists [kmalloc_int] hands out consecutive addresses: the
    block is not below the placement address, which moves behind the block; an
    aligned block is on a page boundary when the placement address is not in the
    first page, and memory does not change. *)
Theorem kmalloc_early_bump `{Linkage} sz align phys s :
  kheap (hp s) = 0 -> 0 <= placement_address (hp s) -> 0 <= sz ->
  placement_address (hp s) + 4096 + sz < 4294967296 ->
  wp (kmalloc_int sz align phys) (fun r s' => exists a, r = (a, a) /\ mem s' = mem s /\
    placement_address (hp s) <= a <= placement_address (hp s) + 4096 /\
    placement_address (hp s') = a + sz /\ kheap (hp s') = 0 /\
    (align = 1 -> 4096 <= placement_address (hp s) -> a mod 4096 = 0)) s.
Proof.
  intros Hk Hp Hsz Hlt. apply wp_ok.
  assert (Hr : placement_address (hp s) <= placement (placement_address (hp s)) align <=
               placement_address (hp s) + 4096).
  { unfold placement. case_match; bool_hyps; [dlia|lia]. }
  do 2 eexists. split.
  { rewrite kmalloc_int_kernel.
    apply kmalloc_early_spec; done || lia. }
  eexists. split; [reflexivity|]. split; [done|]. split; [done|]. split; [done|]. split; [done|].
  intros -> H4. unfold placement. replace (4096 <=? placement_address (hp s)) with true by blia.
  change ((1 =? 1) && true) with true. cbv iota. apply Z.mod_mul. lia.
Qed.

(** The test of the alignment looks at the wrong bits: a placement address that
    is on a page boundary already is moved by a whole page. *)
Theorem kmalloc_early_skips_page `{Linkage} sz phys s :
  kheap (hp s) = 0 -> 4096 <= placement_address (hp s) -> placement_address (hp s) mod 4096 = 0 ->
  0 <= sz -> placement_address (hp s) + 4096 + sz < 4294967296 ->
  wp (kmalloc_int sz 1 phys) (fun r _ => fst r = placement_address (hp s) + 4096) s.
Proof.
  intros Hk Hp Hmod Hsz Hlt.
  assert (Hr : placement (placement_address (hp s)) 1 = placement_address (hp s) + 4096).
  { unfold placement. replace (4096 <=? placement_address (hp s)) with true by blia. cbn. dlia. }
  apply wp_ok. do 2 eexists. split.
  { rewrite kmalloc_int_kernel.
    apply kmalloc_early_spec; try done; try lia. }
  exact Hr.
Qed.

(** Before the heap exists the allocator keeps the promises that [get_page]
    relies on: what is below the placement address is in use. *)
#[export] Program Instance early_kmalloc_laws `{Linkage} : KmallocLaws := {|
  km_ready sz s := kheap (hp s) = 0 /\ 4096 <= placement_address (hp s) /\
                   placement_address (hp s) + 4096 + sz < 4294967296;
  km_live s b := 0 <= b < placement_address (hp s)
|}.
Next Obligation.
  intros HL sz s Hsz (Hk & Hp & Hlt). unfold kmalloc_ap. rewrite kmalloc_int_kernel.
  assert (Hpl : placement (placement_address (hp s)) 1 = (placement_address (hp s) / 4096 + 1) * 4096).
  { unfold placement. by replace (4096 <=? placement_address (hp s)) with true by blia. }
  assert (Hr : placement_address (hp s) <= placement (placement_address (hp s)) 1 <=
               placement_address (hp s) + 4096) by (rewrite Hpl; dlia).
  apply wp_ok. do 2 eexists. split; [apply kmalloc_early_spec; done || lia|].
  cbn [mem set_mem set_hp hp placement_address pg].
  assert (Hm : placement (placement_address (hp s)) 1 mod 4096 = 0) by (rewrite Hpl; apply Z.mod_mul; lia).
  split_and!; try done; try lia; unfold region; lia.
Qed.
Next Obligation. done. Qed.

(** It keeps those of a budget, too: what is above the placement address is its
    own. *)
#[export] Program Instance early_allocator_laws `{Linkage} : AllocatorLaws := {|
  al_budget n s := kheap (hp s) = 0 /\ 0 < placement_address (hp s) /\
                   placement_address (hp s) + n < 4294967296;
  al_own s b := placement_address (hp s) <= b;
  al_clean s := forall b, 0 <= b < 4294967296 -> placement_address (hp s) <= b -> load8 (mem s) b = 0
|}.
Next Obligation.
  intros HL n sz s Hsz Hn (Hk & Hp & Hlt). unfold kmalloc. rewrite kmalloc_int_kernel. apply wp_bind.
  assert (Hpl : placement (placement_address (hp s)) 0 = placement_address (hp s)) by done.
  apply wp_ok. do 2 eexists. split; [apply kmalloc_early_spec; rewrite ?Hpl; done || lia|].
  rewrite Hpl. k_steps. cbn [fst mem set_hp hp placement_address kheap fs].
  split; [lia|]. split; [lia|]. split; [intros b Hb; lia|]. split; [intros b Hb; lia|]. split; [done|].
  split; [by eexists (mem s), _|]. split; [lia|]. intros Hz. split; [intros b Hb Hb'|intros b Hb]; apply Hz; lia.
Qed.
Next Obligation.
  intros HL m g s Hs. cbn. split; [done|]. split; [|done]. intros Hz b Hb Hp. rewrite Hs by done. by apply Hz.
Qed.

(** ** The heap that [create_heap] builds *)

(** The maximum and the flags of the heap at [p]. *)
Definition limits_at (m : memory) (p mx sv ro : Z) : Prop :=
  load32 m (p + 24) = mx /\ load8 m (p + 28) = u8 sv /\ load8 m (p + 29) = u8 ro.

Lemma limits_frame (P : Z -> Prop) m m' p mx sv ro :
  limits_at m p mx sv ro -> same_on P m m' -> 0 <= p -> p + 32 < 4294967296 ->
  (forall b, p + 24 <= b < p + 30 -> P b) -> limits_at m' p mx sv ro.
Proof.
  intros (L1 & L2 & L3) Hs ?? HP. unfold limits_at. rewrite <- L1, <- L2, <- L3.
  split_and!; [eapply load32_same_on; [exact Hs|unfold region; lia|intros; apply HP; lia]|apply Hs; [lia|apply HP; lia]..].
Qed.

Section CreateHeap.
Context `{Linkage} (start en mx sv ro : Z) (s : kstate).
Let p : Z := placement_address (hp s).
Let st : Z := start + 524288.
Hypothesis Hk : kheap (hp s) = 0.
Hypothesis Hp : 0 <= p /\ p + 32 < 4294967296.
Hypothesis Hstart : 0 <= start /\ start mod 4096 = 0.
Hypothesis Hen : en mod 4096 = 0 /\ en < 4294967296.
Hypothesis Hmx : 0 <= mx < 4294967296.
Hypothesis Hsize : st + 20 <= en.
Hypothesis Hapart : p + 32 <= start \/ en <= p.
Hypothesis Hsym : 0 < sym_header_t_less_than < 4294967296.

(** Memory before the hole is inserted: [m1] is what [memset] leaves. *)
Definition before_insert (m1 : memory) : memory :=
  let m2 := store32 (store32 (store32 (store32 m1 p start) (p + 4) 0) (p + 8) 131072) (p + 12)
              sym_header_t_less_than in
  let m3 := store8 (store8 (store32 (store32 (store32 m2 (p + 16) st) (p + 20) en) (p + 24) mx)
              (p + 28) sv) (p + 29) ro in
  store8 (store32 (store32 m3 (st + 8) (en - st)) st HEAP_MAGIC) (st + 4) 1.

Lemma before_insert_heap m1 : heap_at (before_insert m1) p start 131072 [] st en.
Proof using Hp Hstart Hen Hsize Hapart.
  unfold before_insert. unfold st in *. constructor; try (unfold region; simpl; lia).
  - read_stores. apply u32_id. lia.
  - read_stores. done.
  - intros i x Hx. done.
  - read_stores. apply u32_id. lia.
  - read_stores. apply u32_id. lia.
Qed.

Lemma before_insert_fields m1 :
  load32 (before_insert m1) (p + 12) = sym_header_t_less_than /\
  header_at (before_insert m1) st true (en - st).
Proof using Hp Hstart Hen Hsize Hapart Hsym.
  unfold before_insert, header_at. unfold st in *. split_and!; read_stores; try done; apply u32_id; lia.
Qed.

Lemma before_insert_limits m1 : limits_at (before_insert m1) p mx sv ro.
Proof using Hp Hstart Hen Hmx Hsize Hapart.
  unfold before_insert, limits_at. unfold st in *. split_and!; read_stores; try done. apply u32_id. lia.
Qed.

(** What [create_heap] leaves alone. *)
Definition heap_others (b : Z) : Prop := ~ (p <= b < p + 32) /\ ~ (start <= b < en).

Lemma before_insert_frame m1 : same_on heap_others m1 (before_insert m1).
Proof using Hp Hstart Hen Hsize Hapart.
  intros b Hb [Hb1 Hb2]. unfold before_insert, st in *. by read_stores.
Qed.

(** [create_heap] up to the insertion of the hole. *)
Lemma create_heap_start (Q : Z -> kstate -> Prop) :
  (forall m1, same_outside start st (mem s) m1 ->
     bytes m1 start (Z.to_nat 524288) = replicate (Z.to_nat 524288) (u8 0) ->
     wp (insert_ordered_array st p) (fun _ => Q p)
       (set_mem (before_insert m1) (set_hp (HeapGlobals (p + 32) 0) s))) ->
  wp (create_heap start en mx sv ro) Q s.
Proof using Hk Hp Hstart Hen Hmx Hsize Hapart Hsym.
  intros HQ. unfold create_heap, kmalloc, sizeof_heap. rewrite kmalloc_int_kernel. apply wp_bind, wp_bind.
  assert (Hpl : placement (placement_address (hp s)) 0 = p) by done.
  apply wp_ok. do 2 eexists. split; [clear HQ; apply kmalloc_early_spec; rewrite ?Hpl; done || lia|].
  rewrite Hpl. k_steps. cbn [fst]. unfold ASSERT.
  replace (start mod 4096 =? 0) with true by blia. replace (en mod 4096 =? 0) with true by blia.
  k_steps. unfold place_ordered_array, HEAP_INDEX_SIZE. k_steps.
  change (u32 (131072 * 4)) with 524288.
  eapply wp_mono; [apply memset_spec; [unfold region; unfold st in *; lia|lia]|].
  intros [] t (m1 & -> & Hout1 & Hz1). unfold store_ordered_array.
  cbn [oa_array oa_size oa_max_size oa_less_than].
  unfold set_start_address, set_end_address, set_max_address, set_supervisor, set_readonly,
    set_header_size, set_header_magic, set_header_is_hole. k_steps.
  change (4 * 131072) with 524288. rewrite (u32_id (start + 524288)) by (unfold st in *; lia).
  rewrite even_page_mask by dlia. fold st. rewrite (u32_id (en - st)) by (unfold st in *; lia).
  cbn [mem set_mem set_hp]. rewrite !set_mem_set_mem. fold (before_insert m1).
  eapply wp_mono; [by apply HQ|]. intros [] t Ht. by k_steps.
Qed.

(** [create_heap], before the heap exists, puts the structure at the placement
    address and the index at the start of the range; one hole, behind the index,
    is all of the rest, and it is the only element of the index. *)
Lemma create_heap_spec :
  wp (create_heap start en mx sv ro) (fun heap s' => heap = p /\ exists m',
    s' = set_mem m' (set_hp (HeapGlobals (p + 32) 0) s) /\
    heap_at m' p start 131072 [st] st en /\ header_at m' st true (en - st) /\
    load32 m' (p + 12) = sym_header_t_less_than /\ same_on heap_others (mem s) m' /\
    (forall i, 1 <= i < 131072 -> load32 m' (start + 4 * i) = 0) /\
    same_on (fun b => st + 12 <= b < en) (mem s) m' /\ limits_at m' p mx sv ro) s.
Proof using Hk Hp Hstart Hen Hmx Hsize Hapart Hsym.
  apply create_heap_start. intros m1 Hout1 Hz1.
  pose proof (before_insert_heap m1) as Hh. destruct (before_insert_fields m1) as [Hf Hhd].
  pose proof (before_insert_frame m1) as Hfr. pose proof (before_insert_limits m1) as Hlim.
  assert (Htail : forall i, 1 <= i < 131072 -> load32 (before_insert m1) (start + 4 * i) = 0).
  { intros i Hi. transitivity (load32 m1 (start + 4 * i)); [|by apply (memset_words m1 start 524288); [|lia..]].
    unfold before_insert, st in *. by read_stores. }
  assert (Hrest : same_on (fun b => st + 12 <= b < en) (mem s) (before_insert m1)).
  { intros b Hb Hin. transitivity (load8 m1 b); [|apply Hout1; [done|unfold st in *; lia]].
    unfold before_insert, st in *. by read_stores. }
  assert (Hothers : same_on heap_others (mem s) (before_insert m1)).
  { intros b Hb Ho. rewrite Hfr by done. apply Hout1; [done|]. unfold heap_others, st in *. lia. }
  set (mb := before_insert m1) in *. clearbody mb. clear Hfr.
  assert (Hap : forall b, index_mem p start 131072 b -> p <= b < p + 8 \/ start <= b < st) by (unfold index_mem, st; lia).
  eapply wp_mono; [apply (insert_hole_spec p start 131072 st en st []); [exact Hh|exact Hf|lia|unfold st in *; lia|cbn; lia|constructor|]|].
  { split; [unfold region; unfold st in *; lia|]. unfold index_mem, st in *. lia. }
  intros [] t (m' & -> & Hh' & Hs' & Ht'). cbn [mem set_mem] in *. split; [done|]. exists m'.
  unfold heap_others, st in *. split_and!; [done|exact Hh'|..].
  - eapply header_frame; [exact Hhd|exact Hs'|unfold region; lia|]. intros b Hb Hi. apply Hap in Hi. lia.
  - rewrite <- Hf. eapply load32_same_on; [exact Hs'|unfold region; lia|]. intros b Hb Hi. apply Hap in Hi. lia.
  - intros b Hb Ho. rewrite <- (Hothers b Hb Ho). apply Hs'; [done|]. intros Hi. apply Hap in Hi. lia.
  - intros i Hi. rewrite Ht' by (cbn; lia). by apply Htail.
  - intros b Hb Hin. rewrite <- (Hrest b Hb Hin). apply Hs'; [done|]. intros Hi. apply Hap in Hi. lia.
  - eapply limits_frame; [exact Hlim|exact Hs'|lia|lia|]. intros b Hb Hi. apply Hap in Hi. lia.
Qed.
End CreateHeap.

(** [create_heap], before the heap exists, puts the heap's structure at the
    placement address and the index at the start of the range.  The rest of the
    range, from behind the 0x80000 bytes of the index, is one hole, the only
    element of the index. *)
Theorem create_heap_correct `{Linkage} start en mx sv ro s :
  kheap (hp s) = 0 -> 0 <= placement_address (hp s) -> placement_address (hp s) + 32 < 4294967296 ->
  0 <= start -> start mod 4096 = 0 -> en mod 4096 = 0 -> en < 4294967296 ->
  0 <= mx < 4294967296 -> start + 524288 + 20 <= en ->
  placement_address (hp s) + 32 <= start \/ en <= placement_address (hp s) ->
  0 < sym_header_t_less_than < 4294967296 ->
  wp (create_heap start en mx sv ro) (fun heap s' => heap = placement_address (hp s) /\
    heap_at (mem s') heap start 131072 [start + 524288] (start + 524288) en /\
    tiles (mem s') (start + 524288) [(true, en - (start + 524288))] en /\
    load32 (mem s') (heap + 12) = sym_header_t_less_than /\
    placement_address (hp s') = placement_address (hp s) + 32) s.
Proof.
  intros. eapply wp_mono; [apply create_heap_spec; auto|].
  intros heap s' (-> & m' & -> & Hh & Hhd & Hf & _). cbn [mem set_mem hp set_hp placement_address].
  split_and!; try done; try lia. cbn [tiles]. split_and!; [lia|exact Hhd|done|lia].
Qed.

Module BootSample.
#[local] Existing Instance sample_linkage.

(** Arithmetic about the sample's placement address. *)
Ltac sample_lia :=
  change (kheap (hp sample_state)) with 0; change (placement_address (hp sample_state)) with 1142784;
  change sym_header_t_less_than with 1056832; lia.

Lemma kmalloc_early_bump_witness :
  wp (kmalloc_int 128 1 true) (fun r s' => fst r mod 4096 = 0 /\ mem s' = mem sample_state) sample_state.
Proof.
  eapply wp_mono; [apply (kmalloc_early_bump 128 1 true sample_state); sample_lia|].
  intros r s' (a & -> & Hm & _ & _ & _ & Ha). split; [|exact Hm]. apply Ha; sample_lia.
Defined.

Lemma kmalloc_early_skips_page_witness :
  wp (kmalloc_int 128 1 true) (fun r _ => fst r = 1146880) sample_state.
Proof. apply (kmalloc_early_skips_page 128 true sample_state); try reflexivity; sample_lia. Defined.

Lemma create_heap_correct_witness :
  wp (create_heap KHEAP_START (KHEAP_START + KHEAP_INITIAL_SIZE) 3489656832 0 0)
    (fun heap s' => heap = 1142784 /\
       heap_at (mem s') heap 3221225472 131072 [3221749760] 3221749760 3222274048) sample_state.
Proof.
  eapply wp_mono.
  - apply (create_heap_correct KHEAP_START (KHEAP_START + KHEAP_INITIAL_SIZE) 3489656832 0 0 sample_state);
      unfold KHEAP_START, KHEAP_INITIAL_SIZE; try reflexivity; sample_lia.
  - intros heap s' (Hh & Hheap & _). split; [exact Hh|exact Hheap].
Defined.

Lemma get_page_creates_table_witness :
  wp (page <- get_page 4194304 1 8192; page' <- get_page 4202496 0 8192; ret (page, page'))
    (fun r s' => exists t, r = (t, t + 8) /\ t mod 4096 = 0 /\ load32 (mem s') (t + 8) = 0) sample_state.
Proof.
  eapply wp_mono.
  - apply (get_page_creates_table 8192 4194304 4202496 0 sample_state);
      [unfold directory, region; lia|intros b Hb; cbn [km_live early_kmalloc_laws]; sample_lia|cbn [km_ready early_kmalloc_laws]; sample_lia|lia|reflexivity|reflexivity].
  - intros r s' (t & phys & Hr & _ & Htm & _ & _ & _ & _ & Hz). exists t. rewrite Hr.
    split.
    + replace (page_index 4194304) with 0 by reflexivity.
      replace (page_index 4202496) with 2 by reflexivity. f_equal; lia.
    + split; [exact Htm|]. apply (Hz 2). lia.
Defined.
End BootSample.
