(* ===== verification/KheapAligned.v ===== *)
(** * Page-aligned allocation

    [alloc] with [page_align]: the part of the hole in front of the page boundary
    stays a hole, the block follows it, and what is left behind the block becomes
    another hole. *)

From Stdlib Require Import ZArith Lia List String Sorting.
From stdpp Require Import base list gmap.
From S2P Require Import Prelude Machine Kernel Common Monitor OrderedArray Kmalloc Frames Paging Kheap.
From S2P Require Import KheapSpec.

(** ** Placing an aligned block *)

(** The hole at [h] keeps [gap h] bytes: a header in front of the page boundary
    belongs to the block. *)
Definition gap (h : Z) : Z := 4096 - h mod 4096 - 12.

Section PlaceAligned.
Context `{Linkage, Kmalloc} (heap base cap : Z) (l : list Z) (st en : Z).

(** What [alloc] needs of the heap to cut an aligned block of [size] bytes from
    the hole at [h], of size [n] and at position [k] of the index: there is room
    for the marks of the hole in front and of the hole behind. *)
Record fits_aligned (m : memory) (k : nat) (h n size : Z) : Prop := FitsAligned {
  fa_heap : heap_at m heap base cap l st en;
  fa_fun : load32 m (heap + 12) = sym_header_t_less_than;
  fa_sym : sym_header_t_less_than <> 0;
  fa_cap : Z.of_nat (length l) + 3 <= cap < 2147483648;
  fa_k : l !! k = Some h;
  fa_n : hole_size m h = n;
  fa_in : st <= h /\ h + n <= en /\ en < 4294967296;
  fa_page : 4096 <= h;
  fa_gap : 20 <= gap h;
  fa_size : 0 <= size;
  fa_rest : n = gap h + (size + 20) \/ gap h + (size + 20) + 20 <= n;
  fa_entries : Forall (entry_apart heap base cap) l
}.

Section Steps.
Context (s : kstate) (k : nat) (h n size : Z).
Hypothesis Hf : fits_aligned (mem s) k h n size.
Let g := gap h.
Let b := h + g.
Let new := size + 20.
Let rest := n - g - new.

(** The hole in front, as the code marks it. *)
Definition write_gap (m : memory) : memory :=
  store32 (store32 (store8 (store32 (store32 m (h + 8) g) h HEAP_MAGIC) (h + 4) 1)
    (b - 8) HEAP_MAGIC) (b - 8 + 4) h.

(** The bytes of the hole that are no marks afterwards. *)
Definition inside_aligned (a : Z) : Prop :=
  h + 12 <= a < h + n - 8 /\ ~ (b - 8 <= a < b + 12) /\ ~ (b + new - 8 <= a < b + new + 12).

Definition placed_aligned (m' : memory) : Prop :=
  header_at m' h true g /\ footer_at m' h g /\ header_at m' b false new /\ footer_at m' b new /\
  (0 < rest -> header_at m' (b + new) true rest /\ footer_at m' (b + new) rest) /\
  heap_at m' heap base cap
    (if 0 <? rest then Spec.insert (fun y => hole_size m' y <? hole_size m' (b + new)) (b + new) l
     else l) st en /\
  same_on (fun a => ~ index_mem heap base cap a /\ ~ (h <= a < h + n)) (mem s) m' /\
  index_tail base cap (if 0 <? rest then S (length l) else length l) (mem s) m' /\
  same_on inside_aligned (mem s) m'.

Lemma bounds : 0 <= st /\ 20 <= g <= 4084 /\ b + new <= h + n /\ 0 <= rest /\ (rest = 0 \/ 20 <= rest) /\
  b + new + rest = h + n.
Proof using Hf.
  destruct Hf. destruct (heap_area _ _ _ _ _ _ _ fa_heap0). unfold rest, b, new, g, gap in *.
  pose proof (Z.mod_pos_bound h 4096). lia.
Qed.

Lemma write_gap_spec m :
  header_at (write_gap m) h true g /\ footer_at (write_gap m) h g /\
  same_outside h (h + g) m (write_gap m).
Proof using Hf.
  pose proof bounds as (? & ? & ? & ? & ? & ?). destruct Hf. unfold write_gap, header_at, footer_at.
  unfold b in *. split_and!; try (read_stores; rewrite ?u32_id by lia; reflexivity).
  - replace (h + g - 4) with (h + g - 8 + 4) by lia. read_stores. apply u32_id. lia.
  - intros a Ha Ha'. by read_stores.
Qed.

Lemma write_gap_marks m :
  same_on (fun a => ~ (h <= a < h + 12) /\ ~ (b - 8 <= a < b)) m (write_gap m).
Proof using Hf.
  pose proof bounds as (? & ? & ? & ? & ? & ?). destruct Hf. intros a Ha [??]. unfold write_gap. unfold b in *.
  by read_stores.
Qed.

(** The gap and the block are marked. *)
Lemma place_marks :
  let m2 := write_segment (write_gap (mem s)) b 0 new in
  heap_at m2 heap base cap l st en /\ header_at m2 h true g /\ footer_at m2 h g /\
  header_at m2 b false new /\ footer_at m2 b new /\ same_outside h (b + new) (mem s) m2.
Proof using Hf.
  intros m2. pose proof bounds as (? & ? & ? & ? & ? & ?).
  destruct (write_gap_spec (mem s)) as (Hh1 & Hf1 & Ho1).
  destruct (write_segment_spec (write_gap (mem s)) b false new) as (Hh2 & Hf2 & Ho2);
    [destruct Hf; unfold b, new; unfold region; lia|destruct Hf; unfold b, new; lia..|].
  assert (Hout : same_outside h (b + new) (mem s) m2).
  { destruct Hf. eapply same_outside_trans; (eapply same_outside_weaken; [..|eassumption]); unfold b, new; lia. }
  assert (Hon : same_on (fun a => h <= a < b) (write_gap (mem s)) m2).
  { intros a Ha Ha'. apply Ho2; [done|lia]. }
  split; [|split; [|split; [|split; [exact Hh2|split; [exact Hf2|exact Hout]]]]].
  - destruct Hf. eapply heap_at_area; [exact fa_heap0|exact Hout|lia|lia|unfold b, new; lia].
  - destruct Hf. eapply header_frame; [exact Hh1|exact Hon|unfold region; lia|unfold b; cbv beta; lia].
  - destruct Hf. eapply footer_frame; [exact Hf1|exact Hon|lia|unfold region; lia|unfold b; cbv beta; lia].
Qed.

(** What is not a mark of the gap or of the block is as it was. *)
Lemma aligned_inside :
  same_on inside_aligned (mem s) (write_segment (write_gap (mem s)) b 0 new).
Proof using Hf.
  pose proof bounds as (? & ? & ? & ? & ? & ?). pose proof Hf as [].
  assert (b = h + g) by done. assert (new = size + 20) by done.
  intros a Ha (Ha1 & Ha2 & Ha3). rewrite write_segment_marks, write_gap_marks by (done || lia). done.
Qed.

Lemma aligned_whole : rest = 0 -> placed_aligned (write_segment (write_gap (mem s)) b 0 new).
Proof using Hf.
  intros Hr. pose proof bounds as (? & ? & ? & ? & ? & ?).
  destruct place_marks as (Hheap2 & Hh1 & Hf1 & Hh2 & Hf2 & Hout2). pose proof aligned_inside as Hi.
  set (m2 := write_segment (write_gap (mem s)) b 0 new) in *.
  unfold placed_aligned. fold g b new rest. rewrite !(proj2 (Z.ltb_ge 0 rest)) by lia.
  assert (b = h + g) by done. assert (new = size + 20) by done. destruct Hf.
  split_and!; try done; [lia| |].
  - intros a Ha [_ Ha3]. apply Hout2; [done|lia].
  - eapply area_index_tail; [exact fa_heap0|exact Hout2|lia..].
Qed.

Lemma aligned_split m' :
  0 < rest -> left_hole heap base cap st en l (b + new) rest (write_segment (write_gap (mem s)) b 0 new) m' ->
  placed_aligned m'.
Proof using Hf.
  intros Hr (Hh3 & Hf3 & Hheap' & Hs' & Ht'). pose proof bounds as (? & ? & ? & ? & ? & ?).
  destruct place_marks as (_ & Hh1 & Hf1 & Hh2 & Hf2 & Hout2). pose proof aligned_inside as Hi.
  set (m2 := write_segment (write_gap (mem s)) b 0 new) in *.
  unfold placed_aligned. fold g b new rest. rewrite !(proj2 (Z.ltb_lt 0 rest)) by lia.
  assert (b = h + g) by done. assert (new = size + 20) by done. destruct Hf.
  assert (Ha : forall a, st <= a < en -> ~ index_mem heap base cap a) by (intros a; by eapply area_not_index).
  assert (Hon : same_on (fun a => h <= a < b + new) m2 m').
  { intros a Ha1 Ha2. apply Hs'; [done|]. split; [apply Ha; lia|lia]. }
  split_and!; try done;
    try (eapply header_frame; [eassumption|exact Hon|unfold region; lia|cbv beta; lia]);
    try (eapply footer_frame; [eassumption|exact Hon|lia|unfold region; lia|cbv beta; lia]).
  - intros a Ha1 [Ha2 Ha3]. rewrite Hs' by (done || (split; [done|lia])). apply Hout2; [done|lia].
  - eapply index_tail_trans; [|exact Ht'|by apply Nat.le_succ_diag_r].
    eapply area_index_tail; [exact fa_heap0|exact Hout2|lia..].
  - intros a Ha1 Ha2. pose proof Ha2 as (Ha3 & Ha4 & Ha5).
    rewrite Hs' by (done || (split; [apply Ha; lia|lia])). by apply Hi.
Qed.

Lemma front_hole_spec :
  wp (front_hole h n) (fun r t => r = (b, n - g) /\ t = set_mem (write_gap (mem s)) s) s.
Proof using Hf.
  pose proof bounds as (? & ? & ? & ? & ? & ?). pose proof Hf as [].
  assert (Hb : b = h + g) by done. assert (Hgap : g = 4096 - h mod 4096 - 12) by done.
  pose proof (Z.mod_pos_bound h 4096). unfold front_hole, sizeof_header, sizeof_footer.
  change (Z.land h 4095) with (Z.land h (Z.ones 12)). rewrite Z.land_ones by lia. change (2 ^ 12) with 4096.
  rewrite (u32_id (h + 4096 - h mod 4096 - 12)) by lia. rewrite (u32_id (4096 - h mod 4096 - 12)) by lia.
  replace (h + 4096 - h mod 4096 - 12) with b by lia. rewrite <- Hgap. rewrite (u32_id (b - 8)) by lia.
  unfold set_header_magic, set_header_is_hole, set_header_size, set_footer_magic, set_footer_header,
    get_header_size. k_steps. cbn [mem set_mem]. rewrite !set_mem_set_mem. fold (write_gap (mem s)).
  destruct (write_gap_spec (mem s)) as ((_ & _ & Hgs) & _). rewrite Hgs, (u32_id (n - g)) by lia. done.
Qed.

Lemma place_aligned_spec :
  wp (alloc_place (Z.of_nat k) size 1 heap)
    (fun p s' => p = b + 12 /\ exists m', s' = set_mem m' s /\ placed_aligned m') s.
Proof using Hf.
  pose proof bounds as (Hst & Hg & Hbn & Hrest0 & Hrest & Hsum).
  pose proof Hf as []. pose proof (lookup_lt_Some _ _ _ fa_k0) as Hlen.
  assert (Hb : b = h + g) by done. assert (Hnew : new = size + 20) by done.
  assert (Hr : rest = n - g - new) by done. assert (Hgap : g = 4096 - h mod 4096 - 12) by done.
  pose proof (Z.mod_pos_bound h 4096).
  unfold alloc_place. apply wp_bind. rewrite u32_id by lia.
  eapply wp_mono; [apply (lookup_spec heap base l); [by eapply heap_oa|lia]|].
  intros h' ? (-> & Hh'). rewrite Nat2Z.id in Hh'. assert (h' = h) as -> by congruence.
  unfold get_header_size at 1. k_steps. fold (hole_size (mem s) h). rewrite fa_n0.
  unfold sizeof_header, sizeof_footer. change (12 + 8) with 20.
  rewrite (u32_id (size + 12 + 8)) by lia. replace (size + 12 + 8) with new by lia.
  rewrite (u32_id (n - new)) by lia. replace (n - new <? 20) with false by blia. cbv iota beta.
  rewrite page_of by lia. change (truth 1) with true. unfold truth.
  replace (h / 4096 * 4096 =? 0) with false by (symmetry; apply Z.eqb_neq; dlia). cbn [negb andb].
  k_steps. eapply wp_mono; [apply front_hole_spec|]. intros ? ? [-> ->]. rewrite (u32_id (b + 12)) by lia. k_steps.
  replace size with (new - 20) by lia.
  eapply wp_mono; [apply mark_block_spec; lia|]. intros [] t ->. rewrite set_mem_set_mem. cbn [mem set_mem].
  k_steps. destruct place_marks as (Hheap2 & _ & _ & _ & _ & Hout2).
  pose proof aligned_whole as Hwhole. pose proof aligned_split as Hsplit.
  set (m2 := write_segment (write_gap (mem s)) b 0 new) in *.
  destruct (decide (rest = 0)) as [Hz|Hz].
  - replace (n - g) with new by lia. eapply wp_mono; [apply leave_nothing|]. intros [] t ->. k_steps.
    split; [done|]. exists m2. split; [done|]. by apply Hwhole.
  - eapply wp_mono; [apply (leave_hole_spec heap base cap st en l); done || lia || idtac|].
    + cbn [mem set_mem]. rewrite <- fa_fun0. apply (less_than_field heap base cap st en _ _ fa_heap0).
      intros a Ha [_ Ha2]. apply Hout2; [done|lia].
    + intros [] t (m' & -> & Hl). cbn [mem set_mem] in Hl. rewrite <- Hr in Hl. k_steps.
      split; [done|]. rewrite set_mem_set_mem. exists m'. split; [done|]. apply Hsplit; [lia|done].
Qed.
End Steps.
End PlaceAligned.

(** ** Allocation *)

Section AllocAligned.
Context `{Linkage, Kmalloc} (heap base cap : Z) (l : list Z) (st en : Z).

Lemma alloc_aligned_spec k h n size s :
  fits_aligned heap base cap l st en (mem s) k h n size ->
  first_fit l (mem s) (size + 20) = Some k -> plain_test l (size + 20) 1 (mem s) ->
  wp (alloc size 1 heap) (fun p s' => p = h + gap h + 12 /\ exists m', s' = set_mem m' s /\
    placed_aligned heap base cap l st en s h n size m') s.
Proof.
  intros Hf Hk Htest. pose proof (bounds heap base cap l st en s k h n size Hf) as (? & ? & ? & ? & ? & ?).
  pose proof Hf as []. unfold alloc. apply wp_loop_once. unfold alloc_round, sizeof_header, sizeof_footer.
  rewrite (u32_id (size + 12 + 8)) by lia. replace (size + 12 + 8) with (size + 20) by lia. k_steps.
  eapply wp_mono; [apply (find_smallest_hole_spec heap base cap l st en); [done|lia|done]|].
  intros r ? (-> & ->). rewrite Hk. replace (Z.of_nat k =? -1) with false by blia. k_steps.
  eapply wp_mono; [by apply (place_aligned_spec heap base cap l st en s k h n size)|].
  intros p t (-> & Hm). by k_steps.
Qed.

(** The segments once an aligned block is cut from the hole at [h]. *)
Definition cut_aligned (pre : list (bool * Z)) (h n size : Z) (post : list (bool * Z)) : list (bool * Z) :=
  let rest := n - gap h - (size + 20) in
  pre ++ (true, gap h) :: (false, size + 20) :: (if 0 <? rest then [(true, rest)] else []) ++ post.

Lemma placed_aligned_tiles k h n size pre post s m' :
  fits_aligned heap base cap l st en (mem s) k h n size ->
  tiles (mem s) st pre h -> tiles (mem s) (h + n) post en ->
  placed_aligned heap base cap l st en s h n size m' ->
  tiles m' st (cut_aligned pre h n size post) en.
Proof.
  intros Hf Hpre Hpost (Hh1 & Hf1 & Hh2 & Hf2 & Hrest & _ & Hs & _).
  pose proof (bounds heap base cap l st en s k h n size Hf) as (? & Hg & Hbn & Hr0 & Hr & Hsum).
  pose proof Hf as []. unfold cut_aligned. set (rest := n - gap h - (size + 20)) in *.
  pose proof (tiles_le _ _ _ _ Hpre). pose proof (tiles_le _ _ _ _ Hpost).
  assert (Ha : forall b, st <= b < en -> ~ index_mem heap base cap b) by (intros b; by eapply area_not_index).
  rewrite tiles_app. exists h. split.
  { eapply tiles_frame; [exact Hpre|exact Hs|unfold region; lia|lia|].
    intros b Hb. split; [apply Ha; lia|lia]. }
  cbn [tiles]. split; [lia|]. split; [done|]. split; [done|]. split; [lia|]. split; [done|]. split; [done|].
  rewrite tiles_app. exists (h + n). split.
  + destruct (0 <? rest) eqn:E; bool_hyps; cbn [tiles]; [|lia].
    destruct Hrest as [? ?]; [lia|]. split_and!; [lia|done|done|lia].
  + eapply tiles_frame; [exact Hpost|exact Hs|unfold region; lia|lia|].
    intros b Hb. split; [apply Ha; lia|lia].
Qed.

(** C20: A page-aligned block, when the headers of the holes are at even addresses and the
    hole that the search takes has room for the block with at least 20 bytes in front of the block's header up to the page boundary, and
    nothing or at least 20 bytes behind ([fits_aligned]).  The hole is split in three,
    or in two when nothing is left behind: what is in front stays a hole at its place
    in the index, the block's address is on a page boundary, and what is behind is a
    hole that is inserted in the index; the other segments and the other bytes keep
    their place.  The search does not see to that room:
    [alloc_aligned_overruns] shows a block cut from a hole that it does not fit in. *)
Theorem alloc_page_aligned k h n size pre post s :
  fits_aligned heap base cap l st en (mem s) k h n size ->
  first_fit l (mem s) (size + 20) = Some k -> plain_test l (size + 20) 1 (mem s) ->
  tiles (mem s) st pre h -> tiles (mem s) (h + n) post en ->
  let rest := n - gap h - (size + 20) in
  wp (alloc size 1 heap) (fun p s' => p mod 4096 = 0 /\ h <= p /\ p + size <= h + n /\
    tiles (mem s') st
      (pre ++ (true, gap h) :: (false, size + 20) :: (if 0 <? rest then [(true, rest)] else []) ++ post) en /\
    (exists l', heap_at (mem s') heap base cap l' st en /\
       Permutation l' ((if 0 <? rest then [p + size + 8] else []) ++ l)) /\
    same_on (fun a => ~ index_mem heap base cap a /\ ~ (h <= a < h + n)) (mem s) (mem s')) s.
Proof.
  intros Hf Hk Htest Hpre Hpost rest.
  pose proof (bounds heap base cap l st en s k h n size Hf) as (? & Hg & Hbn & Hr0 & Hr & Hsum).
  fold rest in Hr0, Hr, Hsum. eapply wp_mono; [by apply (alloc_aligned_spec k h n size s)|].
  intros p s' (-> & m' & -> & Hp). pose proof Hp as (_ & _ & _ & _ & _ & Hheap & Hs & _). pose proof Hf as [].
  fold rest in Hheap. cbn [mem set_mem].
  split; [unfold gap; dlia|]. split; [lia|]. split; [lia|].
  split; [by apply (placed_aligned_tiles k h n size pre post s m')|]. split; [|exact Hs].
  eexists. split; [exact Hheap|]. replace (h + gap h + 12 + size + 8) with (h + gap h + (size + 20)) by lia.
  case_match; [apply Spec.insert_perm|done].
Qed.
End AllocAligned.

Module AlignedSample.
#[local] Existing Instance sample_linkage.

(** The heap structure at 4096, its index at 8192, a hole of 12288 bytes. *)
Definition sample_memory (n : Z) : memory :=
  KheapSample.words_at
    [(4096, 8192); (4100, 1); (4104, 64); (4108, 1056832); (4112, 16384); (4116, 28672); (4120, 32768);
     (8192, 16384); (16384, HEAP_MAGIC); (16388, 1); (16392, n)] ∅.
Definition sample_heap : kstate := set_mem (sample_memory 12288) sample_state.

Lemma aligned_heap_at : heap_at (mem sample_heap) 4096 8192 64 [16384] 16384 28672.
Proof.
  constructor; try reflexivity; try (unfold region; lia); try (cbn; lia); try lia.
  intros [|i] x Hx; [injection Hx as <-; reflexivity|done].
Qed.

Lemma aligned_fits : fits_aligned 4096 8192 64 [16384] 16384 28672 (mem sample_heap) 0 16384 12288 4096.
Proof.
  constructor; try reflexivity; try (cbn; lia).
  - apply aligned_heap_at.
  - vm_compute. discriminate.
  - right. vm_compute. discriminate.
  - constructor; [|constructor]. split; [unfold region; lia|]. unfold index_mem. lia.
Qed.

Lemma alloc_page_aligned_witness :
  wp (alloc 4096 1 4096) (fun p s' => p mod 4096 = 0 /\
    tiles (mem s') 16384 [(true, 4084); (false, 4116); (true, 4088)] 28672) sample_heap.
Proof.
  eapply wp_mono.
  - apply (alloc_page_aligned 4096 8192 64 [16384] 16384 28672 0 16384 12288 4096 [] [] sample_heap aligned_fits);
      [reflexivity| |reflexivity|reflexivity].
    right. split; [lia|]. split; [lia|]. constructor; [split; reflexivity|constructor].
  - intros p s' (Hp & _ & _ & Ht & _). split; [exact Hp|exact Ht].
Defined.

(** The search does not take the alignment into account: the block that [alloc]
    cuts from a hole of 4200 bytes for an aligned request of 3000 ends far behind
    the hole, in whatever follows it. *)
Definition tight_heap : kstate := set_mem (sample_memory 4200) sample_state.

Example alloc_aligned_overruns :
  wp (alloc 3000 1 4096) (fun p s' => p = 20480 /\ 16384 + 4200 < p + 3000 /\
    header_at (mem s') (p - 12) false 3020) tight_heap.
Proof. vm_compute. split; [reflexivity|]. split; [reflexivity|]. split_and!; reflexivity. Qed.
End AlignedSample.
