(* ===== verification/KheapWf.v ===== *)
(** * The heap's invariant, and the heap as an allocator

    [heap_wf]: the managed addresses are tiled by blocks and holes, and the index
    holds exactly the holes, besides the null pointers that removal leaves in it.
    Allocation keeps the invariant, and that makes the heap an implementation of
    the interface [AllocatorLaws] of its clients. *)

From Stdlib Require Import ZArith Lia List String Sorting.
From stdpp Require Import base list gmap.
From S2P Require Import Prelude Machine Kernel Common Monitor OrderedArray Kmalloc Frames Paging Kheap.
From S2P Require Import KheapSpec KheapBoot KheapAligned.

(** ** The invariant *)

(** The addresses of the holes among the segments from [a] on. *)
Fixpoint hole_addrs (a : Z) (segs : list (bool * Z)) : list Z :=
  match segs with
  | [] => []
  | (hole, n) :: rest => (if hole then [a] else []) ++ hole_addrs (a + n) rest
  end.

(** A null pointer in the index is taken for a hole whose size is the word at address 8, on
    a PC the vector of the non-maskable interrupt.  Null pointers are out of the way
    if that word is less than any hole's size; or if it is more than [room], the size of
    the heap, and they are all at the end of the index, where the search comes to them last:
    0xF000E2C3 is such a word. *)
Definition nulls_ok (m : memory) (room : Z) (l : list Z) (junk : nat) : Prop :=
  hole_size m 0 < 20 \/
  room < hole_size m 0 /\ exists real, l = real ++ replicate junk 0 /\ Forall (fun h => 0 < h) real.

(** [junk] null pointers are in the index. *)
Record heap_wf `{Linkage} (m : memory) (heap base cap st en : Z) (segs : list (bool * Z))
    (l : list Z) (junk : nat) : Prop := HeapWf {
  wf_heap : heap_at m heap base cap l st en;
  wf_fun : load32 m (heap + 12) = sym_header_t_less_than;
  wf_tiles : tiles m st segs en;
  wf_index : l ≡ₚ hole_addrs st segs ++ replicate junk 0;
  wf_tail : forall i, Z.of_nat (length l) <= i < cap -> load32 m (base + 4 * i) = 0;
  wf_null : nulls_ok m (en - st) l junk;
  wf_places : 12 <= heap /\ 12 <= base /\ 12 <= st /\ en < 4294967296 /\ cap < 2147483648
}.

(** *** Null pointers *)

Lemma nulls_frame P m m' room l junk :
  nulls_ok m room l junk -> same_on P m m' -> (forall b, 8 <= b < 12 -> P b) -> nulls_ok m' room l junk.
Proof.
  intros Hn Hs HP. assert (Hw : hole_size m' 0 = hole_size m 0).
  { eapply hole_size_frame; [exact Hs|unfold region; lia|]. intros b Hb. apply HP. lia. }
  unfold nulls_ok. by rewrite Hw.
Qed.

Lemma nulls_smaller m room room' l junk :
  nulls_ok m room l junk -> room' <= room \/ hole_size m 0 < 20 -> nulls_ok m room' l junk.
Proof. intros [?|[? ?]] [?|?]; [by left..|right|by left]. split; [lia|done]. Qed.

Lemma rank_before_nulls (lt : Z -> bool) real junk :
  lt 0 = false -> Spec.rank lt (real ++ replicate junk 0) = Spec.rank lt real.
Proof.
  intros H0. induction real as [|x r IH]; cbn; [|by case_match; rewrite ?IH].
  destruct junk; cbn; by rewrite ?H0.
Qed.

(** A hole goes in front of them. *)
Lemma nulls_insert m room l junk h :
  nulls_ok m room l junk -> 0 < h -> hole_size m h <= room ->
  nulls_ok m room (Spec.insert (fun y => hole_size m y <? hole_size m h) h l) junk.
Proof.
  intros [?|(Hr & real & -> & Hpos)] Hh Hle; [by left|right]. split; [done|].
  unfold Spec.insert. rewrite rank_before_nulls by blia. set (k := Spec.rank _ real).
  assert (k <= length real)%nat by apply Spec.rank_le.
  exists (take k real ++ h :: drop k real). rewrite take_app_le, drop_app_le by done. split; [by rewrite <- app_assoc|].
  apply Forall_app. split; [by apply Forall_take|]. constructor; [done|by apply Forall_drop].
Qed.

(** Removal appends two more. *)
Lemma nulls_remove m room l junk k h :
  nulls_ok m room l junk -> l !! k = Some h -> 0 < h -> nulls_ok m room (delete k l ++ [0; 0]) (S (S junk)).
Proof.
  intros [?|(Hr & real & -> & Hpos)] Hk Hh; [by left|right]. split; [done|].
  assert (Hlt : (k < length real)%nat).
  { destruct (decide (k < length real)%nat) as [|Hge]; [done|]. rewrite lookup_app_r in Hk by lia.
    apply lookup_replicate in Hk as [-> _]. lia. }
  exists (delete k real). rewrite !delete_take_drop, take_app_le, drop_app_le by lia. split.
  - rewrite <- !app_assoc. do 2 f_equal. change [0; 0] with (replicate 2 0). rewrite <- replicate_add. f_equal. lia.
  - apply Forall_app. split; [by apply Forall_take|by apply Forall_drop].
Qed.

(** The search takes none of them when there is a hole that fits. *)
Lemma nulls_passed m room l junk size h0 k h :
  nulls_ok m room l junk -> 20 <= size -> h0 ∈ l -> 0 < h0 -> size <= hole_size m h0 ->
  list_find (fun h => size <= hole_size m h) l = Some (k, h) -> h <> 0.
Proof.
  intros [?|(Hr & real & -> & Hpos)] Hsz Hin H0 Hfit Hfind.
  - apply list_find_Some in Hfind as (_ & Hh & _). intros ->. lia.
  - assert (Hreal : h0 ∈ real).
    { apply elem_of_app in Hin as [?|Hin]; [done|]. apply elem_of_replicate in Hin as [-> _]. lia. }
    destruct (list_find_elem_of (fun h => size <= hole_size m h) real h0 Hreal Hfit) as [[k1 h1] Hf].
    rewrite (list_find_app_l _ _ _ _ _ Hf) in Hfind. injection Hfind as <- <-.
    apply list_find_Some in Hf as (Hl & _). pose proof (Forall_lookup_1 _ _ _ _ Hpos Hl). cbv beta in *. lia.
Qed.

Lemma hole_addrs_app m a pre post c :
  tiles m a pre c -> hole_addrs a (pre ++ post) = hole_addrs a pre ++ hole_addrs c post.
Proof.
  revert a. induction pre as [|[b n] r IH]; intros a H; cbn in *; [by subst|].
  destruct H as (_ & _ & _ & H). by rewrite (IH _ H), app_assoc.
Qed.

Lemma tiles_end m m' a segs e e' : tiles m a segs e -> tiles m' a segs e' -> e = e'.
Proof.
  revert a. induction segs as [|[b n] r IH]; intros a H H'; cbn in *; [congruence|].
  destruct H as (_ & _ & _ & H), H' as (_ & _ & _ & H'). by eapply IH.
Qed.

Lemma hole_addrs_split m a segs e h :
  tiles m a segs e -> h ∈ hole_addrs a segs ->
  exists pre n post, segs = pre ++ (true, n) :: post /\ tiles m a pre h /\ tiles m (h + n) post e /\
    20 <= n /\ hole_size m h = n.
Proof.
  revert a. induction segs as [|[b n] r IH]; intros a Ht Hh; cbn in *; [by apply not_elem_of_nil in Hh|].
  destruct Ht as (Hn & (Hd1 & Hd2 & Hd3) & Hft & Hr). apply elem_of_app in Hh as [Hh|Hh].
  - destruct b; [|by apply not_elem_of_nil in Hh]. apply list_elem_of_singleton in Hh as ->.
    exists [], n, r. by split_and!.
  - destruct (IH _ Hr Hh) as (pre & n' & post & -> & H1 & H2 & H3 & H4).
    exists ((b, n) :: pre), n', post. cbn. by split_and!.
Qed.

Lemma tiles_hole m a segs e n :
  tiles m a segs e -> (true, n) ∈ segs -> exists h, h ∈ hole_addrs a segs /\ hole_size m h = n.
Proof.
  revert a. induction segs as [|[b k] r IH]; intros a Ht Hh; cbn in *; [by apply not_elem_of_nil in Hh|].
  destruct Ht as (Hk & (Hd1 & Hd2 & Hd3) & Hft & Hr). apply elem_of_cons in Hh as [[= <- <-]|Hh].
  - exists a. split; [apply elem_of_app; left; by apply list_elem_of_singleton|done].
  - destruct (IH _ Hr Hh) as (h & H1 & H2). exists h. split; [apply elem_of_app; by right|done].
Qed.

(** Memory determines the segments. *)
Lemma tiles_unique m a segs1 segs2 e :
  tiles m a segs1 e -> tiles m a segs2 e -> segs1 = segs2.
Proof.
  revert a segs2. induction segs1 as [|[b n] r IH]; intros a segs2 H1 H2.
  - cbn in H1. subst. destruct segs2 as [|[b n] r]; [done|]. cbn in H2.
    destruct H2 as (? & _ & _ & H2%tiles_le). lia.
  - destruct segs2 as [|[b' n'] r']; cbn in H1, H2.
    + subst. destruct H1 as (? & _ & _ & H1%tiles_le). lia.
    + destruct H1 as (_ & (_ & B1 & N1) & _ & H1), H2 as (_ & (_ & B2 & N2) & _ & H2).
      assert (n = n') as <- by congruence. assert (b = b') as <- by (destruct b, b'; cbn in *; congruence).
      f_equal. by eapply IH.
Qed.

(** ** Allocation keeps the invariant *)

Section Alloc.
Context `{Linkage, Kmalloc} (heap base cap st en : Z) (segs : list (bool * Z)) (l : list Z) (junk : nat).
Context (s : kstate).
Hypothesis Hsym : sym_header_t_less_than <> 0.
Hypothesis Hwf : heap_wf (mem s) heap base cap st en segs l junk.

(** An entry of the index that may hold a block is a hole. *)
Lemma wf_entry h :
  h ∈ l -> h <> 0 ->
  exists pre n post, segs = pre ++ (true, n) :: post /\ tiles (mem s) st pre h /\
    tiles (mem s) (h + n) post en /\ hole_size (mem s) h = n.
Proof using Hwf.
  intros Hh Hn. destruct Hwf. rewrite wf_index0 in Hh. apply elem_of_app in Hh as [Hh|Hh].
  - destruct (hole_addrs_split _ _ _ _ _ wf_tiles0 Hh) as (pre & n & post & ? & ? & ? & _ & ?). by exists pre, n, post.
  - by apply elem_of_replicate in Hh as [-> _].
Qed.

(** Where a hole is. *)
Lemma wf_hole_pos h : h ∈ hole_addrs st segs -> 0 < h.
Proof using Hwf.
  intros Hh. destruct Hwf. destruct (hole_addrs_split _ _ _ _ _ wf_tiles0 Hh) as (pre & n & post & _ & H1%tiles_le & _). lia.
Qed.

Lemma wf_apart h : h ∈ l \/ h = 0 -> entry_apart heap base cap h.
Proof using Hwf.
  intros Hh. pose proof Hwf as []. assert (Hcase : h = 0 \/ h ∈ hole_addrs st segs).
  { destruct Hh as [Hh| ->]; [|by left]. rewrite wf_index0 in Hh. apply elem_of_app in Hh as [Hh|Hh]; [by right|].
    apply elem_of_replicate in Hh as [-> _]. by left. }
  destruct Hcase as [->|Hin].
  - split; [unfold region; lia|]. intros b Hb. unfold index_mem. lia.
  - destruct (hole_addrs_split _ _ _ _ _ wf_tiles0 Hin) as (pre & n & post & _ & H1%tiles_le & H2%tiles_le & Hn & _).
    split; [unfold region; lia|]. intros b Hb. eapply area_not_index; [exact wf_heap0|lia].
Qed.

(** The block is cut from some hole that is large enough when there is one. *)
Lemma wf_fits size n0 :
  0 <= size -> (true, n0) ∈ segs -> size + 20 <= n0 -> Z.of_nat (length l) + 4 <= cap ->
  exists k h n pre post, fits (mem s) heap base cap l st en k h n size /\ size + 20 <= n /\
    segs = pre ++ (true, n) :: post /\ tiles (mem s) st pre h /\ tiles (mem s) (h + n) post en.
Proof using Hsym Hwf.
  intros Hsz Hin Hn0 Hcap. pose proof Hwf as [].
  destruct (tiles_hole _ _ _ _ _ wf_tiles0 Hin) as (h0 & Hh0 & Hs0).
  assert (Hl0 : h0 ∈ l) by (rewrite wf_index0; apply elem_of_app; by left).
  assert (Hfit0 : size + 20 <= hole_size (mem s) h0) by lia.
  destruct (list_find_elem_of (fun h => size + 20 <= hole_size (mem s) h) l h0 Hl0 Hfit0) as [[k h] Hk].
  pose proof Hk as (Hkh & Hfit & _)%list_find_Some. pose proof (list_elem_of_lookup_2 _ _ _ Hkh) as Hh.
  pose proof (nulls_passed _ _ _ _ (size + 20) _ _ _ wf_null0 ltac:(lia) Hl0 (wf_hole_pos h0 Hh0) Hfit0 Hk) as Hne.
  destruct (wf_entry h Hh Hne) as (pre & n & post & Hsegs & Hpre & Hpost & Hn).
  exists k, h, n, pre, post. rewrite <- Hn at 2. split; [|done].
  pose proof (tiles_le _ _ _ _ Hpre). pose proof (tiles_le _ _ _ _ Hpost).
  constructor; try done; try lia.
  - unfold first_fit. by rewrite Hk.
  - rewrite wf_tail0 by lia. apply Forall_app. split; [|by apply Forall_cons; split; [|apply Forall_singleton]; apply wf_apart; right].
    apply Forall_forall. intros e He. apply wf_apart. left.
    rewrite (delete_Permutation l k h Hkh). by right.
Qed.

(** The index loses the hole and gets what is left of it, and two null pointers. *)
Lemma wf_index_after k h n pre post (rest : list Z) :
  l !! k = Some h -> tiles (mem s) st pre h -> segs = pre ++ (true, n) :: post ->
  rest ++ delete k l ++ [0; 0] ≡ₚ
  (hole_addrs st pre ++ rest ++ hole_addrs (h + n) post) ++ replicate (S (S junk)) 0.
Proof using Hwf.
  intros Hk Hpre Hsegs. destruct Hwf. subst segs. rewrite (hole_addrs_app _ _ _ _ _ Hpre) in wf_index0.
  cbn [hole_addrs] in wf_index0. rewrite (delete_Permutation l k h Hk) in wf_index0.
  cbn [app] in wf_index0. rewrite <- app_assoc in wf_index0. cbn [app] in wf_index0.
  rewrite <- Permutation_middle in wf_index0. apply Permutation_cons_inv in wf_index0.
  rewrite wf_index0. cbn [replicate]. solve_Permutation.
Qed.
(** The segments once a block of [new] bytes is cut from the hole between [pre] and
    [post]. *)
Definition cut (pre : list (bool * Z)) (n new : Z) (post : list (bool * Z)) : list (bool * Z) :=
  pre ++ (false, new) :: (if new <? n then [(true, n - new)] else []) ++ post.

Lemma cut_holes m a pre h n new post :
  tiles m a pre h -> new <= n ->
  hole_addrs a (cut pre n new post) =
  hole_addrs a pre ++ (if new <? n then [h + new] else []) ++ hole_addrs (h + n) post.
Proof using.
  intros Hpre Hn. unfold cut. rewrite (hole_addrs_app _ _ _ _ _ Hpre). f_equal. cbn [hole_addrs app].
  destruct (new <? n) eqn:E; bool_hyps; cbn [hole_addrs app].
  - by replace (h + new + (n - new)) with (h + n) by lia.
  - by replace (h + new) with (h + n) by lia.
Qed.

Lemma wf_placed k h n size pre post m' :
  fits (mem s) heap base cap l st en k h n size -> size + 20 <= n ->
  segs = pre ++ (true, n) :: post -> tiles (mem s) st pre h -> tiles (mem s) (h + n) post en ->
  placed heap base cap l st en s k h n size m' ->
  exists l', (length l' <= S (S (length l)))%nat /\
    heap_wf m' heap base cap st en (cut pre n (block_size n size) post) l' (S (S junk)).
Proof using Hsym Hwf.
  intros Hf Hsz Hsegs Hpre Hpost Hp. pose proof (placed_tiles _ _ _ _ _ _ _ _ _ _ _ _ _ _ Hf Hsz Hpre Hpost Hp) as Ht.
  pose proof Hf as []. pose proof Hwf as []. pose proof Hp as (_ & _ & _ & Hh & Hs & Htail & _).
  destruct (block_size_range n size) as [Hr1 Hr2]; [lia..|]. set (new := block_size n size) in *.
  pose proof (tiles_le _ _ _ _ Hpre). pose proof (tiles_le _ _ _ _ Hpost).
  assert (Hstale : stale_word base l s = 0) by (apply wf_tail0; lia).
  assert (Hlen : length (index_without base l s k) = S (length l)).
  { unfold index_without. rewrite length_app, length_delete by (by eexists). cbn.
    apply lookup_lt_Some in fits_h. lia. }
  assert (Hon : same_on (fun b => ~ index_mem heap base cap b /\ ~ (st <= b < en)) (mem s) m').
  { intros b Hb [Hb1 Hb2]. apply Hs; [done|]. split; [done|lia]. }
  eexists. split; cycle 1.
  - constructor; [exact Hh| |exact Ht| | | |done].
    + rewrite <- wf_fun0. by eapply less_than_field.
    + rewrite (cut_holes _ _ _ _ _ _ _ Hpre) by lia.
      etransitivity; [|apply (wf_index_after k h n pre post _ fits_h Hpre Hsegs)].
      unfold index_without in *. rewrite Hstale. case_match; [apply Spec.insert_perm|done].
    + intros i Hi. rewrite Htail; [apply wf_tail0|];
        (revert Hi; case_match; rewrite ?Spec.length_insert_spec, Hlen; lia).
    + assert (Hnull : nulls_ok m' (en - st) (index_without base l s k) (S (S junk))).
      { eapply (nulls_frame _ (mem s)); [|exact Hon|unfold index_mem; lia]. unfold index_without. rewrite Hstale.
        eapply nulls_remove; [done|exact fits_h|lia]. }
      fold new. destruct (new <? n) eqn:E; bool_hyps; [|done]. apply nulls_insert; [done|lia|].
      destruct Hp as (_ & _ & [(_ & _ & Hz) _] & _); [fold new; lia|]. fold new in Hz. unfold hole_size. lia.
  - case_match; rewrite ?Spec.length_insert_spec, Hlen; lia.
Qed.

(** The same for a page-aligned block, which leaves two holes, or one. *)
Lemma wf_placed_aligned k h n size pre post m' :
  fits_aligned heap base cap l st en (mem s) k h n size ->
  segs = pre ++ (true, n) :: post -> tiles (mem s) st pre h -> tiles (mem s) (h + n) post en ->
  placed_aligned heap base cap l st en s h n size m' ->
  exists l', (length l' <= S (length l))%nat /\
    heap_wf m' heap base cap st en (cut_aligned pre h n size post) l' junk.
Proof using Hsym Hwf.
  intros Hf Hsegs Hpre Hpost Hp.
  pose proof (placed_aligned_tiles _ _ _ _ _ _ _ _ _ _ _ _ _ _ Hf Hpre Hpost Hp) as Ht.
  pose proof (bounds heap base cap l st en s k h n size Hf) as (? & Hg & Hbn & Hr0 & Hr & Hsum).
  pose proof Hf as []. pose proof Hwf as []. pose proof Hp as (_ & _ & _ & _ & _ & Hh & Hs & Htail & _).
  unfold cut_aligned in *. set (rest := n - gap h - (size + 20)) in *.
  assert (Hon : same_on (fun b => ~ index_mem heap base cap b /\ ~ (st <= b < en)) (mem s) m').
  { intros b Hb [Hb1 Hb2]. apply Hs; [done|]. split; [done|lia]. }
  eexists. split; cycle 1.
  - constructor; [exact Hh| |exact Ht| | | |done].
    + rewrite <- wf_fun0. by eapply less_than_field.
    + rewrite Hsegs, (hole_addrs_app _ _ _ _ _ Hpre) in wf_index0. rewrite (hole_addrs_app _ _ _ _ _ Hpre).
      cbn [hole_addrs app] in *. etransitivity; [|].
      { instantiate (1 := (if 0 <? rest then [h + gap h + (size + 20)] else []) ++ l).
        case_match; [apply Spec.insert_perm|done]. }
      rewrite wf_index0. destruct (0 <? rest) eqn:E; bool_hyps; cbn [hole_addrs app].
      * replace (h + gap h + (size + 20) + rest) with (h + n) by lia. solve_Permutation.
      * by replace (h + gap h + (size + 20)) with (h + n) by lia.
    + intros i Hi. rewrite Htail; [apply wf_tail0|];
        (revert Hi; case_match; rewrite ?Spec.length_insert_spec; lia).
    + assert (Hnull : nulls_ok m' (en - st) l junk) by (eapply nulls_frame; [exact wf_null0|exact Hon|unfold index_mem; lia]).
      fold rest. destruct (0 <? rest) eqn:E; bool_hyps; [|done]. apply nulls_insert; [done|lia|].
      destruct Hp as (_ & _ & _ & _ & [(_ & _ & Hz) _] & _); [fold rest; lia|]. fold rest in Hz. unfold hole_size. lia.
  - case_match; rewrite ?Spec.length_insert_spec; lia.
Qed.
End Alloc.

Section AllocWf.
Context `{Linkage, Kmalloc} (heap base cap st en : Z) (segs : list (bool * Z)) (l : list Z) (junk : nat).

(** What [alloc] does to a well-formed heap: the hole between [pre] and [post] is
    cut at [h]; the bytes that change are the index's and the hole's, and of
    these only the marks. *)
Record allocates (s : kstate) (size p : Z) (s' : kstate) (h n : Z) (pre post : list (bool * Z))
    (l' : list Z) : Prop := Allocates {
  as_segs : segs = pre ++ (true, n) :: post;
  as_before : tiles (mem s) st pre h;
  as_behind : tiles (mem s) (h + n) post en;
  as_address : p = h + 12;
  as_size : size + 20 <= n;
  as_state : s' = set_mem (mem s') s;
  as_wf : heap_wf (mem s') heap base cap st en (cut pre n (block_size n size) post) l' (S (S junk));
  as_index : (length l' <= S (S (length l)))%nat;
  as_frame : same_on (fun b => ~ index_mem heap base cap b /\ ~ (h <= b < h + n)) (mem s) (mem s');
  as_inside : same_on (fun b => h + 12 <= b < h + n - 8 /\
    ~ (h + block_size n size - 8 <= b < h + block_size n size + 12)) (mem s) (mem s')
}.

Lemma alloc_round_wf_spec size n0 s :
  sym_header_t_less_than <> 0 -> heap_wf (mem s) heap base cap st en segs l junk ->
  0 <= size -> (true, n0) ∈ segs -> size + 20 <= n0 -> Z.of_nat (length l) + 4 <= cap ->
  wp (alloc_round size 0 heap) (fun r s' => exists p h n pre post l', r = inr p /\
    allocates s size p s' h n pre post l') s.
Proof.
  intros Hsym Hwf Hsz Hin Hn0 Hcap.
  destruct (wf_fits heap base cap st en segs l junk s Hsym Hwf size n0 Hsz Hin Hn0 Hcap)
    as (k & h & n & pre & post & Hf & Hfit & Hsegs & Hpre & Hpost).
  eapply wp_mono; [by apply (alloc_round_spec heap base cap l st en k h n size s)|].
  intros r s' (-> & m' & -> & Hp).
  destruct (wf_placed _ _ _ _ _ _ _ _ _ Hsym Hwf k h n size pre post m' Hf Hfit Hsegs Hpre Hpost Hp)
    as (l' & Hlen & Hwf').
  exists (h + 12), h, n, pre, post, l'. split; [done|]. destruct Hp as (_ & _ & _ & _ & Hs & _ & Hi).
  by constructor.
Qed.

Lemma alloc_wf_spec size n0 s :
  sym_header_t_less_than <> 0 -> heap_wf (mem s) heap base cap st en segs l junk ->
  0 <= size -> (true, n0) ∈ segs -> size + 20 <= n0 -> Z.of_nat (length l) + 4 <= cap ->
  wp (alloc size 0 heap) (fun p s' => exists h n pre post l', allocates s size p s' h n pre post l') s.
Proof.
  intros. apply wp_loop_once. eapply wp_mono; [by apply (alloc_round_wf_spec size n0)|].
  intros r s' (p & h & n & pre & post & l' & -> & Ha). by exists h, n, pre, post, l'.
Qed.

(** C17: The heap's invariant is kept by [alloc] without alignment, when there is a hole that
    fits: the segments stay the same but for the hole that is cut, and the index
    holds the holes, each once, and besides them null pointers, of which there are
    two more than before. *)
Theorem alloc_keeps_wf size n0 s :
  sym_header_t_less_than <> 0 -> heap_wf (mem s) heap base cap st en segs l junk ->
  0 <= size -> (true, n0) ∈ segs -> size + 20 <= n0 -> Z.of_nat (length l) + 4 <= cap ->
  wp (alloc size 0 heap) (fun p s' => exists pre n post l',
    segs = pre ++ (true, n) :: post /\ tiles (mem s) st pre (p - 12) /\ size + 20 <= n /\
    heap_wf (mem s') heap base cap st en (cut pre n (block_size n size) post) l' (S (S junk))) s.
Proof.
  intros Hsym Hwf Hsz Hin Hn0 Hcap. eapply wp_mono; [by apply (alloc_wf_spec size n0 s)|].
  intros p s' (h & n & pre & post & l' & []). exists pre, n, post, l'. subst p.
  by replace (h + 12 - 12) with h by lia.
Qed.
End AllocWf.

(** ** Page-aligned blocks *)

Section AllocAligned.
Context `{Linkage, Kmalloc} (heap base cap st en : Z) (segs : list (bool * Z)) (l : list Z) (junk : nat).
Context (s : kstate).
Hypothesis Hsym : sym_header_t_less_than <> 0.
Hypothesis Hwf : heap_wf (mem s) heap base cap st en segs l junk.

Lemma hole_addrs_even a e :
  tiles (mem s) a segs e -> a mod 2 = 0 -> Forall (fun seg => seg.2 mod 2 = 0) segs ->
  Forall (fun h => h mod 2 = 0 /\ hole_size (mem s) h <= e - a) (hole_addrs a segs).
Proof using.
  clear Hwf. revert a. induction segs as [|[b n] r IH]; intros a Ht Ha Hs; cbn in *; [constructor|].
  destruct Ht as (Hn & (_ & _ & Hz) & _ & Ht). apply Forall_cons in Hs as [Hn2 Hs]. cbn in Hn2.
  pose proof (tiles_le _ _ _ _ Ht). apply Forall_app. split.
  - destruct b; constructor; [|constructor]. split; [done|]. unfold hole_size. lia.
  - eapply Forall_impl; [apply IH; [done|dlia|done]|]. intros h [??]. split; [done|lia].
Qed.

Lemma wf_plain_test size :
  0 <= size < 2147483648 -> st mod 2 = 0 -> en - st < 2147483648 ->
  Forall (fun seg => seg.2 mod 2 = 0) segs -> junk = 0%nat \/ hole_size (mem s) 0 < 20 ->
  plain_test l size 1 (mem s).
Proof using Hwf.
  intros Hsz Hst Hen Heven Hjunk. right. split; [lia|]. split; [done|]. destruct Hwf. rewrite wf_index0.
  apply Forall_app. split.
  - eapply Forall_impl; [by eapply hole_addrs_even|]. intros h [??]. split; [done|lia].
  - destruct Hjunk as [->|?]; [constructor|]. apply Forall_replicate. split; [done|lia].
Qed.

(** Only one hole is large enough. *)
Lemma only_hole size (pre pre' post post' : list (bool * Z)) n n' :
  Forall (fun seg => seg.1 = true -> seg.2 < size) (pre ++ post) -> size <= n' ->
  pre ++ (true, n) :: post = pre' ++ (true, n') :: post' -> pre = pre' /\ n = n' /\ post = post'.
Proof using.
  intros Hs Hn. apply Forall_app in Hs as [Hs1 Hs2]. revert pre' Hs1.
  induction pre as [|x r IH]; intros [|x' r'] Hs1 Heq; cbn in *.
  - by injection Heq as -> ->.
  - injection Heq as <- ->. apply Forall_app in Hs2 as [_ [Hc _]%Forall_cons]. cbn in Hc. specialize (Hc eq_refl). lia.
  - injection Heq as -> _. apply Forall_cons in Hs1 as [Hc _]. cbn in Hc. specialize (Hc eq_refl). lia.
  - injection Heq as <- Heq. apply Forall_cons in Hs1 as [_ Hs1].
    destruct (IH r' Hs1 Heq) as (-> & -> & ->). done.
Qed.

(** The block is cut from it, on the next page boundary behind it. *)
Lemma alloc_aligned_wf_spec size pre n post h :
  segs = pre ++ (true, n) :: post -> tiles (mem s) st pre h -> 
  Forall (fun seg => seg.1 = true -> seg.2 < size + 20) (pre ++ post) ->
  Forall (fun seg => seg.2 mod 2 = 0) segs -> st mod 2 = 0 -> en - st < 2147483648 ->
  0 <= size -> size + 20 <= n -> 4096 <= st -> 20 <= gap h ->
  n = gap h + (size + 20) \/ gap h + (size + 20) + 20 <= n -> Z.of_nat (length l) + 3 <= cap ->
  junk = 0%nat \/ hole_size (mem s) 0 < 20 ->
  wp (alloc size 1 heap) (fun p s' => p = h + gap h + 12 /\ s' = set_mem (mem s') s /\
    (exists l', (length l' <= S (length l))%nat /\
       heap_wf (mem s') heap base cap st en (cut_aligned pre h n size post) l' junk) /\
    same_on (fun b => ~ index_mem heap base cap b /\ ~ (h <= b < h + n)) (mem s) (mem s') /\
    same_on (inside_aligned h n size) (mem s) (mem s')) s.
Proof using Hsym Hwf.
  intros Hsegs Hpre Honly Heven Hst2 Hlt Hsz Hn Hst Hgap Hrest Hcap Hjunk. pose proof Hwf as [].
  pose proof wf_tiles0 as Ht. rewrite Hsegs, tiles_app in Ht. destruct Ht as (c & Hc1 & Hc2).
  assert (c = h) as -> by by eapply tiles_end. destruct Hc2 as (_ & (_ & _ & Hn') & _ & Hpost).
  assert (Hh : h ∈ l).
  { rewrite wf_index0, Hsegs, (hole_addrs_app _ _ _ _ _ Hpre). cbn.
    rewrite !elem_of_app. left. right. left. }
  assert (Hfit0 : size + 20 <= hole_size (mem s) h) by (unfold hole_size; lia).
  destruct (list_find_elem_of (fun h => size + 20 <= hole_size (mem s) h) l h Hh Hfit0) as [[k h'] Hk].
  pose proof Hk as (Hkh & Hfit & _)%list_find_Some. pose proof (list_elem_of_lookup_2 _ _ _ Hkh) as Hh'.
  pose proof (tiles_le _ _ _ _ Hpre).
  pose proof (nulls_passed _ _ _ _ (size + 20) _ _ _ wf_null0 ltac:(lia) Hh ltac:(lia) Hfit0 Hk) as Hne.
  destruct (wf_entry heap base cap st en segs l junk s Hwf h' Hh' Hne)
    as (pre' & n' & post' & Hsegs' & Hpre' & Hpost' & Hn2).
  rewrite Hsegs in Hsegs'. destruct (only_hole (size + 20) pre pre' post post' n n' Honly ltac:(lia) Hsegs') as (<- & <- & <-).
  assert (h' = h) as -> by by eapply tiles_end.
  pose proof (tiles_le _ _ _ _ Hpre). pose proof (tiles_le _ _ _ _ Hpost).
  assert (Hf : fits_aligned heap base cap l st en (mem s) k h n size).
  { constructor; try done; try lia. apply Forall_forall. intros e He.
    apply (wf_apart heap base cap st en segs l junk s Hwf). by left. }
  eapply wp_mono; [apply (alloc_aligned_spec heap base cap l st en k h n size s Hf)|].
  - unfold first_fit. by rewrite Hk.
  - apply wf_plain_test; done || lia.
  - intros p s' (-> & m' & -> & Hp). split; [done|]. split; [done|]. split.
    + by eapply wf_placed_aligned.
    + by destruct Hp as (_ & _ & _ & _ & _ & _ & Hs & _ & Hi).
Qed.
End AllocAligned.

(** ** The allocator's own memory *)

(** Holes, and the marks of blocks. *)
Fixpoint free_mem (a : Z) (segs : list (bool * Z)) (b : Z) : Prop :=
  match segs with
  | [] => False
  | (hole, n) :: rest =>
      (a <= b < a + n /\ (hole = true \/ b < a + 12 \/ a + n - 8 <= b)) \/ free_mem (a + n) rest b
  end.

(** The inside of every hole is zero. *)
Fixpoint clean (m : memory) (a : Z) (segs : list (bool * Z)) : Prop :=
  match segs with
  | [] => True
  | (hole, n) :: rest =>
      (hole = true -> forall b, a + 12 <= b < a + n - 8 -> load8 m b = 0) /\ clean m (a + n) rest
  end.

Lemma free_mem_range m a segs e b : tiles m a segs e -> free_mem a segs b -> a <= b < e.
Proof.
  revert a. induction segs as [|[h n] r IH]; intros a Ht Hb; cbn in *; [done|].
  destruct Ht as (? & _ & _ & Hr). pose proof (tiles_le _ _ _ _ Hr).
  destruct Hb as [[? _]|Hb]; [lia|]. specialize (IH _ Hr Hb). lia.
Qed.

Lemma free_mem_app m a pre post c b :
  tiles m a pre c -> free_mem a (pre ++ post) b <-> free_mem a pre b \/ free_mem c post b.
Proof.
  revert a. induction pre as [|[h n] r IH]; intros a H; cbn in *; [subst; tauto|].
  destruct H as (_ & _ & _ & H). rewrite (IH _ H). tauto.
Qed.

Lemma clean_app m0 m a pre post c :
  tiles m0 a pre c -> clean m a (pre ++ post) <-> clean m a pre /\ clean m c post.
Proof.
  revert a. induction pre as [|[h n] r IH]; intros a H; cbn in *; [subst; tauto|].
  destruct H as (_ & _ & _ & H). rewrite (IH _ H). tauto.
Qed.

Lemma clean_frame m m' a segs e :
  clean m a segs -> tiles m a segs e -> region a e -> e < 4294967296 ->
  same_on (fun b => a <= b < e) m m' -> clean m' a segs.
Proof.
  revert a. induction segs as [|[h n] r IH]; intros a Hc Ht [??] He Hs; cbn in *; [done|].
  destruct Hc as [Hc Hr], Ht as (? & _ & _ & Ht). pose proof (tiles_le _ _ _ _ Ht). split.
  - intros Hh b Hb. rewrite Hs by lia. by apply Hc.
  - apply IH; [done|done|unfold region; lia|done|]. intros b ??. apply Hs; lia.
Qed.

(** The tiling is read from that memory alone. *)
Lemma tiles_own m m' a segs e :
  tiles m a segs e -> region a e -> e < 4294967296 -> same_on (free_mem a segs) m m' -> tiles m' a segs e.
Proof.
  revert a. induction segs as [|[h n] r IH]; intros a Ht [??] He Hs; cbn [tiles] in *; [done|].
  destruct Ht as (Hn & Hhd & Hft & Hr). pose proof (tiles_le _ _ _ _ Hr).
  split; [done|]. split; [|split].
  - eapply header_frame; [exact Hhd|exact Hs|unfold region; lia|]. intros b Hb. cbn. lia.
  - intros ->. eapply footer_frame; [by apply Hft|exact Hs|lia|unfold region; lia|]. intros b Hb. cbn. lia.
  - apply IH; [done|unfold region; lia|done|]. intros b Hb Hf. apply Hs; [done|]. cbn. by right.
Qed.


(** Cutting a block from a hole gives away the inside of the block, and nothing
    else. *)
Section Cut.
Context (m : memory) (a : Z) (pre : list (bool * Z)) (h n new : Z) (post : list (bool * Z)) (e : Z).
Hypothesis Hpre : tiles m a pre h.
Hypothesis Hpost : tiles m (h + n) post e.
Hypothesis Hnew : 20 <= new <= n.

Lemma cut_free b :
  free_mem a (cut pre n new post) b <->
  free_mem a pre b \/ (h <= b < h + n /\ (b < h + 12 \/ h + new - 8 <= b)) \/ free_mem (h + n) post b.
Proof using Hpre Hnew.
  unfold cut. rewrite (free_mem_app _ _ _ _ _ _ Hpre). cbn [free_mem app].
  destruct (new <? n) eqn:E; bool_hyps; cbn [free_mem app].
  - replace (h + new + (n - new)) with (h + n) by lia. intuition lia.
  - replace (h + new) with (h + n) by lia. intuition (lia || congruence).
Qed.

Lemma hole_free b :
  free_mem a (pre ++ (true, n) :: post) b <->
  free_mem a pre b \/ h <= b < h + n \/ free_mem (h + n) post b.
Proof using Hpre. clear Hnew. rewrite (free_mem_app _ _ _ _ _ _ Hpre). cbn [free_mem]. tauto. Qed.

Lemma cut_gives b :
  h + 12 <= b < h + new - 8 ->
  free_mem a (pre ++ (true, n) :: post) b /\ ~ free_mem a (cut pre n new post) b.
Proof using Hpre Hpost Hnew.
  intros Hb. rewrite hole_free, cut_free. split; [right; left; lia|].
  intros [Hf|[Hf|Hf]]; [apply (free_mem_range _ _ _ _ _ Hpre) in Hf|
    |apply (free_mem_range _ _ _ _ _ Hpost) in Hf]; lia.
Qed.

Lemma cut_shrinks b : free_mem a (cut pre n new post) b -> free_mem a (pre ++ (true, n) :: post) b.
Proof using Hpre Hnew. rewrite hole_free, cut_free. tauto. Qed.

Lemma cut_clean m' :
  0 <= a -> e < 4294967296 -> clean m a (pre ++ (true, n) :: post) ->
  same_on (fun b => a <= b < e /\ ~ (h <= b < h + n)) m m' ->
  same_on (fun b => h + 12 <= b < h + n - 8 /\ ~ (h + new - 8 <= b < h + new + 12)) m m' ->
  clean m' a (cut pre n new post) /\ forall b, h + 12 <= b < h + new - 8 -> load8 m' b = 0.
Proof using Hpre Hpost Hnew.
  intros Ha He Hc Hout Hin. pose proof (tiles_le _ _ _ _ Hpre). pose proof (tiles_le _ _ _ _ Hpost).
  apply (clean_app _ _ _ _ _ _ Hpre) in Hc as [Hc1 Hc2]. cbn [clean] in Hc2. destruct Hc2 as [Hc2 Hc3].
  specialize (Hc2 eq_refl).
  assert (Hz : forall b, h + 12 <= b < h + n - 8 -> ~ (h + new - 8 <= b < h + new + 12) -> load8 m' b = 0).
  { intros b Hb Hb'. rewrite Hin by lia. by apply Hc2. }
  assert (Hpre' : clean m' a pre).
  { eapply clean_frame; [exact Hc1|exact Hpre|unfold region; lia|lia|]. intros b ??. apply Hout; lia. }
  assert (Hpost' : clean m' (h + n) post).
  { eapply clean_frame; [exact Hc3|exact Hpost|unfold region; lia|lia|]. intros b ??. apply Hout; lia. }
  split; [|intros b Hb; apply Hz; lia].
  unfold cut. apply (clean_app _ _ _ _ _ _ Hpre). split; [done|]. cbn [clean app]. split; [done|].
  destruct (new <? n) eqn:E; bool_hyps; cbn [clean app].
  - replace (h + new + (n - new)) with (h + n) by lia. split; [|done]. intros _ b Hb. apply Hz; lia.
  - by replace (h + new) with (h + n) by lia.
Qed.
End Cut.

(** The same for a page-aligned block of [size] bytes. *)
Section CutAligned.
Context (m : memory) (a : Z) (pre : list (bool * Z)) (h n size : Z) (post : list (bool * Z)) (e : Z).
Hypothesis Hpre : tiles m a pre h.
Hypothesis Hpost : tiles m (h + n) post e.
Hypothesis Hsize : 0 <= size /\ 20 <= gap h /\ gap h + (size + 20) <= n.

Lemma cut_aligned_free b :
  free_mem a (cut_aligned pre h n size post) b <->
  free_mem a pre b \/
  (h <= b < h + n /\ ~ (h + gap h + 12 <= b < h + gap h + 12 + size)) \/ free_mem (h + n) post b.
Proof using Hpre Hsize.
  unfold cut_aligned. set (g := gap h) in *. clearbody g. rewrite (free_mem_app _ _ _ _ _ _ Hpre).
  destruct (0 <? n - g - (size + 20)) eqn:E; bool_hyps; cbn [free_mem app].
  - replace (h + g + (size + 20) + (n - g - (size + 20))) with (h + n) by lia. intuition (lia || congruence).
  - replace (h + g + (size + 20)) with (h + n) by lia. intuition (lia || congruence).
Qed.

Lemma cut_aligned_clean m' :
  0 <= a -> e < 4294967296 -> clean m a (pre ++ (true, n) :: post) ->
  same_on (fun b => a <= b < e /\ ~ (h <= b < h + n)) m m' -> same_on (inside_aligned h n size) m m' ->
  clean m' a (cut_aligned pre h n size post).
Proof using Hpre Hpost Hsize.
  intros Ha He Hc Hout Hin. pose proof (tiles_le _ _ _ _ Hpre). pose proof (tiles_le _ _ _ _ Hpost).
  apply (clean_app _ _ _ _ _ _ Hpre) in Hc as [Hc1 [Hc2 Hc3]]. specialize (Hc2 eq_refl).
  assert (Hz : forall b, inside_aligned h n size b -> load8 m' b = 0).
  { intros b Hb. pose proof Hb as (? & _). rewrite Hin by (done || lia). by apply Hc2. }
  assert (Hpre' : clean m' a pre).
  { eapply clean_frame; [exact Hc1|exact Hpre|unfold region; lia|lia|]. intros b ??. apply Hout; lia. }
  assert (Hpost' : clean m' (h + n) post).
  { eapply clean_frame; [exact Hc3|exact Hpost|unfold region; lia|lia|]. intros b ??. apply Hout; lia. }
  unfold cut_aligned, inside_aligned in *. set (g := gap h) in *. clearbody g.
  apply (clean_app _ _ _ _ _ _ Hpre). split; [done|]. cbn [clean app].
  split; [intros _ b Hb; apply Hz; lia|]. split; [done|].
  destruct (0 <? n - g - (size + 20)) eqn:E; bool_hyps; cbn [clean app].
  - replace (h + g + (size + 20) + (n - g - (size + 20))) with (h + n) by lia. split; [|done].
    intros _ b Hb. apply Hz; lia.
  - by replace (h + g + (size + 20)) with (h + n) by lia.
Qed.
End CutAligned.

(** ** The heap as an allocator *)

Section Laws.
Context `{Linkage} (base cap st en : Z).
Hypothesis Harea : 12 <= st /\ st <= en /\ en < 4294967296.
Hypothesis Hsym : sym_header_t_less_than <> 0.

(** The structure at [heap], the index and the word at 8 belong to the allocator. *)
Definition index_own (heap b : Z) : Prop :=
  8 <= b < 12 \/ heap <= b < heap + 32 \/ base <= b < base + 4 * cap.

Definition heap_own (s : kstate) (b : Z) : Prop :=
  index_own (kheap (hp s)) b \/
  st <= b < en /\ forall segs, tiles (mem s) st segs en -> free_mem st segs b.

Definition heap_clean (s : kstate) : Prop := forall segs, tiles (mem s) st segs en -> clean (mem s) st segs.

(** [n] more bytes: some hole has them, and the index has room for the blocks that
    they can be cut into, each of which takes two words. *)
Definition heap_budget (n : Z) (s : kstate) : Prop :=
  0 < kheap (hp s) /\ exists segs l junk,
    heap_wf (mem s) (kheap (hp s)) base cap st en segs l junk /\
    (n <= 32 \/ exists n0, (true, n0) ∈ segs /\ n <= n0) /\
    Z.of_nat (length l) + 2 * (n / 32) + 2 <= cap.

Lemma own_tiles s segs b : tiles (mem s) st segs en -> heap_own s b <->
  index_own (kheap (hp s)) b \/ free_mem st segs b.
Proof using Harea.
  intros Ht. unfold heap_own. split.
  - intros [Hb|[_ Hb]]; [by left|right; by apply Hb].
  - intros [Hb|Hb]; [by left|right]. split; [by eapply free_mem_range|].
    intros segs' Ht'. by rewrite (tiles_unique _ _ _ _ _ Ht' Ht).
Qed.

(** What others write does not touch the tiling. *)
Lemma own_same_tiles s m segs :
  same_on (heap_own s) (mem s) m -> tiles (mem s) st segs en <-> tiles m st segs en.
Proof using Harea.
  intros Hs. assert (Hto : forall segs', tiles (mem s) st segs' en -> tiles m st segs' en).
  { intros segs' Ht. eapply tiles_own; [exact Ht|unfold region; lia|lia|]. intros b Hb Hf. apply Hs; [done|].
    apply (own_tiles s segs' b Ht). by right. }
  split; [apply Hto|]. intros Ht. eapply tiles_own; [exact Ht|unfold region; lia|lia|].
  intros b Hb Hf. symmetry. apply Hs; [done|]. right. split; [by eapply free_mem_range|].
  intros segs' Ht'. by rewrite (tiles_unique _ _ _ _ _ (Hto _ Ht') Ht).
Qed.

Lemma own_frame s m g b :
  same_on (heap_own s) (mem s) m -> heap_own (set_fs g (set_mem m s)) b <-> heap_own s b.
Proof using Harea.
  intros Hs. unfold heap_own. cbn [hp mem set_fs set_mem].
  split; (intros [Hb|[Hb Hf]]; [by left|right; split; [done|]]); intros segs Ht; apply Hf;
    by apply (own_same_tiles s m segs Hs).
Qed.

Lemma clean_own_frame s m g : same_on (heap_own s) (mem s) m -> heap_clean s -> heap_clean (set_fs g (set_mem m s)).
Proof using Harea.
  intros Hs Hc segs Ht. cbn [mem set_fs set_mem] in *. apply (own_same_tiles s m segs Hs) in Ht.
  specialize (Hc segs Ht).
  assert (Hf : forall b, free_mem st segs b -> heap_own s b) by (intros b Hb; apply (own_tiles s segs b Ht); by right).
  assert (Hon : same_on (free_mem st segs) (mem s) m) by (intros b Hb ?; apply Hs; auto).
  clear Hs Hf. destruct Harea as (Ha & _ & He). assert (H0 : 0 <= st) by lia. clear Harea Ha. revert H0 Ht Hc Hon.
  generalize st. induction segs as [|[h n] r IH]; intros a Ha Ht Hc Hon; cbn in *; [done|].
  destruct Ht as (? & _ & _ & Ht), Hc as [Hc1 Hc2]. pose proof (tiles_le _ _ _ _ Ht). split.
  - intros Hh b Hb. rewrite Hon; [by apply Hc1|lia|]. left. split; [lia|by left].
  - apply IH; [lia|done|done|]. intros b ??. apply Hon; [done|by right].
Qed.

Lemma wf_own_frame s m segs l junk :
  same_on (heap_own s) (mem s) m -> heap_wf (mem s) (kheap (hp s)) base cap st en segs l junk ->
  heap_wf m (kheap (hp s)) base cap st en segs l junk.
Proof using Harea.
  intros Hs Hwf. pose proof Hwf as []. pose proof wf_heap0 as []. destruct heap_struct, heap_room.
  assert (Hown : same_on (index_own (kheap (hp s))) (mem s) m) by (intros b Hb ?; apply Hs; [done|by left]).
  assert (Hw : forall a, 0 <= a -> a + 4 <= 4294967296 ->
    a = 8 \/ kheap (hp s) <= a /\ a + 4 <= kheap (hp s) + 32 \/ base <= a /\ a + 4 <= base + 4 * cap ->
    load32 m a = load32 (mem s) a).
  { intros a ?? Ha. eapply load32_same_on; [exact Hown|unfold region; lia|]. intros b Hb. unfold index_own. lia. }
  constructor; try done.
  - constructor; rewrite ?Hw by lia; try done.
    intros i x Hx. pose proof (lookup_lt_Some _ _ _ Hx). rewrite Hw by lia. by apply heap_index_elems.
  - by rewrite Hw by lia.
  - by apply (own_same_tiles s m segs Hs).
  - intros i Hi. rewrite Hw by lia. by apply wf_tail0.
  - eapply nulls_frame; [exact wf_null0|exact Hown|]. intros b Hb. by left.
Qed.
Lemma budget_frame n s m g : same_on (heap_own s) (mem s) m -> heap_budget n s -> heap_budget n (set_fs g (set_mem m s)).
Proof using Harea.
  intros Hs (Hk & segs & l & junk & Hwf & Hb). split; [done|]. exists segs, l, junk. split; [|done].
  by apply (wf_own_frame s m).
Qed.

(** A hole of [n] bytes is still there, or what is left of it. *)
Lemma budget_left n sz segs pre k post :
  0 < sz -> segs = pre ++ (true, k) :: post -> sz + 20 <= k ->
  (exists n0, (true, n0) ∈ segs /\ n <= n0) ->
  n - sz - 32 <= 32 \/ exists n0, (true, n0) ∈ cut pre k (block_size k sz) post /\ n - sz - 32 <= n0.
Proof using.
  intros Hsz -> Hk (n0 & Hin & Hn). unfold cut. apply elem_of_app in Hin as [Hin|Hin].
  { right. exists n0. split; [apply elem_of_app; by left|lia]. }
  apply elem_of_cons in Hin as [[= ->]|Hin].
  - unfold block_size. destruct (k - (sz + 20) <? 20) eqn:E; bool_hyps; [left; lia|right].
    replace (sz + 20 <? k) with true by blia. exists (k - (sz + 20)). split; [|lia].
    apply elem_of_app. right. right. left.
  - right. exists n0. split; [|lia]. apply elem_of_app. right. right. apply elem_of_app. by right.
Qed.

Lemma allocates_own s sz p s' segs l junk h n pre post l' :
  heap_wf (mem s) (kheap (hp s)) base cap st en segs l junk ->
  0 <= sz -> allocates (kheap (hp s)) base cap st en segs l junk s sz p s' h n pre post l' ->
  (forall b, p <= b < p + sz -> heap_own s b /\ ~ heap_own s' b) /\
  (forall b, heap_own s' b -> heap_own s b) /\ same_on (fun b => ~ heap_own s b) (mem s) (mem s') /\
  (heap_clean s -> heap_clean s' /\ forall b, p <= b < p + sz -> load8 (mem s') b = 0).
Proof using Harea.
  intros Hwf Hsz Ha. assert (exists m', s' = set_mem m' s) as [m' ->] by (eexists; exact (as_state _ _ _ _ _ _ _ _ _ _ _ _ _ _ _ _ _ Ha)).
  destruct Ha as [Hsegs Hpre Hpost -> Hn _ Hwf' Hl Hfr Hin]. cbn [mem set_mem] in *.
  pose proof (wf_tiles _ _ _ _ _ _ _ _ _ Hwf) as Ht. pose proof (wf_tiles _ _ _ _ _ _ _ _ _ Hwf') as Ht'.
  destruct (block_size_range n sz) as [Hr _]; [lia|lia|]. set (new := block_size n sz) in *.
  assert (Hnew : 20 <= new <= n) by lia.
  pose proof (tiles_le _ _ _ _ Hpre). pose proof (tiles_le _ _ _ _ Hpost).
  assert (Ho : forall b, heap_own s b <-> index_own (kheap (hp s)) b \/ free_mem st segs b)
    by (intros b; by apply own_tiles).
  assert (Ho' : forall b, heap_own (set_mem m' s) b <->
      index_own (kheap (hp s)) b \/ free_mem st (cut pre n new post) b)
    by (intros b; by apply (own_tiles (set_mem m' s))).
  assert (Hnot : forall b, st <= b < en -> ~ index_own (kheap (hp s)) b).
  { intros b Hb. destruct (wf_heap _ _ _ _ _ _ _ _ _ Hwf) as [_ _ _ _ _ _ _ _ _ _ [??]]. unfold index_own. lia. }
  split; [|split; [|split]].
  - intros b Hb. rewrite Ho, Ho'. subst segs.
    destruct (cut_gives (mem s) st pre h n new post en Hpre Hpost Hnew b ltac:(lia)) as [Hg1 Hg2].
    split; [by right|]. intros [Hi|Hi]; [apply (Hnot b); [lia|done]|done].
  - intros b. rewrite Ho, Ho'. intros [Hi|Hi]; [by left|right]. subst segs.
    by eapply cut_shrinks.
  - intros b Hb Hno. apply Hfr; [done|]. rewrite Ho in Hno. split.
    + intros Hi. apply Hno. left. destruct (wf_heap _ _ _ _ _ _ _ _ _ Hwf). unfold index_mem, index_own in *. lia.
    + intros Hi. apply Hno. right. subst segs. rewrite (hole_free (mem s) st pre h n post Hpre). by right; left.
  - intros Hc. specialize (Hc segs Ht). subst segs.
    destruct (cut_clean (mem s) st pre h n new post en Hpre Hpost Hnew m') as [Hc1 Hc2]; [lia|lia|done| |exact Hin|].
    { intros b Hb [Hb1 Hb2]. apply Hfr; [done|]. split; [|lia]. intros Hi. apply (Hnot b); [done|].
      destruct (wf_heap _ _ _ _ _ _ _ _ _ Hwf). unfold index_mem, index_own in *. lia. }
    split; [|intros b Hb; apply Hc2; lia]. intros segs Hs. cbn [mem set_mem] in *.
    by rewrite (tiles_unique _ _ _ _ _ Hs Ht').
Qed.

(** A block from the heap. *)
Lemma heap_kmalloc n sz s :
  0 < sz -> sz + 32 <= n -> heap_budget n s ->
  wp (kmalloc sz) (fun p s' => s' = set_mem (mem s') s /\ 0 < p /\ p + sz < 4294967296 /\
    (forall b, p <= b < p + sz -> heap_own s b /\ ~ heap_own s' b) /\
    (forall b, heap_own s' b -> heap_own s b) /\ same_on (fun b => ~ heap_own s b) (mem s) (mem s') /\
    st <= p /\ p + sz <= en /\ heap_budget (n - sz - 32) s' /\
    (heap_clean s -> heap_clean s' /\ forall b, p <= b < p + sz -> load8 (mem s') b = 0)) s.
Proof using Harea Hsym.
  intros Hsz Hn (Hk & segs & l & junk & Hwf & Hholes & Hcap).
  destruct Hholes as [?|Hholes]; [lia|]. pose proof Hholes as (n0 & Hin & Hn0).
  assert (Hdiv : n / 32 >= 1 /\ (n - sz - 32) / 32 <= n / 32 - 1) by dlia.
  unfold kmalloc. rewrite kmalloc_int_kernel. unfold kmalloc_body. apply wp_bind. k_step. k_step.
  replace (truth (kheap (hp s))) with true by (symmetry; unfold truth; blia).
  change (u8 0) with 0. apply wp_bind.
  eapply wp_mono; [apply (alloc_wf_spec (kheap (hp s)) base cap st en segs l junk sz n0 s); try done; lia|].
  intros p s' (h & k & pre & post & l' & Ha). k_steps. cbn [fst].
  destruct (allocates_own s sz p s' segs l junk h k pre post l' Hwf ltac:(lia) Ha) as (H1 & H2 & H3 & H4).
  destruct Ha. pose proof (tiles_le _ _ _ _ as_before0). pose proof (tiles_le _ _ _ _ as_behind0).
  destruct (wf_places _ _ _ _ _ _ _ _ _ Hwf) as (? & ? & ? & ? & ?).
  split; [exact as_state0|]. split; [lia|]. split; [lia|]. split; [exact H1|]. split; [exact H2|]. split; [exact H3|].
  split; [lia|]. split; [lia|]. split; [|exact H4].
  assert (Hk' : kheap (hp s') = kheap (hp s)) by (by rewrite as_state0).
  split; [by rewrite Hk'|]. rewrite Hk'. do 3 eexists. split; [exact as_wf0|]. split; [|lia].
  by eapply budget_left.
Qed.

(** The heap keeps the promises of [AllocatorLaws]. *)
#[program] Definition heap_allocator_laws : AllocatorLaws := {|
  al_budget := heap_budget; al_own := heap_own; al_clean := heap_clean
|}.
Next Obligation.
  intros n sz s Hsz Hn Hb. eapply wp_mono; [by apply (heap_kmalloc n)|].
  intros p s' (Hs' & ? & ? & ? & ? & ? & _ & _ & ? & ?). split_and!; try done.
  exists (mem s'), (hp s). by rewrite Hs' at 1.
Qed.
Next Obligation.
  intros m g s Hs. split; [|split].
  - intros n. by apply budget_frame.
  - by apply clean_own_frame.
  - intros b. by apply own_frame.
Qed.
End Laws.

(** ** Concrete heaps *)

(** The tiling of a concrete memory, and the end of its index. *)
Ltac tiles_compute :=
  cbn [tiles];
  repeat (split; [lia|split; [split_and!; vm_compute; reflexivity|split;
    [first [discriminate | intros _; split; vm_compute; reflexivity]|]]]);
  lia.

Lemma zero_tail m base (a n : nat) :
  forallb (fun k => load32 m (base + 4 * Z.of_nat k) =? 0) (seq a n) = true ->
  forall i, Z.of_nat a <= i < Z.of_nat (a + n) -> load32 m (base + 4 * i) = 0.
Proof.
  intros Hall i Hi. rewrite forallb_forall in Hall. specialize (Hall (Z.to_nat i)).
  rewrite Z2Nat.id in Hall by lia. apply Z.eqb_eq, Hall, in_seq. lia.
Qed.

Module WfSample.
#[local] Existing Instance sample_linkage.
#[local] Existing Instance KheapSample.sample_kmalloc.

Lemma sample_wf :
  heap_wf (mem KheapSample.sample_heap) 4096 8192 64 16384 20480 [(false, 1024); (true, 3072)] [17408] 0.
Proof.
  constructor.
  - exact KheapSample.sample_heap_at.
  - vm_compute. reflexivity.
  - tiles_compute.
  - reflexivity.
  - apply (zero_tail _ _ 1 63). vm_compute. reflexivity.
  - left. vm_compute. reflexivity.
  - lia.
Qed.

Lemma alloc_keeps_wf_witness :
  wp (alloc 3050 0 4096) (fun _ s' => exists l', heap_wf (mem s') 4096 8192 64 16384 20480
    [(false, 1024); (false, 3072)] l' 2) KheapSample.sample_heap.
Proof.
  eapply wp_mono.
  - apply (alloc_keeps_wf 4096 8192 64 16384 20480 [(false, 1024); (true, 3072)] [17408] 0 3050 3072);
      [vm_compute; discriminate|exact sample_wf|lia|right; left|lia|cbn [length]; lia].
  - intros p s' (pre & n & post & l' & Hs & _ & Hn & Hwf). exists l'.
    destruct pre as [|x [|y pre]]; [discriminate Hs| |destruct pre; discriminate Hs].
    injection Hs as <- <- <-. exact Hwf.
Defined.
End WfSample.
