(* ===== verification/KheapRelease.v ===== *)
(** * Releasing a block keeps the heap's invariant

    [free] in terms of the segments: a block becomes a hole, which the holes next to
    it join.  The hole on the left is found through its footer, which must
    point to its header; a hole that has swallowed its right neighbour has no such
    footer, and the last section shows what then becomes of the block behind it. *)

From Stdlib Require Import ZArith Lia List String Sorting.
From stdpp Require Import base list gmap.
From S2P Require Import Prelude Machine Kernel Common Monitor OrderedArray Kmalloc Frames Paging Kheap.
From S2P Require Import KheapSpec KheapWf KheapFree.

(** A hole on the right is swallowed. *)
Definition swallow (n : Z) (post : list (bool * Z)) : Z * list (bool * Z) :=
  match post with
  | (true, k) :: post => (n + k, post)
  | _ => (n, post)
  end.

(** The block of [n] bytes between [pre] and [post] becomes a hole. *)
Definition released (pre : list (bool * Z)) (n : Z) (post : list (bool * Z)) : list (bool * Z) :=
  let '(n, post) := swallow n post in
  match last pre with
  | Some (true, k) => removelast pre ++ (true, k + n) :: post
  | _ => pre ++ (true, n) :: post
  end.

Lemma swallow_le m a post e n n2 post2 : tiles m a post e -> swallow n post = (n2, post2) -> n <= n2.
Proof. destruct post as [|[[] k] r]; cbn; [|intros (? & _)|]; intros; simplify_eq; lia. Qed.

Lemma released_joins pre k n post :
  released (pre ++ [(true, k)]) n post =
  pre ++ (true, k + (swallow n post).1) :: (swallow n post).2.
Proof.
  unfold released. destruct (swallow n post) as [n' post']. rewrite last_snoc, removelast_last. done.
Qed.

(** The invariant while the holes [miss] are not yet in the index. *)
Record heap_part `{Linkage} (m : memory) (heap base cap st en : Z) (segs : list (bool * Z))
    (l : list Z) (junk : nat) (miss : list Z) : Prop := HeapPart {
  pt_heap : heap_at m heap base cap l st en;
  pt_fun : load32 m (heap + 12) = sym_header_t_less_than;
  pt_tiles : tiles m st segs en;
  pt_index : l ++ miss ≡ₚ hole_addrs st segs ++ replicate junk 0;
  pt_tail : forall i, Z.of_nat (length l) <= i < cap -> load32 m (base + 4 * i) = 0;
  pt_null : nulls_ok m (en - st) l junk;
  pt_places : 12 <= heap /\ 12 <= base /\ 12 <= st /\ en < 4294967296 /\ cap < 2147483648
}.

Lemma part_whole `{Linkage} m heap base cap st en segs l junk :
  heap_part m heap base cap st en segs l junk [] <-> heap_wf m heap base cap st en segs l junk.
Proof.
  split; intros []; constructor; try done; by rewrite ?app_nil_r in *.
Qed.

(** ** Footers of holes *)

(** Every hole among the segments from [a] on has a footer that points to its header.
    [free] finds a left neighbour by that footer.  It is not part of [heap_wf], for not
    every hole has one: [create_heap] writes none, and [unify_right] leaves the
    old one. *)
Fixpoint hole_footers (m : memory) (a : Z) (segs : list (bool * Z)) : Prop :=
  match segs with
  | [] => True
  | (hole, n) :: rest => (hole = true -> footer_at m a n) /\ hole_footers m (a + n) rest
  end.

Lemma hole_footers_app m m' a pre post c :
  tiles m' a pre c -> hole_footers m a (pre ++ post) <-> hole_footers m a pre /\ hole_footers m c post.
Proof.
  revert a. induction pre as [|[b n] r IH]; intros a Ht; cbn in *; [subst; tauto|].
  destruct Ht as (_ & _ & _ & Ht). rewrite (IH _ Ht). tauto.
Qed.

Lemma hole_footers_frame m m' P a segs e :
  tiles m a segs e -> hole_footers m a segs -> same_on P m m' -> 0 <= a -> e <= 4294967296 ->
  (forall b, a <= b < e -> P b) -> hole_footers m' a segs.
Proof.
  revert a. induction segs as [|[b n] r IH]; intros a Ht Hf Hs Ha He HP; cbn in *; [done|].
  destruct Ht as (Hn & _ & _ & Ht). destruct Hf as [Hf Hr]. pose proof (tiles_le _ _ _ _ Ht). split.
  - intros Hb. eapply footer_frame; [by apply Hf|exact Hs|lia|unfold region; lia|]. intros; apply HP; lia.
  - eapply IH; [exact Ht|exact Hr|exact Hs|lia|lia|]. intros; apply HP; lia.
Qed.

(** The segments determine where they begin. *)
Lemma tiles_start m m' a a' segs e : tiles m a segs e -> tiles m' a' segs e -> a = a'.
Proof.
  revert a a'. induction segs as [|[b n] r IH]; intros a a' H H'; cbn in *; [congruence|].
  destruct H as (_ & _ & _ & H), H' as (_ & _ & _ & H'). specialize (IH _ _ H H'). lia.
Qed.

Section Release.
Context `{Linkage, Kmalloc} (heap base cap st en : Z).

(** Writing marks in the managed addresses keeps all but the tiling. *)
Lemma part_area m m' segs segs' l junk miss miss' :
  heap_part m heap base cap st en segs l junk miss ->
  same_on (fun b => ~ (st <= b < en)) m m' -> tiles m' st segs' en ->
  l ++ miss' ≡ₚ hole_addrs st segs' ++ replicate junk 0 ->
  heap_part m' heap base cap st en segs' l junk miss'.
Proof.
  intros [] Hs Ht Hi. pose proof (heap_struct _ _ _ _ _ _ _ pt_heap0) as [??].
  pose proof (heap_room _ _ _ _ _ _ _ pt_heap0) as [??]. pose proof (heap_area _ _ _ _ _ _ _ pt_heap0) as [??].
  pose proof (heap_apart_area _ _ _ _ _ _ _ pt_heap0). constructor; try done.
  - by eapply heap_at_free_area.
  - rewrite <- pt_fun0. eapply load32_same_on; [exact Hs|unfold region; lia|]. cbv beta. lia.
  - intros i Hj. rewrite <- (pt_tail0 i Hj). eapply load32_same_on; [exact Hs|unfold region; lia|]. cbv beta. lia.
  - eapply nulls_frame; [exact pt_null0|exact Hs|cbv beta; lia].
Qed.

(** The entries of the index are holes, or 0. *)
Lemma part_apart m segs l junk miss y :
  heap_part m heap base cap st en segs l junk miss -> y ∈ l ++ miss -> entry_apart heap base cap y.
Proof.
  intros [] Hy. rewrite pt_index0 in Hy. apply elem_of_app in Hy as [Hy|Hy].
  - destruct (hole_addrs_split _ _ _ _ _ pt_tiles0 Hy) as (pre & n & post & _ & H1%tiles_le & H2%tiles_le & Hn & _).
    split; [unfold region; lia|]. intros b Hb. eapply area_not_index; [exact pt_heap0|lia].
  - apply elem_of_replicate in Hy as [-> _]. split; [unfold region; lia|]. intros b Hb. unfold index_mem. lia.
Qed.

(** *** The left neighbour *)

Section Left.
Context (s : kstate) (segs : list (bool * Z)) (l : list Z) (junk : nat).
Context (h n : Z) (pre post : list (bool * Z)).
Hypothesis Hwf : heap_wf (mem s) heap base cap st en segs l junk.
Hypothesis Hsegs : segs = pre ++ (false, n) :: post.
Hypothesis Hpre : tiles (mem s) st pre h.

Lemma part_marks : header_at (mem s) h false n /\ footer_at (mem s) h n /\ 20 <= n /\
  tiles (mem s) (h + n) post en /\ st <= h /\ h + n <= en.
Proof using Hwf Hsegs Hpre.
  pose proof (wf_tiles _ _ _ _ _ _ _ _ _ Hwf) as Hall. rewrite Hsegs, tiles_app in Hall.
  destruct Hall as (c & Hc & Hn & Hhd & Hft & Ht).
  assert (c = h) as -> by by eapply tiles_end. pose proof (tiles_le _ _ _ _ Hpre). pose proof (tiles_le _ _ _ _ Ht).
  split_and!; try done. by apply Hft.
Qed.

Lemma block_place : 8 <= h /\ st <= h /\ h + n <= en /\ en < 4294967296 /\ 20 <= n.
Proof using Hwf Hsegs Hpre. destruct part_marks as (_ & _ & ? & _ & ? & ?). pose proof (wf_places _ _ _ _ _ _ _ _ _ Hwf). lia. Qed.

(** The block is a hole that is not in the index. *)
Lemma marked_part :
  heap_part (marked (mem s) h) heap base cap st en (pre ++ (true, n) :: post) l junk [h].
Proof using Hwf Hsegs Hpre.
  destruct part_marks as (Hhd & Hft & Hn & Hpost & Hst & Hen).
  destruct (marked_spec st en s h n block_place Hhd Hft) as (Hmh & Hmf & Hmo). pose proof (wf_places _ _ _ _ _ _ _ _ _ Hwf).
  assert (Hon : same_on (fun b => ~ (h + 4 <= b < h + 5)) (mem s) (marked (mem s) h)) by exact Hmo.
  eapply part_area; [by apply part_whole| | |].
  - intros b Hb Hn'. apply Hmo; [done|lia].
  - rewrite tiles_app. exists h. split; [|cbn [tiles]; split; [done|split; [done|split; [done|]]]].
    + eapply tiles_frame; [exact Hpre|exact Hon|unfold region; lia|lia|]. cbv beta. lia.
    + eapply tiles_frame; [exact Hpost|exact Hon|unfold region; lia|lia|]. cbv beta. lia.
  - rewrite (wf_index _ _ _ _ _ _ _ _ _ Hwf), Hsegs, !(hole_addrs_app _ _ _ _ _ Hpre). cbn [hole_addrs app].
    solve_Permutation.
Qed.

(** A block on the left is not taken for a hole; nor is the word in front of the
    managed addresses. *)
Lemma left_block :
  (forall k, last pre <> Some (true, k)) -> (pre = [] -> load32 (mem s) (st - 8) <> HEAP_MAGIC) ->
  left_hole (marked (mem s) h) h = false.
Proof using Hwf Hsegs Hpre.
  intros Hlast Hfirst. destruct part_marks as (Hhd & Hft & Hn & Hpost & Hst & Hen).
  destruct (marked_spec st en s h n block_place Hhd Hft) as (_ & _ & Hmo). pose proof (wf_places _ _ _ _ _ _ _ _ _ Hwf).
  assert (Hw : forall a, 0 <= a -> a + 4 <= h -> load32 (marked (mem s) h) a = load32 (mem s) a).
  { intros a ??. eapply load32_frame; [exact Hmo|unfold region; lia|lia]. }
  unfold left_hole. rewrite !Hw by lia. destruct pre as [|x pre' _] using rev_ind.
  - cbn [tiles] in Hpre. rewrite <- Hpre in *. specialize (Hfirst eq_refl).
    replace (load32 (mem s) (st - 8) =? HEAP_MAGIC) with false by blia. done.
  - destruct x as [[] k]; [exfalso; by apply (Hlast k), last_snoc|].
    rewrite tiles_app in Hpre. destruct Hpre as (c & Hc & Hk & (_ & Hb & _) & Hf & Hend). cbn [tiles] in Hend.
    destruct (Hf eq_refl) as [Hf1 Hf2]. pose proof (tiles_le _ _ _ _ Hc).
    replace (h - 8) with (c + k - 8) by lia. replace (h - 4) with (c + k - 4) by lia. rewrite Hf1, Hf2.
    rewrite Hmo by lia. rewrite Hb. by rewrite andb_false_r.
Qed.

(** What [unify_left] leaves: a hole of [n1] bytes at [hd], up to the end of the
    block, which the index lacks if it is not the left neighbour's. *)
Record left_done (r : Z * Z) (m1 : memory) (hd n1 : Z) (pre1 : list (bool * Z)) (miss : list Z) : Prop := LeftDone {
  ld_result : r = (hd, Z.of_nat (length miss)) /\ (miss = [] \/ miss = [hd]);
  ld_part : heap_part m1 heap base cap st en (pre1 ++ (true, n1) :: post) l junk miss;
  ld_before : tiles m1 st pre1 hd;
  ld_prefix : pre1 `prefix_of` pre;
  ld_size : hd + n1 = h + n /\ 20 <= n1;
  ld_footer : footer_at m1 hd n1;
  ld_frame : same_on (fun b => ~ (hd <= b < h + n)) (mem s) m1;
  ld_released : pre1 ++ (true, (swallow n1 post).1) :: (swallow n1 post).2 = released pre n post
}.

Lemma left_none :
  (forall k, last pre <> Some (true, k)) -> (pre = [] -> load32 (mem s) (st - 8) <> HEAP_MAGIC) ->
  wp (unify_left h (h + n - 8)) (fun r t => exists m1 hd n1 pre1 miss,
    t = set_mem m1 s /\ left_done r m1 hd n1 pre1 miss) (set_mem (marked (mem s) h) s).
Proof using Hwf Hsegs Hpre.
  intros Hlast Hfirst. destruct part_marks as (Hhd & Hft & Hn & Hpost & Hst & Hen).
  destruct (marked_spec st en s h n block_place Hhd Hft) as (_ & Hmf & Hmo). pose proof (wf_places _ _ _ _ _ _ _ _ _ Hwf).
  eapply wp_mono; [apply (unify_left_none st en h n block_place); by apply left_block|].
  intros r t (-> & ->). exists (marked (mem s) h), h, n, pre, [h]. split; [done|]. constructor.
  - split; [done|by right].
  - exact marked_part.
  - eapply tiles_frame; [exact Hpre|exact (Hmo : same_on (fun b => ~ (h + 4 <= b < h + 5)) _ _)|unfold region; lia|lia|].
    cbv beta. lia.
  - done.
  - lia.
  - exact Hmf.
  - intros b Hb Hn'. apply Hmo; [done|lia].
  - unfold released. destruct (swallow n post) as [n' post']. case_match; [|done]. case_match. case_match; [|done].
    subst. by destruct (Hlast z).
Qed.

Lemma left_joins pre1 k :
  pre = pre1 ++ [(true, k)] -> footer_at (mem s) (h - k) k ->
  wp (unify_left h (h + n - 8)) (fun r t => exists m1 hd n1 pre1 miss,
    t = set_mem m1 s /\ left_done r m1 hd n1 pre1 miss) (set_mem (marked (mem s) h) s).
Proof using Hwf Hsegs Hpre.
  intros Hpre1 Hkf. destruct part_marks as (Hhd & Hft & Hn & Hpost & Hst & Hen).
  destruct (marked_spec st en s h n block_place Hhd Hft) as (Hmh & Hmf & Hmo).
  pose proof (wf_places _ _ _ _ _ _ _ _ _ Hwf).
  assert (Hon : same_on (fun b => ~ (h + 4 <= b < h + 5)) (mem s) (marked (mem s) h)) by exact Hmo.
  pose proof Hpre as Hall. rewrite Hpre1, tiles_app in Hall. cbn [tiles] in Hall.
  destruct Hall as (a & Ha & Hk & Hah & _ & Hak). pose proof (tiles_le _ _ _ _ Ha).
  replace (h - k) with a in Hkf by lia.
  assert (Hah1 : header_at (marked (mem s) h) a true k).
  { eapply header_frame; [exact Hah|exact Hon|unfold region; lia|]. cbv beta. lia. }
  assert (Haf1 : footer_at (marked (mem s) h) a k).
  { eapply footer_frame; [exact Hkf|exact Hon|lia|unfold region; lia|]. cbv beta. lia. }
  eapply wp_mono; [apply (unify_left_some st en h n block_place a k); done || lia|].
  intros r t (-> & ->). cbn [mem set_mem]. rewrite set_mem_set_mem.
  set (m1 := store32 (store32 (marked (mem s) h) (h + n - 8 + 4) a) (a + 8) (k + n)).
  assert (Hm1 : same_on (fun b => ~ (a + 8 <= b < a + 12) /\ ~ (h + n - 4 <= b < h + n)) (marked (mem s) h) m1).
  { intros b Hb [Hb1 Hb2]. unfold m1. by read_stores. }
  assert (Hfr : same_on (fun b => ~ (a <= b < h + n)) (mem s) m1).
  { intros b Hb Hb'. rewrite Hm1 by lia. apply Hmo; [done|lia]. }
  assert (Hbefore : tiles m1 st pre1 a).
  { eapply tiles_frame; [exact Ha|exact Hfr|unfold region; lia|lia|]. cbv beta. lia. }
  exists m1, a, (k + n), pre1, []. split; [done|]. constructor.
  - split; [done|by left].
  - eapply part_area; [exact marked_part| | |].
    + intros b Hb Hb'. apply Hm1; [done|]. lia.
    + rewrite tiles_app. exists a. split; [exact Hbefore|]. cbn [tiles]. split; [lia|]. split; [|split; [done|]].
      * destruct Hah1 as (Hw1 & Hw2 & Hw3). unfold m1. split_and!; read_stores; try done. apply u32_id. lia.
      * replace (a + (k + n)) with (h + n) by lia.
        eapply tiles_frame; [exact Hpost|exact Hfr|unfold region; lia|lia|]. cbv beta. lia.
    + rewrite app_nil_r, (wf_index _ _ _ _ _ _ _ _ _ Hwf), Hsegs, (hole_addrs_app _ _ _ _ _ Hpre), Hpre1,
        !(hole_addrs_app _ _ _ _ _ Ha). cbn [hole_addrs app].
      replace (a + (k + n)) with (h + n) by lia. solve_Permutation.
  - exact Hbefore.
  - rewrite Hpre1. by eexists.
  - lia.
  - destruct Hmf as [Hmf1 Hmf2]. unfold footer_at, m1. replace (a + (k + n) - 8) with (h + n - 8) by lia.
    replace (a + (k + n) - 4) with (h + n - 8 + 4) by lia. split; read_stores; [exact Hmf1|apply u32_id; lia].
  - exact Hfr.
  - rewrite Hpre1, released_joins. destruct post as [|[[] z] r]; cbn; by rewrite ?Z.add_assoc.
Qed.
End Left.

(** *** The right neighbour *)

Section Right.
Context (t : kstate) (pre : list (bool * Z)) (hd n1 : Z) (post : list (bool * Z)) (l : list Z) (junk : nat) (miss : list Z).
Hypothesis Hpart : heap_part (mem t) heap base cap st en (pre ++ (true, n1) :: post) l junk miss.
Hypothesis Hpre : tiles (mem t) st pre hd.
Hypothesis Hmiss : miss = [] \/ miss = [hd].
Hypothesis Hcap : Z.of_nat (length l) + 3 <= cap.

(** What [unify_right] leaves. *)
Record right_done (r : Z) (m2 : memory) (n2 : Z) (post2 : list (bool * Z)) (l2 : list Z) (junk2 : nat) : Prop := RightDone {
  rd_end : r = hd + n2 - 8 /\ hd + n2 <= en /\ 20 <= n2;
  rd_part : heap_part m2 heap base cap st en (pre ++ (true, n2) :: post2) l2 junk2 miss;
  rd_length : (length l2 <= S (length l))%nat;
  rd_frame : same_on (fun b => ~ index_mem heap base cap b /\ ~ (hd <= b < hd + n2)) (mem t) m2;
  rd_behind : tiles m2 (hd + n2) post2 en;
  rd_footer : (forall k r, post <> (true, k) :: r) -> footer_at (mem t) hd n1 -> footer_at m2 hd n2
}.

Lemma hole_place : header_at (mem t) hd true n1 /\ tiles (mem t) (hd + n1) post en /\
  (8 <= hd /\ st <= hd /\ hd + n1 <= en /\ en < 4294967296 /\ 20 <= n1).
Proof using Hpart Hpre.
  pose proof (pt_tiles _ _ _ _ _ _ _ _ _ _ Hpart) as Hall. rewrite tiles_app in Hall.
  destruct Hall as (c & Hc & Hn & Hhd & _ & Ht). assert (c = hd) as -> by by eapply tiles_end.
  pose proof (tiles_le _ _ _ _ Hpre). pose proof (tiles_le _ _ _ _ Ht).
  pose proof (pt_places _ _ _ _ _ _ _ _ _ _ Hpart). split_and!; done || lia.
Qed.

Lemma right_none :
  (forall k post', post <> (true, k) :: post') -> post <> [] ->
  wp (unify_right hd (hd + n1 - 8) heap) (fun r t' => exists m2 l2 junk2,
    t' = set_mem m2 t /\ right_done r m2 n1 post l2 junk2) t.
Proof using Hpart Hpre.
  intros Hpost Hne. destruct hole_place as (Hhd & Ht & Hp).
  eapply wp_mono.
  { apply (unify_right_none heap base cap l st en t hd n1 (pt_heap _ _ _ _ _ _ _ _ _ _ Hpart) Hp hd t).
    destruct post as [|[b k] r]; [done|]. destruct b; [by destruct (Hpost k r)|].
    destruct Ht as (_ & (_ & Hb & _) & _). unfold right_hole. rewrite Hb. apply andb_false_r. }
  intros r t' (-> & ->). exists (mem t), l, junk. split; [by rewrite set_mem_id|].
  constructor; [lia|done|lia|by intros ???|done|done].
Qed.

(** The end of the heap is not taken for a hole. *)
Lemma right_end :
  post = [] -> load32 (mem t) en <> HEAP_MAGIC ->
  wp (unify_right hd (hd + n1 - 8) heap) (fun r t' => exists m2 l2 junk2,
    t' = set_mem m2 t /\ right_done r m2 n1 post l2 junk2) t.
Proof using Hpart Hpre.
  intros Hpost Hen. destruct hole_place as (Hhd & Ht & Hp).
  assert (hd + n1 = en) by by rewrite Hpost in Ht.
  eapply wp_mono.
  { apply (unify_right_none heap base cap l st en t hd n1 (pt_heap _ _ _ _ _ _ _ _ _ _ Hpart) Hp hd t).
    unfold right_hole. replace (load32 (mem t) (hd + n1) =? HEAP_MAGIC) with false; [done|].
    symmetry. apply Z.eqb_neq. congruence. }
  intros r t' (-> & ->). exists (mem t), l, junk. split; [by rewrite set_mem_id|].
  constructor; [lia|done|lia|by intros ???|done|done].
Qed.

Lemma right_joins k post2 :
  post = (true, k) :: post2 ->
  wp (unify_right hd (hd + n1 - 8) heap) (fun r t' => exists m2 l2 junk2,
    t' = set_mem m2 t /\ right_done r m2 (n1 + k) post2 l2 junk2) t.
Proof using Hpart Hpre Hmiss Hcap.
  intros Hpost. destruct hole_place as (Hhd & Ht & Hp). rewrite Hpost in Ht. destruct Ht as (Hk & Hkh & _ & Ht).
  pose proof (tiles_le _ _ _ _ Ht). pose proof Hpart as [].
  rewrite (hole_addrs_app _ _ _ _ _ Hpre), Hpost in pt_index0. cbn [hole_addrs app] in pt_index0.
  assert (Hin : hd + n1 ∈ l).
  { assert (Hin : hd + n1 ∈ l ++ miss) by (rewrite pt_index0, !elem_of_app; left; right; right; left).
    apply elem_of_app in Hin as [Hin|Hin]; [done|]. destruct Hmiss as [-> | ->]; [by apply not_elem_of_nil in Hin|apply list_elem_of_singleton in Hin; lia]. }
  destruct (list_find_elem_of (fun y => y = hd + n1) l (hd + n1) Hin eq_refl) as [[i y] Hi].
  assert (Hi' : fst <$> list_find (fun y => y = hd + n1) l = Some i) by by rewrite Hi.
  pose proof Hi as (Hli & -> & _)%list_find_Some. pose proof (lookup_lt_Some _ _ _ Hli) as Hlt.
  assert (Hstale : stale_word base l t = 0) by (apply pt_tail0; lia).
  eapply wp_mono.
  { apply (unify_right_some heap base cap st en hd n1 Hp hd n1 (hd + n1) k i l t); done || lia. }
  cbv zeta. rewrite Hstale.
  intros r t' (-> & m2 & -> & Hhd2 & Hheap2 & Hs2 & Htail). exists m2, (delete i l ++ [0; 0]), (S (S junk)).
  assert (Hlen : length (delete i l ++ [0; 0]) = S (length l)).
  { rewrite length_app, length_delete by (by eexists). cbn. lia. }
  assert (Ha : forall b, st <= b < en -> ~ index_mem heap base cap b) by (intros b; by eapply area_not_index).
  pose proof (pt_places _ _ _ _ _ _ _ _ _ _ Hpart). pose proof (tiles_le _ _ _ _ Hpre).
  assert (Hbefore : tiles m2 st pre hd).
  { eapply tiles_frame; [exact Hpre|exact Hs2|unfold region; lia|lia|]. intros b Hb. split; [apply Ha; lia|lia]. }
  assert (Hbehind : tiles m2 (hd + (n1 + k)) post2 en).
  { replace (hd + (n1 + k)) with (hd + n1 + k) by lia.
    eapply tiles_frame; [exact Ht|exact Hs2|unfold region; lia|lia|]. intros b Hb. split; [apply Ha; lia|lia]. }
  split; [done|]. constructor; [lia| |lia| |exact Hbehind|by intros Hno; destruct (Hno k post2)].
  - constructor; [exact Hheap2| | | | | |done].
    + rewrite <- pt_fun0. apply (less_than_field heap base cap st en _ _ pt_heap0).
      intros b Hb [??]. apply Hs2; [done|]. split; [done|lia].
    + rewrite tiles_app. exists hd. split; [exact Hbefore|]. cbn [tiles]. split; [lia|]. split; [done|]. by split.
    + rewrite (hole_addrs_app _ _ _ _ _ Hbefore). cbn [hole_addrs app replicate].
      replace (hd + (n1 + k)) with (hd + n1 + k) by lia. rewrite (delete_Permutation l i _ Hli) in pt_index0.
      cbn [app] in pt_index0.
      assert (Hperm : delete i l ++ miss ≡ₚ hole_addrs st pre ++ hd :: hole_addrs (hd + n1 + k) post2 ++ replicate junk 0).
      { apply (Permutation_cons_inv (a := hd + n1)). rewrite pt_index0. solve_Permutation. }
      transitivity (0 :: 0 :: (delete i l ++ miss)); [solve_Permutation|]. rewrite Hperm. solve_Permutation.
    + intros j Hj. rewrite Htail by lia. apply pt_tail0. lia.
    + eapply (nulls_frame _ (mem t)); [|exact Hs2|unfold index_mem; lia]. by eapply nulls_remove; [|exact Hli|lia].
  - intros b Hb [Hb1 Hb2]. apply Hs2; [done|]. split; [done|lia].
Qed.
End Right.

(** The hole that the index lacks goes into it. *)
Lemma insert_part t segs l junk hd :
  heap_part (mem t) heap base cap st en segs l junk [hd] -> sym_header_t_less_than <> 0 ->
  0 < hd < 4294967296 -> Z.of_nat (length l) + 3 <= cap ->
  wp (insert_ordered_array hd heap) (fun _ t' => exists m' l', t' = set_mem m' t /\
    heap_wf m' heap base cap st en segs l' junk /\ length l' = S (length l) /\
    same_on (fun b => ~ index_mem heap base cap b) (mem t) m') t.
Proof.
  intros Hpart Hsym Hhd Hcap. pose proof Hpart as [].
  eapply wp_mono.
  { apply (insert_hole_spec heap base cap st en hd l t pt_heap0 pt_fun0 Hsym ltac:(lia) Hcap).
    - apply Forall_forall. intros y Hy. apply (part_apart _ _ _ _ _ y Hpart). apply elem_of_app. by left.
    - apply (part_apart _ _ _ _ _ hd Hpart). apply elem_of_app. right. by left. }
  intros [] t' (m' & -> & Hheap & Hs & Htail). eexists m', _. split; [done|].
  assert (Ha : forall b, st <= b < en -> ~ index_mem heap base cap b) by (intros b; by eapply area_not_index).
  split; [|split; [apply Spec.length_insert_spec|exact Hs]].
  constructor; [exact Hheap| | | | | |done].
  - rewrite <- pt_fun0. apply (less_than_field heap base cap st en _ _ pt_heap0). intros b Hb [??]. by apply Hs.
  - pose proof (tiles_le _ _ _ _ pt_tiles0). eapply tiles_frame; [exact pt_tiles0|exact Hs|unfold region; lia|lia|exact Ha].
  - rewrite <- pt_index0, Spec.insert_perm. solve_Permutation.
  - intros j Hj. rewrite Spec.length_insert_spec in Hj. rewrite Htail by lia. apply pt_tail0. lia.
  - assert (Hin : hd ∈ hole_addrs st segs ++ replicate junk 0) by (rewrite <- pt_index0; apply elem_of_app; right; by left).
    apply nulls_insert; [eapply nulls_frame; [exact pt_null0|exact Hs|unfold index_mem; lia]|lia|].
    apply elem_of_app in Hin as [Hin|Hin]; [|apply elem_of_replicate in Hin; lia].
    pose proof (tiles_le _ _ _ _ pt_tiles0).
    destruct (hole_addrs_split _ _ _ _ _ pt_tiles0 Hin) as (pre & n & post & _ & Hb1%tiles_le & Hb2%tiles_le & Hn & Hsz).
    rewrite (hole_size_frame _ _ _ hd Hs); [lia|unfold region; lia|].
    intros b Hb. apply Ha. lia.
Qed.
End Release.

(** ** [free] *)

Section Free.
Context `{Linkage, Kmalloc} (heap base cap st en : Z) (segs : list (bool * Z)) (l : list Z) (junk : nat).

(** A hole in front of the block has a footer; in front of the first block no footer
    is found. *)
Definition left_ok (m : memory) (pre : list (bool * Z)) (h : Z) : Prop :=
  match last pre with
  | Some (true, k) => footer_at m (h - k) k
  | Some (false, _) => True
  | None => load32 m (st - 8) <> HEAP_MAGIC
  end.

(** What both unifications leave of the block of [n] bytes at [h]: a hole of [n2]
    bytes at [hd], which the index lacks if there was none on the left. *)
Record unified (s : kstate) (h n : Z) (pre post : list (bool * Z)) (m2 : memory) (hd n2 : Z)
    (pre1 post2 : list (bool * Z)) (l2 : list Z) (junk2 : nat) (miss : list Z) : Prop := Unified {
  un_miss : miss = [] \/ miss = [hd];
  un_part : heap_part m2 heap base cap st en (pre1 ++ (true, n2) :: post2) l2 junk2 miss;
  un_before : tiles m2 st pre1 hd;
  un_behind : tiles m2 (hd + n2) post2 en;
  un_prefix : pre1 `prefix_of` pre;
  un_footer : (forall k r, post <> (true, k) :: r) -> footer_at m2 hd n2;
  un_size : st <= hd /\ h + n <= hd + n2 <= en /\ 20 <= n2;
  un_length : (length l2 <= S (length l))%nat;
  un_frame : same_on (fun b => ~ index_mem heap base cap b /\ ~ (hd <= b < hd + n2)) (mem s) m2;
  un_released : pre1 ++ (true, n2) :: post2 = released pre n post;
  un_post : post2 = (swallow n post).2
}.

(** [unify_left], whatever is in front of the block. *)
Lemma left_unifies s h n pre post :
  heap_wf (mem s) heap base cap st en segs l junk ->
  segs = pre ++ (false, n) :: post -> tiles (mem s) st pre h -> left_ok (mem s) pre h ->
  wp (unify_left h (h + n - 8)) (fun r t => exists m1 hd n1 pre1 miss, t = set_mem m1 s /\
    left_done heap base cap st en s l junk h n pre post r m1 hd n1 pre1 miss) (set_mem (marked (mem s) h) s).
Proof.
  intros Hwf Hsegs Hpre Hleft. unfold left_ok in Hleft.
  destruct pre as [|[[] k] pre' _] using rev_ind; [|rewrite last_snoc in Hleft..].
  - by eapply left_none.
  - by eapply left_joins.
  - eapply left_none; [done|done|done|by rewrite last_snoc|by destruct pre'].
Qed.

(** [unify_right], whatever is behind. *)
Lemma right_unifies t pre hd n1 post miss :
  heap_part (mem t) heap base cap st en (pre ++ (true, n1) :: post) l junk miss -> tiles (mem t) st pre hd ->
  miss = [] \/ miss = [hd] -> (post = [] -> load32 (mem t) en <> HEAP_MAGIC) -> Z.of_nat (length l) + 3 <= cap ->
  wp (unify_right hd (hd + n1 - 8) heap) (fun r t' => exists m2 l2 junk2, t' = set_mem m2 t /\
    right_done heap base cap st en t pre hd n1 post l miss r m2 (swallow n1 post).1 (swallow n1 post).2 l2 junk2) t.
Proof.
  intros Hpart Hpre Hmiss Hend Hcap.
  destruct post as [|[[] k] post']; cbn [swallow fst snd]; [|by eapply right_joins|by eapply right_none].
  eapply (right_end heap base cap st en t pre hd n1 []); [exact Hpart|exact Hpre|done|by apply Hend].
Qed.

Lemma swallow_post n n' post : (swallow n post).2 = (swallow n' post).2.
Proof. by destruct post as [|[[] k] r]. Qed.

(** [free], up to the test for the end of the heap. *)
Lemma free_unifies s h n pre post Q :
  heap_wf (mem s) heap base cap st en segs l junk ->
  segs = pre ++ (false, n) :: post -> tiles (mem s) st pre h -> left_ok (mem s) pre h ->
  (post = [] -> load32 (mem s) en <> HEAP_MAGIC /\ en + 4 <= 4294967296) -> Z.of_nat (length l) + 4 <= cap ->
  (forall m2 hd n2 pre1 post2 l2 junk2 miss, unified s h n pre post m2 hd n2 pre1 post2 l2 junk2 miss ->
     wp (when (hd + n2 =? en) (free_contract hd (h + n) heap) >>
         when (Z.of_nat (length miss) =? 1) (insert_ordered_array hd heap)) Q (set_mem m2 s)) ->
  wp (free (h + 12) heap) Q s.
Proof.
  intros Hwf Hsegs Hpre Hleft Hright Hcap HQ.
  destruct (part_marks heap base cap st en s segs l junk h n pre post Hwf Hsegs Hpre) as (Hhd & Hft & _).
  pose proof (block_place heap base cap st en s segs l junk h n pre post Hwf Hsegs Hpre) as Hp.
  apply (free_start heap base cap l st en s h n (wf_heap _ _ _ _ _ _ _ _ _ Hwf) Hp Hhd Hft).
  apply wp_bind. eapply wp_mono; [by apply (left_unifies s h n pre post)|].
  intros r t (m1 & hd & n1 & pre1 & miss & -> & [[-> Hmiss] Hpart Hbefore Hprefix [Hn1 Hn20] Hfoot Hfr Hrel]).
  destruct (hole_place heap base cap st en (set_mem m1 s) pre1 hd n1 post l junk miss Hpart Hbefore) as (_ & Hpost1 & Hpl).
  rewrite <- Hn1. apply wp_bind. eapply wp_mono.
  { apply (right_unifies (set_mem m1 s) pre1 hd n1 post miss Hpart Hbefore Hmiss); [|lia].
    cbn [mem set_mem]. intros Hnil. destruct (Hright Hnil) as [Hne Hen]. intros Hm. apply Hne. rewrite <- Hm. symmetry.
    eapply load32_same_on; [exact Hfr|unfold region; lia|cbv beta; lia]. }
  intros r t (m2 & l2 & junk2 & -> & [(-> & Hle & Hn2) Hpart2 Hlen2 Hfr2 Hbehind Hfoot2]). rewrite set_mem_set_mem.
  pose proof (swallow_post n n1 post) as Hsp.
  destruct (swallow n1 post) as [n2 post2] eqn:Esw. cbn [fst snd mem set_mem] in *.
  pose proof (swallow_le _ _ _ _ _ _ _ Hpost1 Esw) as Hn12. pose proof (tiles_le _ _ _ _ Hpre).
  unfold get_end_address. k_steps. cbn [mem set_mem]. rewrite (heap_end _ _ _ _ _ _ _ (pt_heap _ _ _ _ _ _ _ _ _ _ Hpart2)).
  replace (hd + n2 - 8 + 8) with (hd + n2) by lia. rewrite u32_id by lia.
  pose proof (pt_tiles _ _ _ _ _ _ _ _ _ _ Hpart2) as Ht2. apply tiles_app in Ht2 as (c & Hc & _).
  assert (c = hd) as -> by by eapply tiles_end.
  assert (Hu : unified s h n pre post m2 hd n2 pre1 post2 l2 junk2 miss).
  { constructor; try done; [by intros Hno; apply Hfoot2|lia|]. intros b Hb [Hb1 Hb2]. rewrite Hfr2 by first [done | by split].
    apply Hfr; [done|]. lia. }
  pose proof (wp_bind_inv _ _ _ _ (HQ _ _ _ _ _ _ _ _ Hu)) as HQ'.
  rewrite Hn1. exact HQ'.
Qed.

(** Without a hole on the right all footers are right, that of the new hole as well. *)
Lemma footers_unified s h n pre post m2 hd n2 pre1 post2 l2 junk2 miss :
  heap_wf (mem s) heap base cap st en segs l junk -> segs = pre ++ (false, n) :: post -> tiles (mem s) st pre h ->
  unified s h n pre post m2 hd n2 pre1 post2 l2 junk2 miss -> (forall k r, post <> (true, k) :: r) ->
  hole_footers (mem s) st segs -> hole_footers m2 st (pre1 ++ (true, n2) :: post2).
Proof.
  intros Hwf Hsegs Hpre [_ Hpart2 Hbefore Hbehind [z Hz] Hfoot Hsz _ Hfr _ Hpost] Hno Hf.
  destruct (part_marks heap base cap st en s segs l junk h n pre post Hwf Hsegs Hpre) as (_ & _ & _ & Hpost1 & _ & _).
  pose proof (wf_places _ _ _ _ _ _ _ _ _ Hwf). pose proof (wf_heap _ _ _ _ _ _ _ _ _ Hwf) as Hh.
  assert (post2 = post) as -> by (rewrite Hpost; destruct post as [|[[] k] r]; [done|by destruct (Hno k r)|done]).
  assert (Hn2 : hd + n2 = h + n) by by eapply tiles_start.
  rewrite Hsegs, (hole_footers_app _ _ _ _ _ _ Hpre) in Hf. destruct Hf as [Hf1 [_ Hf2]]. rewrite Hz in Hpre, Hf1.
  apply tiles_app in Hpre as (c & Hc & _). assert (c = hd) as -> by by eapply tiles_end.
  rewrite (hole_footers_app _ _ _ _ _ _ Hc) in Hf1. destruct Hf1 as [Hf1 _].
  pose proof (tiles_le _ _ _ _ Hc). pose proof (tiles_le _ _ _ _ Hpost1).
  assert (Hidx : forall b, st <= b < en -> ~ index_mem heap base cap b) by (intros b; by eapply area_not_index).
  apply (hole_footers_app _ _ _ _ _ _ Hbefore). split; [|cbn [hole_footers]; split; [by intros _; apply Hfoot|]].
  - eapply hole_footers_frame; [exact Hc|exact Hf1|exact Hfr|lia|lia|]. intros b Hb. split; [apply Hidx; lia|lia].
  - rewrite Hn2. eapply hole_footers_frame; [exact Hpost1|exact Hf2|exact Hfr|lia|lia|].
    intros b Hb. split; [apply Hidx; lia|lia].
Qed.

(** Both neighbours, and the test for the end of the heap. *)
Lemma free_wf_spec s h n pre post :
  sym_header_t_less_than <> 0 -> heap_wf (mem s) heap base cap st en segs l junk ->
  segs = pre ++ (false, n) :: post -> tiles (mem s) st pre h -> left_ok (mem s) pre h ->
  (swallow n post).2 <> [] -> Z.of_nat (length l) + 4 <= cap ->
  wp (free (h + 12) heap) (fun _ s' => s' = set_mem (mem s') s /\
    (exists l' junk', (length l' <= S (S (length l)))%nat /\
       heap_wf (mem s') heap base cap st en (released pre n post) l' junk') /\
    same_on (fun b => ~ index_mem heap base cap b /\ ~ free_mem st (released pre n post) b) (mem s) (mem s') /\
    ((forall k r, post <> (true, k) :: r) -> hole_footers (mem s) st segs ->
     hole_footers (mem s') st (released pre n post))) s.
Proof.
  intros Hsym Hwf Hsegs Hpre Hleft Hend Hcap.
  eapply free_unifies; [done|done|done|done|intros ->; by destruct Hend|done|].
  intros m2 hd n2 pre1 post2 l2 junk2 miss [Hmiss Hpart2 Hbefore Hbehind Hprefix Hfoot Hsz Hlen2 Hfr2 Hrel Hpost].
  rewrite <- Hpost in Hend. pose proof (pt_places _ _ _ _ _ _ _ _ _ _ Hpart2) as Hplaces.
  assert (Hend2 : hd + n2 < en).
  { destruct post2 as [|[b k] r]; [done|]. destruct Hbehind as (? & _ & _ & Ht%tiles_le). lia. }
  replace (hd + n2 =? en) with false by blia. cbn [when]. k_steps.
  assert (Hon : same_on (fun b => ~ index_mem heap base cap b /\ ~ free_mem st (released pre n post) b) (mem s) m2).
  { intros b Hb [Hb1 Hb2]. rewrite <- Hrel, (hole_free m2 st pre1 hd n2 post2 Hbefore) in Hb2.
    apply Hfr2; [done|]. split; [done|tauto]. }
  assert (Hfoots : (forall k r, post <> (true, k) :: r) -> hole_footers (mem s) st segs ->
      hole_footers m2 st (released pre n post)).
  { intros Hno Hf. rewrite <- Hrel. eapply footers_unified; [exact Hwf|exact Hsegs|exact Hpre| |exact Hno|exact Hf].
    by constructor. }
  destruct Hmiss as [-> | ->]; cbn [length]; [change (Z.of_nat 0 =? 1) with false|change (Z.of_nat 1 =? 1) with true]; cbn [when].
  - k_steps. split; [done|]. split; [|split; [exact Hon|exact Hfoots]]. rewrite <- Hrel. exists l2, junk2. split; [lia|]. by apply part_whole.
  - eapply wp_mono; [apply (insert_part heap base cap st en (set_mem m2 s) _ l2 junk2 hd Hpart2 Hsym); lia|].
    intros [] t (m' & l' & -> & Hwf' & Hlen' & Hs'). rewrite set_mem_set_mem. cbn [mem set_mem] in *. split; [done|].
    split; [rewrite <- Hrel; exists l', junk2; split; [lia|done]|].
    split; [intros b Hb Hb'; rewrite Hs' by (done || by destruct Hb'); by apply Hon|].
    intros Hno Hf. pose proof (pt_tiles _ _ _ _ _ _ _ _ _ _ Hpart2) as Ht2. rewrite Hrel in Ht2.
    eapply hole_footers_frame; [exact Ht2|by apply Hfoots|exact Hs'|lia|lia|].
    intros b. eapply area_not_index. exact (wf_heap _ _ _ _ _ _ _ _ _ Hwf).
Qed.

(** C16: [free] of a block that is not, with the hole behind it, at the end of the heap, when a
    hole on its left has a footer that points to its header and no footer is in
    front of the first block ([left_ok]): the block becomes a hole that takes in the
    holes next to it, the heap is as well-formed as before, and the allocator writes to
    its own memory only.  If in addition all holes have such footers, and no hole is on
    the right, all have them afterwards, so that the next [free] is covered again.
    With a hole on the right it is not: [unify_right] leaves a stale footer, and
    [stale_footer_loses_block] shows the next [free] losing a block. *)
Theorem free_keeps_wf s h n pre post :
  sym_header_t_less_than <> 0 -> heap_wf (mem s) heap base cap st en segs l junk ->
  segs = pre ++ (false, n) :: post -> tiles (mem s) st pre h -> left_ok (mem s) pre h ->
  (swallow n post).2 <> [] -> Z.of_nat (length l) + 4 <= cap ->
  wp (free (h + 12) heap) (fun _ s' => 
    (exists l' junk', heap_wf (mem s') heap base cap st en (released pre n post) l' junk') /\
    same_on (fun b => ~ index_mem heap base cap b /\ ~ free_mem st (released pre n post) b) (mem s) (mem s') /\
    ((forall k r, post <> (true, k) :: r) -> hole_footers (mem s) st segs ->
     hole_footers (mem s') st (released pre n post))) s.
Proof.
  intros. eapply wp_mono; [by apply (free_wf_spec s h n pre post)|].
  intros [] s' (_ & (l' & junk' & _ & Hwf) & Hs & Hf). by split; [exists l', junk'|].
Qed.
End Free.

(** *** Allocation and release *)

(** No two holes are neighbours, and the last segment is a block. *)
Fixpoint separated (segs : list (bool * Z)) : bool :=
  match segs with
  | [] => false
  | [(hole, _)] => negb hole
  | (true, _) :: (((true, _) :: _) as rest) => false
  | _ :: rest => separated rest
  end.

Lemma separated_hole pre n post :
  separated (pre ++ (true, n) :: post) = true ->
  (forall k, last pre <> Some (true, k)) /\ exists k r, post = (false, k) :: r.
Proof.
  induction pre as [|[b k] pre IH]; intros Hs.
  - split; [done|]. destruct post as [|[[] k] r]; [done..|by eexists _, _].
  - assert (Hrest : separated (pre ++ (true, n) :: post) = true) by (destruct b, pre as [|[[] ?] ?]; done).
    destruct (IH Hrest) as [H1 H2]. split; [|done]. intros z Hz. destruct pre as [|x r] using rev_ind.
    + injection Hz as -> ->. done.
    + apply (H1 z). rewrite app_comm_cons, !last_snoc in *. done.
Qed.

Lemma released_cut pre n new post :
  (forall k, last pre <> Some (true, k)) -> (exists k r, post = (false, k) :: r) -> new <= n ->
  released pre new ((if new <? n then [(true, n - new)] else []) ++ post) = pre ++ (true, n) :: post.
Proof.
  intros Hlast (k & r & ->) Hn.
  assert (Hsw : swallow new ((if new <? n then [(true, n - new)] else []) ++ (false, k) :: r) = (n, (false, k) :: r)).
  { destruct (new <? n) eqn:E; bool_hyps; cbn; f_equal; lia. }
  unfold released. rewrite Hsw. destruct (last pre) as [[[] z]|] eqn:E; [by destruct (Hlast z)|done|done].
Qed.

(** C28: On a heap whose last segment is a block, in which no two holes are neighbours, and
    whose managed addresses begin right behind the index ([separated] and the
    place of the index), a block that is allocated from a hole that fits and is
    released at once leaves the segments, and every byte outside the index and the
    holes, as they were.  On a heap that ends in a hole, as it does after the
    start, [free] contracts the heap: [alloc_free_contracts] of KheapShrink. *)
Theorem alloc_free_roundtrip `{Linkage, Kmalloc} heap base cap st en segs l junk size n0 s :
  sym_header_t_less_than <> 0 -> heap_wf (mem s) heap base cap st en segs l junk ->
  separated segs = true -> base + 4 * cap = st ->
  0 <= size -> (true, n0) ∈ segs -> size + 20 <= n0 -> Z.of_nat (length l) + 6 <= cap ->
  wp (p <- alloc size 0 heap; free p heap) (fun _ s' =>
    (exists l' junk', heap_wf (mem s') heap base cap st en segs l' junk') /\
    same_on (fun b => ~ index_mem heap base cap b /\ ~ free_mem st segs b) (mem s) (mem s')) s.
Proof.
  intros Hsym Hwf Hsep Hbase Hsz Hin Hn0 Hcap. apply wp_bind.
  eapply wp_mono; [apply (alloc_wf_spec heap base cap st en segs l junk size n0 s); done || lia|].
  intros p s1 (h & n & pre & post & l1 & [Hsegs Hpre Hpost -> Hn Hs1 Hwf1 Hl1 Hfr _]).
  rewrite Hsegs in Hsep. destruct (separated_hole pre n post Hsep) as [Hlast Hnext].
  destruct (block_size_range n size) as [Hnew1 Hnew2]; [lia|lia|]. set (new := block_size n size) in *.
  pose proof (released_cut pre n new post Hlast Hnext ltac:(lia)) as Hrel. rewrite <- Hsegs in Hrel.
  pose proof (tiles_le _ _ _ _ Hpre). pose proof (tiles_le _ _ _ _ Hpost). pose proof (wf_places _ _ _ _ _ _ _ _ _ Hwf).
  assert (Hidx : forall b, st <= b < en -> ~ index_mem heap base cap b).
  { intros b. eapply area_not_index. exact (wf_heap _ _ _ _ _ _ _ _ _ Hwf). }
  assert (Hpre1 : tiles (mem s1) st pre h).
  { eapply tiles_frame; [exact Hpre|exact Hfr|unfold region; lia|lia|]. intros b Hb. split; [apply Hidx; lia|lia]. }
  assert (Hleft : left_ok st (mem s1) pre h).
  { unfold left_ok. destruct (last pre) as [[[] k]|] eqn:E; [by destruct (Hlast k)|done|].
    replace (st - 8) with (base + 4 * (cap - 2)) by lia. rewrite (wf_tail _ _ _ _ _ _ _ _ _ Hwf1) by lia. done. }
  eapply wp_mono.
  { apply (free_wf_spec heap base cap st en _ l1 _ s1 h new pre _ Hsym Hwf1 eq_refl Hpre1 Hleft); [|lia].
    destruct Hnext as (k & r & ->). by destruct (new <? n). }
  rewrite Hrel. intros [] s2 (_ & (l2 & junk2 & _ & Hwf2) & Hs2 & _). split; [by exists l2, junk2|].
  intros b Hb [Hb1 Hb2]. rewrite Hs2 by done. apply Hfr; [done|]. split; [done|].
  rewrite Hsegs, (hole_free (mem s) st pre h n post Hpre) in Hb2. tauto.
Qed.

Module ReleaseSample.
#[local] Existing Instance sample_linkage.
#[local] Existing Instance KheapSample.sample_kmalloc.

Definition sample_segs : list (bool * Z) := [(false, 1024); (false, 512); (true, 512); (false, 1024); (false, 1024)].

Lemma release_wf : heap_wf (mem FreeSample.state) 4096 8192 64 16384 20480 sample_segs [17920] 0.
Proof.
  constructor.
  - exact FreeSample.state_heap.
  - vm_compute. reflexivity.
  - unfold sample_segs. tiles_compute.
  - reflexivity.
  - apply (zero_tail _ _ 1 63). vm_compute. reflexivity.
  - left. vm_compute. reflexivity.
  - lia.
Qed.

(** The block at 18432 joins the hole in front of it; the block at 17408 the hole
    behind it. *)
Lemma free_keeps_wf_witness :
  wp (free 18444 4096) (fun _ s' => exists l' junk', heap_wf (mem s') 4096 8192 64 16384 20480
    [(false, 1024); (false, 512); (true, 1536); (false, 1024)] l' junk') FreeSample.state /\
  wp (free 17420 4096) (fun _ s' => exists l' junk', heap_wf (mem s') 4096 8192 64 16384 20480
    [(false, 1024); (true, 1024); (false, 1024); (false, 1024)] l' junk') FreeSample.state.
Proof.
  split.
  - eapply wp_mono.
    + apply (free_keeps_wf 4096 8192 64 16384 20480 sample_segs [17920] 0 FreeSample.state 18432 1024
        [(false, 1024); (false, 512); (true, 512)] [(false, 1024)]);
        [vm_compute; discriminate|exact release_wf|reflexivity| |split; vm_compute; reflexivity|discriminate|cbn [length]; lia].
      tiles_compute.
    + intros [] s' (Hwf & _). exact Hwf.
  - eapply wp_mono.
    + apply (free_keeps_wf 4096 8192 64 16384 20480 sample_segs [17920] 0 FreeSample.state 17408 512
        [(false, 1024)] [(true, 512); (false, 1024); (false, 1024)]);
        [vm_compute; discriminate|exact release_wf|reflexivity| |exact I|discriminate|cbn [length]; lia].
      tiles_compute.
    + intros [] s' (Hwf & _). exact Hwf.
Defined.

(** The hole that the first call makes has a footer that points into it.  The second
    call takes that for the header of its left neighbour: the block at 18432 is
    in no hole that the index knows. *)
Example stale_footer_loses_block :
  wp (free 17420 4096 >> free 18444 4096) (fun _ s' =>
    header_at (mem s') 17408 true 1024 /\ load8 (mem s') 18436 = 1 /\
    words (mem s') 8192 (Z.to_nat (load32 (mem s') 4100)) = [0; 0; 17408]) FreeSample.state.
Proof. vm_compute. by split_and!. Qed.

(** The same heap, with the managed addresses right behind the index. *)
Definition tight : kstate := set_mem
  (KheapSample.words_at
    ([(4096, 16128); (4100, 1); (4104, 64); (4108, sym_header_t_less_than);
      (4112, 16384); (4116, 20480); (4120, 65536); (16128, 17408)] ++
     FreeSample.marks 16384 0 1024 ++ FreeSample.marks 17408 1 1024 ++ FreeSample.marks 18432 0 2048) ∅) sample_state.

Lemma tight_wf : heap_wf (mem tight) 4096 16128 64 16384 20480 [(false, 1024); (true, 1024); (false, 2048)] [17408] 0.
Proof.
  constructor.
  - constructor; [vm_compute; reflexivity|vm_compute; reflexivity| |vm_compute; reflexivity
                 |vm_compute; reflexivity|unfold region; simpl; lia..].
    intros [|i] x Hx; [|done]. injection Hx as <-. vm_compute. reflexivity.
  - vm_compute. reflexivity.
  - tiles_compute.
  - reflexivity.
  - apply (zero_tail _ _ 1 63). vm_compute. reflexivity.
  - left. vm_compute. reflexivity.
  - lia.
Qed.

Lemma alloc_free_roundtrip_witness :
  wp (p <- alloc 100 0 4096; free p 4096) (fun _ s' => exists l' junk',
    heap_wf (mem s') 4096 16128 64 16384 20480 [(false, 1024); (true, 1024); (false, 2048)] l' junk') tight.
Proof.
  eapply wp_mono.
  - apply (alloc_free_roundtrip 4096 16128 64 16384 20480 [(false, 1024); (true, 1024); (false, 2048)] [17408] 0 100 1024 tight);
      [vm_compute; discriminate|exact tight_wf|reflexivity|lia|lia|right; left|lia|cbn [length]; lia].
  - intros [] s' (Hwf & _). exact Hwf.
Defined.
End ReleaseSample.
