(* ===== verification/KheapGrow.v ===== *)
(** * How the heap grows and shrinks

    [expand] maps frames to the pages behind the heap, [contract] takes them away,
    [alloc] expands when no hole is large enough, and [free] contracts when the last
    block goes.  The pages are entries of one page table, which is there. *)

From Stdlib Require Import ZArith Lia List String.
From stdpp Require Import base list gmap.
From S2P Require Import Prelude Machine Kernel Common Monitor OrderedArray Kmalloc Frames Paging Kheap.
From S2P Require Import KheapSpec KheapFree KheapWf KheapRelease.

(** ** Free frames *)

(** What is in [g] is not all of a longer list without duplicates. *)
Lemma other_member `{EqDecision A} (free g : list A) :
  NoDup free -> (length g < length free)%nat -> exists f, f ∈ free /\ f ∉ g.
Proof.
  intros Hnd Hlen. destruct (decide (Exists (fun f => f ∉ g) free)) as [Hex|Hno].
  - by apply Exists_exists in Hex.
  - apply not_Exists_Forall in Hno; [|apply _]. rewrite Forall_forall in Hno.
    assert (Hsub : free ⊆ g) by (intros f Hf; apply dec_stable; by apply Hno).
    apply (NoDup_submseteq _ _ Hnd), submseteq_length in Hsub. lia.
Qed.

(** ** Pages of one table *)

Section Pages.
Context `{Linkage, Kmalloc} (kd t fs n : Z).

(** The [k] pages from [a] on are entries of the table [t], and the table, the
    bitset of frames and the entry of the directory are apart. *)
Record pages_at (s : kstate) (a k : Z) : Prop := PagesAt {
  pa_directory : kernel_directory (pg s) = kd;
  pa_table : load32 (mem s) (dir_table kd (table_index a)) = t;
  pa_place : 0 < t /\ t + 4096 < 4294967296;
  pa_pages : 0 <= a /\ 0 <= k /\ page_index a + k <= 1024 /\ a + 4096 * k < 4294967296;
  pa_frames : frames (pg s) = fs /\ nframes (pg s) / 32 = n;
  pa_bitset : bitset fs n /\ 32 * n <= 1048576;
  pa_apart : t + 4096 <= fs \/ fs + 4 * n <= t;
  pa_entry : let w := dir_table kd (table_index a) in region w (w + 4) /\
    (w + 4 <= t \/ t + 4096 <= w) /\ (w + 4 <= fs \/ fs + 4 * n <= w)
}.

(** The entry of the [i]-th page. *)
Definition page_entry (a i : Z) : Z := t + 4 * (page_index a + i).

(** What mapping them may change: the entries of the first [k], and the bitset. *)
Definition page_mem (a k b : Z) : Prop :=
  page_entry a 0 <= b < page_entry a k \/ fs <= b < fs + 4 * n.

Lemma page_step a i k :
  0 <= a -> 0 <= i < k -> page_index a + k <= 1024 ->
  table_index (a + 4096 * i) = table_index a /\ page_index (a + 4096 * i) = page_index a + i.
Proof using.
  intros ???. unfold table_index, page_index in *.
  replace (a + 4096 * i) with (a + i * 4096) by lia. rewrite Z.div_add by lia. dlia.
Qed.

(** [get_page] finds the entry, in every memory that keeps the directory's. *)
Lemma page_found s m a k i make :
  pages_at s a k -> 0 <= i < k -> same_on (fun b => ~ page_mem a k b) (mem s) m ->
  wp (get_page (u32 (a + 4096 * i)) make kd) (fun r s' => s' = set_mem m s /\ r = page_entry a i) (set_mem m s).
Proof using.
  intros [_ Ht [Hp1 Hp2] (Ha & Hk & Hi & Hr) _ [Hbs _] Hap (He1 & He2 & He3)] Hik Hs.
  pose proof (page_index_range a). rewrite u32_id by lia. destruct (page_step a i k) as [Hti Hpi]; [lia..|].
  eapply wp_mono; [apply (get_page_present _ make kd t); rewrite ?Hti; [|lia..]|].
  - cbn [mem set_mem]. etransitivity; [|exact Ht]. eapply load32_same_on; [exact Hs|exact He1|].
    intros b Hb. unfold page_mem, page_entry. lia.
  - intros r s' [-> ->]. by rewrite Hpi.
Qed.
End Pages.

(** ** [expand] *)

(** The size of the heap after it has been expanded to [x] bytes. *)
Definition rounded (x : Z) : Z :=
  if and_page_mask_ne_0 x then u32 (Z.land x 4294963200 + 4096) else x.

(** Even sizes are not rounded. *)
Lemma rounded_even x : x mod 2 = 0 -> rounded x = x.
Proof. intros Hx. unfold rounded. by rewrite even_page_mask. Qed.

Lemma rounded_range x : 0 <= x < 4294963200 -> x <= rounded x /\ rounded x < 4294967296.
Proof.
  intros Hx. unfold rounded. case_match; [|lia]. rewrite page_of by lia.
  rewrite u32_id by dlia. dlia.
Qed.

(** Pages that are needed for the addresses from [a] to [b]. *)
Definition page_count (a b : Z) : Z := (b - a + 4095) / 4096.

Section Expand.
Context `{Linkage, Kmalloc} (kd t fs n heap st en : Z) (ker wr : Z).

(** The pages from [a] on have the frames [g], in this order; nothing else has
    changed but the bitset, in which these are used now. *)
Record mapped_to (s : kstate) (a : Z) (g : list Z) (m : memory) : Prop := MappedTo {
  mt_unique : NoDup g;
  mt_free : Forall (fun f => 0 <= f < 32 * n /\ used_in (mem s) fs f = false) g;
  mt_used : forall f, 0 <= f < 32 * n -> used_in m fs f = bool_decide (f ∈ g) || used_in (mem s) fs f;
  mt_entries : forall i f, g !! i = Some f ->
    load32 m (page_entry t a (Z.of_nat i)) = mapped_page (load32 (mem s) (page_entry t a (Z.of_nat i))) ker wr f;
  mt_frame : same_on (fun b => ~ page_mem t fs n a (Z.of_nat (length g)) b) (mem s) m
}.

Lemma map_next s a k g m free :
  pages_at kd t fs n s a k -> mapped_to s a g m -> Z.of_nat (length g) < k ->
  NoDup free -> Z.of_nat (length free) = k ->
  Forall (fun f => 0 <= f < 32 * n /\ used_in (mem s) fs f = false) free ->
  page_frame (load32 (mem s) (page_entry t a (Z.of_nat (length g)))) = 0 ->
  wp (alloc_frame (page_entry t a (Z.of_nat (length g))) ker wr)
    (fun _ s' => exists f m', s' = set_mem m' s /\ mapped_to s a (g ++ [f]) m') (set_mem m s).
Proof using.
  intros Hpa [Hnd Hfr Hus Hen Hsm] Hlt Hndf Hlen Hfree Hzero.
  destruct (other_member free g Hndf ltac:(lia)) as (f0 & Hf0 & Hn0).
  rewrite Forall_forall in Hfree. destruct (Hfree f0 Hf0) as [Hr0 Hu0].
  destruct Hpa as [_ _ [Hp1 Hp2] (Ha & Hk & Hi & Hr) [Hf1 Hf2] [Hbs Hn] Hap _].
  pose proof (page_index_range a). set (j := Z.of_nat (length g)) in *. set (e := page_entry t a j) in *.
  assert (He : e = t + 4 * (page_index a + j)) by done.
  assert (Hpap : page_apart e fs n) by (split; [unfold region|]; lia).
  assert (Hw : load32 m e = load32 (mem s) e).
  { eapply load32_same_on; [exact Hsm|unfold region; lia|]. intros b Hb. unfold page_mem, page_entry. lia. }
  eapply wp_mono.
  { apply (alloc_frame_spec fs n Hbs e Hpap (set_mem m s) Hf1 Hf2 Hn ker wr f0); cbn [mem set_mem];
      [by rewrite Hw|done|]. rewrite Hus by done. rewrite bool_decide_false by done. exact Hu0. }
  intros [] s' (m' & f & -> & (Hf & Hunused & _) & Hused & Hent & Hsame). cbn [mem set_mem] in *.
  exists f, m'. split; [done|]. rewrite Hus in Hunused by done. apply orb_false_iff in Hunused as [Hnew Hunused].
  apply bool_decide_eq_false_1 in Hnew. assert (Hword : fs <= word_of fs f /\ word_of fs f + 4 <= fs + 4 * n).
  { unfold word_of. destruct Hbs. dlia. }
  constructor.
  - apply NoDup_app. split; [done|]. split; [|apply NoDup_singleton]. by intros x Hx ->%list_elem_of_singleton.
  - apply Forall_app. split; [exact Hfr|]. by apply Forall_singleton.
  - intros h Hh. rewrite Hused, Hus by done. rewrite orb_assoc. f_equal. apply Bool.eq_iff_eq_true.
    rewrite orb_true_iff, Z.eqb_eq, !bool_decide_eq_true, elem_of_app, list_elem_of_singleton. tauto.
  - intros i h Hg. destruct (decide (i = length g)) as [->|Hne].
    + rewrite list_lookup_middle in Hg by done. injection Hg as <-. change (page_entry t a _) with e. rewrite <- Hw. exact Hent.
    + rewrite lookup_app_l in Hg by (apply lookup_lt_Some in Hg; rewrite length_app in Hg; cbn in Hg; lia).
      rewrite <- (Hen i h Hg). pose proof (lookup_lt_Some _ _ _ Hg). unfold page_entry.
      eapply load32_same_on; [exact Hsame|unfold region; lia|]. intros b Hb. cbv beta. lia.
  - intros b Hb Hnot. unfold page_mem, page_entry in *. rewrite length_app in Hnot. cbn [length] in Hnot.
    rewrite Hsame by (try done; lia). apply Hsm; [done|]. lia.
Qed.

(** The heap's structure: what [expand] and [contract] read of it, apart from the
    pages and the bitset. *)
Record grows (s : kstate) (mx : Z) : Prop := Grows {
  gw_start : load32 (mem s) (heap + 16) = st;
  gw_end : load32 (mem s) (heap + 20) = en;
  gw_max : load32 (mem s) (heap + 24) = mx;
  gw_flags : ker = (if truth (load8 (mem s) (heap + 28)) then 1 else 0) /\
    wr = (if truth (load8 (mem s) (heap + 29)) then 0 else 1);
  gw_struct : region heap (heap + 32);
  gw_area : 0 <= st <= en;
  gw_apart : (heap + 32 <= t \/ t + 4096 <= heap) /\ (heap + 32 <= fs \/ fs + 4 * n <= heap)
}.

(** The heap after it has been expanded to [size] bytes. *)
Record expanded (s : kstate) (size : Z) (g : list Z) (m : memory) : Prop := Expanded {
  ex_mapped : exists m0, mapped_to s en g m0 /\ m = store32 m0 (heap + 20) (st + rounded size);
  ex_count : Z.of_nat (length g) = page_count en (st + rounded size);
  ex_end : load32 m (heap + 20) = st + rounded size;
  ex_frame : same_on (fun b => ~ page_mem t fs n en (Z.of_nat (length g)) b /\ ~ (heap + 20 <= b < heap + 24)) (mem s) m
}.

Lemma expand_spec s mx size free :
  grows s mx -> 0 <= size < 4294963200 -> en - st < size -> st + rounded size <= mx < 4294967296 ->
  pages_at kd t fs n s en (page_count en (st + rounded size)) ->
  (forall i, 0 <= i < page_count en (st + rounded size) -> page_frame (load32 (mem s) (page_entry t en i)) = 0) ->
  NoDup free -> Z.of_nat (length free) = page_count en (st + rounded size) ->
  Forall (fun f => 0 <= f < 32 * n /\ used_in (mem s) fs f = false) free ->
  wp (expand size heap) (fun _ s' => exists g m, s' = set_mem m s /\ expanded s size g m) s.
Proof using.
  intros [Hst Hen Hmx [Hker Hwr] [Hh1 Hh2] Harea [Hat Haf]] Hsz Hlt Hmax Hpa Hzero Hnd Hlen Hfree.
  pose proof (rounded_range size Hsz) as [Hle Hr]. set (k := page_count en (st + rounded size)) in *.
  assert (Hk : 4096 * (k - 1) < st + rounded size - en <= 4096 * k) by (unfold k, page_count; dlia).
  destruct (pa_pages _ _ _ _ _ _ _ Hpa) as (_ & _ & Hpi & Hpr). pose proof (page_index_range en).
  unfold expand, get_end_address, get_start_address, get_max_address, set_end_address, get_supervisor,
    get_readonly, get_kernel_directory, ASSERT. k_steps. rewrite Hst, Hen, (u32_id (en - st)) by lia.
  replace (en - st <? size) with true by blia. k_steps. fold (rounded size). rewrite Hst, Hmx, u32_id by lia.
  replace (st + rounded size <=? mx) with true by blia. k_steps. rewrite Hst, Hen, (u32_id (en - st)) by lia.
  assert (Hsame : forall m g x, mapped_to s en g m -> heap <= x -> x + 4 <= heap + 32 -> Z.of_nat (length g) <= k ->
    load32 m x = load32 (mem s) x).
  { intros m g x [_ _ _ _ Hf] ???. eapply load32_same_on; [exact Hf|unfold region; lia|].
    intros b Hb. unfold page_mem, page_entry. lia. }
  assert (Hsame8 : forall m g x, mapped_to s en g m -> heap <= x < heap + 32 -> Z.of_nat (length g) <= k ->
    load8 m x = load8 (mem s) x).
  { intros m g x [_ _ _ _ Hf] ??. apply Hf; [lia|]. unfold page_mem, page_entry. lia. }
  eapply (wp_mono _ (fun _ s' => exists g m, s' = set_mem m s /\ mapped_to s en g m /\ Z.of_nat (length g) = k)).
  - apply (wp_while _ _ (fun i s' => exists g m, s' = set_mem m s /\ mapped_to s en g m /\
        i = en - st + 4096 * Z.of_nat (length g) /\ Z.of_nat (length g) <= k) (fun i _ => en - st + 4096 * k - i)).
    + intros i s' (g & m & -> & _ & -> & ?). lia.
    + intros i s' (g & m & -> & Hmt & -> & Hg). k_steps.
      destruct (_ <? rounded size) eqn:E; bool_hyps; [|exists g, m; split_and!; done || lia].
      k_steps. cbn [mem set_mem pg]. rewrite (Hsame m g), Hst, (pa_directory _ _ _ _ _ _ _ Hpa) by (done || lia).
      replace (st + (en - st + 4096 * Z.of_nat (length g))) with (en + 4096 * Z.of_nat (length g)) by lia.
      eapply wp_mono; [apply (page_found kd t fs n s m en k); [exact Hpa|lia|]|].
      { intros b Hb Hn. apply (mt_frame _ _ _ _ Hmt); [done|]. unfold page_mem, page_entry in *. lia. }
      intros r s' [-> ->]. k_steps. cbn [mem set_mem]. rewrite !(Hsame8 m g), <- Hker, <- Hwr by (done || lia).
      eapply wp_mono; [by apply (map_next s en k g m free); try done; (lia || apply Hzero; lia)|].
      intros [] s' (f & m' & -> & Hmt'). k_steps. rewrite u32_id by lia. split; [|lia].
      exists (g ++ [f]), m'. rewrite length_app. cbn [length]. split_and!; try done; lia.
    + exists [], (mem s). rewrite set_mem_id. split; [done|]. split; [|cbn; lia].
      constructor; try done; constructor.
    + lia.
  - intros i s' (g & m & -> & Hmt & Hg). k_steps. cbn [mem set_mem]. rewrite (Hsame m g), Hst, u32_id by (done || lia).
    exists g, (store32 m (heap + 20) (st + rounded size)). split; [by rewrite set_mem_set_mem|].
    constructor; [by exists m|done|rewrite load32_store32_eq by (unfold region; lia); apply u32_id; lia|].
    intros b Hb [Hb1 Hb2]. rewrite load8_store32_ne by (unfold region; lia). by apply (mt_frame _ _ _ _ Hmt).
Qed.
End Expand.

(** ** [contract] *)

(** The size of the heap after it has been contracted to [x] bytes: with bit 12 set
    the size is not rounded but becomes 8192, which is below the minimum. *)
Definition contracted (x : Z) : Z := if Z.testbit x 12 then HEAP_MIN_SIZE else Z.max x HEAP_MIN_SIZE.

Lemma contracted_eq x :
  (let new_size := if truth (Z.land x 4096) then u32 (Z.land x 4096 + 4096) else x in
   if new_size <? HEAP_MIN_SIZE then HEAP_MIN_SIZE else new_size) = contracted x.
Proof.
  assert (Ht : truth (Z.land x 4096) = Z.testbit x 12) by (apply (truth_bit x 12); lia).
  unfold contracted. rewrite Ht.
  destruct (Z.testbit x 12) eqn:E; cbv zeta iota; [|unfold HEAP_MIN_SIZE; destruct (x <? 458752) eqn:E'; bool_hyps; lia].
  assert (Hx : Z.land x 4096 = 4096); [|rewrite Hx; reflexivity].
  change 4096 with (2 ^ 12). bits_ext. rewrite Z.land_spec. destruct (decide (n = 12)) as [->|].
  - by rewrite E.
  - by rewrite Z.pow2_bits_false, andb_false_r by lia.
Qed.

Section Contract.
Context `{Linkage, Kmalloc} (kd t fs n heap st en ker wr : Z).

(** Pages that are taken away: those behind the new end but for the first. *)
Definition taken (x : Z) : Z := Z.max 0 ((en - st - contracted x - 1) / 4096).

(** Of the [c] pages from [a] on, those from the [lo]-th on are without a frame, and
    present as they were; frame 0 has become free, and no other. *)
Record taken_from (s : kstate) (a c lo : Z) (m : memory) : Prop := TakenFrom {
  tf_entries : forall i, lo <= i < c ->
    page_frame (load32 m (page_entry t a i)) = 0 /\
    page_present (load32 m (page_entry t a i)) = page_present (load32 (mem s) (page_entry t a i));
  tf_used : forall f, 0 < f < 32 * n -> used_in m fs f = used_in (mem s) fs f;
  tf_zero : lo < c -> used_in m fs 0 = false;
  tf_frame : same_on (fun b => ~ (page_entry t a lo <= b < page_entry t a c) /\ ~ (fs <= b < fs + 4 * n)) (mem s) m
}.

Lemma take_next s a c lo m :
  pages_at kd t fs n s a c -> taken_from s a c (lo + 1) m -> 0 <= lo < c -> 32 * n <= 4096 ->
  0 < page_frame (load32 (mem s) (page_entry t a lo)) < 32 * n ->
  wp (free_frame (page_entry t a lo)) (fun _ s' => exists m', s' = set_mem m' s /\ taken_from s a c lo m')
    (set_mem m s).
Proof using.
  intros Hpa [Hen Hus _ Hsm] Hlo Hn Hpf.
  destruct Hpa as [_ _ [Hp1 Hp2] (Ha & Hk & Hi & Hr) [Hf1 Hf2] [Hbs _] Hap _].
  pose proof (page_index_range a). set (e := page_entry t a lo) in *. assert (He : e = t + 4 * (page_index a + lo)) by done.
  assert (Hpap : page_apart e fs n) by (split; [unfold region|]; lia).
  assert (Hw : load32 m e = load32 (mem s) e).
  { eapply load32_same_on; [exact Hsm|unfold region; lia|]. intros b Hb. unfold page_entry. lia. }
  eapply wp_mono; [apply (free_frame_spec fs n Hbs e Hpap (set_mem m s) Hf1); cbn [mem set_mem]; by rewrite Hw|].
  intros [] s' (m' & -> & Hused & Hent & Hsame). cbn [mem set_mem] in *. exists m'. split; [done|]. rewrite Hw in Hused, Hent.
  constructor.
  - intros i Hil. destruct (decide (i = lo)) as [->|Hne].
    + change (page_entry t a lo) with e. rewrite Hent. unfold page_frame, page_present.
      rewrite field_with_field_eq, field_with_field_ne by lia. split; [|done]. by rewrite Z.mod_0_l.
    + destruct (Hen i ltac:(lia)) as [H1' H2']. unfold page_entry in *.
      rewrite (load32_same_on _ _ _ _ Hsame) by (unfold region; lia || (intros; cbv beta; lia)). done.
  - intros f Hf. rewrite Hused, <- (Hus f Hf) by lia. replace (page_frame _ / 4096) with 0 by dlia.
    by replace (f =? 0) with false by blia.
  - intros _. rewrite Hused by lia. by replace (page_frame _ / 4096) with 0 by dlia.
  - intros b Hb [Hb1 Hb2]. unfold page_entry in *. rewrite Hsame by (try done; lia). apply Hsm; [done|lia].
Qed.

Lemma contracted_range x : HEAP_MIN_SIZE <= en - st -> 0 <= x < en - st ->
  HEAP_MIN_SIZE <= contracted x <= en - st /\ 0 <= taken x /\
  en - st - 4096 * (taken x + 1) <= contracted x /\ (0 < taken x -> contracted x < en - st - 4096 * taken x).
Proof using.
  intros Hmin Hx. unfold taken. assert (Hc : HEAP_MIN_SIZE <= contracted x <= en - st).
  { unfold contracted. case_match; lia. }
  set (c := contracted x) in *. clearbody c. split; [exact Hc|]. dlia.
Qed.

Lemma contract_spec s mx x :
  grows t fs n heap st en ker wr s mx -> en < 4294967296 -> HEAP_MIN_SIZE <= en - st -> 0 <= x < en - st ->
  let c := taken x in let a := en - 4096 * c in
  pages_at kd t fs n s a c -> 32 * n <= 4096 ->
  (forall i, 0 <= i < c -> 0 < page_frame (load32 (mem s) (page_entry t a i)) < 32 * n) ->
  wp (contract x heap) (fun r s' => r = contracted x /\ exists m, s' = set_mem m s /\
    load32 m (heap + 20) = st + contracted x /\
    exists m0, taken_from s a c 0 m0 /\ m = store32 m0 (heap + 20) (st + contracted x)) s.
Proof using.
  intros [Hst Hen Hmx _ [Hh1 Hh2] Harea [Hat Haf]] Hlt Hmin Hx c a Hpa Hn Hmap.
  destruct (contracted_range x Hmin Hx) as (Hc & Hc0 & Hc1 & Hc2). fold c in Hc0, Hc1, Hc2.
  destruct (pa_pages _ _ _ _ _ _ _ Hpa) as (_ & _ & Hpi & Hpr). pose proof (page_index_range a).
  unfold HEAP_MIN_SIZE in *. unfold contract, get_end_address, get_start_address, get_kernel_directory, set_end_address, ASSERT.
  k_steps. rewrite Hst, Hen, (u32_id (en - st)) by lia. replace (x <? en - st) with true by blia. k_steps.
  rewrite Hst, Hen, (u32_id (en - st)), (u32_id (en - st - 4096)) by lia.
  pose proof (contracted_eq x) as Heq. cbv zeta in Heq. rewrite Heq. set (ns := contracted x) in *.
  eapply (wp_mono _ (fun _ s' => exists m, s' = set_mem m s /\ taken_from s a c 0 m)).
  - apply (wp_while _ _ (fun i s' => exists lo m, s' = set_mem m s /\ taken_from s a c lo m /\ 0 <= lo <= c /\
        i = en - st - 4096 - 4096 * (c - lo)) (fun i _ => i + 4096 * (c + 1))).
    + intros i s' (lo & m & -> & _ & ? & ->). lia.
    + intros i s' (lo & m & -> & Htf & Hlo & ->). k_steps. destruct (ns <? _) eqn:E; bool_hyps.
      * assert (Hlo1 : 0 < lo) by lia. k_steps. cbn [mem set_mem pg].
        assert (Hst' : load32 m (heap + 16) = st).
        { rewrite <- Hst. eapply load32_same_on; [apply Htf|unfold region; lia|]. unfold page_entry. lia. }
        rewrite Hst', (pa_directory _ _ _ _ _ _ _ Hpa).
        replace (st + (en - st - 4096 - 4096 * (c - lo))) with (a + 4096 * (lo - 1)) by lia.
        eapply wp_mono; [apply (page_found kd t fs n s m a c); [exact Hpa|lia|]|].
        { intros b Hb Hno. apply (tf_frame _ _ _ _ _ Htf); [done|]. unfold page_mem, page_entry in *. lia. }
        intros r s' [-> ->]. k_steps.
        eapply wp_mono; [apply (take_next s a c (lo - 1) m Hpa); [by replace (lo - 1 + 1) with lo by lia|lia|lia|apply Hmap; lia]|].
        intros [] s' (m' & -> & Htf'). k_steps. rewrite u32_id by lia. split; [|lia].
        exists (lo - 1), m'. split_and!; done || lia.
      * assert (lo = 0) as -> by lia. by exists m.
    + exists c, (mem s). rewrite set_mem_id. split_and!; try lia; [done|]. constructor; [lia|done|lia|done].
    + lia.
  - intros i s' (m & -> & Htf). k_steps. cbn [mem set_mem].
    assert (Hst' : load32 m (heap + 16) = st).
    { rewrite <- Hst. eapply load32_same_on; [apply Htf|unfold region; lia|]. unfold page_entry. lia. }
    rewrite Hst', u32_id by lia. split; [done|]. eexists. split; [by rewrite set_mem_set_mem|].
    split; [rewrite load32_store32_eq by (unfold region; lia); apply u32_id; lia|]. by exists m.
Qed.
End Contract.

(** The entry of the page in front of those that are taken away. *)
Definition kept_entry (t a : Z) : Z := page_entry t a (-1).

(** C38: [contract] gives no frame back: the heap ends at the new size, at least the minimum.
    Of the pages behind it the first, when the sizes differ by whole pages, is as it
    was; those behind that one have no frame any more but are present as before, so
    that they show frame 0; all that becomes free is that frame; and nothing but
    these entries, the bitset and the heap's end is written. *)
Theorem contract_leaks `{Linkage, Kmalloc} kd t fs n heap st en ker wr s mx x :
  grows t fs n heap st en ker wr s mx -> en < 4294967296 -> HEAP_MIN_SIZE <= en - st -> 0 <= x < en - st ->
  let a := en - 4096 * taken st en x in
  pages_at kd t fs n s a (taken st en x) -> 32 * n <= 4096 ->
  (forall i, 0 <= i < taken st en x -> 0 < page_frame (load32 (mem s) (page_entry t a i)) < 32 * n) ->
  wp (contract x heap) (fun r s' => r = contracted x /\ HEAP_MIN_SIZE <= r <= en - st /\
    load32 (mem s') (heap + 20) = st + r /\
    (r < en - st -> (en - (st + r)) mod 4096 = 0 -> a = st + r + 4096) /\
    (0 < page_index a -> load32 (mem s') (kept_entry t a) = load32 (mem s) (kept_entry t a)) /\
    (forall i, 0 <= i < taken st en x -> page_frame (load32 (mem s') (page_entry t a i)) = 0 /\
       page_present (load32 (mem s') (page_entry t a i)) = page_present (load32 (mem s) (page_entry t a i))) /\
    (forall f, 0 < f < 32 * n -> used_in (mem s') fs f = used_in (mem s) fs f) /\
    (0 < taken st en x -> used_in (mem s') fs 0 = false) /\
    same_on (fun b => ~ (page_entry t a 0 <= b < page_entry t a (taken st en x)) /\
      ~ (fs <= b < fs + 4 * n) /\ ~ (heap + 20 <= b < heap + 24)) (mem s) (mem s')) s.
Proof.
  intros Hgw Hlt Hmin Hx a Hpa Hn Hmap. pose proof Hgw as [_ _ _ _ [Hh1 Hh2] _ [Hat Haf]].
  destruct (contracted_range st en x Hmin Hx) as (Hc & Ht0 & Hc1 & Hc2).
  destruct (pa_pages _ _ _ _ _ _ _ Hpa) as (_ & _ & Hpi & _). pose proof (page_index_range a).
  destruct (pa_bitset _ _ _ _ _ _ _ Hpa) as [[Hn0 [Hb1 Hb2]] _]. destruct (pa_place _ _ _ _ _ _ _ Hpa) as [Hp1 Hp2].
  pose proof (pa_apart _ _ _ _ _ _ _ Hpa) as Hap.
  eapply wp_mono; [by apply (contract_spec kd t fs n heap st en ker wr s mx x)|]. fold a.
  intros r s' (-> & m & -> & He & m0 & [Hent Hus Hz Hsm] & ->). cbn [mem set_mem].
  set (m := store32 _ _ _) in *.
  assert (Hm : forall w, 0 <= w -> w + 4 <= 4294967296 -> w + 4 <= heap \/ heap + 32 <= w -> load32 m w = load32 m0 w).
  { intros w ???. apply load32_store32_ne; unfold region; lia. }
  assert (Hu : forall f, 0 <= f < 32 * n -> used_in m fs f = used_in m0 fs f).
  { intros f Hf. unfold used_in. f_equal. apply Hm; dlia. }
  unfold kept_entry, page_entry in *.
  split; [done|]. split; [exact Hc|]. split; [exact He|]. split; [unfold a, taken; dlia|]. split_and!.
  - intros Hi. rewrite Hm by lia. eapply load32_same_on; [exact Hsm|unfold region; lia|]. cbv beta. lia.
  - intros i Hi. rewrite Hm by lia. by apply Hent.
  - intros f Hf. rewrite Hu by lia. by apply Hus.
  - intros Hpos. assert (0 < n) by (destruct (decide (n = 0)) as [->|]; [specialize (Hmap 0 ltac:(lia)); lia|lia]).
    rewrite Hu by lia. by apply Hz.
  - intros b Hb (?&?&?). unfold m. rewrite load8_store32_ne by (unfold region; lia). by apply Hsm.
Qed.

(** ** The endmost hole *)

Section Endmost.
Context `{Linkage, Kmalloc} (heap base cap st en : Z) (l : list Z).

Lemma find_endmost_spec s h :
  heap_at (mem s) heap base cap l st en -> Z.of_nat (length l) < 2147483647 ->
  h ∈ l -> 0 < h -> Forall (fun x => 0 <= x <= h) l ->
  wp (find_endmost heap) (fun r s' => s' = s /\ exists i : nat, r = Z.of_nat i /\ l !! i = Some h) s.
Proof.
  intros Hh Hlen Hin Hpos Hmax. pose proof (heap_oa _ _ _ _ _ _ _ Hh) as Ho. unfold find_endmost. apply wp_bind.
  eapply (wp_mono _ (fun '(_, idx, _) s' => s' = s /\ exists i : nat, idx = Z.of_nat i /\ l !! i = Some h)).
  - apply (wp_while _ _ (fun '(iterator, idx, value) s' => s' = s /\ exists j : nat, iterator = Z.of_nat j /\
        (j <= length l)%nat /\ 0 <= value <= h /\ Forall (fun x => x <= value) (take j l) /\
        (value = 0 \/ exists i : nat, idx = Z.of_nat i /\ l !! i = Some value))
        (fun '(iterator, _, _) _ => Z.of_nat (length l) - iterator)).
    + intros [[i idx] v] s' (-> & j & -> & ? & _). lia.
    + intros [[i idx] v] s' (-> & j & -> & Hj & Hv & Hall & Hidx). unfold get_index_size. k_steps.
      rewrite (heap_index_size _ _ _ _ _ _ _ Hh), u32_id by lia.
      destruct (Z.of_nat j <? Z.of_nat (length l)) eqn:E; bool_hyps.
      * k_steps. eapply wp_mono; [apply (lookup_spec heap base l); [done|lia]|].
        intros x ? (-> & Hx). rewrite Nat2Z.id in Hx. pose proof (Forall_lookup_1 _ _ _ _ Hmax Hx) as Hxr. cbv beta in Hxr.
        rewrite s32_id by lia. k_steps. destruct (v <? x) eqn:Ev; bool_hyps; (split; [|lia]); (split; [done|]).
        -- exists (S j). rewrite (take_S_r _ _ _ Hx). split_and!; try lia.
           ++ apply Forall_app. split; [eapply Forall_impl; [exact Hall|]; cbv beta; lia|repeat constructor; lia].
           ++ right. by exists j.
        -- exists (S j). rewrite (take_S_r _ _ _ Hx). split_and!; try lia; [|done].
           apply Forall_app. split; [done|repeat constructor; lia].
      * split; [done|]. assert (j = length l) as -> by lia. rewrite firstn_all in Hall.
        rewrite Forall_forall in Hall. pose proof (Hall h Hin) as Hge. cbv beta in Hge. assert (v = h) as -> by lia.
        destruct Hidx as [?|Hidx]; [lia|exact Hidx].
    + split; [done|]. exists 0%nat. split_and!; try lia; constructor.
    + lia.
  - intros [[i idx] v] s' (-> & Hi). by k_steps.
Qed.
End Endmost.

(** ** The last hole takes the new space, or gives it up *)

Lemma hole_addrs_range m a segs e x : tiles m a segs e -> x ∈ hole_addrs a segs -> a <= x < e.
Proof.
  intros Ht Hx. destruct (hole_addrs_split _ _ _ _ _ Ht Hx) as (pre & n & post & _ & H1%tiles_le & H2%tiles_le & Hn & _).
  lia.
Qed.

Section Extend.
Context `{Linkage} (heap base cap st en en' : Z) (pre : list (bool * Z)) (k : Z) (l : list Z) (junk : nat).
Hypothesis Hen : st <= en' < 4294967296.
Hypothesis Hroom : (heap + 32 <= st \/ en' <= heap) /\ (base + 4 * cap <= st \/ en' <= base).

(** What growing and shrinking leave alone: the heap's structure but for its end, the index, the
    managed addresses up to the size of the last hole, and the word at 8. *)
Definition extend_keeps (h b : Z) : Prop :=
  heap <= b < heap + 20 \/ base <= b < base + 4 * cap \/ st <= b < h + 8 \/ 8 <= b < 12.

Lemma heap_at_extend m m' h :
  heap_at m heap base cap l st en -> st <= h ->
  same_on (extend_keeps h) m m' -> load32 m' (heap + 20) = en' -> heap_at m' heap base cap l st en'.
Proof using Hen Hroom.
  intros [Hb0 Hn0 Hel Hst0 Hen0 [??] [??] [??] Hcap Hap Hap2] Hh Hs He'.
  assert (Hfield : forall x, heap <= x -> x + 4 <= heap + 20 -> load32 m' x = load32 m x).
  { intros x ??. eapply load32_same_on; [exact Hs|unfold region; lia|]. intros b ?. left. lia. }
  constructor; rewrite ?Hfield by lia; try done; try (unfold region; lia).
  intros i y Hy. pose proof (lookup_lt_Some _ _ _ Hy). rewrite <- (Hel i y Hy).
  eapply load32_same_on; [exact Hs|unfold region; lia|]. intros b ?. right. left. lia.
Qed.

Lemma part_extend m m' h miss :
  heap_part m heap base cap st en (pre ++ [(true, k)]) l junk miss -> tiles m st pre h ->
  same_on (extend_keeps h) m m' -> load32 m' (heap + 20) = en' -> hole_size m' h = k + (en' - en) ->
  20 <= k + (en' - en) -> en' <= en \/ hole_size m 0 < 20 ->
  heap_part m' heap base cap st en' (pre ++ [(true, k + (en' - en))]) l junk miss.
Proof using Hen Hroom.
  intros [Hh Hfun Ht Hidx Htail Hnull Hpl] Hpre Hs He' Hsz Hk' Hdir.
  apply tiles_app in Ht as (c & Hc & Hlast). assert (c = h) as -> by by eapply tiles_end.
  cbn [tiles] in Hlast. destruct Hlast as (Hk & (H1 & H2 & _) & _ & Hend). pose proof (tiles_le _ _ _ _ Hpre).
  pose proof Hh as [_ _ _ _ _ [??] [??] _ Hcap Hap Hap2].
  assert (Hw : forall x, 0 <= x -> x + 4 <= 4294967296 -> (forall b, x <= b < x + 4 -> extend_keeps h b) ->
    load32 m' x = load32 m x).
  { intros x ???. eapply load32_same_on; [exact Hs|unfold region; lia|done]. }
  constructor.
  - by apply (heap_at_extend m m' h).
  - rewrite Hw; [done|lia|lia|]. intros b ?. left. lia.
  - apply tiles_app. exists h. split.
    + eapply tiles_frame; [exact Hpre|exact Hs|unfold region; lia|lia|]. intros b ?. right. right. left. lia.
    + cbn [tiles]. split; [lia|]. split; [|split; [done|lia]]. split; [|split; [|exact Hsz]].
      * rewrite Hw; [done|lia|lia|]. intros b ?. right. right. left. lia.
      * rewrite Hs; [done|lia|]. right. right. left. lia.
  - by rewrite Hidx, !(hole_addrs_app _ _ _ _ _ Hpre).
  - intros i Hi. rewrite Hw; [by apply Htail|lia|lia|]. intros b ?. right. left. lia.
  - eapply nulls_smaller; [eapply nulls_frame; [exact Hnull|exact Hs|]; intros b ?; right; right; right; lia|].
    destruct Hdir; [left; lia|right]. unfold hole_size in *. rewrite Hw; [done|lia|lia|]. intros b ?. right. right. right. lia.
  - lia.
Qed.

Lemma wf_extend m m' h :
  heap_wf m heap base cap st en (pre ++ [(true, k)]) l junk -> tiles m st pre h ->
  same_on (extend_keeps h) m m' -> load32 m' (heap + 20) = en' -> hole_size m' h = k + (en' - en) ->
  20 <= k + (en' - en) -> en' <= en \/ hole_size m 0 < 20 ->
  heap_wf m' heap base cap st en' (pre ++ [(true, k + (en' - en))]) l junk.
Proof using Hen Hroom. intros ?%part_whole ??????. apply part_whole. by apply (part_extend m m' h). Qed.
End Extend.

(** ** [alloc] on a heap without a hole that is large enough *)

Section Grow.
Context `{Linkage, Kmalloc} (kd t fs n heap base cap st en mx ker wr : Z).
Context (pre : list (bool * Z)) (k : Z) (l : list Z) (junk : nat) (s : kstate) (size : Z) (free : list Z).

(** The end of the heap once [size] bytes have been added. *)
Definition new_end : Z := st + rounded (en - st + size).

(** There is room for [size] more bytes: below the maximum, in the page table, and
    among the frames; and nothing of it is near the heap, which ends at the end of a
    page: if it does not, [expand] leaves pages out, [second_growth_unmapped].  The word at 8
    is less than the size of a hole: if it is more, the search takes a null pointer
    of the index for a hole that fits, and the heap does not grow, [alloc_takes_null]. *)
Record can_grow : Prop := CanGrow {
  cg_boundary : en mod 4096 = 0;
  cg_null : hole_size (mem s) 0 < 20;
  cg_heap : grows t fs n heap st en ker wr s mx;
  cg_size : 0 < size /\ en - st + size < 4294963200 /\ new_end <= mx < 4294967296;
  cg_pages : pages_at kd t fs n s en (page_count en new_end);
  cg_unmapped : forall i, 0 <= i < page_count en new_end -> page_frame (load32 (mem s) (page_entry t en i)) = 0;
  cg_frames : NoDup free /\ Z.of_nat (length free) = page_count en new_end /\
    Forall (fun f => 0 <= f < 32 * n /\ used_in (mem s) fs f = false) free;
  cg_room : (heap + 32 <= st \/ new_end <= heap) /\ (base + 4 * cap <= st \/ new_end <= base);
  cg_tables : forall b, t <= b < t + 4096 \/ fs <= b < fs + 4 * n ->
    12 <= b /\ ~ (st <= b < new_end) /\ ~ (base <= b < base + 4 * cap)
}.

Hypothesis Hgrow : can_grow.
Hypothesis Hwf : heap_wf (mem s) heap base cap st en (pre ++ [(true, k)]) l junk.

(** The last hole. *)
Definition last_hole : Z := en - k.

Lemma last_hole_tiles : tiles (mem s) st pre last_hole /\ 20 <= k /\ hole_size (mem s) last_hole = k.
Proof using Hwf.
  clear Hgrow. destruct Hwf as [_ _ Ht _ _ _ _]. apply tiles_app in Ht as (c & Hc & Hl). cbn [tiles] in Hl.
  destruct Hl as (? & (_ & _ & ?) & _ & ?). unfold last_hole. by replace (en - k) with c by lia.
Qed.

Lemma last_hole_endmost : last_hole ∈ l /\ Forall (fun x => 0 <= x <= last_hole) l /\ 12 <= last_hole.
Proof using Hwf.
  clear Hgrow. destruct last_hole_tiles as (Hpre & Hk & _). pose proof (tiles_le _ _ _ _ Hpre).
  destruct Hwf as [_ _ _ Hidx _ _ Hpl]. rewrite (hole_addrs_app _ _ _ _ _ Hpre) in Hidx. cbn [hole_addrs app] in Hidx.
  split; [|split; [|lia]].
  - rewrite Hidx, !elem_of_app. left. right. by apply list_elem_of_singleton.
  - apply Forall_forall. intros x Hx. rewrite Hidx, !elem_of_app in Hx. destruct Hx as [[Hx|Hx]|Hx].
    + apply (hole_addrs_range _ _ _ _ _ Hpre) in Hx. lia.
    + apply list_elem_of_singleton in Hx as ->. lia.
    + apply elem_of_replicate in Hx as [-> _]. lia.
Qed.

(** What [alloc_grow] may change. *)
Definition grow_mem (b : Z) : Prop :=
  page_mem t fs n en (page_count en new_end) b \/ heap + 20 <= b < heap + 24 \/
  last_hole + 8 <= b < last_hole + 12 \/ new_end - 8 <= b < new_end.

Lemma page_mem_tables b :
  page_mem t fs n en (page_count en new_end) b -> t <= b < t + 4096 \/ fs <= b < fs + 4 * n.
Proof using Hgrow.
  clear Hwf. destruct (pa_pages _ _ _ _ _ _ _ (cg_pages Hgrow)) as (_ & ? & ? & _).
  pose proof (page_index_range en). unfold page_mem, page_entry. lia.
Qed.

Lemma grow_apart b : grow_mem b -> ~ extend_keeps heap base cap st last_hole b.
Proof using Hgrow Hwf.
  destruct Hgrow as [_ _ [_ _ _ _ [Hs1 Hs2] Hsz0 [Hat Haf]] (Hsz & Htot & Hmx) Hpa _ _ [Hr1 Hr2] Htab].
  pose proof last_hole_tiles as (Hpre%tiles_le & Hk & _). destruct Hwf as [Hh _ _ _ _ _ Hpl].
  destruct Hh as [_ _ _ _ _ _ _ _ Hcap Hap Hap2]. pose proof (page_index_range en).
  destruct (pa_pages _ _ _ _ _ _ _ Hpa) as (_ & Hpc & Hpi & Hpr).
  pose proof (rounded_range (en - st + size)) as Hround.
  intros Hb Hkeep. unfold grow_mem, new_end, last_hole in *.
  destruct Hb as [Hb%page_mem_tables|Hb].
  - specialize (Htab b Hb). unfold extend_keeps in Hkeep. lia.
  - unfold extend_keeps in Hkeep. lia.
Qed.

(** The pages of the new space have the frames [g], which were free and are used now, a
    frame for every page; and every new address is in one of them. *)
Record new_pages (g : list Z) (m : memory) : Prop := NewPages {
  np_count : Z.of_nat (length g) = page_count en new_end;
  np_fresh : NoDup g /\ Forall (fun f => 0 <= f < 32 * n /\ used_in (mem s) fs f = false) g;
  np_used : forall f, 0 <= f < 32 * n -> used_in m fs f = bool_decide (f ∈ g) || used_in (mem s) fs f;
  np_entries : forall i f, g !! i = Some f -> let e := load32 m (page_entry t en (Z.of_nat i)) in
    page_present e = 1 /\ page_frame e = f;
  np_covers : forall a, en <= a < new_end -> exists i : nat, (i < length g)%nat /\
    table_index a = table_index en /\ t + 4 * page_index a = page_entry t en (Z.of_nat i)
}.

Lemma new_pages_frame g m m' :
  new_pages g m -> same_on (fun b => t <= b < t + 4096 \/ fs <= b < fs + 4 * n) m m' -> new_pages g m'.
Proof using Hgrow.
  clear Hwf. intros [Hc Hf Hu He Hcov] Hs. destruct (cg_pages Hgrow) as [_ _ ? (? & ? & ? & _) _ [[? [? ?]] _] _ _].
  pose proof (page_index_range en). constructor; [done|done| | |done].
  - intros f Hf'. rewrite <- Hu by done. unfold used_in. f_equal.
    eapply load32_same_on; [exact Hs|unfold region; dlia|]. intros b Hb. right. dlia.
  - intros i f Hi e. pose proof (lookup_lt_Some _ _ _ Hi).
    assert (Hew : e = load32 m (page_entry t en (Z.of_nat i))); [|rewrite Hew; by apply He]. unfold e, page_entry.
    eapply load32_same_on; [exact Hs|unfold region; lia|]. intros b Hb. cbv beta. lia.
Qed.

Lemma mapped_new_pages g m :
  mapped_to t fs n ker wr s en g m -> Z.of_nat (length g) = page_count en new_end -> new_pages g m.
Proof using Hgrow.
  clear Hwf. intros [Hnd Hfr Hus Hen _] Hg. pose proof Hgrow as [Hal _ _ _ _ _ _ _ _].
  destruct (pa_pages _ _ _ _ _ _ _ (cg_pages Hgrow)) as (Ha & Hk & Hpi & _).
  destruct (pa_bitset _ _ _ _ _ _ _ (cg_pages Hgrow)) as [_ Hn]. constructor; [done|done|done| |].
  - intros i f Hf e. unfold e. rewrite (Hen i f Hf). destruct (Forall_lookup_1 _ _ _ _ Hfr Hf) as [Hr _].
    destruct (mapped_page_fields (load32 (mem s) (page_entry t en (Z.of_nat i))) ker wr f) as (? & _ & _ & _ & _ & ?); [lia|done].
  - intros a Hin. exists (Z.to_nat ((a - en) / 4096)). unfold page_count in *.
    assert (0 <= (a - en) / 4096 < (new_end - en + 4095) / 4096) by dlia.
    rewrite !Z2Nat.id by lia. split; [lia|].
    destruct (page_step en ((a - en) / 4096) ((new_end - en + 4095) / 4096)) as [Ht Hi]; [lia..|].
    unfold page_entry. rewrite <- Ht, <- Hi. unfold table_index, page_index. split; [dlia|]. f_equal. f_equal. dlia.
Qed.

Lemma alloc_grow_spec :
  wp (alloc_grow size heap) (fun _ s' => exists m, s' = set_mem m s /\ (exists g, new_pages g m) /\
    same_on (fun b => ~ grow_mem b) (mem s) m /\
    heap_wf m heap base cap st new_end (pre ++ [(true, k + (new_end - en))]) l junk) s.
Proof using Hgrow Hwf.
  pose proof Hgrow as [_ Hnull Hgw (Hsz & Htot & Hmx) Hpa Hun (Hf1 & Hf2 & Hf3) Hroom Htab].
  pose proof Hgw as [Hst Hend Hmax _ [Hs1 Hs2] Hsz0 _]. pose proof last_hole_tiles as (Hpre & Hk & Hkh).
  destruct last_hole_endmost as (Hin & Hmost & Hpos). pose proof (wf_heap _ _ _ _ _ _ _ _ _ Hwf) as Hh.
  pose proof (wf_places _ _ _ _ _ _ _ _ _ Hwf) as Hpl. pose proof (tiles_le _ _ _ _ Hpre).
  pose proof (heap_index_room _ _ _ _ _ _ _ Hh) as Hcap. pose proof (rounded_range (en - st + size) ltac:(lia)) as Hr.
  assert (Hlt : en <= new_end) by (unfold new_end; lia). assert (Hne : st <= new_end < 4294967296) by lia.
  unfold alloc_grow, get_end_address, get_start_address, get_header_size, set_header_size, set_footer_header,
    set_footer_magic, sizeof_footer. k_steps. rewrite Hst, Hend, (u32_id (en - st)), (u32_id (en - st + size)) by lia.
  eapply wp_mono; [apply (expand_spec kd t fs n heap st en ker wr s mx (en - st + size) free); done || lia|].
  intros [] s1 (g & m1 & -> & [(m0 & Hmt & Hm1) Hg He1 Hfr]). fold new_end in Hg, He1. rewrite Hg in Hfr. k_steps. cbn [mem set_mem].
  assert (Hs1' : same_on (fun b => ~ grow_mem b) (mem s) m1).
  { intros b Hb Hn. apply Hfr; [done|]. unfold grow_mem in Hn. tauto. }
  assert (Hk1 : same_on (extend_keeps heap base cap st last_hole) (mem s) m1).
  { intros b Hb Hkp. apply Hs1'; [done|]. by intros ?%grow_apart. }
  pose proof (heap_at_extend heap base cap st en new_end l Hne Hroom (mem s) m1 last_hole Hh ltac:(lia) Hk1 He1) as Hh1.
  rewrite He1, (heap_start _ _ _ _ _ _ _ Hh1), (u32_id (new_end - st)) by lia.
  assert (Hk8 : load32 m1 (last_hole + 8) = k).
  { unfold hole_size in Hkh. rewrite <- Hkh. unfold last_hole in *.
    eapply load32_same_on; [exact Hfr|unfold region; lia|]. intros b Hb. split; [|lia].
    intros Hpm%page_mem_tables. specialize (Htab b Hpm). lia. }
  eapply wp_mono; [apply (find_endmost_spec heap base cap st new_end l (set_mem m1 s) last_hole Hh1); done || lia|].
  intros idx s2 (-> & i & -> & Hi). pose proof (lookup_lt_Some _ _ _ Hi).
  replace (Z.of_nat i =? u32 (-1)) with false by (change (u32 (-1)) with 4294967295; blia). k_steps.
  eapply wp_mono; [apply (lookup_spec heap base l); [by eapply heap_oa|lia]|].
  intros h ? (-> & Hh'). rewrite Nat2Z.id in Hh'. assert (h = last_hole) as -> by congruence.
  k_steps. cbn [mem set_mem]. unfold last_hole in *. set (h := en - k) in *.
  rewrite Hk8, (u32_id (new_end - st - (en - st))), (u32_id (k + _)) by lia.
  replace (k + (new_end - st - (en - st))) with (k + (new_end - en)) by lia.
  rewrite load32_store32_eq, (u32_id (k + _)), (u32_id (h + _ - 8)) by (unfold region; lia).
  replace (h + (k + (new_end - en)) - 8) with (new_end - 8) by lia. eexists. split; [by rewrite !set_mem_set_mem|].
  set (m2 := store32 _ _ _). assert (Hs2' : same_on (fun b => ~ grow_mem b) (mem s) m2).
  { intros b Hb Hn. rewrite <- (Hs1' b Hb Hn). unfold grow_mem, last_hole in Hn. unfold m2. by read_stores. }
  destruct (gw_apart _ _ _ _ _ _ _ _ _ _ Hgw) as [Hat Haf]. split; [|split; [exact Hs2'|]].
  { exists g. eapply new_pages_frame; [by eapply mapped_new_pages|]. intros b Hb Hbt. specialize (Htab b Hbt).
    unfold m2. rewrite Hm1. by read_stores. }
  apply (wf_extend heap base cap st en new_end pre k l junk Hne Hroom (mem s) m2 h Hwf Hpre).
  - intros b Hb Hkp. apply Hs2'; [done|]. by intros ?%grow_apart.
  - rewrite <- He1. destruct Hgw as [_ _ _ _ _ _ _]. pose proof (heap_apart_area _ _ _ _ _ _ _ Hh1). unfold m2. by read_stores.
  - unfold hole_size, m2. read_stores. apply u32_id. lia.
  - lia.
  - by right.
Qed.
End Grow.

(** When no hole is large enough, [alloc] maps the pages that are missing behind the
    heap, gives them to the last hole, and cuts the block from it. *)
Section AllocGrow.
Context `{Linkage, Kmalloc} (kd t fs n heap base cap st en mx ker wr : Z).
Context (pre : list (bool * Z)) (k : Z) (l : list Z) (junk : nat) (s : kstate) (size : Z) (free : list Z).
#[local] Abbreviation en' := (new_end st en (size + 20)).
#[local] Abbreviation k' := (k + (en' - en)).

Lemma no_fit :
  heap_wf (mem s) heap base cap st en (pre ++ [(true, k)]) l junk -> 0 <= size -> hole_size (mem s) 0 < 20 ->
  (forall n0, (true, n0) ∈ pre ++ [(true, k)] -> n0 < size + 20) -> first_fit l (mem s) (size + 20) = None.
Proof using.
  intros Hwf Hsz Hnull Hno. unfold first_fit. apply fmap_None, list_find_None, Forall_forall. intros x Hx Hfit.
  destruct (wf_entry heap base cap st en _ l junk s Hwf x Hx ltac:(intros ->; lia)) as (p1 & n1 & p2 & Hs & _ & _ & Hn).
  assert (Hin : (true, n1) ∈ pre ++ [(true, k)]) by (rewrite Hs, elem_of_app; right; left).
  specialize (Hno n1 Hin). lia.
Qed.

(** The only hole that is large enough now is the last. *)
Lemma grown_split p1 n1 p2 :
  (forall n0, (true, n0) ∈ pre ++ [(true, k)] -> n0 < size + 20) ->
  pre ++ [(true, k')] = p1 ++ (true, n1) :: p2 -> size + 20 <= n1 -> p1 = pre /\ n1 = k' /\ p2 = [].
Proof using.
  intros Hno Heq Hn. destruct p2 as [|x p2 _] using rev_ind.
  - apply app_inj_tail in Heq as [-> [= ->]]. done.
  - rewrite app_comm_cons, app_assoc in Heq. apply app_inj_tail in Heq as [-> _].
    assert (Hin : (true, n1) ∈ (p1 ++ (true, n1) :: p2) ++ [(true, k)]) by (rewrite !elem_of_app; left; right; left).
    specialize (Hno n1 Hin). lia.
Qed.

Lemma alloc_grows_spec :
  sym_header_t_less_than <> 0 -> can_grow kd t fs n heap base cap st en mx ker wr s (size + 20) free ->
  heap_wf (mem s) heap base cap st en (pre ++ [(true, k)]) l junk -> 0 <= size ->
  (forall n0, (true, n0) ∈ pre ++ [(true, k)] -> n0 < size + 20) -> Z.of_nat (length l) + 4 <= cap ->
  wp (alloc size 0 heap) (fun p s' => p = en - k + 12 /\ s' = set_mem (mem s') s /\
    (exists g, new_pages t fs n st en s (size + 20) g (mem s')) /\ exists l',
      heap_wf (mem s') heap base cap st en' (cut pre k' (block_size k' size) []) l' (S (S junk))) s.
Proof using.
  intros Hsym Hgrow Hwf Hsz Hno Hcap. pose proof (cg_size _ _ _ _ _ _ _ _ _ _ _ _ _ _ _ Hgrow) as (_ & Htot & Hmx).
  pose proof (rounded_range (en - st + (size + 20))) as Hr.
  pose proof (gw_area _ _ _ _ _ _ _ _ _ _ (cg_heap _ _ _ _ _ _ _ _ _ _ _ _ _ _ _ Hgrow)) as Harea.
  assert (Hlt : en + size + 20 <= en') by (unfold new_end; lia).
  set (grown := fun m : memory => (exists g, new_pages t fs n st en s (size + 20) g m) /\
    heap_wf m heap base cap st en' (pre ++ [(true, k')]) l junk).
  apply (wp_loop _ (fun _ t' => t' = s \/ exists m, t' = set_mem m s /\ grown m)
    (fun _ t' => if load32 (mem t') (heap + 20) =? en then 1 else 0)); [intros; case_match; lia| |by left|case_match; lia].
  intros [] t' [->|(m & -> & [g Hpp] & Hwf')].
  - pose proof (heap_end _ _ _ _ _ _ _ (wf_heap _ _ _ _ _ _ _ _ _ Hwf)) as He.
    unfold alloc_round, sizeof_header, sizeof_footer. rewrite (u32_id (size + 12 + 8)) by lia.
    replace (size + 12 + 8) with (size + 20) by lia. k_steps.
    eapply wp_mono; [apply (find_smallest_hole_spec heap base cap l st en);
      [apply Hwf|pose proof (wf_places _ _ _ _ _ _ _ _ _ Hwf); lia|by left]|].
    intros r ? (-> & ->). rewrite (no_fit Hwf Hsz (cg_null _ _ _ _ _ _ _ _ _ _ _ _ _ _ _ Hgrow) Hno). change (-1 =? -1) with true. cbv iota. apply wp_bind.
    eapply wp_mono; [by apply (alloc_grow_spec kd t fs n heap base cap st en mx ker wr pre k l junk s (size + 20) free)|].
    intros [] t1 (m & -> & Hpp & _ & Hwf'). apply wp_ret.
    split; [right; by exists m|]. cbn [mem set_mem].
    rewrite He, (heap_end _ _ _ _ _ _ _ (wf_heap _ _ _ _ _ _ _ _ _ Hwf')), Z.eqb_refl.
    replace (en' =? en) with false by blia. lia.
  - pose proof (wf_tiles _ _ _ _ _ _ _ _ _ Hwf) as Ht. apply tiles_app in Ht as (c & Hc & Hl). cbn [tiles] in Hl.
    destruct Hl as (Hk & _ & _ & Hce).
    eapply wp_mono; [apply (alloc_round_wf_spec heap base cap st en' (pre ++ [(true, k')]) l junk size k' (set_mem m s));
      [done|done|done|apply elem_of_app; right; left|lia|done]|].
    intros r s' (p & h & n1 & p1 & p2 & l' & -> & [Hsp Hb _ -> Hfit Hs' Hwf2 _ Hfr _]).
    destruct (grown_split p1 n1 p2 Hno Hsp Hfit) as (-> & -> & ->). cbn [mem set_mem] in Hb, Hfr.
    assert (Hh : h = en - k).
    { destruct Hwf' as [_ _ Ht' _ _ _ _]. apply tiles_app in Ht' as (c' & Hc' & Hl'). cbn [tiles] in Hl'.
      assert (c' = h) by by eapply tiles_end. lia. }
    split; [lia|]. split; [by rewrite Hs'|]. split; [|by exists l'].
    exists g. eapply (new_pages_frame kd t fs n heap base cap st en mx ker wr s); [exact Hgrow|exact Hpp|].
    pose proof (gw_apart _ _ _ _ _ _ _ _ _ _ (cg_heap _ _ _ _ _ _ _ _ _ _ _ _ _ _ _ Hgrow)) as [Hat Haf].
    pose proof (tiles_le _ _ _ _ Hc). intros b Hbr Hbt.
    pose proof (cg_tables _ _ _ _ _ _ _ _ _ _ _ _ _ _ _ Hgrow b Hbt) as (_ & Hb1 & Hb2).
    apply Hfr; [done|]. unfold index_mem. lia.
Qed.

(** C22: When no hole is large enough, and the last segment of the heap is a hole, the heap ends
    at the end of a page, the page table behind it is there with nothing mapped, and
    there are frames enough, and the word at 8 is no size, [alloc] maps each page that is missing behind the heap to
    a frame of its own that was free and is now used, gives the new space to the last
    hole, and cuts the block from it: the heap is as well-formed as before, and every
    new address is in a mapped page.  When the word at 8 is larger than the heap
    [alloc_takes_null] shows what happens instead; when the last segment is a block,
    [alloc_grow_overlaps] shows the code failing, and when the end is inside a page,
    which it is after one such allocation, [second_growth_unmapped] does. *)
Theorem alloc_grows :
  sym_header_t_less_than <> 0 -> can_grow kd t fs n heap base cap st en mx ker wr s (size + 20) free ->
  heap_wf (mem s) heap base cap st en (pre ++ [(true, k)]) l junk -> 0 <= size ->
  (forall n0, (true, n0) ∈ pre ++ [(true, k)] -> n0 < size + 20) -> Z.of_nat (length l) + 4 <= cap ->
  wp (alloc size 0 heap) (fun p s' => p = en - k + 12 /\ s' = set_mem (mem s') s /\
    (exists g, new_pages t fs n st en s (size + 20) g (mem s')) /\ exists l',
      heap_wf (mem s') heap base cap st en' (cut pre k' (block_size k' size) []) l' (S (S junk))) s.
Proof using. apply alloc_grows_spec. Qed.
End AllocGrow.

Module GrowSample.
#[local] Existing Instance sample_linkage.
#[local] Existing Instance KheapSample.sample_kmalloc.

(** The kernel's directory is at 131072, with the page table at 143360, in which nothing
    is mapped; the bitset at 155648 has 64 frames, of which the first eight are used. *)
Definition page_words : list (Z * Z) := [(131072, 143360); (155648, 255)].
Definition with_pages (m : memory) : kstate :=
  set_pg (PagingGlobals 131072 131072 155648 64) (set_mem m sample_state).

(** A block of 1024 bytes and a hole of 3072. *)
Definition state : kstate :=
  with_pages (KheapSample.words_at
    ([(4096, 8192); (4100, 1); (4104, 64); (4108, sym_header_t_less_than);
      (4112, 16384); (4116, 20480); (4120, 65536); (8192, 17408)] ++
     FreeSample.marks 16384 0 1024 ++ FreeSample.marks 17408 1 3072 ++ page_words) ∅).

Lemma grow_wf : heap_wf (mem state) 4096 8192 64 16384 20480 [(false, 1024); (true, 3072)] [17408] 0.
Proof.
  constructor.
  - constructor; [vm_compute; reflexivity|vm_compute; reflexivity| |vm_compute; reflexivity
                 |vm_compute; reflexivity|unfold region; simpl; lia..].
    intros [|i] x Hx; [|done]. injection Hx as <-. vm_compute. reflexivity.
  - vm_compute. reflexivity.
  - tiles_compute.
  - reflexivity.
  - apply (zero_tail _ _ 1 63). vm_compute. reflexivity.
  - left. vm_compute. reflexivity.
  - lia.
Qed.

Lemma sample_end : new_end 16384 20480 4020 = 24500 /\ page_count 20480 24500 = 1.
Proof. split; vm_compute; reflexivity. Qed.

Lemma sample_can_grow : can_grow 131072 143360 155648 2 4096 8192 64 16384 20480 65536 0 1 state 4020 [9].
Proof.
  destruct sample_end as [He Hc].
  constructor; rewrite ?He, ?Hc.
  - reflexivity.
  - vm_compute. reflexivity.
  - constructor; try (vm_compute; reflexivity); try (unfold region; lia).
    split; vm_compute; reflexivity.
  - lia.
  - constructor; try (vm_compute; reflexivity); try (unfold bitset, region; lia).
    + change (page_index 20480) with 5. lia.
    + split; vm_compute; reflexivity.
    + cbv zeta. change (table_index 20480) with 0. unfold dir_table, region. lia.
  - intros i Hi. assert (i = 0) as -> by lia. vm_compute. reflexivity.
  - split; [apply NoDup_singleton|]. split; [reflexivity|]. apply Forall_singleton. split; [lia|]. vm_compute. reflexivity.
  - lia.
  - intros b Hb. lia.
Qed.

Lemma alloc_grows_witness :
  wp (alloc 4000 0 4096) (fun p s' => p = 17420 /\ (exists g, new_pages 143360 155648 2 16384 20480 state 4020 g (mem s')) /\
    exists l', heap_wf (mem s') 4096 8192 64 16384 24500 [(false, 1024); (false, 4020); (true, 3072)] l' 2) state.
Proof.
  eapply wp_mono.
  - apply (alloc_grows 131072 143360 155648 2 4096 8192 64 16384 20480 65536 0 1 [(false, 1024)] 3072 [17408] 0
      state 4000 [9]); [vm_compute; discriminate|exact sample_can_grow|exact grow_wf|lia| |cbn [length]; lia].
    intros n0 Hn0. apply elem_of_cons in Hn0 as [?|Hn0]; [congruence|]. apply list_elem_of_singleton in Hn0. injection Hn0 as ->. lia.
  - intros p s' (Hp & _ & Hpp & l' & Hwf). split; [exact Hp|]. split; [exact Hpp|]. exists l'. exact Hwf.
Defined.

(** The size is not rounded up to a page: after one growth the heap ends at 24500, and the
    next one maps as many pages as it adds, counted from the page of the old end, which
    is mapped already.  The page of the new end, the sixth, is not mapped; the footer of
    the last hole is written there. *)
Example second_growth_unmapped :
  wp (alloc 4000 0 4096 >> alloc 4000 0 4096) (fun p s' => load32 (mem s') 4116 = 28520 /\
    load32 (mem s') (page_entry 143360 24576 0) = 0 /\ page_present (load32 (mem s') (page_entry 143360 20480 0)) = 1 /\
    load32 (mem s') 28512 = HEAP_MAGIC) state.
Proof. vm_compute. by split_and!. Qed.

(** The word at address 8 as on a PC, the vector of an interrupt.  The first call removes
    the hole from the index and inserts what is left, and the index then has two null
    pointers; for the second no hole is large enough, and [find_smallest_hole] takes
    a null pointer.  [alloc] returns the address 12, and marks a block of 4020 bytes at address 0,
    over the table of interrupt vectors. *)
Example alloc_takes_null :
  wp (alloc 100 0 4096 >> alloc 4000 0 4096) (fun p s' => p = 12 /\ load32 (mem s') 4116 = 20480 /\
    header_at (mem s') 0 false 4020) (set_mem (store32 (mem state) 8 4026589891) state).
Proof. vm_compute. by split_and!. Qed.

(** A hole of 1024 bytes, with a block behind it that reaches to the end. *)
Definition state_block_last : kstate :=
  with_pages (KheapSample.words_at
    ([(4096, 8192); (4100, 1); (4104, 64); (4108, sym_header_t_less_than);
      (4112, 16384); (4116, 20480); (4120, 65536); (8192, 16384)] ++
     FreeSample.marks 16384 1 1024 ++ FreeSample.marks 17408 0 3072 ++ page_words) ∅).

(** The new space is given to the endmost hole even when a block is behind that: the
    block that [alloc] returns, 2048 bytes at 16396, lies across the other one,
    whose header is at 17408 and which is still in use. *)
Example alloc_grow_overlaps :
  header_at (mem state_block_last) 17408 false 3072 /\
  wp (alloc 2048 0 4096) (fun p s' => p = 16396 /\ p + 2048 = 18444 /\
    header_at (mem s') 16384 false 2068 /\ header_at (mem s') 17408 false 3072) state_block_last.
Proof. split; vm_compute; by split_and!. Qed.

(** A heap of 524288 bytes at 1048576: two blocks, the last one of 61440 bytes. *)
Definition state_full : kstate :=
  with_pages (KheapSample.words_at
    ([(4096, 8192); (4100, 0); (4104, 64); (4108, sym_header_t_less_than);
      (4112, 1048576); (4116, 1572864); (4120, 4194304)] ++
     FreeSample.marks 1048576 0 462848 ++ FreeSample.marks 1511424 0 61440 ++ page_words) ∅).

(** When the last block is released the heap is contracted to the minimum, which is
    before the block.  The difference that is taken off the size of the hole is more
    than its size: the hole has 4294963200 bytes, and its footer is written into the
    block before. *)
Example free_wraps_size :
  wp (free 1511436 4096) (fun _ s' =>
    load32 (mem s') 4116 = 1507328 /\ hole_size (mem s') 1511424 = 4294963200 /\
    header_at (mem s') 1048576 false 462848 /\ load32 (mem s') 1507320 = HEAP_MAGIC) state_full.
Proof. vm_compute. by split_and!. Qed.

(** The same with a last block that begins where [contract] lets the heap end. *)
Definition state_aligned : kstate :=
  with_pages (KheapSample.words_at
    ([(4096, 8192); (4100, 0); (4104, 64); (4108, sym_header_t_less_than);
      (4112, 1048576); (4116, 1572864); (4120, 4194304)] ++
     FreeSample.marks 1048576 0 466944 ++ FreeSample.marks 1515520 0 57344 ++ page_words) ∅).

(** Nothing of the hole is left inside the heap, and it goes into the index all the
    same: the index has a hole at the address where the heap now ends. *)
Example free_indexes_end :
  wp (free 1515532 4096) (fun _ s' =>
    load32 (mem s') 4116 = 1515520 /\ load32 (mem s') 4100 = 1 /\ load32 (mem s') 8192 = 1515520) state_aligned.
Proof. vm_compute. by split_and!. Qed.

(** The same heap with its last two pages mapped to the frames 6 and 7. *)
Definition state_mapped : kstate :=
  with_pages (KheapSample.words_at
    ([(4096, 8192); (4100, 0); (4104, 64); (4108, sym_header_t_less_than);
      (4112, 1048576); (4116, 1515520); (4120, 4194304)] ++
     [(143360 + 4 * 368, 24583); (143360 + 4 * 369, 28679)] ++ page_words) ∅).

Lemma contract_leaks_witness :
  wp (contract 458752 4096) (fun r s' => r = 458752 /\ load32 (mem s') 4116 = 1507328 /\
    used_in (mem s') 155648 7 = true /\ page_frame (load32 (mem s') 144836) = 0 /\
    page_present (load32 (mem s') 144836) = 1 /\ page_frame (load32 (mem s') 144832) = 6) state_mapped.
Proof.
  assert (Ht : taken 1048576 1515520 458752 = 1) by (vm_compute; reflexivity).
  assert (Hpi : page_index 1511424 = 369) by reflexivity.
  pose proof (contract_leaks 131072 143360 155648 2 4096 1048576 1515520 0 1 state_mapped 4194304 458752) as Hc.
  cbv zeta in Hc. rewrite !Ht in Hc. change (1515520 - 4096 * 1) with 1511424 in Hc. eapply wp_mono.
  - apply Hc; [|lia|unfold HEAP_MIN_SIZE; lia|lia| |lia|].
    + constructor; try (vm_compute; reflexivity); try (unfold region; lia). split; vm_compute; reflexivity.
    + constructor; try (vm_compute; reflexivity); try (unfold bitset, region; lia).
      * split; vm_compute; reflexivity.
      * cbv zeta. change (table_index 1511424) with 0. unfold dir_table, region. lia.
    + intros i Hi. assert (i = 0) as -> by lia. vm_compute. by split.
  - intros r s' (-> & _ & He & _ & Hk & Hp & Hus & _).
    specialize (Hp 0 ltac:(lia)). unfold kept_entry, page_entry in Hp, Hk. rewrite Hpi in Hp, Hk. destruct Hp as [Hp1 Hp2].
    split; [vm_compute; reflexivity|]. split; [exact He|]. split; [rewrite Hus by lia; vm_compute; reflexivity|].
    split; [exact Hp1|]. split; [etransitivity; [exact Hp2|]; vm_compute; reflexivity|].
    change (143360 + 4 * (369 + -1)) with 144832 in Hk. rewrite Hk by lia. vm_compute. reflexivity.
Defined.
End GrowSample.
