(* ===== verification/KheapShrink.v ===== *)
(** * Releasing the block at the end of the heap

    When the hole that [free] makes reaches the end, the heap is contracted to its
    minimum.  If the hole begins in front of the minimum what is left of it is
    the last hole, with the footer that earlier joins do not write; otherwise see
    [free_wraps_size] and [free_indexes_end] of KheapGrow. *)

From Stdlib Require Import ZArith Lia List String.
From stdpp Require Import base list gmap.
From S2P Require Import Prelude Machine Kernel Common Monitor OrderedArray Kmalloc Frames Paging Kheap.
From S2P Require Import KheapSpec KheapFree KheapWf KheapRelease KheapGrow.

(** Up to the minimum the size is of no account. *)
Lemma contracted_min x : x <= HEAP_MIN_SIZE -> contracted x = HEAP_MIN_SIZE.
Proof. intros ?. unfold contracted. case_match; lia. Qed.

Section Shrink.
Context `{Linkage, Kmalloc} (kd t fs nf heap base cap st en mx ker wr : Z).

(** The number of pages behind the minimum that lose their frames, and the first. *)
Definition spare : Z := Z.max 0 ((en - st - HEAP_MIN_SIZE - 1) / 4096).
Definition spare_at : Z := en - 4096 * spare.

(** The word of the directory that [get_page] reads. *)
Definition directory_entry : Z := dir_table kd (table_index spare_at).

(** The pages behind the minimum are mapped to frames of the bitset, through one
    table; and tables and heap are apart. *)
Record can_shrink (s : kstate) : Prop := CanShrink {
  cs_heap : grows t fs nf heap st en ker wr s mx;
  cs_size : HEAP_MIN_SIZE <= en - st /\ en < 4294967296;
  cs_pages : pages_at kd t fs nf s spare_at spare;
  cs_frames : 32 * nf <= 4096 /\ forall i, 0 <= i < spare ->
    0 < page_frame (load32 (mem s) (page_entry t spare_at i)) < 32 * nf;
  cs_tables : forall b, t <= b < t + 4096 \/ fs <= b < fs + 4 * nf \/ directory_entry <= b < directory_entry + 4 ->
    12 <= b /\ ~ (st <= b < en) /\ ~ (base <= b < base + 4 * cap) /\ ~ (heap <= b < heap + 32)
}.

(** The frames of the pages behind the minimum are gone. *)
Definition spare_unmapped (m : memory) : Prop :=
  forall i, 0 <= i < spare -> page_frame (load32 m (page_entry t spare_at i)) = 0.

(** The first page behind the minimum, which [contract] does not take away, keeps its entry. *)
Definition first_page_kept (m m' : memory) : Prop :=
  0 < page_index spare_at -> load32 m' (kept_entry t spare_at) = load32 m (kept_entry t spare_at).

(** Writing the index and managed addresses keeps all that. *)
Lemma can_shrink_frame s m :
  can_shrink s -> same_on (fun b => ~ index_mem heap base cap b /\ ~ (st <= b < en)) (mem s) m ->
  (heap + 32 <= st \/ en <= heap) -> (heap + 32 <= base \/ base + 4 * cap <= heap) ->
  can_shrink (set_mem m s).
Proof.
  intros [Hg Hsz Hpa [Hn Hfr] Htab] Hs Ha1 Ha2. pose proof Hg as [Hst Hen Hmx [Hk Hw] [Hh1 Hh2] Har Hap].
  pose proof Hpa as [Hd Ht [Hp1 Hp2] (? & ? & Hpi & ?) Hf Hb Hap' (He1 & He2 & He3)].
  pose proof (page_index_range spare_at).
  assert (Hfield : forall x, heap + 16 <= x -> x + 4 <= heap + 32 -> load32 m x = load32 (mem s) x).
  { intros x ??. eapply load32_same_on; [exact Hs|unfold region; lia|]. intros b ?. unfold index_mem. lia. }
  assert (Hbyte : forall x, heap + 16 <= x < heap + 32 -> load8 m x = load8 (mem s) x).
  { intros x ?. apply Hs; [lia|]. unfold index_mem. lia. }
  assert (Hword : forall x, t <= x /\ x + 4 <= t + 4096 \/ x = directory_entry -> region x (x + 4) ->
    load32 m x = load32 (mem s) x).
  { intros x Hx Hr. eapply load32_same_on; [exact Hs|exact Hr|]. intros b ?.
    destruct (Htab b) as (? & ? & ? & ?); [destruct Hx; [left|right; right]; lia|]. unfold index_mem. lia. }
  constructor; cbn [mem set_mem]; try done.
  - constructor; cbn [mem set_mem]; rewrite ?Hfield, ?Hbyte by lia; try done.
  - constructor; cbn [mem pg set_mem]; try done.
    change (load32 m directory_entry = t). rewrite Hword; [done|by right|exact He1].
  - split; [done|]. intros i Hi. unfold page_entry. rewrite Hword; [by apply Hfr|left; lia|unfold region; lia].
Qed.

(** *** [free_contract] *)

Section Contracted.
Context (s : kstate) (pre : list (bool * Z)) (hd n2 : Z) (l : list Z) (junk : nat) (miss : list Z).
Hypothesis Hcan : can_shrink s.
Hypothesis Hpart : heap_part (mem s) heap base cap st en (pre ++ [(true, n2)]) l junk miss.
Hypothesis Hpre : tiles (mem s) st pre hd.
Hypothesis Hend : hd + n2 = en.
Hypothesis Hleft : hd - st + 20 <= HEAP_MIN_SIZE.

(** What is left of the hole. *)
Definition remnant : Z := HEAP_MIN_SIZE - (hd - st).

Record shrunk (m : memory) : Prop := Shrunk {
  sh_part : heap_part m heap base cap st (st + HEAP_MIN_SIZE) (pre ++ [(true, remnant)]) l junk miss;
  sh_footer : footer_at m hd remnant;
  sh_unmapped : spare_unmapped m;
  sh_used : forall f, 0 < f < 32 * nf -> used_in m fs f = used_in (mem s) fs f;
  sh_kept : first_page_kept (mem s) m
}.

(** The heap's end is written, then the marks of what is left. *)
Lemma shrink_marks m0 :
  taken_from t fs nf s spare_at spare 0 m0 ->
  shrunk (store32 (store32 (store32 (store32 m0 (heap + 20) (st + HEAP_MIN_SIZE)) (hd + 8) remnant)
    (hd + remnant - 8) HEAP_MAGIC) (hd + remnant - 8 + 4) hd).
Proof.
  intros [Hent Hus _ Hfr]. pose proof Hcan as [Hg [Hsz Hlt] Hpa _ Htab]. pose proof Hg as [_ _ _ _ [Hh1 Hh2] Har [Hat Haf]].
  destruct (pa_pages _ _ _ _ _ _ _ Hpa) as (_ & ? & Hpi & _). pose proof (page_index_range spare_at).
  destruct (pa_bitset _ _ _ _ _ _ _ Hpa) as [[Hn0 [Hb1 Hb2]] _]. destruct (pa_place _ _ _ _ _ _ _ Hpa) as [Hp1 Hp2].
  pose proof (tiles_le _ _ _ _ Hpre). pose proof (pt_places _ _ _ _ _ _ _ _ _ _ Hpart).
  pose proof (heap_apart_area _ _ _ _ _ _ _ (pt_heap _ _ _ _ _ _ _ _ _ _ Hpart)) as [Ha1 Ha2].
  pose proof (heap_apart _ _ _ _ _ _ _ (pt_heap _ _ _ _ _ _ _ _ _ _ Hpart)) as Ha3.
  assert (Hmin : HEAP_MIN_SIZE = 458752) by done.
  assert (Hr : hd + remnant = st + HEAP_MIN_SIZE /\ 20 <= remnant) by (unfold remnant; lia).
  set (m := store32 _ (hd + remnant - 8 + 4) hd).
  assert (Hout : forall b, 0 <= b < 4294967296 -> ~ (heap + 20 <= b < heap + 24) -> ~ (st <= b < en) -> load8 m b = load8 m0 b).
  { intros b Hb ??. unfold m. by read_stores. }
  assert (Htabs : forall x, t <= x /\ x + 4 <= t + 4096 \/ fs <= x /\ x + 4 <= fs + 4 * nf -> load32 m x = load32 m0 x).
  { intros x Hx. unfold load32. rewrite !Hout; [done|..]; try lia;
      match goal with |- ~ (st <= ?b < en) => destruct (Htab b) as (_ & ? & _); [lia|done] end. }
  constructor.
  - assert (Hrem : remnant = n2 + (st + HEAP_MIN_SIZE - en)) by lia. rewrite Hrem.
    apply (part_extend heap base cap st en (st + HEAP_MIN_SIZE) pre n2 l junk ltac:(lia) ltac:(lia) (mem s) m hd miss Hpart Hpre).
    + intros b Hb Hkeep. transitivity (load8 m0 b).
      * unfold extend_keeps in Hkeep. unfold m. read_stores. done.
      * apply Hfr; [done|]. unfold page_entry, extend_keeps in *.
        destruct (decide (t <= b < t + 4096 \/ fs <= b < fs + 4 * nf)) as [Hin|]; [|lia].
        destruct (Htab b) as (? & ? & ? & ?); [tauto|lia].
    + unfold m. read_stores. apply u32_id. lia.
    + unfold hole_size, m. read_stores. rewrite u32_id by lia. lia.
    + lia.
    + lia.
  - unfold footer_at, m. replace (hd + remnant - 4) with (hd + remnant - 8 + 4) by lia. split; read_stores; [done|]. apply u32_id. lia.
  - intros i Hi. unfold page_entry in *. rewrite Htabs by lia. by apply Hent.
  - intros f Hf. rewrite <- Hus by done. unfold used_in. f_equal. apply Htabs. right. dlia.
  - intros Hi. pose proof (pa_apart _ _ _ _ _ _ _ Hpa). unfold kept_entry, page_entry in *. rewrite Htabs by lia.
    eapply load32_same_on; [exact Hfr|unfold region; lia|]. intros b Hb. cbv beta. lia.
Qed.

Lemma free_contract_spec test_header :
  wp (free_contract hd test_header heap) (fun _ s' => exists m, s' = set_mem m s /\ shrunk m) s.
Proof.
  pose proof Hcan as [Hg [Hsz Hlt] Hpa [Hn Hmap] Htab]. pose proof Hg as [Hst Hen _ _ [Hh1 Hh2] Har [Hat Haf]].
  pose proof (tiles_le _ _ _ _ Hpre). pose proof (pt_places _ _ _ _ _ _ _ _ _ _ Hpart).
  pose proof (heap_apart_area _ _ _ _ _ _ _ (pt_heap _ _ _ _ _ _ _ _ _ _ Hpart)) as [Ha1 _].
  assert (Hmin : HEAP_MIN_SIZE = 458752) by done. assert (Hc : contracted (hd - st) = HEAP_MIN_SIZE) by (apply contracted_min; lia).
  assert (Hn2 : 20 <= n2 /\ load32 (mem s) (hd + 8) = n2).
  { pose proof (pt_tiles _ _ _ _ _ _ _ _ _ _ Hpart) as Ht. apply tiles_app in Ht as (c & Hc' & Hl).
    assert (c = hd) as -> by by eapply tiles_end. destruct Hl as (? & (_ & _ & ?) & _). done. }
  assert (Htk : taken st en (hd - st) = spare) by (unfold taken, spare; by rewrite Hc).
  unfold free_contract, get_end_address, get_start_address, get_header_size, set_header_size, set_footer_magic,
    set_footer_header, sizeof_footer. k_steps. rewrite Hst, Hen, (u32_id (en - st)), (u32_id (hd - st)) by lia.
  eapply wp_mono.
  { apply (contract_spec kd t fs nf heap st en ker wr s mx (hd - st)); rewrite ?Htk; done || lia. }
  rewrite Htk. fold spare_at. intros r s1 (-> & m & -> & He & m0 & Htf & Hm). rewrite Hc in *. rewrite (u32_id (en - st - _)) by lia.
  k_steps. cbn [mem set_mem]. pose proof (shrink_marks m0 Htf) as Hsh. rewrite <- Hm in Hsh.
  pose proof (page_index_range spare_at). destruct (pa_pages _ _ _ _ _ _ _ Hpa) as (_ & ? & Hpi & _).
  assert (Hhs : load32 m (hd + 8) = n2).
  { rewrite Hm. rewrite load32_store32_ne by (unfold region; lia). rewrite <- (proj2 Hn2).
    eapply load32_same_on; [apply Htf|unfold region; lia|]. intros b Hb. unfold page_entry.
    destruct (decide (t <= b < t + 4096 \/ fs <= b < fs + 4 * nf)) as [Hin|]; [|lia].
    destruct (Htab b) as (_ & Hno & _); [tauto|lia]. }
  rewrite Hhs. replace (n2 - (en - st - HEAP_MIN_SIZE)) with remnant by (unfold remnant; lia).
  rewrite (u32_id remnant) by (unfold remnant; lia). replace (0 <? remnant) with true by (unfold remnant; blia).
  k_steps. cbn [mem set_mem]. rewrite load32_store32_eq, (u32_id remnant), (u32_id (hd + remnant - 8))
    by (unfold region, remnant; lia).
  eexists. split; [by rewrite !set_mem_set_mem|exact Hsh].
Qed.
End Contracted.
End Shrink.

(** ** [free] of the last block *)

Section FreeLast.
Context `{Linkage, Kmalloc} (kd t fs nf heap base cap st en mx ker wr : Z).
Context (segs : list (bool * Z)) (l : list Z) (junk : nat).

(** The hole that the index lacks goes into it, and the pages stay as they are. *)
Lemma insert_shrunk s pre hd l2 junk2 miss m :
  sym_header_t_less_than <> 0 -> can_shrink kd t fs nf heap base cap st en mx ker wr s ->
  miss = [] \/ miss = [hd] -> 0 < hd < 4294967296 -> Z.of_nat (length l2) + 3 <= cap ->
  shrunk t fs nf heap base cap st en s pre hd l2 junk2 miss m ->
  wp (when (Z.of_nat (length miss) =? 1) (insert_ordered_array hd heap)) (fun _ s' =>
    (exists l', heap_wf (mem s') heap base cap st (st + HEAP_MIN_SIZE) (pre ++ [(true, remnant st hd)]) l' junk2) /\
    spare_unmapped t st en (mem s') /\ first_page_kept t st en (mem s) (mem s') /\
    forall f, 0 < f < 32 * nf -> used_in (mem s') fs f = used_in (mem s) fs f) (set_mem m s).
Proof.
  intros Hsym Hcan Hmiss Hhd Hlen [Hpart _ Hun Hus Hkp]. pose proof Hcan as [_ _ Hpa _ Htab].
  destruct Hmiss as [-> | ->]; cbn [length]; [change (Z.of_nat 0 =? 1) with false|change (Z.of_nat 1 =? 1) with true]; cbn [when].
  - k_steps. split; [exists l2; by apply part_whole|]. by split_and!.
  - eapply wp_mono; [by apply (insert_part heap base cap st (st + HEAP_MIN_SIZE) (set_mem m s) _ l2 junk2 hd Hpart Hsym)|].
    intros [] s' (m' & l' & -> & Hwf' & _ & Hs'). cbn [mem set_mem] in *. split; [by exists l'|].
    pose proof (page_index_range (spare_at st en)). destruct (pa_pages _ _ _ _ _ _ _ Hpa) as (_ & ? & Hpi & _).
    destruct (pa_bitset _ _ _ _ _ _ _ Hpa) as [[Hn0 [Hb1 Hb2]] _]. destruct (pa_place _ _ _ _ _ _ _ Hpa) as [Hp1 Hp2].
    assert (Htabs : forall x, t <= x /\ x + 4 <= t + 4096 \/ fs <= x /\ x + 4 <= fs + 4 * nf -> load32 m' x = load32 m x).
    { intros x Hx. eapply load32_same_on; [exact Hs'|unfold region; lia|]. intros b Hb.
      destruct (Htab b) as (_ & _ & ? & ?); [lia|]. unfold index_mem. lia. }
    split_and!.
    + intros i Hi. rewrite <- (Hun i Hi). unfold page_entry. by rewrite Htabs by lia.
    + intros Hi. rewrite <- (Hkp Hi). unfold kept_entry, page_entry. by rewrite Htabs by lia.
    + intros f Hf. rewrite <- (Hus f Hf). unfold used_in. f_equal. apply Htabs. right. dlia.
Qed.

(** C29: When the block that is released reaches, with the holes next to it, the end of
    the heap, and the joined hole begins at least 20 bytes in front of the minimum
    size, [free] contracts the heap to the minimum: the segments in front stay, the
    rest of the hole is the last segment, and the index holds exactly the holes.  The
    pages behind, but for the first when the old end is the end of a page, lose their
    frames; the page in front of those keeps its entry, and no frame but frame 0 is
    given back.  This needs [left_ok], that a hole on the left has a footer that points to
    its header, the pages behind mapped to frames of the bitset, and nothing behind the
    heap that reads as a header.  A hole that begins later is not covered, and rightly:
    [free_wraps_size] and [free_indexes_end] of KheapGrow show [free] corrupting the
    heap there. *)
Theorem free_contracts s h n pre post pre1 n2 :
  sym_header_t_less_than <> 0 -> heap_wf (mem s) heap base cap st en segs l junk ->
  segs = pre ++ (false, n) :: post -> tiles (mem s) st pre h -> left_ok st (mem s) pre h ->
  (post = [] -> load32 (mem s) en <> HEAP_MAGIC /\ en + 4 <= 4294967296) -> Z.of_nat (length l) + 4 <= cap ->
  can_shrink kd t fs nf heap base cap st en mx ker wr s ->
  released pre n post = pre1 ++ [(true, n2)] -> (swallow n post).2 = [] -> en - n2 - st + 20 <= HEAP_MIN_SIZE ->
  wp (free (h + 12) heap) (fun _ s' =>
    (exists l' junk', heap_wf (mem s') heap base cap st (st + HEAP_MIN_SIZE)
       (pre1 ++ [(true, HEAP_MIN_SIZE - (en - n2 - st))]) l' junk') /\
    (forall i, 0 <= i < spare st en -> page_frame (load32 (mem s') (page_entry t (spare_at st en) i)) = 0) /\
    (0 < page_index (spare_at st en) ->
       load32 (mem s') (kept_entry t (spare_at st en)) = load32 (mem s) (kept_entry t (spare_at st en))) /\
    forall f, 0 < f < 32 * nf -> used_in (mem s') fs f = used_in (mem s) fs f) s.
Proof.
  intros Hsym Hwf Hsegs Hpre Hleft Hright Hcap Hcan Hrel Hlast Hmin.
  pose proof (wf_heap _ _ _ _ _ _ _ _ _ Hwf) as Hh. pose proof (wf_places _ _ _ _ _ _ _ _ _ Hwf) as Hpl.
  eapply (free_unifies heap base cap st en segs l junk s h n pre post); [done..|].
  intros m2 hd n2' pre1' post2 l2 junk2 miss [Hmiss Hpart Hbefore Hbehind _ _ Hsz Hlen Hfr Hrel' Hpost].
  rewrite Hlast in Hpost. subst post2. rewrite Hrel in Hrel'. apply app_inj_tail in Hrel' as [-> [= ->]].
  cbn [tiles] in Hbehind. replace (hd + n2 =? en) with true by blia. cbn [when].
  assert (Hcan2 : can_shrink kd t fs nf heap base cap st en mx ker wr (set_mem m2 s)).
  { eapply can_shrink_frame; [exact Hcan| |apply (heap_apart_area _ _ _ _ _ _ _ Hh)|apply (heap_apart _ _ _ _ _ _ _ Hh)].
    intros b Hb [Hb1 Hb2]. apply Hfr; [done|]. split; [done|lia]. }
  apply wp_bind. eapply wp_mono.
  { apply (free_contract_spec kd t fs nf heap base cap st en mx ker wr (set_mem m2 s) pre1 hd n2 l2 junk2 miss); done || lia. }
  intros [] t1 (m3 & -> & Hsh).
  eapply wp_mono; [apply (insert_shrunk (set_mem m2 s) pre1 hd l2 junk2 miss m3); done || lia|].
  intros [] s' ((l' & Hwf') & Hun & Hkp & Hus). cbn [mem set_mem] in *.
  destruct Hcan as [_ _ Hpa _ Htab]. pose proof (page_index_range (spare_at st en)).
  destruct (pa_bitset _ _ _ _ _ _ _ Hpa) as [[Hn0 [Hb1 Hb2]] _]. destruct (pa_place _ _ _ _ _ _ _ Hpa) as [Hp1 Hp2].
  assert (Hsame : forall x, t <= x /\ x + 4 <= t + 4096 \/ fs <= x /\ x + 4 <= fs + 4 * nf -> load32 m2 x = load32 (mem s) x).
  { intros x Hx. eapply load32_same_on; [exact Hfr|unfold region; lia|]. intros b Hb.
    destruct (Htab b) as (? & ? & ? & ?); [lia|]. unfold index_mem. lia. }
  replace (en - n2 - st) with (hd - st) by lia. split; [by exists l', junk2|]. split; [exact Hun|]. split.
  - intros Hi. rewrite (Hkp Hi). unfold kept_entry, page_entry in *. apply Hsame. lia.
  - intros f Hf. rewrite (Hus f Hf). unfold used_in. f_equal. apply Hsame. right. dlia.
Qed.
End FreeLast.

Module ShrinkSample.
#[local] Existing Instance sample_linkage.
#[local] Existing Instance KheapSample.sample_kmalloc.

(** Two blocks, and a hole up to two pages behind the minimum.  The last page has
    frame 7. *)
Definition state : kstate :=
  GrowSample.with_pages (KheapSample.words_at
    ([(4096, 8192); (4100, 1); (4104, 64); (4108, sym_header_t_less_than);
      (4112, 1048576); (4116, 1515520); (4120, 4194304); (8192, 1050112)] ++
     FreeSample.marks 1048576 0 1024 ++ FreeSample.marks 1049600 0 512 ++ FreeSample.marks 1050112 1 465408 ++
     [(143360 + 4 * 369, 28679)] ++ GrowSample.page_words) ∅).

Lemma shrink_wf :
  heap_wf (mem state) 4096 8192 64 1048576 1515520 [(false, 1024); (false, 512); (true, 465408)] [1050112] 0.
Proof.
  constructor.
  - constructor; [vm_compute; reflexivity|vm_compute; reflexivity| |vm_compute; reflexivity
                 |vm_compute; reflexivity|unfold region; simpl; lia..].
    intros [|i] x Hx; [|done]. injection Hx as <-. vm_compute. reflexivity.
  - vm_compute. reflexivity.
  - tiles_compute.
  - reflexivity.
  - apply (zero_tail _ _ 1 63). vm_compute. reflexivity.
  - left. vm_compute. reflexivity.
  - lia.
Qed.

Lemma sample_can_shrink : can_shrink 131072 143360 155648 2 4096 8192 64 1048576 1515520 4194304 0 1 state.
Proof.
  assert (Hs : spare 1048576 1515520 = 1) by (vm_compute; reflexivity).
  assert (Ha : spare_at 1048576 1515520 = 1511424) by (vm_compute; reflexivity).
  assert (Hd : directory_entry 131072 1048576 1515520 = 131072) by (vm_compute; reflexivity).
  constructor; rewrite ?Hs, ?Ha, ?Hd.
  - constructor; try (vm_compute; reflexivity); try (unfold region; lia). split; vm_compute; reflexivity.
  - unfold HEAP_MIN_SIZE. lia.
  - constructor; try (vm_compute; reflexivity); try (unfold bitset, region; lia).
    + change (page_index 1511424) with 369. lia.
    + split; vm_compute; reflexivity.
    + cbv zeta. change (table_index 1511424) with 0. unfold dir_table, region. lia.
  - split; [lia|]. intros i Hi. assert (i = 0) as -> by lia. vm_compute. by split.
  - intros b Hb. lia.
Qed.

Lemma free_contracts_witness :
  wp (free 1049612 4096) (fun _ s' => exists l' junk', heap_wf (mem s') 4096 8192 64 1048576 1507328
    [(false, 1024); (true, 457728)] l' junk') state.
Proof.
  eapply wp_mono.
  - apply (free_contracts 131072 143360 155648 2 4096 8192 64 1048576 1515520 4194304 0 1
      [(false, 1024); (false, 512); (true, 465408)] [1050112] 0 state 1049600 512 [(false, 1024)] [(true, 465408)]
      [(false, 1024)] 465920);
      [vm_compute; discriminate|exact shrink_wf|reflexivity| |exact I|discriminate|cbn [length]; lia
      |exact sample_can_shrink|reflexivity|reflexivity|unfold HEAP_MIN_SIZE; lia].
    tiles_compute.
  - intros [] s' (Hwf & _). exact Hwf.
Defined.

(** To allocate a block and release it again is no identity on this heap: the block is cut
    from the hole at the end, and when it is released the heap is contracted. *)
Example alloc_free_contracts :
  wp (p <- alloc 100 0 4096; free p 4096) (fun _ s' => load32 (mem state) 4116 = 1515520 /\
    load32 (mem s') 4116 = 1507328) state.
Proof. vm_compute. by split_and!. Qed.
End ShrinkSample.
