(* ===== verification/PagingInit.v ===== *)
(** * The start of paging ([initialise_paging] of [sys/paging.c])

    The bitset of the frames, the kernel's directory with the identity map of the
    first four megabytes and the pages of the heap, the heap, and the copy of the
    directory that the first task runs in. *)

From Stdlib Require Import ZArith Lia List String Sorting.
From stdpp Require Import base list gmap.
From S2P Require Import Prelude Machine Kernel Common Monitor Isr DescriptorTables OrderedArray Kmalloc Frames Paging Kheap.
From S2P Require Import KheapSpec KheapBoot KheapAligned KheapWf KheapRelease KheapGrow KheapShrink.

(** ** Definitions *)

Definition set_nframes (n : Z) : K unit :=
  modify (fun s => set_pg (PagingGlobals (kernel_directory (pg s)) (current_directory (pg s)) (frames (pg s)) n) s).
Definition set_frames (f : Z) : K unit :=
  modify (fun s => set_pg (PagingGlobals (kernel_directory (pg s)) (current_directory (pg s)) f (nframes (pg s))) s).
Definition set_kernel_directory (d : Z) : K unit :=
  modify (fun s => set_pg (PagingGlobals d (current_directory (pg s)) (frames (pg s)) (nframes (pg s))) s).
Definition set_kheap (h : Z) : K unit :=
  modify (fun s => set_hp (HeapGlobals (placement_address (hp s)) h) s).

Definition KHEAP_END : Z := KHEAP_START + KHEAP_INITIAL_SIZE.

Section Init.
Context `{Linkage}.

(** [i] is an [int]; compared with the addresses of the heap it is unsigned. *)
Definition below_heap_end (i : Z) : bool := u32 i <? KHEAP_END.

Definition initialise_paging : K Z :=
  let mem_end_page := 16777216 in
  set_nframes (mem_end_page / 4096) >>
  n <- gets (fun s => nframes (pg s));
  fr <- kmalloc (INDEX_FROM_BIT n);
  set_frames fr >>
  fr <- get_frames;
  n <- gets (fun s => nframes (pg s));
  memset fr 0 (INDEX_FROM_BIT n) >>
  kd <- kmalloc_a sizeof_page_directory;
  set_kernel_directory kd >>
  kd <- get_kernel_directory;
  memset kd 0 sizeof_page_directory >>
  st32 (dir_physical_addr kd) (u32 (kd + 4096)) >>
  while (fun i => ret (below_heap_end i))
        (fun i => kd <- get_kernel_directory;
                  get_page (u32 i) 1 kd >>
                  ret (s32 (i + 4096))) (s32 KHEAP_START) >>
  while (fun i => ret (i <? 4194304))
        (fun i => kd <- get_kernel_directory;
                  page <- get_page (u32 i) 1 kd;
                  alloc_frame page 0 0 >>
                  ret (s32 (i + 4096))) 0 >>
  while (fun i => ret (below_heap_end i))
        (fun i => kd <- get_kernel_directory;
                  page <- get_page (u32 i) 1 kd;
                  alloc_frame page 0 0 >>
                  ret (s32 (i + 4096))) (s32 KHEAP_START) >>
  register_interrupt_handler 14 ptr_page_fault >>
  kd <- get_kernel_directory;
  switch_page_directory kd >>
  heap <- create_heap KHEAP_START KHEAP_END 3489656832 0 0;
  set_kheap heap >>
  kd <- get_kernel_directory;
  dir <- clone_directory kd;
  set_current_directory dir >>
  dir <- gets (fun s => current_directory (pg s));
  switch_page_directory dir >>
  ret EXIT_SUCCESS.
End Init.

(** ** What the processor makes of the tables

    The entry of the directory and the entry of the table that it points to; the
    tables themselves are in memory where linear and physical addresses are the
    same. *)
Definition translate (m : memory) (dir a : Z) : option Z :=
  let pde := load32 m (dir_table_physical dir (table_index a)) in
  if page_present pde =? 1 then
    let pte := load32 m (page_frame pde * 4096 + 4 * page_index a) in
    if page_present pte =? 1 then Some (page_frame pte * 4096 + a mod 4096) else None
  else None.

(** What a program in user mode may do at an address: both entries have to allow it. *)
Definition user_entries (m : memory) (dir a : Z) (right : Z -> Z) : bool :=
  let pde := load32 m (dir_table_physical dir (table_index a)) in
  let pte := load32 m (page_frame pde * 4096 + 4 * page_index a) in
  (right pde =? 1) && (right pte =? 1).
Definition user_reads (m : memory) (dir a : Z) : bool :=
  user_entries m dir a page_present && user_entries m dir a page_user.
Definition user_writes (m : memory) (dir a : Z) : bool :=
  user_reads m dir a && user_entries m dir a page_rw.

(** ** Loops over pages *)

Lemma wp_page_loop (cond : Z -> bool) (body : Z -> K Z) a count (I : Z -> kstate -> Prop) s :
  (forall k, 0 <= k <= count -> cond (a + 4096 * k) = (k <? count)) ->
  (forall k s, 0 <= k < count -> I k s ->
     wp (body (a + 4096 * k)) (fun i s' => i = a + 4096 * (k + 1) /\ I (k + 1) s') s) ->
  I 0 s -> 0 <= count < 2 ^ 40 ->
  wp (while (fun i => ret (cond i)) body a) (fun _ s' => I count s') s.
Proof.
  intros Hcond Hbody HI Hcount.
  apply (wp_while _ _ (fun i s => exists k, i = a + 4096 * k /\ 0 <= k <= count /\ I k s)
           (fun i _ => count - (i - a) / 4096)).
  - intros i t (k & -> & Hk & _). replace ((a + 4096 * k - a) / 4096) with k by dlia. lia.
  - intros i t (k & -> & Hk & Ht). k_steps. rewrite Hcond by done.
    destruct (k <? count) eqn:E; bool_hyps.
    + eapply wp_mono; [apply Hbody; [lia|done]|]. intros i t' [-> Ht']. split.
      * exists (k + 1). split; [done|]. split; [lia|done].
      * replace ((a + 4096 * (k + 1) - a) / 4096) with (k + 1) by dlia.
        replace ((a + 4096 * k - a) / 4096) with k by dlia. lia.
    + replace count with k by lia. done.
  - exists 0. split; [lia|]. split; [lia|done].
  - replace ((a - a) / 4096) with 0 by dlia. lia.
Qed.

(** The pages of the two ranges. *)
Lemma heap_page k : 0 <= k <= 256 ->
  below_heap_end (s32 KHEAP_START + 4096 * k) = (k <? 256) /\
  u32 (s32 KHEAP_START + 4096 * k) = KHEAP_START + 4096 * k.
Proof.
  intros Hk. assert (Hu : u32 (s32 KHEAP_START + 4096 * k) = KHEAP_START + 4096 * k).
  { change (s32 KHEAP_START) with (-1073741824). unfold u32, KHEAP_START. dlia. }
  split; [|done]. unfold below_heap_end. rewrite Hu. unfold KHEAP_END, KHEAP_START, KHEAP_INITIAL_SIZE.
  bool_eq_lia.
Qed.

Lemma heap_page_index k : 0 <= k < 256 ->
  table_index (KHEAP_START + 4096 * k) = 768 /\ page_index (KHEAP_START + 4096 * k) = k.
Proof. intros. unfold table_index, page_index, KHEAP_START. split; dlia. Qed.

Lemma low_page_index k : 0 <= k < 1024 -> table_index (4096 * k) = 0 /\ page_index (4096 * k) = k.
Proof. intros. unfold table_index, page_index. split; dlia. Qed.

(** ** The kernel's map *)

(** The directory has two tables: [t0] maps the first four megabytes to
    themselves, [t1] the megabyte of the heap to the frames from 1024 on. *)
Record kernel_map (m : memory) (dir t0 t1 : Z) : Prop := KernelMap {
  km_low : load32 m (dir_table dir 0) = t0;
  km_heap : load32 m (dir_table dir 768) = t1;
  km_low_phys : load32 m (dir_table_physical dir 0) = t0 + 7;
  km_heap_phys : load32 m (dir_table_physical dir 768) = t1 + 7;
  km_none : forall i, 0 <= i < 1024 -> i <> 0 -> i <> 768 ->
    load32 m (dir_table dir i) = 0 /\ load32 m (dir_table_physical dir i) = 0;
  km_low_pages : forall j, 0 <= j < 1024 -> load32 m (t0 + 4 * j) = mapped_page 0 0 0 j;
  km_heap_pages : forall j, 0 <= j < 1024 ->
    load32 m (t1 + 4 * j) = if j <? 256 then mapped_page 0 0 0 (1024 + j) else 0
}.

(** Of these the entries that the processor reads when it translates an address of the
    kernel: a directory that has more tables has them too. *)
Record maps_kernel (m : memory) (dir t0 t1 : Z) : Prop := MapsKernel {
  mk_low : load32 m (dir_table_physical dir 0) = t0 + 7;
  mk_heap : load32 m (dir_table_physical dir 768) = t1 + 7;
  mk_low_pages : forall j, 0 <= j < 1024 -> load32 m (t0 + 4 * j) = mapped_page 0 0 0 j;
  mk_heap_pages : forall j, 0 <= j < 1024 ->
    load32 m (t1 + 4 * j) = if j <? 256 then mapped_page 0 0 0 (1024 + j) else 0;
  mk_tables : 0 <= t0 /\ t0 + 4096 <= 4194304 /\ t0 mod 4096 = 0 /\
    0 <= t1 /\ t1 + 4096 <= 4194304 /\ t1 mod 4096 = 0
}.

Lemma kernel_maps m dir t0 t1 :
  kernel_map m dir t0 t1 -> 0 <= t0 /\ t0 + 4096 <= 4194304 /\ t0 mod 4096 = 0 ->
  0 <= t1 /\ t1 + 4096 <= 4194304 /\ t1 mod 4096 = 0 -> maps_kernel m dir t0 t1.
Proof. intros [] ??. constructor; try done. tauto. Qed.

(** Its memory. *)
Definition map_mem (dir t0 t1 b : Z) : Prop :=
  dir_table_physical dir 0 <= b < dir_table_physical dir 0 + 4 \/
  dir_table_physical dir 768 <= b < dir_table_physical dir 768 + 4 \/
  t0 <= b < t0 + 4096 \/ t1 <= b < t1 + 4096.

Lemma maps_kernel_frame P m m' dir t0 t1 :
  maps_kernel m dir t0 t1 -> same_on P m m' -> 0 <= dir /\ dir + 8196 <= 4294967296 ->
  (forall b, map_mem dir t0 t1 b -> P b) -> maps_kernel m' dir t0 t1.
Proof.
  intros [H1 H2 H3 H4 (?&?&?&?&?&?)] Hs Hd HP. unfold map_mem, dir_table_physical in *.
  assert (Hw : forall a, 0 <= a -> a + 4 <= 4294967296 -> (forall b, a <= b < a + 4 -> map_mem dir t0 t1 b) ->
    load32 m' a = load32 m a).
  { intros a ?? Ha. eapply load32_same_on; [exact Hs|unfold region; lia|]. intros b Hb. by apply HP, Ha. }
  unfold map_mem, dir_table_physical in Hw.
  constructor; unfold dir_table_physical; [by rewrite Hw by lia|by rewrite Hw by lia| | |done].
  - intros j Hj. rewrite Hw by lia. by apply H3.
  - intros j Hj. rewrite Hw by lia. by apply H4.
Qed.

(** An entry of a directory that [get_page] has made. *)
Lemma table_entry t : 0 <= t < 4294967296 -> t mod 4096 = 0 ->
  page_present (t + 7) = 1 /\ page_user (t + 7) = 1 /\ page_frame (t + 7) * 4096 = t.
Proof.
  intros Ht Hm. unfold page_present, page_user, page_frame, field.
  change (Z.ones 1) with (2 ^ 1 - 1). change (Z.ones 20) with (2 ^ 20 - 1).
  rewrite !land_mask, !Z.shiftr_div_pow2 by lia.
  change (2 ^ 0) with 1. change (2 ^ 1) with 2. change (2 ^ 2) with 4.
  change (2 ^ 12) with 4096. change (2 ^ 20) with 1048576.
  split_and!; dlia.
Qed.

Section Translate.
Context (m : memory) (dir t0 t1 : Z) (Hm : maps_kernel m dir t0 t1).

Lemma translate_entry t a :
  0 <= t < 4294967296 /\ t mod 4096 = 0 ->
  load32 m (dir_table_physical dir (table_index a)) = t + 7 ->
  translate m dir a =
    let pte := load32 m (t + 4 * page_index a) in
    if page_present pte =? 1 then Some (page_frame pte * 4096 + a mod 4096) else None.
Proof using.
  intros [Hr Ha] He. unfold translate. rewrite He.
  destruct (table_entry t Hr Ha) as (-> & _ & ->). done.
Qed.

(** A page that [alloc_frame] has mapped in such a table is for reading. *)
Lemma user_entry t a f :
  0 <= t < 4294967296 /\ t mod 4096 = 0 -> 0 <= f < 1048576 ->
  load32 m (dir_table_physical dir (table_index a)) = t + 7 ->
  load32 m (t + 4 * page_index a) = mapped_page 0 0 0 f ->
  user_reads m dir a = true /\ user_writes m dir a = false.
Proof using.
  intros [Hr Ha] Hf He Hp. unfold user_writes, user_reads, user_entries. rewrite He.
  destruct (table_entry t Hr Ha) as (Hp1 & Hu1 & ->). rewrite Hp, Hp1, Hu1.
  destruct (mapped_page_fields 0 0 0 f Hf) as (-> & -> & -> & _). split; [done|].
  by rewrite !andb_false_r.
Qed.

Lemma user_low a : 0 <= a < 4194304 -> user_reads m dir a = true /\ user_writes m dir a = false.
Proof using Hm.
  destruct (mk_tables _ _ _ _ Hm) as (?&?&?&?&?&?).
  intros Ha. assert (Hi : table_index a = 0) by (unfold table_index; dlia).
  assert (Hj : page_index a = a / 4096) by (unfold page_index; dlia).
  apply (user_entry t0 a (a / 4096)); [lia|dlia|rewrite Hi; by destruct Hm|].
  rewrite Hj. apply (mk_low_pages _ _ _ _ Hm). dlia.
Qed.

Lemma user_heap a :
  KHEAP_START <= a < KHEAP_END -> user_reads m dir a = true /\ user_writes m dir a = false.
Proof using Hm.
  destruct (mk_tables _ _ _ _ Hm) as (?&?&?&?&?&?).
  unfold KHEAP_END, KHEAP_INITIAL_SIZE, KHEAP_START. intros Ha.
  assert (Hi : table_index a = 768) by (unfold table_index; dlia).
  set (j := (a - 3221225472) / 4096). assert (Hj : page_index a = j) by (unfold page_index, j; dlia).
  assert (0 <= j < 256) by (unfold j; dlia).
  apply (user_entry t1 a (1024 + j)); [lia|lia|rewrite Hi; by destruct Hm|].
  rewrite Hj, (mk_heap_pages _ _ _ _ Hm) by lia. by replace (j <? 256) with true by blia.
Qed.

Lemma translate_low a : 0 <= a < 4194304 -> translate m dir a = Some a.
Proof using Hm.
  destruct (mk_tables _ _ _ _ Hm) as (?&?&?&?&?&?).
  intros Ha. assert (Hi : table_index a = 0) by (unfold table_index; dlia).
  assert (Hj : page_index a = a / 4096) by (unfold page_index; dlia).
  rewrite (translate_entry t0) by (lia || rewrite Hi; by destruct Hm).
  cbv zeta. rewrite Hj, (mk_low_pages _ _ _ _ Hm) by dlia.
  destruct (mapped_page_fields 0 0 0 (a / 4096)) as (-> & _ & _ & _ & _ & ->); [dlia|].
  cbn. f_equal. dlia.
Qed.

Lemma translate_heap a :
  KHEAP_START <= a < KHEAP_END -> translate m dir a = Some (a - KHEAP_START + 4194304).
Proof using Hm.
  destruct (mk_tables _ _ _ _ Hm) as (?&?&?&?&?&?).
  unfold KHEAP_END, KHEAP_INITIAL_SIZE, KHEAP_START. intros Ha.
  assert (Hi : table_index a = 768) by (unfold table_index; dlia).
  set (j := (a - 3221225472) / 4096). assert (Hj : page_index a = j) by (unfold page_index, j; dlia).
  assert (0 <= j < 256) by (unfold j; dlia).
  rewrite (translate_entry t1) by (lia || rewrite Hi; by destruct Hm).
  cbv zeta. rewrite Hj, (mk_heap_pages _ _ _ _ Hm) by lia.
  replace (j <? 256) with true by blia.
  destruct (mapped_page_fields 0 0 0 (1024 + j)) as (-> & _ & _ & _ & _ & ->); [lia|].
  change (1 =? 1) with true. cbv iota. f_equal. unfold j. dlia.
Qed.

End Translate.

Section TranslateNone.
Context (m : memory) (dir t0 t1 : Z) (Hm : kernel_map m dir t0 t1).
Hypothesis Ht1 : 0 <= t1 < 4294967296 /\ t1 mod 4096 = 0.

Lemma translate_none a :
  0 <= a < 4294967296 -> 4194304 <= a -> ~ (KHEAP_START <= a < KHEAP_END) -> translate m dir a = None.
Proof using Hm Ht1.
  unfold KHEAP_END, KHEAP_INITIAL_SIZE, KHEAP_START. intros Ha Hlow Hheap.
  assert (0 <= table_index a < 1024) by by apply table_index_range.
  destruct (decide (table_index a = 768)) as [Hi|Hi].
  - pose proof (page_index_range a). assert (256 <= page_index a) by (unfold table_index, page_index in *; dlia).
    rewrite (translate_entry m dir t1) by (done || rewrite Hi; by destruct Hm).
    cbv zeta. rewrite (km_heap_pages _ _ _ _ Hm) by lia.
    by replace (page_index a <? 256) with false by blia.
  - unfold translate. destruct (km_none _ _ _ _ Hm (table_index a)) as [_ ->]; [done| |done|done].
    unfold table_index. dlia.
Qed.
End TranslateNone.

(** ** Mapping the pages of a table *)

Section MapPages.
Context `{Kmalloc} (kd t fr f0 ti : Z).
Hypothesis Hdir : directory kd.
Hypothesis Ht : 0 < t /\ t + 4096 < 4294967296.
Hypothesis Hapart : fr + 512 <= t /\ kd + 8196 <= t.
Hypothesis Hfr : 0 <= fr /\ fr + 160 <= kd.
Hypothesis Hf0 : 0 <= f0.
Hypothesis Hti : 0 <= ti < 1024.

(** The first [k] pages of the table have the frames from [f0] on, and those
    below are in use. *)
Definition pages_mapped (m0 m : memory) (k : Z) : Prop :=
  load32 m (dir_table kd ti) = t /\
  (forall j, 0 <= j < 1024 -> load32 m (t + 4 * j) = if j <? k then mapped_page 0 0 0 (f0 + j) else 0) /\
  (forall f, 0 <= f < 1280 -> used_in m fr f = (f <? f0 + k)) /\
  same_on (fun b => ~ (t <= b < t + 4096) /\ ~ (fr <= b < fr + 160)) m0 m.

Lemma map_entry k m0 s :
  0 <= k < 1024 -> f0 + k < 1280 ->
  frames (pg s) = fr -> nframes (pg s) = 4096 -> pages_mapped m0 (mem s) k ->
  wp (alloc_frame (t + 4 * k) 0 0)
    (fun _ s' => exists m', s' = set_mem m' s /\ pages_mapped m0 m' (k + 1)) s.
Proof using Hdir Ht Hapart Hfr Hf0 Hti.
  intros Hk Hlt Hs1 Hs2 (Htab & Hpages & Hused & Hsame).
  assert (Hti' := Hti). assert (Hd := Hdir). destruct Hd as [Hd1 Hd2].
  assert (Hpage : load32 (mem s) (t + 4 * k) = 0) by (rewrite Hpages by done; by replace (k <? k) with false by blia).
  assert (Hbs : bitset fr 128) by (split; [lia|unfold region; lia]).
  assert (Hap : page_apart (t + 4 * k) fr 128) by (split; [unfold region; lia|lia]).
  eapply wp_mono.
  { apply (alloc_frame_spec fr 128 Hbs (t + 4 * k) Hap s Hs1 ltac:(by rewrite Hs2) ltac:(lia) 0 0 (f0 + k));
      [by rewrite Hpage|lia|]. rewrite Hused by lia. blia. }
  intros [] s' (m' & g & -> & (Hg & Hfree & Hleast) & Hused' & Hw & Hsame'). exists m'. split; [done|].
  assert (g = f0 + k) as ->.
  { destruct (decide (f0 + k < g)) as [Hgt|].
    - pose proof (Hleast (f0 + k) ltac:(lia)) as Hc. rewrite Hused in Hc by lia. bool_hyps. lia.
    - destruct (decide (g < f0 + k)); [|lia]. rewrite Hused in Hfree by lia. bool_hyps. lia. }
  rewrite Hpage in Hw.
  assert (Hword : fr <= word_of fr (f0 + k) /\ word_of fr (f0 + k) + 4 <= fr + 160) by (unfold word_of; dlia).
  split; [|split; [|split]].
  - rewrite <- Htab. unfold dir_table. eapply load32_same_on; [exact Hsame'|unfold region; lia|intros b Hb; cbv beta; lia].
  - intros j Hjr. destruct (decide (j = k)) as [->|].
    + by replace (k <? k + 1) with true by blia.
    + replace (j <? k + 1) with (j <? k) by bool_eq_lia. rewrite <- Hpages by done.
      eapply load32_same_on; [exact Hsame'|unfold region; lia|intros b Hb; cbv beta; lia].
  - intros f Hf. rewrite Hused', Hused by lia. apply Bool.eq_iff_eq_true.
    rewrite orb_true_iff, Z.eqb_eq, !Z.ltb_lt. lia.
  - eapply same_on_trans; [exact Hsame|]. intros b Hb [Hb1 Hb2]. apply Hsame'; [done|]. lia.
Qed.

Lemma map_page a k m0 s :
  table_index a = ti -> page_index a = k -> 0 <= k < 1024 -> f0 + k < 1280 ->
  frames (pg s) = fr -> nframes (pg s) = 4096 -> pages_mapped m0 (mem s) k ->
  wp (page <- get_page a 1 kd; alloc_frame page 0 0)
    (fun _ s' => exists m', s' = set_mem m' s /\ pages_mapped m0 m' (k + 1)) s.
Proof using Hdir Ht Hapart Hfr Hf0 Hti.
  intros Hi Hj Hk Hlt Hs1 Hs2 Hp. pose proof Hp as (Htab & _).
  apply wp_bind. eapply wp_mono; [apply (get_page_present a 1 kd t); [by rewrite Hi|lia..]|].
  intros page s' (-> & ->). rewrite Hj. by apply map_entry.
Qed.
End MapPages.

(** ** The three loops *)

(** The address of a page-aligned block, before the heap exists. *)
Definition next_page (p : Z) : Z := (p / 4096 + 1) * 4096.

Lemma next_page_bounds p : 0 <= p -> p < next_page p <= p + 4096 /\ next_page p mod 4096 = 0.
Proof. intros. unfold next_page. split; dlia. Qed.

Section Early.
Context `{Linkage} (s : kstate).
Let p := placement_address (hp s).
Hypothesis Hk : kheap (hp s) = 0.
Hypothesis Hp : 4096 <= p.

Lemma kmalloc_plain sz : 0 <= sz -> p + sz < 4294967296 ->
  kmalloc sz s = Ok p (set_hp (HeapGlobals (p + sz) 0) s).
Proof using Hk Hp.
  intros Hsz Hlt. unfold kmalloc, bind. rewrite kmalloc_int_kernel, kmalloc_early_spec; [done|done|unfold p in *; lia|done|done].
Qed.

Lemma placement_aligned : placement p 1 = next_page p.
Proof using Hp. unfold placement, next_page. by replace (4096 <=? p) with true by blia. Qed.

Lemma kmalloc_aligned sz : 0 <= sz -> next_page p + sz < 4294967296 ->
  kmalloc_a sz s = Ok (next_page p) (set_hp (HeapGlobals (next_page p + sz) 0) s) /\
  kmalloc_ap sz s = Ok (next_page p, next_page p) (set_hp (HeapGlobals (next_page p + sz) 0) s).
Proof using Hk Hp.
  intros Hsz Hlt. pose proof placement_aligned as Hpl. unfold p in *.
  unfold kmalloc_a, kmalloc_ap, bind. rewrite !kmalloc_int_kernel.
  rewrite !kmalloc_early_spec by (rewrite ?Hpl; done || lia). by rewrite Hpl.
Qed.
End Early.

Section Loops.
Context `{Linkage} (kd t fr : Z) (s : kstate).
Hypothesis Hdir : directory kd.
Hypothesis Hk : kheap (hp s) = 0.
Hypothesis Hp : 4096 <= placement_address (hp s).
Hypothesis Ht : t = next_page (placement_address (hp s)) /\ t + 4096 < 4294967296.
Hypothesis Hapart : fr + 512 <= t /\ kd + 8196 <= t.
Hypothesis Hfr : 0 <= fr /\ fr + 160 <= kd.
Hypothesis Hkd : kernel_directory (pg s) = kd.

Lemma create_table a :
  0 <= a < 4294967296 -> load32 (mem s) (dir_table kd (table_index a)) = 0 ->
  wp (get_page a 1 kd) (fun r s' => exists m',
    s' = set_mem m' (set_hp (HeapGlobals (t + 4096) 0) s) /\
    r = t + 4 * page_index a /\ entered kd a t t (mem s) m') s.
Proof using Hdir Hk Hp Ht Hapart Hfr.
  intros Ha H0'. destruct Ht as [Ht1 Ht2].
  destruct (next_page_bounds (placement_address (hp s))) as [Hb Hm]; [lia|]. rewrite <- Ht1 in Hb, Hm.
  destruct (kmalloc_aligned s Hk Hp 4096) as [_ Hkm]; [lia|lia|]. rewrite <- Ht1 in Hkm.
  apply (get_page_enters kd Hdir a t t s _ Ha H0' Hkm); [lia|unfold region; lia|lia|done|lia].
Qed.

(** The first loop makes the table of the heap. *)
Lemma reserve_heap :
  load32 (mem s) (dir_table kd 768) = 0 ->
  wp (while (fun i => ret (below_heap_end i))
        (fun i => kd <- get_kernel_directory; get_page (u32 i) 1 kd >> ret (s32 (i + 4096)))
        (s32 KHEAP_START))
    (fun _ s' => exists m', s' = set_mem m' (set_hp (HeapGlobals (t + 4096) 0) s) /\
       entered kd KHEAP_START t t (mem s) m') s.
Proof using Hdir Hk Hp Ht Hapart Hfr Hkd.
  intros H768. destruct Ht as [Ht1 Ht2]. pose proof (next_page_bounds (placement_address (hp s))).
  eapply wp_mono.
  { apply (wp_page_loop below_heap_end _ _ 256 (fun k s' => k = 0 /\ s' = s \/ 0 < k /\ exists m',
      s' = set_mem m' (set_hp (HeapGlobals (t + 4096) 0) s) /\ entered kd KHEAP_START t t (mem s) m')).
    - intros k Hkr. by apply heap_page.
    - intros k s' Hkr Hs'. destruct (heap_page k) as [_ Hu]; [lia|].
      destruct (heap_page_index k) as [Hi Hj]; [lia|]. unfold get_kernel_directory. k_step. k_step. rewrite Hu.
      assert (Hnext : s32 (s32 KHEAP_START + 4096 * k + 4096) = s32 KHEAP_START + 4096 * (k + 1)).
      { change (s32 KHEAP_START) with (-1073741824). rewrite s32_id by lia. lia. }
      destruct Hs' as [[-> ->]|(Hpos & m' & -> & He)].
      + rewrite Hkd. apply wp_bind. eapply wp_mono; [apply create_table; [unfold KHEAP_START; lia|by rewrite Hi]|].
        intros r s' (m' & -> & -> & He). k_steps. split; [exact Hnext|]. right. split; [lia|].
        exists m'. split; [done|]. exact He.
      + cbn [pg set_mem set_hp]. rewrite Hkd. apply wp_bind. eapply wp_mono.
        { apply (get_page_present _ 1 kd t); [|lia..]. rewrite Hi. by destruct He. }
        intros r s' (-> & _). k_steps. split; [exact Hnext|]. right. split; [lia|]. by exists m'.
    - by left.
    - lia. }
  intros i s' [[? _]|[_ Hs']]; [lia|exact Hs'].
Qed.

(** A page table that has just been made has no page mapped. *)
Lemma entered_empty a f0 m' :
  0 <= a < 4294967296 -> 0 <= f0 ->
  entered kd a t t (mem s) m' ->
  (forall f, 0 <= f < 1280 -> used_in (mem s) fr f = (f <? f0)) ->
  pages_mapped kd t fr f0 (table_index a) m' m' 0.
Proof using Hdir Hp Ht Hapart Hfr.
  intros Ha Hf0 (He1 & _ & He3 & He4) Hused. pose proof (table_index_range a Ha).
  destruct Ht as [_ Ht2]. destruct Hdir as [Hd1 Hd2].
  split; [exact He1|]. split; [|split; [|apply same_on_refl]].
  - intros j Hj. replace (j <? 0) with false by blia. by apply He3.
  - intros f Hf. rewrite Z.add_0_r, <- Hused by done. unfold used_in. f_equal.
    assert (0 <= f / 32 < 40) by dlia.
    eapply load32_same_on; [exact He4|unfold region; lia|].
    intros b Hb. unfold dir_table, dir_table_physical. lia.
Qed.

(** The second loop makes the first table and maps its pages to themselves. *)
Lemma identity_map :
  load32 (mem s) (dir_table kd 0) = 0 -> frames (pg s) = fr -> nframes (pg s) = 4096 ->
  (forall f, 0 <= f < 1280 -> used_in (mem s) fr f = false) ->
  wp (while (fun i => ret (i <? 4194304))
        (fun i => kd <- get_kernel_directory; page <- get_page (u32 i) 1 kd;
                  alloc_frame page 0 0 >> ret (s32 (i + 4096))) 0)
    (fun _ s' => exists m1 m', s' = set_mem m' (set_hp (HeapGlobals (t + 4096) 0) s) /\
       entered kd 0 t t (mem s) m1 /\ pages_mapped kd t fr 0 0 m1 m' 1024) s.
Proof using Hdir Hk Hp Ht Hapart Hfr Hkd.
  intros H0' Hframes Hn Hfree. destruct Ht as [Ht1 Ht2].
  pose proof (next_page_bounds (placement_address (hp s))) as Hnp. rewrite <- Ht1 in Hnp.
  eapply wp_mono.
  { apply (wp_page_loop (fun i => i <? 4194304) _ _ 1024 (fun k s' => k = 0 /\ s' = s \/ 0 < k /\ exists m1 m',
      s' = set_mem m' (set_hp (HeapGlobals (t + 4096) 0) s) /\ entered kd 0 t t (mem s) m1 /\
      pages_mapped kd t fr 0 0 m1 m' k)).
    - intros k Hkr. bool_eq_lia.
    - intros k s' Hkr Hs'. destruct (low_page_index k) as [Hi Hj]; [lia|].
      unfold get_kernel_directory. k_step. k_step. rewrite Z.add_0_l, (u32_id (4096 * k)), (s32_id (4096 * k + 4096)) by lia.
      destruct Hs' as [[-> ->]|(Hpos & m1 & m' & -> & He & Hpages)].
      + rewrite Hkd. apply wp_bind. eapply wp_mono; [apply create_table; [lia|by rewrite Hi]|].
        intros r s' (m1 & -> & -> & He). apply wp_bind. eapply wp_mono.
        { rewrite Hj. apply (map_entry kd t fr 0 0 Hdir ltac:(lia) ltac:(lia) Hfr ltac:(lia) ltac:(lia) 0 m1);
            [lia|lia|done|done|].
          cbn [mem set_mem]. apply (entered_empty 0 0 m1); [lia|lia|exact He|].
          intros f Hf. rewrite Hfree by done. blia. }
        intros [] s' (m' & -> & Hpages). k_steps. split; [lia|]. right. split; [lia|].
        exists m1, m'. split; [done|]. split; [exact He|exact Hpages].
      + cbn [pg set_mem set_hp]. rewrite Hkd.
        pose proof (map_page kd t fr 0 0 Hdir ltac:(lia) ltac:(lia) Hfr ltac:(lia) ltac:(lia) (4096 * k) k m1
          (set_mem m' (set_hp (HeapGlobals (t + 4096) 0) s)) Hi Hj ltac:(lia) ltac:(lia) Hframes Hn Hpages) as Hmap.
        apply wp_bind_inv in Hmap. apply wp_bind. eapply wp_mono; [exact Hmap|]. intros page t1 Hmap1.
        apply wp_bind. eapply wp_mono; [exact Hmap1|]. intros [] t2 (m2 & -> & Hpages2).
        k_steps. split; [lia|]. right. split; [lia|]. exists m1, m2. split; [reflexivity|]. split; [exact He|exact Hpages2].
    - by left.
    - lia. }
  intros i s' [[? _]|[_ Hs']]; [lia|exact Hs'].
Qed.
End Loops.

(** The third loop maps the pages of the heap, whose table is there. *)
Lemma map_heap `{Linkage} kd t fr s :
  directory kd -> 0 < t /\ t + 4096 < 4294967296 -> fr + 512 <= t /\ kd + 8196 <= t ->
  0 <= fr /\ fr + 160 <= kd ->
  kernel_directory (pg s) = kd -> frames (pg s) = fr -> nframes (pg s) = 4096 ->
  pages_mapped kd t fr 1024 768 (mem s) (mem s) 0 ->
  wp (while (fun i => ret (below_heap_end i))
        (fun i => kd <- get_kernel_directory; page <- get_page (u32 i) 1 kd;
                  alloc_frame page 0 0 >> ret (s32 (i + 4096))) (s32 KHEAP_START))
    (fun _ s' => exists m', s' = set_mem m' s /\ pages_mapped kd t fr 1024 768 (mem s) m' 256) s.
Proof.
  intros Hdir Ht Hapart Hfr Hkd Hframes Hn Hstart.
  apply (wp_page_loop below_heap_end _ _ 256 (fun k s' => exists m', s' = set_mem m' s /\
    pages_mapped kd t fr 1024 768 (mem s) m' k)).
  - intros k Hkr. by apply heap_page.
  - intros k s' Hkr (m' & -> & Hpages). destruct (heap_page k) as [_ Hu]; [lia|].
    destruct (heap_page_index k) as [Hi Hj]; [lia|].
    unfold get_kernel_directory. k_step. k_step. rewrite Hu. cbn [pg set_mem]. rewrite Hkd.
    assert (Hnext : s32 (s32 KHEAP_START + 4096 * k + 4096) = s32 KHEAP_START + 4096 * (k + 1)).
    { change (s32 KHEAP_START) with (-1073741824). rewrite s32_id by lia. lia. }
    pose proof (map_page kd t fr 1024 768 Hdir Ht Hapart Hfr ltac:(lia) ltac:(lia) _ k (mem s)
      (set_mem m' s) Hi Hj ltac:(lia) ltac:(lia) Hframes Hn Hpages) as Hmap.
    apply wp_bind_inv in Hmap. apply wp_bind. eapply wp_mono; [exact Hmap|]. intros page t1 Hmap1.
    apply wp_bind. eapply wp_mono; [exact Hmap1|]. intros [] t2 (m2 & -> & Hpages2).
    k_steps. split; [exact Hnext|]. exists m2. split; [reflexivity|exact Hpages2].
  - exists (mem s). by rewrite set_mem_id.
  - lia.
Qed.

(** ** What the three loops build *)

Section Built.
Context (kd fr t0 t1 : Z) (m0 m1 m2 m3 m4 : memory).
Hypothesis Hfr : 0 <= fr /\ fr + 160 <= kd.
Hypothesis Ht : kd + 8196 <= t1 /\ t1 + 4096 <= t0 /\ t0 + 4096 < 4294967296.

(** The addresses that the loops write. *)
Definition tables_mem (b : Z) : Prop :=
  fr <= b < fr + 160 \/ kd <= b < kd + 8192 \/ t1 <= b < t1 + 4096 \/ t0 <= b < t0 + 4096.

Hypothesis Hzero : forall i, 0 <= i < 1024 ->
  load32 m0 (dir_table kd i) = 0 /\ load32 m0 (dir_table_physical kd i) = 0.
Hypothesis He1 : entered kd KHEAP_START t1 t1 m0 m1.
Hypothesis He2 : entered kd 0 t0 t0 m1 m2.
Hypothesis Hp3 : pages_mapped kd t0 fr 0 0 m2 m3 1024.

Lemma heap_table_empty : pages_mapped kd t1 fr 1024 768 m3 m3 0.
Proof using Hfr Ht He1 He2 Hp3.
  destruct He1 as (H1 & _ & H3 & _), He2 as (_ & _ & _ & H4), Hp3 as (_ & _ & Hused & H5).
  change (table_index KHEAP_START) with 768 in *. change (table_index 0) with 0 in *.
  unfold dir_table, dir_table_physical in *.
  split; [|split; [|split; [|apply same_on_refl]]].
  - rewrite <- H1. unfold dir_table. transitivity (load32 m2 (kd + 4 * 768)).
    + eapply load32_same_on; [exact H5|unfold region; lia|]. intros b Hb. cbv beta. lia.
    + eapply load32_same_on; [exact H4|unfold region; lia|]. intros b Hb. cbv beta. lia.
  - intros j Hj. replace (j <? 0) with false by blia. rewrite <- (H3 j Hj).
    transitivity (load32 m2 (t1 + 4 * j)).
    + eapply load32_same_on; [exact H5|unfold region; lia|]. intros b Hb. cbv beta. lia.
    + eapply load32_same_on; [exact H4|unfold region; lia|]. intros b Hb. cbv beta. lia.
  - intros f Hf. rewrite Hused by done. f_equal.
Qed.

Hypothesis Hp4 : pages_mapped kd t1 fr 1024 768 m3 m4 256.

Lemma tables_frame : same_on (fun b => ~ tables_mem b) m0 m4.
Proof using Ht He1 He2 Hp3 Hp4.
  destruct He1 as (_ & _ & _ & H1), He2 as (_ & _ & _ & H2), Hp3 as (_ & _ & _ & H3), Hp4 as (_ & _ & _ & H4).
  change (table_index KHEAP_START) with 768 in *. change (table_index 0) with 0 in *.
  unfold dir_table, dir_table_physical, tables_mem in *.
  intros b Hb Hn. rewrite H4, H3, H2, H1 by (done || lia). done.
Qed.

(** A word of the directory that is not one of the four entries. *)
Lemma directory_word a :
  kd <= a -> a + 4 <= kd + 8196 ->
  (a + 4 <= kd \/ kd + 4 <= a) -> (a + 4 <= kd + 3072 \/ kd + 3076 <= a) ->
  (a + 4 <= kd + 4096 \/ kd + 4100 <= a) -> (a + 4 <= kd + 7168 \/ kd + 7172 <= a) ->
  load32 m4 a = load32 m0 a.
Proof using Hfr Ht He1 He2 Hp3 Hp4.
  intros Ha Hb N1 N2 N3 N4.
  destruct He1 as (_ & _ & _ & H1), He2 as (_ & _ & _ & H2), Hp3 as (_ & _ & _ & H3), Hp4 as (_ & _ & _ & H4).
  change (table_index KHEAP_START) with 768 in *. change (table_index 0) with 0 in *.
  unfold dir_table, dir_table_physical in *.
  transitivity (load32 m3 a); [|transitivity (load32 m2 a); [|transitivity (load32 m1 a)]];
    (eapply load32_same_on; [eassumption|unfold region; lia|intros b Hb'; cbv beta; lia]).
Qed.

Lemma kernel_map_built : kernel_map m4 kd t0 t1.
Proof using Hfr Ht Hzero He1 He2 Hp3 Hp4.
  pose proof directory_word as Hword.
  destruct He1 as (_ & P1 & _ & _), He2 as (_ & P2 & _ & S2), Hp3 as (T3 & G3 & _ & S3), Hp4 as (T4 & G4 & _ & S4).
  change (table_index KHEAP_START) with 768 in *. change (table_index 0) with 0 in *.
  unfold dir_table, dir_table_physical in *. constructor; unfold dir_table, dir_table_physical.
  - rewrite <- T3. eapply load32_same_on; [exact S4|unfold region; lia|]. intros b Hb. cbv beta. lia.
  - exact T4.
  - rewrite <- P2. transitivity (load32 m3 (kd + 4096 + 4 * 0));
      (eapply load32_same_on; [eassumption|unfold region; lia|]; intros b Hb; cbv beta; lia).
  - rewrite <- P1. transitivity (load32 m3 (kd + 4096 + 4 * 768)); [|transitivity (load32 m2 (kd + 4096 + 4 * 768))];
      (eapply load32_same_on; [eassumption|unfold region; lia|]; intros b Hb; cbv beta; lia).
  - intros i Hi N0 N768. destruct (Hzero i Hi) as [Z1 Z2]. rewrite !Hword by lia. done.
  - intros j Hj. transitivity (load32 m3 (t0 + 4 * j)).
    + eapply load32_same_on; [exact S4|unfold region; lia|]. intros b Hb. cbv beta. lia.
    + rewrite G3 by done. by replace (j <? 1024) with true by blia.
  - exact G4.
Qed.
End Built.

(** The kernel's map stays when its directory and its tables do. *)
Lemma kernel_map_frame P m m' dir t0 t1 :
  kernel_map m dir t0 t1 -> same_on P m m' ->
  region dir (dir + 8196) -> region t0 (t0 + 4096) -> region t1 (t1 + 4096) ->
  (forall b, dir <= b < dir + 8196 \/ t0 <= b < t0 + 4096 \/ t1 <= b < t1 + 4096 -> P b) ->
  kernel_map m' dir t0 t1.
Proof.
  intros [] Hs [??] [??] [??] HP.
  assert (Hd : forall a, dir <= a -> a + 4 <= dir + 8196 -> load32 m' a = load32 m a).
  { intros a ??. eapply load32_same_on; [exact Hs|unfold region; lia|]. intros b Hb. apply HP. lia. }
  unfold dir_table, dir_table_physical in *.
  constructor; unfold dir_table, dir_table_physical; try (rewrite Hd by lia; done).
  - intros i Hi N0 N768. rewrite !Hd by lia. auto.
  - intros j Hj. rewrite <- km_low_pages0 by done.
    eapply load32_same_on; [exact Hs|unfold region; lia|]. intros b Hb. apply HP. lia.
  - intros j Hj. rewrite <- km_heap_pages0 by done.
    eapply load32_same_on; [exact Hs|unfold region; lia|]. intros b Hb. apply HP. lia.
Qed.

(** A copy of the directory has the same map. *)
Lemma kernel_map_copy m m' kd dir t0 t1 :
  kernel_map m kd t0 t1 -> kernel_map m' kd t0 t1 -> t0 <> 0 -> t1 <> 0 ->
  (forall i, 0 <= i < 1024 ->
     load32 m' (dir_table dir i) = load32 m (dir_table kd i) /\
     load32 m' (dir_table_physical dir i) =
       if load32 m (dir_table kd i) =? 0 then 0 else load32 m (dir_table_physical kd i)) ->
  kernel_map m' dir t0 t1.
Proof.
  intros [] [] Hn0 Hn1 Hcopy.
  destruct (Hcopy 0 ltac:(lia)) as [C0 C0'], (Hcopy 768 ltac:(lia)) as [C7 C7'].
  rewrite km_low0 in C0, C0'. rewrite km_heap0 in C7, C7'.
  replace (t0 =? 0) with false in C0' by blia. replace (t1 =? 0) with false in C7' by blia.
  constructor; try done; try congruence.
  intros i Hi N0 N768. destruct (Hcopy i Hi) as [-> ->].
  destruct (km_none0 i Hi N0 N768) as [-> _]. done.
Qed.

(** ** The first block of the heap *)

Definition heap_area_start : Z := KHEAP_START + 524288.

Section FirstBlock.
Context `{Linkage} (heap kd t0 t1 : Z) (s : kstate).
Let st := heap_area_start.
Hypothesis Hkh : kheap (hp s) = heap /\ 0 < heap.
Hypothesis Hheap : heap_at (mem s) heap KHEAP_START 131072 [st] st KHEAP_END.
Hypothesis Hhole : header_at (mem s) st true (KHEAP_END - st).
Hypothesis Hfun : load32 (mem s) (heap + 12) = sym_header_t_less_than.
Hypothesis Hsym : sym_header_t_less_than <> 0.
Hypothesis Hkd : kernel_directory (pg s) = kd.
Hypothesis Hmap : kernel_map (mem s) kd t0 t1.
Hypothesis Htables : 0 <= kd /\ kd + 8196 <= heap /\ 0 < t0 /\ t0 + 4096 <= heap /\
  0 < t1 /\ t1 + 4096 <= heap /\ heap + 32 <= KHEAP_START.

Lemma first_block_fits : fits_aligned heap KHEAP_START 131072 [st] st KHEAP_END (mem s) 0 st 524288 8196.
Proof using Hheap Hhole Hfun Hsym.
  destruct Hhole as (_ & _ & Hs).
  constructor; try done; try (unfold st, heap_area_start, gap, KHEAP_END, KHEAP_START, KHEAP_INITIAL_SIZE; cbn; lia).
  - right. change (gap st) with 4084. lia.
  - constructor; [|constructor]. pose proof Hheap as Hh. split.
    + unfold region, st, heap_area_start, KHEAP_START. lia.
    + intros b Hb. eapply area_not_index; [exact Hh|].
      unfold st, heap_area_start, KHEAP_END, KHEAP_START, KHEAP_INITIAL_SIZE in *. lia.
Qed.

(** The block of the copied directory, and its physical address. *)
Lemma first_block :
  wp (kmalloc_ap 8196) (fun r s' => r = (st + 4096, 4722688) /\ exists m', s' = set_mem m' s /\
    placed_aligned heap KHEAP_START 131072 [st] st KHEAP_END s st 524288 8196 m') s.
Proof using Hkh Hheap Hhole Hfun Hsym Hkd Hmap Htables.
  unfold kmalloc_ap. rewrite kmalloc_int_kernel. unfold kmalloc_body. k_step. k_step.
  destruct Hkh as [-> Hpos]. unfold truth. replace (heap =? 0) with false by blia. cbn [negb].
  change (u8 1) with 1. apply wp_bind.
  pose proof Hhole as (_ & _ & Hsz). fold (hole_size (mem s) st) in Hsz.
  eapply wp_mono.
  { apply (alloc_aligned_spec heap KHEAP_START 131072 [st] st KHEAP_END 0 st 524288 8196 s first_block_fits).
    - unfold first_fit. cbn [list_find]. rewrite decide_True; [done|].
      change (8196 + 20 <= hole_size (mem s) st). rewrite Hsz. vm_compute. discriminate.
    - right. split; [lia|]. split; [lia|]. constructor; [|constructor]. rewrite Hsz.
      split; [reflexivity|vm_compute; reflexivity]. }
  intros p s' (-> & m' & -> & Hplaced).
  change (gap st) with 4084. replace (st + 4084 + 12) with (st + 4096) by lia.
  unfold get_kernel_directory. k_step. k_step. cbn [pg set_mem]. rewrite Hkd.
  assert (Hmap' : kernel_map m' kd t0 t1).
  { destruct Hplaced as (_ & _ & _ & _ & _ & _ & Hs & _). eapply kernel_map_frame; [exact Hmap|exact Hs|..];
      unfold region, index_mem, st, heap_area_start, KHEAP_START in *; try lia. }
  apply wp_bind. eapply wp_mono.
  { apply (get_page_present (st + 4096) 0 kd t1); [exact (km_heap _ _ _ _ Hmap')|unfold KHEAP_START in *; lia..]. }
  intros page ? (-> & ->). k_step. k_step. cbn [mem set_mem].
  change (page_index (st + 4096)) with 129. rewrite (km_heap_pages _ _ _ _ Hmap') by lia.
  apply wp_ret. split; [reflexivity|]. by exists m'.
Qed.
End FirstBlock.

(** ** [initialise_paging] *)

(** Paging enabled twice is paging enabled. *)
Lemma cr0_paging c : Z.testbit (u32 (Z.lor c 2147483648)) 31 = true.
Proof. rewrite u32_bit, Z.lor_spec by lia. apply orb_true_r. Qed.

Lemma switch_page_directory_eq dir s :
  let c := cpu s in
  let cr3 := load32 (mem s) (dir_physical_addr dir) in
  let cr0 := u32 (Z.lor (cpu_cr0 c) 2147483648) in
  switch_page_directory dir s =
  Ok tt (set_cpu (Cpu (cpu_esp c) (cpu_ebp c) cr0 (cpu_cr2 c) cr3)
    (set_trace (LoadCR0 cr0 :: LoadCR3 cr3 :: trace s)
      (set_pg (PagingGlobals (kernel_directory (pg s)) dir (frames (pg s)) (nframes (pg s))) s))).
Proof. reflexivity. Qed.

(** What [initialise_paging] has nothing to do with. *)
Definition paging_keeps (s s' : kstate) : Prop :=
  cpu_esp (cpu s') = cpu_esp (cpu s) /\ cpu_ebp (cpu s') = cpu_ebp (cpu s) /\
  mon s' = mon s /\ kbd s' = kbd s /\ dt s' = dt s /\ tk s' = tk s /\ fs s' = fs s /\ boot s' = boot s.

Section Start.
Context `{Linkage} (s : kstate).
Let p := placement_address (hp s).
Let kd := next_page (p + 128).
Let t1 := next_page (kd + 8196).
Let t0 := next_page (t1 + 4096).
Let heap := t0 + 4096.
Let dir := heap_area_start + 4096.

Hypothesis Hk : kheap (hp s) = 0.
Hypothesis Hp : 4096 <= p.
(** The bitset, whose allocation is a quarter of its size, does not reach into the
    directory, as far as it is used; and what it reaches into is zero. *)
Hypothesis Hgap : p + 160 <= kd.
Hypothesis Hzero : forall f, 1024 <= f < 1280 -> used_in (mem s) p f = false.
(** The tables are in the first four megabytes. *)
Hypothesis Hroom : heap + 32 <= 4194304.
Hypothesis Hsym : 0 < sym_header_t_less_than < 4294967296.
Hypothesis Hnull : hole_size (mem s) 0 < 20 \/ 524288 < hole_size (mem s) 0.

(** Memory that is not used for paging or the heap. *)
Definition untouched (b : Z) : Prop :=
  b < p \/ p + 160 <= b < kd \/ heap + 32 <= b < KHEAP_START \/ KHEAP_END <= b.

Lemma places : kd <= p + 4224 /\ t1 = kd + 12288 /\ t0 = t1 + 8192 /\ kd mod 4096 = 0 /\ p + 128 < kd.
Proof using Hp. unfold t0, t1, kd, next_page. dlia. Qed.

(** Memory with the bitset and the directory cleared. *)
Definition cleared (m : memory) : Prop :=
  (forall f, 0 <= f < 1280 -> used_in m p f = false) /\
  load32 m (dir_physical_addr kd) = kd + 4096 /\
  forall i, 0 <= i < 1024 ->
    load32 m (dir_table kd i) = 0 /\ load32 m (dir_table_physical kd i) = 0.

Lemma cleared_after m1 m2 :
  same_outside p (p + 128) (mem s) m1 -> bytes m1 p (Z.to_nat 128) = replicate (Z.to_nat 128) (u8 0) ->
  same_outside kd (kd + 8196) m1 m2 -> bytes m2 kd (Z.to_nat 8196) = replicate (Z.to_nat 8196) (u8 0) ->
  cleared (store32 m2 (dir_physical_addr kd) (kd + 4096)).
Proof using Hp Hgap Hzero Hroom.
  intros Ho1 Hz1 Ho2 Hz2. pose proof places as (? & ? & ? & ? & ?).
  unfold cleared, dir_physical_addr, dir_table, dir_table_physical. split; [|split].
  - intros f Hf. unfold used_in. assert (0 <= f / 32 < 40) by dlia.
    rewrite load32_store32_ne by (unfold region; lia).
    rewrite (load32_frame kd (kd + 8196) m1 m2 Ho2) by (unfold region; lia).
    destruct (decide (f < 1024)).
    + rewrite (memset_words m1 p 128 (f / 32) Hz1) by dlia. apply Z.testbit_0_l.
    + rewrite (load32_frame p (p + 128) _ m1 Ho1) by (unfold region; dlia). apply Hzero. lia.
  - rewrite load32_store32_eq by (unfold region; lia). apply u32_id. lia.
  - intros i Hi. rewrite !load32_store32_ne by (unfold region; lia). split.
    + apply (memset_words m2 kd 8196 i Hz2); lia.
    + replace (kd + 4096 + 4 * i) with (kd + 4 * (1024 + i)) by lia.
      apply (memset_words m2 kd 8196 (1024 + i) Hz2); lia.
Qed.

(** The same before there is a heap. *)
Definition unused (b : Z) : Prop := b < p \/ p + 160 <= b < kd \/ heap <= b.

Lemma untouched_unused b : untouched b -> unused b.
Proof using Hroom.
  intros [?|[?|[?|Hb]]]; unfold unused; [by left|by right; left|right; right; lia|right; right].
  change KHEAP_END with 3222274048 in Hb. lia.
Qed.

Lemma cleared_unused m1 m2 :
  same_outside p (p + 128) (mem s) m1 -> same_outside kd (kd + 8196) m1 m2 ->
  same_on unused (mem s) (store32 m2 (dir_physical_addr kd) (kd + 4096)).
Proof using Hp Hgap Hroom.
  intros Ho1 Ho2 b Hb Hu. pose proof places as (? & ? & ? & ? & ?). assert (heap = t0 + 4096) by done.
  unfold unused, dir_physical_addr in *. read_stores.
  by rewrite Ho2, Ho1 by lia.
Qed.

(** The state once paging is on, and before there is a heap. *)
Record paging_on (s1 : kstate) : Prop := PagingOn {
  on_map : kernel_map (mem s1) kd t0 t1;
  on_self : load32 (mem s1) (dir_physical_addr kd) = kd + 4096;
  on_hp : hp s1 = HeapGlobals heap 0;
  on_pg : pg s1 = PagingGlobals kd kd p 4096;
  on_handlers : interrupt_handlers s1 = <[14 := ptr_page_fault]> (interrupt_handlers s);
  on_cr0 : Z.testbit (cpu_cr0 (cpu s1)) 31 = true;
  on_keeps : paging_keeps s s1;
  on_frame : same_on unused (mem s) (mem s1);
  on_used : forall f, 0 <= f < 1280 -> used_in (mem s1) p f = true
}.

(** The state when [initialise_paging] returns. *)
Record paging_started (s' : kstate) : Prop := PagingStarted {
  started_map : kernel_map (mem s') dir t0 t1;
  started_kernel : kernel_map (mem s') kd t0 t1;
  started_pg : pg s' = PagingGlobals kd dir p 4096;
  started_cr3 : translate (mem s') dir (dir + 4096) = Some (cpu_cr3 (cpu s'));
  started_cr0 : Z.testbit (cpu_cr0 (cpu s')) 31 = true;
  started_handlers : interrupt_handlers s' = <[14 := ptr_page_fault]> (interrupt_handlers s);
  started_hp : hp s' = HeapGlobals (heap + 32) heap;
  started_wf : exists l, (length l <= 2)%nat /\ heap_wf (mem s') heap KHEAP_START 131072 heap_area_start KHEAP_END
    [(true, 4084); (false, 8216); (true, 511988)] l 0;
  started_keeps : paging_keeps s s';
  started_frame : same_on untouched (mem s) (mem s');
  started_used : forall f, 0 <= f < 1280 -> used_in (mem s') p f = true;
  started_limits : limits_at (mem s') heap 3489656832 0 0;
  started_clean : (forall b, heap_area_start + 12 <= b < KHEAP_END -> load8 (mem s) b = 0) ->
    clean (mem s') heap_area_start [(true, 4084); (false, 8216); (true, 511988)]
}.

(** The heap with its first block; writing inside the block keeps it. *)
Lemma started_heap s2 m3 m' :
  heap_wf (mem s2) heap KHEAP_START 131072 heap_area_start KHEAP_END [(true, 524288)] [heap_area_start] 0 ->
  kheap (hp s2) = heap -> 
  placed_aligned heap KHEAP_START 131072 [heap_area_start] heap_area_start KHEAP_END s2
    heap_area_start 524288 8196 m3 ->
  fits_aligned heap KHEAP_START 131072 [heap_area_start] heap_area_start KHEAP_END (mem s2) 0
    heap_area_start 524288 8196 ->
  same_outside dir (dir + 8196) m3 m' ->
  (exists l, (length l <= 2)%nat /\ heap_wf m' heap KHEAP_START 131072 heap_area_start KHEAP_END
    [(true, 4084); (false, 8216); (true, 511988)] l 0) /\
  ((forall b, heap_area_start + 12 <= b < KHEAP_END -> load8 (mem s2) b = 0) ->
   clean m' heap_area_start [(true, 4084); (false, 8216); (true, 511988)]).
Proof using Hp Hroom Hsym.
  intros Hwf Hk2 Hplaced Hf Hout. pose proof places as (? & ? & ? & ? & ?).
  assert (Hst : heap_area_start = 3221749760) by done.
  assert (Hdir : dir = 3221753856) by done. assert (Hend : KHEAP_END = 3222274048) by done.
  destruct (wf_placed_aligned heap KHEAP_START 131072 heap_area_start KHEAP_END [(true, 524288)] [heap_area_start] 0 s2
    ltac:(destruct Hsym; lia) Hwf 0 heap_area_start 524288 8196 [] [] m3 Hf eq_refl eq_refl eq_refl Hplaced) as (l & Hl & Hwf3).
  change (cut_aligned [] heap_area_start 524288 8196 [])
    with [(true, 4084); (false, 8216); (true, 511988)] in Hwf3.
  destruct Hplaced as (_ & _ & _ & _ & _ & _ & Hs3 & _ & Hin3). rewrite Hst, Hend in *. split.
  2: { intros Hz. assert (Hz' : forall b, inside_aligned 3221749760 524288 8196 b -> ~ (dir <= b < dir + 8196) ->
         load8 m' b = 0).
       { intros b Hb Hd. pose proof Hb as (? & _). rewrite Hout, Hin3 by (done || lia). apply Hz. lia. }
       unfold inside_aligned in Hz'. change (gap 3221749760) with 4084 in Hz'. rewrite Hdir in Hz'.
       cbn [clean]. split_and!; try done; intros _ b Hb; apply Hz'; lia. }
  exists l. split; [exact Hl|]. rewrite <- Hk2 in Hwf3 |- *.
  apply (wf_own_frame KHEAP_START 131072 3221749760 3222274048 ltac:(lia)
    (set_mem m3 s2) m' _ l 0); [|exact Hwf3].
  intros b Hb Ho. apply Hout; [done|]. intros Hin.
  apply (own_tiles KHEAP_START 131072 3221749760 3222274048 ltac:(lia) (set_mem m3 s2) _ b
    (wf_tiles _ _ _ _ _ _ _ _ _ Hwf3)) in Ho.
  cbn [hp set_mem] in Ho. rewrite Hk2 in Ho. unfold index_own, free_mem, KHEAP_START in Ho.
  destruct Ho as [Ho|[[? Ho]|[[? Ho]|[[? Ho]|[]]]]]; lia.
Qed.

Lemma clone_started s2 m3 :
  kernel_map (mem s2) kd t0 t1 -> pg s2 = PagingGlobals kd kd p 4096 ->
  placed_aligned heap KHEAP_START 131072 [heap_area_start] heap_area_start KHEAP_END s2
    heap_area_start 524288 8196 m3 ->
  kmalloc_ap 8196 s2 = Ok (dir, 4722688) (set_mem m3 s2) ->
  wp (clone_directory kd) (fun r s' => r = dir /\ exists m', s' = set_mem m' s2 /\
    kernel_map m' dir t0 t1 /\ kernel_map m' kd t0 t1 /\
    load32 m' (dir_physical_addr dir) = 4726784 /\ same_outside dir (dir + 8196) m3 m' /\
    same_on untouched (mem s2) m') s2.
Proof using Hp Hgap Hroom.
  intros Hmap Hpg Hplaced Hkm. pose proof places as (? & ? & ? & ? & ?).
  assert (Hst : heap_area_start = 3221749760) by done.
  assert (Hdir : dir = 3221753856) by done. assert (Hend : KHEAP_END = 3222274048) by done.
  destruct Hplaced as (_ & _ & _ & _ & _ & _ & P7 & _). rewrite Hst in P7.
  assert (Hmap3 : kernel_map m3 kd t0 t1).
  { eapply kernel_map_frame; [exact Hmap|exact P7|..]; unfold region, index_mem, KHEAP_START; try lia. }
  eapply wp_mono.
  { apply (clone_directory_spec kd dir 4722688 s2 (set_mem m3 s2) Hkm); cbn [mem set_mem pg]; rewrite ?Hpg;
      cbn [kernel_directory]; unfold region; lia. }
  cbn [mem set_mem]. intros r s' (-> & m' & -> & Hpa & Hcopy & Hout). split; [done|]. exists m'.
  assert (Hmap' : kernel_map m' kd t0 t1).
  { eapply kernel_map_frame; [exact Hmap3|exact Hout|..]; unfold region; try lia. }
  split; [done|]. split; [apply (kernel_map_copy m3 m' kd dir t0 t1 Hmap3 Hmap'); [lia|lia|exact Hcopy]|].
  split; [exact Hmap'|]. split; [exact Hpa|]. split; [exact Hout|].
  intros b Hb Hu. unfold untouched, index_mem, KHEAP_START in *. rewrite Hout by lia. apply P7; [done|].
  unfold index_mem. lia.
Qed.

(** The state once the heap is there, and before the directory is cloned. *)
Record heap_made (s2 : kstate) : Prop := HeapMade {
  hm_map : kernel_map (mem s2) kd t0 t1;
  hm_pg : pg s2 = PagingGlobals kd kd p 4096;
  hm_hp : hp s2 = HeapGlobals (heap + 32) heap;
  hm_handlers : interrupt_handlers s2 = <[14 := ptr_page_fault]> (interrupt_handlers s);
  hm_cr0 : Z.testbit (cpu_cr0 (cpu s2)) 31 = true;
  hm_keeps : paging_keeps s s2;
  hm_frame : same_on untouched (mem s) (mem s2);
  hm_used : forall f, 0 <= f < 1280 -> used_in (mem s2) p f = true;
  hm_fun : load32 (mem s2) (heap + 12) = sym_header_t_less_than;
  hm_hole : header_at (mem s2) heap_area_start true (KHEAP_END - heap_area_start);
  hm_wf : heap_wf (mem s2) heap KHEAP_START 131072 heap_area_start KHEAP_END [(true, 524288)]
    [heap_area_start] 0;
  hm_limits : limits_at (mem s2) heap 3489656832 0 0;
  hm_clean : (forall b, heap_area_start + 12 <= b < KHEAP_END -> load8 (mem s) b = 0) ->
    forall b, heap_area_start + 12 <= b < KHEAP_END -> load8 (mem s2) b = 0
}.

(** The words of the bitset are all that a frame's state depends on. *)
Lemma used_frame (P : Z -> Prop) m m' f :
  same_on P m m' -> 0 <= f < 1280 -> (forall b, p <= b < p + 160 -> P b) ->
  used_in m' p f = used_in m p f.
Proof using Hp Hgap Hroom.
  intros Hs Hf HP. unfold used_in. f_equal. assert (0 <= f / 32 < 40) by dlia. pose proof places as (? & ? & ? & ? & ?).
  eapply load32_same_on; [exact Hs|unfold region; lia|]. intros b Hb. apply HP. lia.
Qed.

Lemma make_heap s1 :
  paging_on s1 ->
  wp (heap <- create_heap KHEAP_START KHEAP_END 3489656832 0 0; set_kheap heap) (fun _ s2 => heap_made s2) s1.
Proof using Hp Hgap Hroom Hsym Hnull.
  intros []. pose proof places as (? & ? & ? & ? & ?).
  assert (Hst : heap_area_start = 3221749760) by done. assert (Hend : KHEAP_END = 3222274048) by done.
  apply wp_bind. eapply wp_mono.
  { apply (create_heap_spec KHEAP_START KHEAP_END 3489656832 0 0 s1); rewrite ?on_hp0, ?Hend;
      cbn [kheap placement_address]; unfold KHEAP_START; try lia; split; reflexivity || lia. }
  rewrite on_hp0. cbn [placement_address].
  intros h s2 (-> & m2 & -> & Hh & Hhole & Hfun & Hframe & Htail & Hin2 & Hlim).
  change (KHEAP_START + 524288) with heap_area_start in *. unfold set_kheap. k_steps.
  assert (Hoth : forall b, b < heap \/ heap + 32 <= b < KHEAP_START \/ KHEAP_END <= b ->
    heap_others KHEAP_START KHEAP_END s1 b).
  { intros b Hb. unfold heap_others. rewrite on_hp0, ?Hend in *. cbn [placement_address].
    unfold KHEAP_START in *. lia. }
  assert (Hsame2 : same_on untouched (mem s) m2).
  { intros b Hb Hu. rewrite <- (on_frame0 b Hb (untouched_unused b Hu)). apply Hframe; [done|].
    apply Hoth. unfold untouched in Hu. assert (heap = t0 + 4096) by done. lia. }
  constructor; cbn [mem hp pg cpu interrupt_handlers set_mem set_hp placement_address]; try done.
  - eapply kernel_map_frame; [exact on_map0|exact Hframe|..]; unfold region; try lia;
      intros b Hb; apply Hoth; unfold KHEAP_START in *; lia.
  - intros f Hf. rewrite (used_frame _ _ _ _ Hframe Hf); [by apply on_used0|].
    intros b Hb. apply Hoth. lia.
  - constructor; try done; [|unfold KHEAP_START; lia].
    eapply (nulls_frame _ (mem s)); [|exact Hsame2|intros b Hb; left; lia]. destruct Hnull; [by left|right].
    split; [rewrite Hst, Hend; lia|]. exists [heap_area_start]. split; [done|]. by constructor; [rewrite Hst; lia|].
  - intros Hz b Hb. rewrite Hin2 by (rewrite ?Hst, Hend in *; lia).
    rewrite on_frame0; [by apply Hz|rewrite Hst, Hend in *; lia|]. right. right. rewrite Hst in Hb. lia.
Qed.

(** The places of the tables. *)
Lemma maps_started m : kernel_map m dir t0 t1 -> maps_kernel m dir t0 t1.
Proof using Hp Hroom.
  clear Hnull Hsym Hgap. intros Hm. pose proof places as (? & ? & ? & ? & ?).
  apply kernel_maps; [exact Hm|unfold heap in *; dlia..].
Qed.

(** The first task's directory is cloned and switched to. *)
Lemma enter_directory s2 :
  heap_made s2 ->
  wp (kd <- get_kernel_directory;
      dir <- clone_directory kd;
      set_current_directory dir >>
      dir <- gets (fun s => current_directory (pg s));
      switch_page_directory dir >>
      ret EXIT_SUCCESS) (fun r s' => r = EXIT_SUCCESS /\ paging_started s') s2.
Proof using Hp Hgap Hroom Hsym.
  intros Hmade. pose proof Hmade as []. pose proof places as (? & ? & ? & ? & ?).
  pose proof (wf_heap _ _ _ _ _ _ _ _ _ hm_wf0) as Hh.
  assert (Hst : heap_area_start = 3221749760) by done. assert (Hend : KHEAP_END = 3222274048) by done.
  destruct (proj1 (wp_ok _ _ _) (first_block heap kd t0 t1 s2 ltac:(rewrite hm_hp0; cbn [kheap]; lia) Hh hm_hole0
    hm_fun0 ltac:(lia) ltac:(by rewrite hm_pg0) hm_map0 ltac:(unfold KHEAP_START; lia)))
    as (r & s3 & Hkm & -> & m3 & -> & Hplaced).
  unfold get_kernel_directory. do 2 k_step. rewrite hm_pg0. cbn [kernel_directory].
  apply wp_bind. eapply wp_mono; [apply (clone_started s2 m3 hm_map0 hm_pg0 Hplaced Hkm)|].
  intros d s4 (-> & m4 & -> & Hm1 & Hm2 & Hpa & Hout & Hsame4).
  pose proof (first_block_fits heap s2 Hh hm_hole0 hm_fun0 ltac:(destruct Hsym; lia)) as Hfits.
  pose proof (started_heap s2 m3 m4 hm_wf0 ltac:(by rewrite hm_hp0) Hplaced Hfits Hout) as [Hwf4 Hclean4].
  unfold set_current_directory, switch_page_directory, load_cr3, load_cr0. k_steps.
  cbn [mem pg cpu set_mem set_pg set_cpu set_trace current_directory cpu_cr0 set_cr3].
  split; [reflexivity|]. constructor; cbn [mem pg cpu hp interrupt_handlers set_mem set_pg set_cpu set_trace
    cpu_cr0 cpu_cr3 set_cr0 set_cr3]; try done.
  - by rewrite hm_pg0.
  - rewrite Hpa. apply (translate_heap m4 dir t0 t1 (maps_started m4 Hm1)). rewrite Hend. unfold KHEAP_START, dir. lia.
  - apply cr0_paging.
  - intros b Hb Hu. rewrite <- (hm_frame0 b Hb Hu). by apply Hsame4.
  - intros f Hf. destruct Hplaced as (_ & _ & _ & _ & _ & _ & Hs3 & _).
    rewrite (used_frame _ _ _ _ Hout Hf), (used_frame _ _ _ _ Hs3 Hf); [by apply hm_used0|..];
      intros b Hb; unfold index_mem, dir, KHEAP_START; lia.
  - eapply limits_frame; [|exact Hout|lia|lia|unfold dir; lia]. destruct Hplaced as (_ & _ & _ & _ & _ & _ & Hs3 & _).
    eapply limits_frame; [exact hm_limits0|exact Hs3|lia|lia|]. intros b Hb. unfold index_mem, KHEAP_START. lia.
  - intros Hz. by apply Hclean4, hm_clean0.
Qed.

(** From the enabling of paging to the end. *)
Lemma finish_start s1 :
  paging_on s1 ->
  wp (heap <- create_heap KHEAP_START KHEAP_END 3489656832 0 0;
      set_kheap heap >>
      kd <- get_kernel_directory;
      dir <- clone_directory kd;
      set_current_directory dir >>
      dir <- gets (fun s => current_directory (pg s));
      switch_page_directory dir >>
      ret EXIT_SUCCESS) (fun r s' => r = EXIT_SUCCESS /\ paging_started s') s1.
Proof using Hp Hgap Hroom Hsym Hnull.
  intros Hon. pose proof (wp_bind_inv _ _ _ _ (make_heap s1 Hon)) as Hmake.
  apply wp_bind. eapply wp_mono; [exact Hmake|]. intros h t Ht. apply wp_bind.
  eapply wp_mono; [exact Ht|]. intros [] s2 Hmade. by apply enter_directory.
Qed.

(** The heap can be contracted to its minimum, if the bitset, at its full size, ends
    in front of the directory. *)
Lemma started_can_shrink s' :
  paging_started s' -> p + 512 <= kd ->
  can_shrink kd t1 p 128 heap KHEAP_START 131072 heap_area_start KHEAP_END 3489656832 0 1 s'.
Proof using Hp Hgap Hroom.
  intros [] Hbits. pose proof places as (? & ? & ? & ? & ?). destruct started_wf0 as (l & _ & [Hh _ _ _ _ _ _]).
  assert (Hst : heap_area_start = 3221749760) by done. assert (Hen : KHEAP_END = 3222274048) by done.
  assert (Hspare : spare heap_area_start KHEAP_END = 15) by (vm_compute; reflexivity).
  assert (Hat : spare_at heap_area_start KHEAP_END = 3222212608) by (vm_compute; reflexivity).
  assert (Hd : directory_entry kd heap_area_start KHEAP_END = kd + 4 * 768) by (unfold directory_entry; by rewrite Hat).
  assert (Hti : table_index 3222212608 = 768) by reflexivity. assert (Hpi : page_index 3222212608 = 241) by reflexivity.
  destruct started_limits0 as (L1 & L2 & L3). assert (Hheap : heap = t0 + 4096) by done.
  constructor; rewrite ?Hspare, ?Hat, ?Hd.
  - constructor; [exact (heap_start _ _ _ _ _ _ _ Hh)|exact (heap_end _ _ _ _ _ _ _ Hh)|exact L1|by rewrite L2, L3
      |unfold region; lia..].
  - rewrite Hst, Hen. unfold HEAP_MIN_SIZE. lia.
  - constructor; rewrite ?Hti, ?Hpi, ?started_pg0; try lia; [done|exact (km_heap _ _ _ _ started_kernel0)|done
      |unfold bitset, region; lia|cbv zeta; unfold dir_table, region; lia].
  - split; [lia|]. intros i Hi. unfold page_entry. rewrite Hpi, (km_heap_pages _ _ _ _ started_kernel0) by lia.
    replace (241 + i <? 256) with true by blia.
    destruct (mapped_page_fields 0 0 0 (1024 + (241 + i))) as (_ & _ & _ & _ & _ & ->); lia.
  - intros b Hb. unfold KHEAP_START. lia.
Qed.

(** The three loops, from the cleared directory. *)
Lemma build_tables sc (k : K Z) (Q : Z -> kstate -> Prop) :
  cleared (mem sc) -> hp sc = HeapGlobals (kd + 8196) 0 ->
  kernel_directory (pg sc) = kd -> frames (pg sc) = p -> nframes (pg sc) = 4096 ->
  (forall s', hp s' = HeapGlobals heap 0 -> pg s' = pg sc ->
     interrupt_handlers s' = interrupt_handlers sc -> kernel_map (mem s') kd t0 t1 ->
     load32 (mem s') (dir_physical_addr kd) = kd + 4096 ->
     paging_keeps sc s' -> same_on (fun b => ~ tables_mem kd p t0 t1 b) (mem sc) (mem s') ->
     (forall f, 0 <= f < 1280 -> used_in (mem s') p f = true) -> wp k Q s') ->
  wp (while (fun i => ret (below_heap_end i))
        (fun i => kd <- get_kernel_directory; get_page (u32 i) 1 kd >> ret (s32 (i + 4096)))
        (s32 KHEAP_START) >>
      while (fun i => ret (i <? 4194304))
        (fun i => kd <- get_kernel_directory; page <- get_page (u32 i) 1 kd;
                  alloc_frame page 0 0 >> ret (s32 (i + 4096))) 0 >>
      while (fun i => ret (below_heap_end i))
        (fun i => kd <- get_kernel_directory; page <- get_page (u32 i) 1 kd;
                  alloc_frame page 0 0 >> ret (s32 (i + 4096))) (s32 KHEAP_START) >> k) Q sc.
Proof using Hp Hgap Hroom.
  intros (Hfree & Hself & Hwords) Hhp Hpk Hpf Hpn Hcont. pose proof places as (? & Ht1 & Ht0 & ? & ?).
  assert (Hdir : directory kd) by (unfold directory, region; lia).
  apply wp_bind. eapply wp_mono.
  { apply (reserve_heap kd t1 p sc Hdir); rewrite ?Hhp; cbn [kheap placement_address]; try done; try lia.
    exact (proj1 (Hwords 768 ltac:(lia))). }
  intros _ s1 (m1 & -> & He1). set (s1 := set_mem m1 _). assert (Hhp1 : hp s1 = HeapGlobals (t1 + 4096) 0) by done.
  pose proof He1 as (_ & _ & _ & Hs1).
  change (table_index KHEAP_START) with 768 in Hs1. unfold dir_table, dir_table_physical in Hs1, Hwords.
  assert (Hpages : t0 = next_page (t1 + 4096)) by done.
  apply wp_bind. eapply wp_mono.
  { apply (identity_map kd t0 p s1 Hdir); rewrite ?Hhp1; cbn [kheap placement_address]; try done; try lia.
    - cbn [mem set_mem s1]. unfold dir_table.
      transitivity (load32 (mem sc) (kd + 4 * 0)); [|exact (proj1 (Hwords 0 ltac:(lia)))].
      eapply load32_same_on; [exact Hs1|unfold region; lia|intros b Hb; cbv beta; lia].
    - intros f Hf. rewrite <- (Hfree f Hf). unfold used_in. f_equal. assert (0 <= f / 32 < 40) by dlia.
      eapply load32_same_on; [exact Hs1|unfold region; lia|intros b Hb; cbv beta; lia]. }
  intros _ s2 (m2 & m3 & -> & He2 & Hp3).
  pose proof (heap_table_empty kd p t0 t1 (mem sc) m1 m2 m3 ltac:(lia) ltac:(lia) He1 He2 Hp3) as Hempty.
  apply wp_bind. eapply wp_mono.
  { apply (map_heap kd t1 p); try done; lia. }
  cbn [mem set_mem]. intros _ s3 (m4 & -> & Hp4). apply Hcont; cbn [mem set_mem hp set_hp pg interrupt_handlers]; try done.
  - apply (kernel_map_built kd p t0 t1 (mem sc) m1 m2 m3 m4); [lia|lia|exact Hwords|done..].
  - rewrite <- Hself. apply (directory_word kd p t0 t1 (mem sc) m1 m2 m3 m4); unfold dir_physical_addr; done || lia.
  - eapply (tables_frame kd p t0 t1); [lia|done..].
  - destruct Hp4 as (_ & _ & Hused & _). intros f Hf. rewrite Hused by done. blia.
Qed.

Lemma initialise_paging_spec :
  wp initialise_paging (fun r s' => r = EXIT_SUCCESS /\ paging_started s') s.
Proof using Hk Hp Hgap Hzero Hroom Hsym Hnull.
  pose proof places as (Hkd & Ht1 & Ht0 & Hkm & Hkp).
  unfold initialise_paging, set_nframes, set_frames, set_kernel_directory, get_frames.
  do 4 k_step. cbn [pg set_pg nframes]. change (INDEX_FROM_BIT (16777216 / 4096)) with 128.
  change (16777216 / 4096) with 4096. apply wp_bind, wp_ok. do 2 eexists.
  split; [apply kmalloc_plain; [done|done|lia|cbn [hp set_pg]; fold p; lia]|].
  cbn [hp set_pg]. fold p. do 6 k_step. cbn [pg set_pg set_hp frames nframes].
  change (INDEX_FROM_BIT 4096) with 128. apply wp_bind.
  eapply wp_mono; [apply memset_spec; [unfold region; lia|lia]|].
  intros [] sa (m1 & -> & Hout1 & Hz1). cbn [mem set_pg set_hp] in Hout1. apply wp_bind, wp_ok. do 2 eexists.
  split.
  { apply kmalloc_aligned; cbn [hp set_pg set_hp set_mem kheap placement_address]; [done|lia|
      unfold sizeof_page_directory; lia|fold kd; unfold sizeof_page_directory; lia]. }
  cbn [hp set_pg set_hp set_mem placement_address]. fold kd. unfold get_kernel_directory at 1. do 4 k_step.
  cbn [pg set_pg set_hp set_mem kernel_directory current_directory frames nframes]. apply wp_bind.
  eapply wp_mono; [apply memset_spec; [unfold region, sizeof_page_directory; lia|unfold sizeof_page_directory; lia]|].
  intros [] sb (m2 & -> & Hout2 & Hz2). cbn [mem set_pg set_hp set_mem] in Hout2. unfold sizeof_page_directory in *.
  do 2 k_step. cbn [mem set_mem]. rewrite (u32_id (kd + 4096)) by lia.
  pose proof (cleared_after m1 m2 Hout1 Hz1 Hout2 Hz2) as Hclear.
  pose proof (cleared_unused m1 m2 Hout1 Hout2) as Hsame.
  rewrite !set_mem_set_mem. set (mc := store32 m2 (dir_physical_addr kd) (kd + 4096)) in *.
  match goal with |- wp _ _ ?st => set (sc := st) end.
  assert (Hmem : mem sc = mc) by done. assert (Hhp : hp sc = HeapGlobals (kd + 8196) 0) by done.
  assert (Hpg : pg sc = PagingGlobals kd (current_directory (pg s)) p 4096) by done.
  assert (Hih : interrupt_handlers sc = interrupt_handlers s) by done.
  assert (Hkeep : paging_keeps s sc) by (by repeat split). clearbody sc.
  rewrite <- Hmem in Hclear, Hsame. clear Hout1 Hz1 Hout2 Hz2 Hmem. clearbody mc.
  apply build_tables; [exact Hclear|exact Hhp|rewrite Hpg; reflexivity..|].
  intros s1 Hhp1 Hpg1 Hih1 Hmap1 Hself1 Hkeep1 Hframe1 Hused1. rewrite Hpg in Hpg1. rewrite Hih in Hih1.
  unfold register_interrupt_handler, get_kernel_directory at 1.
  do 4 k_step. cbn [pg set_handlers]. rewrite Hpg1. cbn [kernel_directory].
  apply wp_bind, wp_ok. do 2 eexists. split; [apply switch_page_directory_eq|]. apply finish_start.
  constructor; cbn [mem pg cpu hp interrupt_handlers set_mem set_pg set_cpu set_trace set_handlers cpu_cr0].
  - exact Hmap1.
  - exact Hself1.
  - exact Hhp1.
  - rewrite Hpg1. reflexivity.
  - rewrite Hih1. reflexivity.
  - apply cr0_paging.
  - destruct Hkeep as (? & ? & ? & ? & ? & ? & ? & ?), Hkeep1 as (? & ? & ? & ? & ? & ? & ? & ?).
    repeat split; cbn; congruence.
  - intros b Hb Hu. rewrite <- (Hsame b Hb Hu). apply Hframe1; [done|].
    unfold tables_mem, unused in *. lia.
  - exact Hused1.
Qed.
End Start.

(** What the memory at the placement address [p] must be like: the 128 bytes
    that are allocated for the bitset are a quarter of what its 4096 bits take,
    and the pages that are mapped here use 160; the 32 behind must be in front of
    the directory, and zero.  Everything that is allocated is in the first four
    megabytes.  The word at 8, a vector of the real mode, which is taken for the size of a null
    pointer in the heap's index, is less than any hole's or more than the heap's. *)
Record can_start_paging `{Linkage} (s : kstate) : Prop := CanStartPaging {
  can_heap : kheap (hp s) = 0;
  can_page : 4096 <= placement_address (hp s);
  can_gap : placement_address (hp s) + 160 <= next_page (placement_address (hp s) + 128);
  can_zero : forall f, 1024 <= f < 1280 -> used_in (mem s) (placement_address (hp s)) f = false;
  can_room : next_page (next_page (next_page (placement_address (hp s) + 128) + 8196) + 4096) + 4096 + 32
    <= 4194304;
  can_sym : 0 < sym_header_t_less_than < 4294967296;
  can_null : load32 (mem s) 8 < 20 \/ 524288 < load32 (mem s) 8
}.

Lemma start_spec `{Linkage} s :
  can_start_paging s -> wp initialise_paging (fun r s' => r = EXIT_SUCCESS /\ paging_started s s') s.
Proof. intros []. by apply initialise_paging_spec. Qed.

(** C9: After [initialise_paging] paging is on, in a directory whose table array is at
    the physical address that CR3 holds.  The first four megabytes are mapped to
    themselves, the megabyte of the heap to the frames behind them, and nothing
    else is mapped; so no two addresses reach the same byte.  A program in user mode
    may read all that is mapped, and write none of it. *)
Theorem initialise_paging_maps `{Linkage} s :
  can_start_paging s ->
  wp initialise_paging (fun r s' => r = EXIT_SUCCESS /\
    let dir := current_directory (pg s') in
    let tr := translate (mem s') dir in
    Z.testbit (cpu_cr0 (cpu s')) 31 = true /\ tr (dir + 4096) = Some (cpu_cr3 (cpu s')) /\
    (forall a, 0 <= a < 4194304 -> tr a = Some a) /\
    (forall a, KHEAP_START <= a < KHEAP_END -> tr a = Some (a - KHEAP_START + 4194304)) /\
    (forall a, 0 <= a < 4294967296 -> 4194304 <= a -> ~ (KHEAP_START <= a < KHEAP_END) -> tr a = None) /\
    (forall a b x, 0 <= a < 4294967296 -> 0 <= b < 4294967296 ->
       tr a = Some x -> tr b = Some x -> a = b) /\
    (forall a, 0 <= a < 4294967296 -> is_Some (tr a) ->
       user_reads (mem s') dir a = true /\ user_writes (mem s') dir a = false)) s.
Proof.
  intros Hs. eapply wp_mono; [by apply start_spec|]. intros r s' (-> & []). destruct Hs.
  pose proof (places s can_page0) as (_ & Ht1 & Ht0 & Hkm & ?).
  pose proof (maps_started s can_page0 can_room0 _ started_map0) as Hmaps.
  rewrite started_pg0 in *. cbn [current_directory].
  set (t0 := next_page (_ + 4096)) in *. set (t1 := next_page (_ + 8196)) in *.
  assert (Hr0 : 0 <= t0 < 4294967296 /\ t0 mod 4096 = 0) by dlia.
  assert (Hr1 : 0 <= t1 < 4294967296 /\ t1 mod 4096 = 0) by dlia.
  pose proof (translate_low _ _ _ _ Hmaps) as Hlow.
  pose proof (translate_heap _ _ _ _ Hmaps) as Hheap.
  pose proof (translate_none _ _ _ _ started_map0 Hr1) as Hnone.
  pose proof (user_low _ _ _ _ Hmaps) as Ulow.
  pose proof (user_heap _ _ _ _ Hmaps) as Uheap.
  split; [done|]. split; [done|]. split; [done|]. split; [exact Hlow|]. split; [exact Hheap|].
  split; [exact Hnone|]. unfold KHEAP_END, KHEAP_INITIAL_SIZE, KHEAP_START in *.
  assert (Hcase : forall a, 0 <= a < 4294967296 -> a < 4194304 \/ 3221225472 <= a < 3221225472 + 1048576 \/
    4194304 <= a /\ ~ (3221225472 <= a < 3221225472 + 1048576)) by lia.
  split; cycle 1.
  { intros a Ha [x Hx]. destruct (Hcase a Ha) as [?|[?|[??]]]; [apply Ulow; lia|apply Uheap; lia|].
    by rewrite Hnone in Hx. }
  intros a b x Ha Hb Hxa Hxb.
  destruct (Hcase a Ha) as [?|[?|[??]]], (Hcase b Hb) as [?|[?|[??]]];
    rewrite ?Hlow, ?Hheap, ?Hnone in Hxa by lia; rewrite ?Hlow, ?Hheap, ?Hnone in Hxb by lia;
    try done; injection Hxa as Hxa; injection Hxb as Hxb; lia.
Qed.

(** C24: It also leaves a well-formed heap: its index at the start of the heap's range,
    the directory of the first task in a page-aligned block of it, and holes
    around that block; page faults are handled; and memory that is not used for
    paging or the heap is as before.  If the bitset of frames, at its full size, ends in
    front of the directory, the heap is one that the release of its last block can
    contract. *)
Theorem initialise_paging_heap `{Linkage} s :
  can_start_paging s ->
  wp initialise_paging (fun _ s' =>
    interrupt_handlers s' !! 14 = Some ptr_page_fault /\
    current_directory (pg s') = heap_area_start + 4084 + 12 /\
    (exists l, heap_wf (mem s') (kheap (hp s')) KHEAP_START 131072 heap_area_start KHEAP_END
       [(true, 4084); (false, 8196 + 20); (true, 511988)] l 0) /\
    same_on (untouched s) (mem s) (mem s') /\
    let kd := kernel_directory (pg s') in
    (frames (pg s') + 512 <= kd ->
     can_shrink kd (load32 (mem s') (dir_table kd 768)) (frames (pg s')) 128 (kheap (hp s')) KHEAP_START 131072
       heap_area_start KHEAP_END 3489656832 0 1 s')) s.
Proof.
  intros Hs. eapply wp_mono; [by apply start_spec|]. intros r s' (-> & Hps). pose proof Hs as [].
  pose proof (started_can_shrink s can_page0 can_gap0 can_room0 s' Hps) as Hshrink. destruct Hps.
  rewrite started_pg0, started_handlers0, started_hp0. cbn [current_directory kheap].
  destruct started_wf0 as (l & _ & Hwf). split; [apply lookup_insert_eq|]. split; [done|]. split; [by exists l|].
  split; [done|]. cbn [kernel_directory frames]. rewrite (km_heap _ _ _ _ started_kernel0). exact Hshrink.
Qed.

Module PagingInitSample.
#[local] Existing Instance sample_linkage.

Lemma sample_can_start : can_start_paging sample_state.
Proof.
  constructor.
  - reflexivity.
  - vm_compute. discriminate.
  - vm_compute. discriminate.
  - intros f _. unfold used_in. replace (load32 _ _) with 0 by reflexivity. apply Z.testbit_0_l.
  - vm_compute. discriminate.
  - vm_compute. split; reflexivity.
  - left. vm_compute. reflexivity.
Defined.

Lemma initialise_paging_maps_witness :
  wp initialise_paging (fun r s' => r = EXIT_SUCCESS /\
    translate (mem s') (current_directory (pg s')) 753664 = Some 753664 /\
    translate (mem s') (current_directory (pg s')) KHEAP_START = Some 4194304 /\
    user_writes (mem s') (current_directory (pg s')) video_memory = false) sample_state.
Proof.
  eapply wp_mono; [exact (initialise_paging_maps sample_state sample_can_start)|].
  intros r s' (Hr & _ & _ & Hlow & Hheap & _ & _ & Huser). split; [exact Hr|]. split; [apply Hlow; lia|].
  split; [apply (Hheap KHEAP_START); vm_compute; split; [discriminate|reflexivity]|].
  assert (Hv : 0 <= video_memory < 4194304) by (vm_compute; split; [discriminate|reflexivity]).
  apply (Huser video_memory); [lia|]. eexists. by apply Hlow.
Defined.

Lemma initialise_paging_heap_witness :
  wp initialise_paging (fun _ s' => current_directory (pg s') = 3221753856) sample_state.
Proof.
  eapply wp_mono; [exact (initialise_paging_heap sample_state sample_can_start)|].
  intros r s' (_ & Hd & _). exact Hd.
Defined.

(** When the bitset ends close to a page boundary, the word for the frames from
    1056 on is the directory's first entry. *)
Example bitset_overlaps_directory :
  wp (fr <- kmalloc (INDEX_FROM_BIT 4096); kd <- kmalloc_a sizeof_page_directory; ret (fr, kd))
    (fun r _ => word_of r.1 1056 = dir_table r.2 0) (set_hp (HeapGlobals 1146748 0) sample_state).
Proof. vm_compute. reflexivity. Qed.
End PagingInitSample.
