(* ===== verification/Task.v ===== *)
(** * Tasks and their scheduling ([sys/task.c])

    A [task_t] is 28 bytes of memory; the tasks are a linked list from
    [ready_queue].  A switch saves the registers of the running task in its
    structure and jumps into the next one.  [read_eip] is where control comes
    back: it returns the address behind its call, or, when another task has
    jumped there, the value 0x12345 that the jump left in [eax].  The code behind
    such a call is a definition of its own ([switch_task_from], [fork_from]). *)

From Stdlib Require Import ZArith Lia List String.
From stdpp Require Import base list gmap.
From S2P Require Import Prelude Machine Kernel Common Monitor DescriptorTables Kmalloc Frames Paging.

(** ** Definitions *)

Definition KERNEL_STACK_SIZE : Z := 2048.

(** [task_t]: [id] is at offset 0. *)
Definition sizeof_task : Z := 28.
Definition task_esp (t : Z) : Z := t + 4.
Definition task_ebp (t : Z) : Z := t + 8.
Definition task_eip (t : Z) : Z := t + 12.
Definition task_page_directory (t : Z) : Z := t + 16.
Definition task_kernel_stack (t : Z) : Z := t + 20.
Definition task_next (t : Z) : Z := t + 24.

Definition get_current_task : K Z := gets (fun s => current_task (tk s)).
Definition get_ready_queue : K Z := gets (fun s => ready_queue (tk s)).
Definition set_current_task (t : Z) : K unit :=
  modify (fun s => set_tk (TaskGlobals t (ready_queue (tk s)) (next_pid (tk s))) s).
Definition set_ready_queue (t : Z) : K unit :=
  modify (fun s => set_tk (TaskGlobals (current_task (tk s)) t (next_pid (tk s))) s).

(** [next_pid++]. *)
Definition take_pid : K Z :=
  pid <- gets (fun s => next_pid (tk s));
  modify (fun s => set_tk (TaskGlobals (current_task (tk s)) (ready_queue (tk s))
                             (u32 (next_pid (tk s) + 1))) s) >>
  ret pid.

Definition get_current_directory : K Z := gets (fun s => current_directory (pg s)).
Definition get_esp : K Z := gets (fun s => cpu_esp (cpu s)).
Definition get_ebp : K Z := gets (fun s => cpu_ebp (cpu s)).

Definition set_stack (esp ebp : Z) (c : cpu_t) : cpu_t :=
  Cpu esp ebp (cpu_cr0 c) (cpu_cr2 c) (cpu_cr3 c).
Definition load_stack (esp ebp : Z) : K unit :=
  modify (fun s => set_cpu (set_stack esp ebp (cpu s)) s).

(** The members of a new task; [kernel_stack] is not among them. *)
Definition init_task (task directory : Z) : K unit :=
  pid <- take_pid;
  st32 task pid >>
  st32 (task_esp task) 0 >>
  st32 (task_ebp task) 0 >>
  st32 (task_eip task) 0 >>
  st32 (task_page_directory task) directory >>
  st32 (task_next task) 0.

Section Task.
Context `{Linkage, Kmalloc}.

(** [move_stack]: the pages of the new stack. *)
Definition map_stack (new_stack_start size : Z) : K unit :=
  while (fun i => ret (u32 (new_stack_start - size) <=? i))
        (fun i =>
           cd <- get_current_directory;
           page <- get_page i 1 cd;
           alloc_frame page 0 1 >>
           ret (u32 (i - 4096))) new_stack_start >> ret tt.

(** [move_stack]: the words that look like base pointers. *)
Definition relocate_stack (new_stack_start size old_stack_pointer offset : Z) : K unit :=
  while (fun i => ret (u32 (new_stack_start - size) <? i))
        (fun i =>
           tmp <- ld32 i;
           initial <- gets (fun s => initial_esp (boot s));
           when ((old_stack_pointer <? tmp) && (tmp <? initial)) (st32 i (u32 (tmp + offset))) >>
           ret (u32 (i - 4))) new_stack_start >> ret tt.

Definition move_stack (new_stack_start size : Z) : K unit :=
  map_stack new_stack_start size >>
  pd_addr <- gets (fun s => cpu_cr3 (cpu s));
  load_cr3 pd_addr >>
  old_stack_pointer <- get_esp;
  old_base_pointer <- get_ebp;
  initial <- gets (fun s => initial_esp (boot s));
  let offset := u32 (new_stack_start - initial) in
  let new_stack_pointer := u32 (old_stack_pointer + offset) in
  let new_base_pointer := u32 (old_base_pointer + offset) in
  memcpy new_stack_pointer old_stack_pointer (u32 (initial - old_stack_pointer)) >>
  relocate_stack new_stack_start size old_stack_pointer offset >>
  emit (SwitchStack new_stack_pointer new_base_pointer) >>
  load_stack new_stack_pointer new_base_pointer.

Definition initialise_tasking : K Z :=
  emit Cli >>
  move_stack 3758096384 8192 >>
  task <- kmalloc sizeof_task;
  set_ready_queue task >>
  set_current_task task >>
  cd <- get_current_directory;
  init_task task cd >>
  emit Sti >>
  ret EXIT_SUCCESS.

(** The assembly at the end of [switch_task]. *)
Definition jump_to_task (eip esp ebp cr3 : Z) : K unit :=
  emit Cli >>
  load_stack esp ebp >>
  modify (fun s => set_cpu (set_cr3 cr3 (cpu s)) s) >>
  emit Sti >>
  emit (JumpToTask eip esp ebp cr3).

(** [switch_task] after [read_eip] has returned [eip]. *)
Definition switch_task_from (esp ebp eip : Z) : K unit :=
  if eip =? 74565 then ret tt
  else
    task <- get_current_task;
    st32 (task_eip task) eip >>
    st32 (task_esp task) esp >>
    st32 (task_ebp task) ebp >>
    next <- ld32 (task_next task);
    set_current_task next >>
    (if truth next then ret tt
     else rq <- get_ready_queue; set_current_task rq) >>
    task <- get_current_task;
    eip <- ld32 (task_eip task);
    esp <- ld32 (task_esp task);
    ebp <- ld32 (task_ebp task);
    directory <- ld32 (task_page_directory task);
    set_current_directory directory >>
    ks <- ld32 (task_kernel_stack task);
    set_kernel_stack (u32 (ks + KERNEL_STACK_SIZE)) >>
    cd <- get_current_directory;
    phys <- ld32 (dir_physical_addr cd);
    jump_to_task eip esp ebp phys.

Definition switch_task : K unit :=
  task <- get_current_task;
  if negb (truth task) then ret tt
  else
    esp <- get_esp;
    ebp <- get_ebp;
    switch_task_from esp ebp eip_switch_task.

(** [fork] up to its call of [read_eip]: the parent and the new task. *)
Definition fork_prefix : K (Z * Z) :=
  emit Cli >>
  parent_task <- get_current_task;
  cd <- get_current_directory;
  directory <- clone_directory cd;
  new_task <- kmalloc sizeof_task;
  init_task new_task directory >>
  rq <- get_ready_queue;
  tmp_task <- while (fun t => next <- ld32 (task_next t); ret (truth next))
                    (fun t => ld32 (task_next t)) rq;
  st32 (task_next tmp_task) new_task >>
  ret (parent_task, new_task).

(** [fork] after [read_eip] has returned [eip], in the parent or in the child.  The child runs it
    with its own directory, which need not map what the parent's does; nothing
    is claimed of its run. *)
Definition fork_from (parent_task new_task eip : Z) : K Z :=
  task <- get_current_task;
  if task =? parent_task then
    esp <- get_esp;
    ebp <- get_ebp;
    st32 (task_esp new_task) esp >>
    st32 (task_ebp new_task) ebp >>
    st32 (task_eip new_task) eip >>
    emit Sti >>
    id <- ld32 new_task;
    ret (s32 id)
  else ret 0.

Definition fork : K Z :=
  r <- fork_prefix;
  let '(parent_task, new_task) := r in
  fork_from parent_task new_task eip_fork.

Definition getpid : K Z :=
  task <- get_current_task; id <- ld32 task; ret (s32 id).

(** The [pushf] follows the [cli], and nothing sets the interrupt flag in the
    pushed word. *)
Definition switch_to_user_mode : K unit :=
  task <- get_current_task;
  ks <- ld32 (task_kernel_stack task);
  set_kernel_stack (u32 (ks + KERNEL_STACK_SIZE)) >>
  emit Cli >>
  esp <- get_esp;
  emit (IretToUser esp).
End Task.

(** ** The queue of tasks *)

(** The structures of the tasks [l], linked in this order. *)
Record tasks_at (m : memory) (l : list Z) : Prop := TasksAt {
  tasks_next : forall i t, l !! i = Some t -> load32 m (task_next t) = default 0 (l !! S i);
  tasks_mem : forall i t, l !! i = Some t -> 0 < t /\ t + 28 < 4294967296;
  tasks_apart : forall i j t u, l !! i = Some t -> l !! j = Some u -> i <> j ->
    t + 28 <= u \/ u + 28 <= t
}.

(** Instruction, stack and base pointer that a task resumes with. *)
Definition context (m : memory) (t : Z) : Z * Z * Z :=
  (load32 m (task_eip t), load32 m (task_esp t), load32 m (task_ebp t)).

(** Memory in which the structure of [t] holds the registers [r]. *)
Definition save_context (t : Z) (r : Z * Z * Z) (m : memory) : memory :=
  let '(eip, esp, ebp) := r in
  store32 (store32 (store32 m (task_eip t) eip) (task_esp t) esp) (task_ebp t) ebp.

Definition regs_range (r : Z * Z * Z) : Prop :=
  let '(eip, esp, ebp) := r in
  0 <= eip < 4294967296 /\ 0 <= esp < 4294967296 /\ 0 <= ebp < 4294967296.

Lemma save_context_outside t r m :
  0 < t -> t + 28 < 4294967296 -> same_outside (t + 4) (t + 16) m (save_context t r m).
Proof.
  intros Ht Hr. destruct r as [[eip esp] ebp]. intros b Hb Hn.
  unfold save_context, task_eip, task_esp, task_ebp. by read_stores.
Qed.

Lemma save_context_context t r m :
  0 < t -> t + 28 < 4294967296 -> regs_range r -> context (save_context t r m) t = r.
Proof.
  intros Ht Hr Hrange. destruct r as [[eip esp] ebp], Hrange as (? & ? & ?).
  unfold context, save_context, task_eip, task_esp, task_ebp.
  read_stores. by rewrite !u32_id by lia.
Qed.

Lemma load_task_outside t u m m' k :
  same_outside (t + 4) (t + 16) m m' -> 0 <= k -> k + 4 <= 28 -> 0 < u -> u + 28 < 4294967296 ->
  t + 28 <= u \/ u + 28 <= t -> load32 m' (u + k) = load32 m (u + k).
Proof. intros Hs ?????. eapply load32_frame; [exact Hs|unfold region; lia|lia]. Qed.

Section Queue.
Context (m : memory) (l : list Z) (Hl : tasks_at m l) (i : nat) (t : Z) (Ht : l !! i = Some t).
Context (r : Z * Z * Z) (Hr : regs_range r).

Lemma save_context_other j u :
  l !! j = Some u -> j <> i -> context (save_context t r m) u = context m u.
Proof using Hl Ht.
  clear Hr. intros Hu Hne. destruct (tasks_mem _ _ Hl _ _ Ht), (tasks_mem _ _ Hl _ _ Hu).
  pose proof (tasks_apart _ _ Hl _ _ _ _ Ht Hu ltac:(done)).
  pose proof (save_context_outside t r m ltac:(lia) ltac:(lia)) as Ho.
  unfold context, task_eip, task_esp, task_ebp.
  by rewrite !(load_task_outside t u m _ _ Ho) by lia.
Qed.

(** Words of a structure other than the saved registers stay. *)
Lemma save_context_word j u k :
  l !! j = Some u -> 16 <= k <= 24 -> load32 (save_context t r m) (u + k) = load32 m (u + k).
Proof using Hl Ht.
  clear Hr. intros Hu Hk. destruct (tasks_mem _ _ Hl _ _ Ht), (tasks_mem _ _ Hl _ _ Hu).
  eapply load32_frame; [by apply save_context_outside|unfold region; lia|].
  destruct (decide (j = i)) as [->|Hne].
  - assert (u = t) as -> by congruence. lia.
  - pose proof (tasks_apart _ _ Hl _ _ _ _ Ht Hu ltac:(done)). lia.
Qed.

Lemma save_context_tasks : tasks_at (save_context t r m) l.
Proof using Hl Ht.
  clear Hr. constructor.
  - intros j u Hu. unfold task_next. rewrite (save_context_word j) by (done || lia).
    by apply (tasks_next _ _ Hl).
  - intros j u Hu. by eapply tasks_mem.
  - intros j k u v Hu Hv Hne. by apply (tasks_apart _ _ Hl j k).
Qed.
End Queue.

(** ** Switching *)

(** The position behind [i] in a queue of [n] tasks, the first after the last. *)
Definition next_index (n i : nat) : nat := if decide (S i < n)%nat then S i else 0%nat.

(** [s'] is [s] after the jump into the task [u]: its context in the processor,
    its page directory and its kernel stack are in force. *)
Definition enters (u : Z) (s s' : kstate) : Prop :=
  let '(eip, esp, ebp) := context (mem s') u in
  let d := load32 (mem s') (task_page_directory u) in
  let phys := load32 (mem s') (dir_physical_addr d) in
  tk s' = TaskGlobals u (ready_queue (tk s)) (next_pid (tk s)) /\
  cpu_esp (cpu s') = esp /\ cpu_ebp (cpu s') = ebp /\ cpu_cr3 (cpu s') = phys /\
  current_directory (pg s') = d /\
  tss_esp0 (tss_entry (dt s')) = u32 (load32 (mem s') (task_kernel_stack u) + KERNEL_STACK_SIZE) /\
  trace s' = JumpToTask eip esp ebp phys :: Sti :: Cli :: trace s /\ tick s' = tick s.

(** What a switch leaves alone, besides all memory but the context it saves. *)
Definition switch_kept (s s' : kstate) : Prop :=
  mon s' = mon s /\ kbd s' = kbd s /\ interrupt_handlers s' = interrupt_handlers s.

Lemma switch_task_spec `{Linkage} l i t s :
  tasks_at (mem s) l -> l !! i = Some t -> current_task (tk s) = t ->
  l !! 0%nat = Some (ready_queue (tk s)) -> eip_switch_task <> 74565 ->
  wp switch_task (fun _ s' => exists u, l !! next_index (length l) i = Some u /\
    mem s' = save_context t (eip_switch_task, cpu_esp (cpu s), cpu_ebp (cpu s)) (mem s) /\
    enters u s s' /\ switch_kept s s') s.
Proof.
  intros Hl Ht Hcur Hhead Heip. destruct (tasks_mem _ _ Hl _ _ Ht) as [Ht0 Ht1].
  set (r := (eip_switch_task, cpu_esp (cpu s), cpu_ebp (cpu s))).
  unfold switch_task, get_current_task, get_esp, get_ebp. k_steps. rewrite Hcur.
  unfold truth at 1. replace (t =? 0) with false by blia. cbn [negb]. k_steps.
  unfold switch_task_from. replace (eip_switch_task =? 74565) with false by blia.
  unfold get_current_task. k_steps. rewrite Hcur.
  cbn [mem set_mem tk]. rewrite !set_mem_set_mem.
  change (store32 _ _ _) with (save_context t r (mem s)).
  assert (Hnext : load32 (save_context t r (mem s)) (task_next t) = default 0 (l !! S i)).
  { unfold task_next. rewrite (save_context_word (mem s) l Hl i t Ht r i t) by (done || lia).
    by apply (tasks_next _ _ Hl). }
  rewrite Hnext. unfold set_current_task. k_steps. cbn [mem set_mem tk set_tk ready_queue next_pid].
  assert (exists u, l !! next_index (length l) i = Some u /\
    (if truth (default 0 (l !! S i)) then default 0 (l !! S i) else ready_queue (tk s)) = u) as (u & Hu & Heq).
  { unfold next_index. destruct (l !! S i) as [v|] eqn:Hv; cbn [default].
    - pose proof (lookup_lt_Some _ _ _ Hv). rewrite decide_True by lia. exists v. split; [done|].
      destruct (tasks_mem _ _ Hl _ _ Hv). unfold truth. change (id v) with v. by replace (v =? 0) with false by blia.
    - apply lookup_ge_None in Hv. rewrite decide_False by lia. by exists (ready_queue (tk s)). }
  apply (wp_mono _ (fun _ s' => s' =
    set_tk (TaskGlobals u (ready_queue (tk s)) (next_pid (tk s))) (set_mem (save_context t r (mem s)) s))).
  - destruct (truth (default 0 (l !! S i))); unfold get_ready_queue; k_steps; by subst u.
  - intros [] s1 ->. unfold set_current_directory, set_kernel_stack, get_current_directory, jump_to_task,
      load_stack, modify_dt. k_steps. exists u. split; [done|]. split; [done|].
    split; [|by repeat split]. unfold enters, context.
    cbn [mem set_mem set_trace set_cpu set_pg set_dt set_tk tk cpu pg dt trace tick cpu_esp cpu_ebp cpu_cr3
      set_stack set_cr3 current_directory tss_entry set_tss_entry tss_esp0 ready_queue next_pid current_task].
    repeat (split; [reflexivity|]). reflexivity.
Qed.

(** ** The abstract scheduler

    Tasks take turns in the order of the queue; at a switch the registers of the
    running task are put aside, and those of the next task are taken up. *)

Module RoundRobin.
Record scheduler : Type := Scheduler { contexts : list (Z * Z * Z); running : nat }.

Definition switch (r : Z * Z * Z) (a : scheduler) : scheduler :=
  Scheduler (<[running a := r]> (contexts a)) (next_index (length (contexts a)) (running a)).

(** A new task, last in the order. *)
Definition spawn (r : Z * Z * Z) (a : scheduler) : scheduler :=
  Scheduler (contexts a ++ [r]) (running a).

(** What the running task continues with. *)
Definition resumed (a : scheduler) : option (Z * Z * Z) := contexts a !! running a.

(** Switches with these registers, one after the other. *)
Definition run (rs : list (Z * Z * Z)) (a : scheduler) : scheduler :=
  foldl (fun a r => switch r a) a rs.

Lemma run_length rs a : length (contexts (run rs a)) = length (contexts a).
Proof.
  revert a. induction rs as [|r rs IH]; intros a; [done|]. cbn [run foldl].
  change (foldl _ _ _) with (run rs (switch r a)). rewrite IH. cbn. apply length_insert.
Qed.

Lemma next_index_mod n i : (i < n)%nat -> next_index n i = ((i + 1) mod n)%nat.
Proof.
  intros Hi. unfold next_index. case_decide.
  - rewrite Nat.mod_small by lia. lia.
  - assert (n = i + 1)%nat as -> by lia. by rewrite Nat.Div0.mod_same.
Qed.

Lemma run_running rs a :
  (running a < length (contexts a))%nat ->
  running (run rs a) = ((running a + length rs) mod length (contexts a))%nat.
Proof.
  revert a. induction rs as [|r rs IH]; intros a Ha.
  - cbn. rewrite Nat.add_0_r, Nat.mod_small by lia. done.
  - cbn [run foldl]. change (foldl _ _ _) with (run rs (switch r a)). rewrite IH.
    + cbn [switch contexts running length]. rewrite length_insert, next_index_mod by done.
      rewrite Nat.Div0.add_mod_idemp_l. f_equal. lia.
    + cbn [switch contexts running]. rewrite length_insert, next_index_mod by done.
      apply Nat.mod_upper_bound. lia.
Qed.

(** Fewer switches than there are tasks leave the others' registers alone. *)
Lemma run_keeps rs a i :
  (running a < length (contexts a))%nat ->
  (forall k, (k < length rs)%nat -> ((running a + k) mod length (contexts a))%nat <> i) ->
  contexts (run rs a) !! i = contexts a !! i.
Proof.
  revert a. induction rs as [|r rs IH]; intros a Ha Hk; [done|].
  cbn [run foldl]. change (foldl _ _ _) with (run rs (switch r a)). rewrite IH.
  - cbn [switch contexts]. apply list_lookup_insert_ne.
    specialize (Hk 0%nat ltac:(cbn; lia)). by rewrite Nat.add_0_r, Nat.mod_small in Hk by lia.
  - cbn [switch contexts running]. rewrite length_insert, next_index_mod by done.
    apply Nat.mod_upper_bound. lia.
  - intros k Hk'. cbn [switch contexts running]. rewrite length_insert, next_index_mod by done.
    rewrite Nat.Div0.add_mod_idemp_l. specialize (Hk (S k) ltac:(cbn; lia)).
    by replace (running a + 1 + k)%nat with (running a + S k)%nat by lia.
Qed.

(** After one turn of every task the first one continues where it was. *)
Lemma run_round r rs a :
  (running a < length (contexts a))%nat -> length (r :: rs) = length (contexts a) ->
  running (run (r :: rs) a) = running a /\ resumed (run (r :: rs) a) = Some r.
Proof.
  intros Ha Hn.
  assert (Hrun : running (run (r :: rs) a) = running a).
  { rewrite run_running by done. rewrite Hn.
    replace (running a + length (contexts a))%nat with (running a + 1 * length (contexts a))%nat by lia.
    rewrite Nat.Div0.mod_add. by apply Nat.mod_small. }
  split; [done|]. unfold resumed. rewrite Hrun.
  change (run (r :: rs) a) with (run rs (switch r a)). rewrite run_keeps.
  - cbn [switch contexts]. by rewrite list_lookup_insert_eq by done.
  - cbn [switch contexts running]. rewrite length_insert, next_index_mod by done.
    apply Nat.mod_upper_bound. lia.
  - intros k Hk. cbn [switch contexts running]. rewrite length_insert, next_index_mod by done.
    rewrite Nat.Div0.add_mod_idemp_l. cbn in Hn.
    destruct (decide (running a + 1 + k < length (contexts a))%nat).
    + rewrite Nat.mod_small by lia. lia.
    + replace (running a + 1 + k)%nat with (running a + 1 + k - length (contexts a) + 1 * length (contexts a))%nat by lia.
      rewrite Nat.Div0.mod_add, Nat.mod_small by lia. lia.
Qed.
End RoundRobin.

Section Scheduling.
Context `{Linkage} (l : list Z).
Hypothesis Heip : 0 <= eip_switch_task < 4294967296 /\ eip_switch_task <> 74565.

(** The tasks [l] in memory are those of the abstract scheduler. *)
Record schedules (s : kstate) (a : RoundRobin.scheduler) : Prop := Schedules {
  sched_tasks : tasks_at (mem s) l;
  sched_head : l !! 0%nat = Some (ready_queue (tk s));
  sched_current : l !! RoundRobin.running a = Some (current_task (tk s));
  sched_contexts : RoundRobin.contexts a = context (mem s) <$> l
}.

(** The running task has come to these stack and base pointers when the timer
    fires. *)
Definition turn (r : Z * Z) : K unit := load_stack (fst r) (snd r) >> switch_task.

Definition turn_regs (r : Z * Z) : Z * Z * Z := (eip_switch_task, fst r, snd r).

Lemma schedules_same s s' a :
  schedules s a -> mem s' = mem s -> tk s' = tk s -> schedules s' a.
Proof using. clear Heip. intros [] Hm Ht. constructor; by rewrite ?Hm, ?Ht. Qed.

(** What is in the processor is what the abstract scheduler resumes. *)
Definition in_processor (r : Z * Z * Z) (s : kstate) : Prop :=
  let '(eip, esp, ebp) := r in
  cpu_esp (cpu s) = esp /\ cpu_ebp (cpu s) = ebp /\
  head (trace s) = Some (JumpToTask eip esp ebp (cpu_cr3 (cpu s))).

Lemma preempt_spec s a :
  let r := turn_regs (cpu_esp (cpu s), cpu_ebp (cpu s)) in
  schedules s a -> regs_range r ->
  wp switch_task (fun _ s' => tick s' = tick s /\ schedules s' (RoundRobin.switch r a) /\
    exists c, RoundRobin.resumed (RoundRobin.switch r a) = Some c /\ in_processor c s') s.
Proof using Heip.
  intros r [Ht Hh Hc Hctx] Hr. set (i := RoundRobin.running a) in *. set (t := current_task (tk s)) in *.
  eapply wp_mono; [exact (switch_task_spec l i t s Ht Hc eq_refl Hh (proj2 Heip))|].
  intros [] s' (u & Hu & Hm & He & _). change (eip_switch_task, cpu_esp (cpu s), cpu_ebp (cpu s)) with r in Hm.
  assert (Hi : (i < length l)%nat) by (by eapply lookup_lt_Some).
  assert (Hctx' : <[i := r]> (context (mem s) <$> l) = context (mem s') <$> l).
  { apply list_eq. intros j. rewrite Hm. destruct (tasks_mem _ _ Ht _ _ Hc).
    destruct (decide (j = i)) as [->|Hne].
    - rewrite list_lookup_insert_eq by (by rewrite length_fmap).
      rewrite list_lookup_fmap, Hc. cbn [fmap option_fmap option_map]. by rewrite save_context_context.
    - rewrite list_lookup_insert_ne, !list_lookup_fmap by done.
      destruct (l !! j) as [v|] eqn:Hv; [|done]. cbn [fmap option_fmap option_map]. f_equal. symmetry.
      by eapply save_context_other. }
  unfold enters in He. destruct (context (mem s') u) as [[eip esp] ebp] eqn:Hcu.
  destruct He as (Htk & He1 & He2 & He3 & _ & _ & Htr & Htick).
  assert (Hlen : length (RoundRobin.contexts a) = length l) by (by rewrite Hctx, length_fmap).
  split; [exact Htick|]. split.
  - constructor; cbn [RoundRobin.switch RoundRobin.running RoundRobin.contexts].
    + rewrite Hm. by eapply save_context_tasks.
    + by rewrite Htk.
    + rewrite Htk, Hlen. done.
    + by rewrite Hctx.
  - exists (eip, esp, ebp). unfold RoundRobin.resumed. cbn [RoundRobin.switch RoundRobin.running RoundRobin.contexts].
    fold i. rewrite Hctx, Hctx', length_fmap, list_lookup_fmap, Hu. cbn [fmap option_fmap option_map].
    split; [by rewrite Hcu|]. unfold in_processor. rewrite Htr, He3. done.
Qed.

(** The running task's structure is all the memory that a switch writes. *)
Lemma preempt_keeps s a :
  schedules s a ->
  wp switch_task (fun _ s' => switch_kept s s' /\
    same_outside (current_task (tk s) + 4) (current_task (tk s) + 16) (mem s) (mem s')) s.
Proof using Heip.
  intros [Ht Hh Hc _]. destruct (tasks_mem _ _ Ht _ _ Hc).
  eapply wp_mono; [exact (switch_task_spec l _ _ s Ht Hc eq_refl Hh (proj2 Heip))|].
  intros [] s' (u & _ & -> & _ & Hk). split; [exact Hk|]. by apply save_context_outside.
Qed.

(** And it continues a task of the queue. *)
Lemma preempt_enters s a :
  schedules s a -> wp switch_task (fun _ s' => exists u, u ∈ l /\ enters u s s') s.
Proof using Heip.
  intros [Ht Hh Hc _]. eapply wp_mono; [exact (switch_task_spec l _ _ s Ht Hc eq_refl Hh (proj2 Heip))|].
  intros [] s' (u & Hu & _ & He & _). exists u. split; [by eapply list_elem_of_lookup_2|exact He].
Qed.

Lemma turn_spec r s a :
  schedules s a -> regs_range (turn_regs r) ->
  wp (turn r) (fun _ s' => schedules s' (RoundRobin.switch (turn_regs r) a) /\
    exists c, RoundRobin.resumed (RoundRobin.switch (turn_regs r) a) = Some c /\ in_processor c s') s.
Proof using Heip.
  intros [] Hr. destruct r as [esp ebp]. unfold turn, load_stack. k_steps.
  eapply wp_mono; [by apply (preempt_spec (set_cpu (set_stack esp ebp (cpu s)) s) a)|].
  by intros [] s' (_ & ?).
Qed.

(** C7: The timer's switches implement the abstract scheduler: the registers of the
    interrupted task are put aside, and the next task of the queue, the first
    behind the last, continues with its own. *)
Theorem switch_task_refines r s a :
  schedules s a -> regs_range (turn_regs r) ->
  wp (turn r) (fun _ s' => schedules s' (RoundRobin.switch (turn_regs r) a) /\
    exists c, RoundRobin.resumed (RoundRobin.switch (turn_regs r) a) = Some c /\ in_processor c s') s.
Proof using Heip. apply turn_spec. Qed.

Fixpoint turns (rs : list (Z * Z)) : K unit :=
  match rs with [] => ret tt | r :: rs => turn r >> turns rs end.

Lemma turns_spec rs s a :
  schedules s a -> Forall (fun r => regs_range (turn_regs r)) rs ->
  wp (turns rs) (fun _ s' => schedules s' (RoundRobin.run (turn_regs <$> rs) a) /\
    (rs <> [] -> exists c, RoundRobin.resumed (RoundRobin.run (turn_regs <$> rs) a) = Some c /\
       in_processor c s')) s.
Proof using Heip.
  revert s a. induction rs as [|r rs IH]; intros s a Hs Hrs; [done|].
  apply Forall_cons in Hrs as [Hr Hrs]. cbn [turns]. apply wp_bind.
  eapply wp_mono; [by apply turn_spec|]. intros [] s1 (Hs1 & Hc1).
  destruct rs as [|r' rs]; [done|].
  eapply wp_mono; [by apply IH|]. intros [] s2 [Hs2 Hp2].
  split; [done|]. intros _. by apply Hp2.
Qed.

(** The switches by which the position [j] is reached from [i]. *)
Lemma turn_of n i j : (i < n)%nat -> (j < n)%nat -> j <> i ->
  exists k, (0 < k < n)%nat /\ ((i + k) mod n = j)%nat /\ forall k', (k' < k)%nat -> ((i + k') mod n)%nat <> j.
Proof using.
  intros Hi Hj Hne. assert (Hw : forall x, (n <= x < 2 * n)%nat -> (x mod n = x - n)%nat).
  { intros x Hx. replace x with (x - n + 1 * n)%nat at 1 by lia. rewrite Nat.Div0.mod_add. apply Nat.mod_small. lia. }
  destruct (decide (i < j)%nat).
  - exists (j - i)%nat. split; [lia|]. split; [rewrite Nat.mod_small; lia|]. intros k' Hk'. rewrite Nat.mod_small; lia.
  - exists (j + n - i)%nat. split; [lia|]. split; [rewrite Hw; lia|]. intros k' Hk'.
    destruct (decide (i + k' < n)%nat); [rewrite Nat.mod_small|rewrite Hw]; lia.
Qed.

(** C26: As many switches as there are tasks give every other task its turn, in which it
    continues with the registers it had, and then the first one continues with the
    instruction, stack and base pointer it was interrupted with. *)
Theorem switch_task_round r rs s a :
  schedules s a -> length (r :: rs) = length l ->
  Forall (fun r => regs_range (turn_regs r)) (r :: rs) ->
  (forall t, t ∈ l -> t <> current_task (tk s) -> exists k, (0 < k < length l)%nat /\
     wp (turns (take k (r :: rs))) (fun _ s' => current_task (tk s') = t /\ in_processor (context (mem s) t) s') s) /\
  wp (turns (r :: rs)) (fun _ s' => current_task (tk s') = current_task (tk s) /\
    in_processor (turn_regs r) s') s.
Proof using Heip.
  intros Hs Hn Hrs. pose proof Hs as [_ _ Hc Hctx].
  assert (Hlen : length (RoundRobin.contexts a) = length l) by (by rewrite Hctx, length_fmap).
  pose proof (lookup_lt_Some _ _ _ Hc) as Hi. split.
  - intros t [j Hj]%list_elem_of_lookup Hne. pose proof (lookup_lt_Some _ _ _ Hj).
    destruct (turn_of (length l) (RoundRobin.running a) j) as (k & Hk & Hkj & Hbefore); [done|done|by intros ->; congruence|].
    exists k. split; [exact Hk|]. eapply wp_mono; [apply (turns_spec (take k (r :: rs)) s a Hs); by apply Forall_take|].
    intros [] s' [Hs' Hp]. assert (Htake : length (turn_regs <$> take k (r :: rs)) = k)
      by (rewrite length_fmap, length_take; lia).
    assert (Hrun : RoundRobin.running (RoundRobin.run (turn_regs <$> take k (r :: rs)) a) = j).
    { rewrite RoundRobin.run_running by lia. by rewrite Htake, Hlen. }
    split; [pose proof (sched_current _ _ Hs') as Hc'; rewrite Hrun in Hc'; congruence|].
    destruct Hp as (c & Hres & Hin); [by destruct k as [|k]; [lia|]|].
    unfold RoundRobin.resumed in Hres. rewrite Hrun, RoundRobin.run_keeps in Hres by (rewrite ?Htake, ?Hlen; done).
    rewrite Hctx, list_lookup_fmap, Hj in Hres. cbn in Hres. by replace (context (mem s) t) with c by congruence.
  - destruct (RoundRobin.run_round (turn_regs r) (turn_regs <$> rs) a ltac:(lia)) as [Hrun Hres].
    { cbn in Hn |- *. rewrite length_fmap. lia. }
    eapply wp_mono; [by apply turns_spec|]. cbn [fmap list_fmap]. intros [] s' [Hs' Hp]. split.
    + pose proof (sched_current _ _ Hs') as Hc'. rewrite Hrun in Hc'. congruence.
    + destruct (Hp ltac:(done)) as (c & Hc' & Hin). by replace (turn_regs r) with c by congruence.
Qed.
End Scheduling.

(** ** [fork] *)

(** Walking the queue from its head ends at its last task. *)
Lemma queue_tail l k t s :
  tasks_at (mem s) l -> Z.of_nat (length l) < 2 ^ 32 -> l !! k = Some t ->
  wp (while (fun t => next <- ld32 (task_next t); ret (truth next))
            (fun t => ld32 (task_next t)) t) (fun r s' => s' = s /\ last l = Some r) s.
Proof.
  intros Hl Hlen Hk. change (2 ^ 32) with 4294967296 in Hlen.
  apply (wp_while _ _ (fun u t' => t' = s /\ exists j, l !! j = Some u)
           (fun u _ => Z.of_nat (length l) - Z.of_nat (default 0%nat (fst <$> list_find (fun v => v = u) l)))).
  - intros u ? (-> & j & Hj). destruct (list_find _ l) as [[i v]|] eqn:Hf; cbn; [|lia].
    apply list_find_Some in Hf as (Hf & _). pose proof (lookup_lt_Some _ _ _ Hf). lia.
  - intros u ? (-> & j & Hj).
    assert (Hnodup : forall i u', l !! i = Some u' ->
      list_find (fun v => v = u') l = Some (i, u')).
    { intros i u' Hi. apply list_find_Some. split; [done|]. split; [done|].
      intros i' v Hi' Hlt ->. destruct (tasks_apart _ _ Hl _ _ _ _ Hi Hi' ltac:(lia)); lia. }
    k_steps. rewrite (tasks_next _ _ Hl _ _ Hj). destruct (l !! S j) as [v|] eqn:Hv.
    + change (default 0 (Some v)) with v. destruct (tasks_mem _ _ Hl _ _ Hv).
      unfold truth. replace (v =? 0) with false by blia. cbn [negb]. k_steps.
      rewrite (tasks_next _ _ Hl _ _ Hj), Hv. change (default 0 (Some v)) with v.
      split; [by eauto|]. rewrite (Hnodup _ _ Hj), (Hnodup _ _ Hv). cbn. lia.
    + change (default 0 None) with 0. change (truth 0) with false. cbv iota.
      split; [done|]. rewrite last_lookup. apply lookup_ge_None in Hv.
      pose proof (lookup_lt_Some _ _ _ Hj). by replace (pred (length l)) with j by lia.
  - eauto.
  - lia.
Qed.

(** A new task at the end of the queue. *)
Lemma tasks_at_snoc m l z new :
  tasks_at m l -> last l = Some z -> 0 < new -> new + 28 < 4294967296 ->
  (forall i t, l !! i = Some t -> t + 28 <= new \/ new + 28 <= t) ->
  load32 m (task_next new) = 0 ->
  tasks_at (store32 m (task_next z) new) (l ++ [new]).
Proof.
  intros Hl Hz Hn0 Hn1 Hap Hnn. rewrite last_lookup in Hz. set (k := pred (length l)) in *.
  assert (Hk : length l = S k).
  { pose proof (lookup_lt_Some _ _ _ Hz). unfold k. lia. }
  destruct (tasks_mem _ _ Hl _ _ Hz), (Hap _ _ Hz).
  all: assert (Hcase : forall i t, (l ++ [new]) !! i = Some t ->
    l !! i = Some t /\ (i < length l)%nat \/ i = length l /\ t = new) by
   (intros i t [Hi|[Hge Hi]]%lookup_app_Some; [left; split; [done|by eapply lookup_lt_Some]|];
    right; apply list_lookup_singleton_Some in Hi as [? ->]; split; [lia|done]).
  all: constructor.
  all: try (intros i t Ht; destruct (Hcase _ _ Ht) as [[Hi Hlt]|[-> ->]];
    [apply (tasks_mem _ _ Hl _ _ Hi)|done]).
  all: try (intros i j t u Ht Hu Hne; destruct (Hcase _ _ Ht) as [[Hi Hlt]|[-> ->]];
    destruct (Hcase _ _ Hu) as [[Hj Hltj]|[-> ->]];
    [by apply (tasks_apart _ _ Hl i j)|by apply (Hap i)|pose proof (Hap _ _ Hj); lia|done]).
  all: intros i t Ht; unfold task_next in *; destruct (Hcase _ _ Ht) as [[Hi Hlt]|[-> ->]];
    [|rewrite lookup_ge_None_2 by (rewrite length_app; simpl; lia); read_stores; done].
  all: destruct (decide (i = k)) as [->|Hne];
    [assert (t = z) as -> by congruence; read_stores; rewrite u32_id by lia;
     rewrite lookup_app_r, Hk, Nat.sub_diag by lia; done|].
  all: destruct (tasks_mem _ _ Hl _ _ Hi); destruct (tasks_apart _ _ Hl _ _ _ _ Hz Hi ltac:(done)).
  all: read_stores; rewrite lookup_app_l by lia; by apply (tasks_next _ _ Hl).
Qed.

(** What the structure of a new task holds. *)
Definition new_task_memory (new pid directory : Z) (m : memory) : memory :=
  store32 (store32 (store32 (store32 (store32 (store32 m new pid) (task_esp new) 0) (task_ebp new) 0)
    (task_eip new) 0) (task_page_directory new) directory) (task_next new) 0.

Lemma init_task_spec task directory s :
  wp (init_task task directory) (fun _ s' => s' =
    set_mem (new_task_memory task (next_pid (tk s)) directory (mem s))
      (set_tk (TaskGlobals (current_task (tk s)) (ready_queue (tk s)) (u32 (next_pid (tk s) + 1))) s)) s.
Proof. done. Qed.

Lemma new_task_memory_outside new pid directory m :
  0 < new -> new + 28 < 4294967296 ->
  same_on (fun b => ~ (new <= b < new + 20) /\ ~ (new + 24 <= b < new + 28)) m
    (new_task_memory new pid directory m).
Proof.
  intros ?? b Hb [??].
  unfold new_task_memory, task_esp, task_ebp, task_eip, task_page_directory, task_next. by read_stores.
Qed.

(** The tasks of a queue are not affected by what happens elsewhere. *)
Lemma tasks_at_frame l m m' (P : Z -> Prop) :
  tasks_at m l -> same_on P m m' ->
  (forall i t b, l !! i = Some t -> t <= b < t + 28 -> P b) ->
  tasks_at m' l /\ context m' <$> l = context m <$> l.
Proof.
  intros Hl Hs HP.
  assert (Hw : forall i t k, l !! i = Some t -> 0 <= k <= 24 -> load32 m' (t + k) = load32 m (t + k)).
  { intros i t k Hi Hk. destruct (tasks_mem _ _ Hl _ _ Hi).
    eapply load32_same_on; [exact Hs|unfold region; lia|]. intros b Hb. eapply HP; [done|lia]. }
  split.
  - constructor; [|apply Hl|apply Hl]. intros i t Hi. unfold task_next. rewrite (Hw i) by (done || lia).
    by apply (tasks_next _ _ Hl).
  - apply list_eq. intros i. rewrite !list_lookup_fmap. destruct (l !! i) as [t|] eqn:Hi; [|done].
    cbn. unfold context, task_eip, task_esp, task_ebp. by rewrite !(Hw i) by (done || lia).
Qed.

Lemma schedules_frame l (P : Z -> Prop) s s' a :
  schedules l s a -> tk s' = tk s -> same_on P (mem s) (mem s') ->
  (forall i t b, l !! i = Some t -> t <= b < t + 28 -> P b) -> schedules l s' a.
Proof.
  intros [Ht Hh Hc Hx] Htk Hs HP. destruct (tasks_at_frame l _ _ P Ht Hs HP) as [Ht' Hx'].
  constructor; rewrite ?Htk; try done. by rewrite Hx'.
Qed.

Section Fork.
Context `{Linkage, Kmalloc} (l : list Z) (s s1 s2 : kstate) (directory new : Z) (a : RoundRobin.scheduler).
Hypothesis Hclone :
  clone_directory (current_directory (pg s)) (set_trace (Cli :: trace s) s) = Ok directory s1.
Hypothesis Halloc : kmalloc sizeof_task s1 = Ok new s2.
Hypothesis Htk : tk s2 = tk s.
Hypothesis Hcpu : cpu s2 = cpu s.
Hypothesis Hsched : schedules l s2 a.
Hypothesis Hlen : Z.of_nat (length l) < 2 ^ 32.
Hypothesis Hnew : 0 < new /\ new + 28 < 4294967296.
Hypothesis Hfresh : forall i t, l !! i = Some t -> t + 28 <= new \/ new + 28 <= t.
Hypothesis Hdir : 0 <= directory < 4294967296.
Hypothesis Hpid : 0 < next_pid (tk s) < 2147483648.
Hypothesis Hregs : regs_range (eip_fork, cpu_esp (cpu s), cpu_ebp (cpu s)).

Let r : Z * Z * Z := (eip_fork, cpu_esp (cpu s), cpu_ebp (cpu s)).
Let m1 : memory := new_task_memory new (next_pid (tk s)) directory (mem s2).

Section ForkQueue.
Context (z : Z) (Hz : last l = Some z).
Let m : memory := store32 m1 (task_next z) new.
Let m' : memory := store32 (store32 (store32 m (task_esp new) (cpu_esp (cpu s))) (task_ebp new) (cpu_ebp (cpu s)))
                     (task_eip new) eip_fork.

(** The queue before the registers of the child are saved. *)
Lemma fork_linked : tasks_at m (l ++ [new]) /\ (forall i t, l !! i = Some t -> context m t = context (mem s2) t).
Proof using Hsched Hnew Hfresh Hz.
  clear Hclone Halloc Htk Hcpu Hlen Hdir Hpid Hregs. pose proof Hsched as [Ht _ _ _].
  destruct (tasks_at_frame l (mem s2) m1 _ Ht (new_task_memory_outside new (next_pid (tk s)) directory (mem s2)
        (proj1 Hnew) (proj2 Hnew)))
    as [Ht1 Hc1].
  { intros i t b Hi Hb. specialize (Hfresh i t Hi). lia. }
  pose proof Hz as Hz'. rewrite last_lookup in Hz'. destruct (tasks_mem _ _ Ht _ _ Hz') as [Hz0 Hz1].
  pose proof (Hfresh _ _ Hz') as Hzap. split.
  - apply tasks_at_snoc; try done; try lia. unfold m1, new_task_memory, task_next. read_stores. done.
  - intros i t Hi. destruct (tasks_mem _ _ Ht _ _ Hi).
    assert (Hct : context m1 t = context (mem s2) t).
    { assert (Hci : (context m1 <$> l) !! i = (context (mem s2) <$> l) !! i) by (by rewrite Hc1).
      rewrite !list_lookup_fmap, Hi in Hci. cbn in Hci. congruence. }
    rewrite <- Hct. unfold context, m, task_eip, task_esp, task_ebp, task_next.
    destruct (decide (t = z)) as [->|Hne]; [by read_stores|].
    assert (t + 28 <= z \/ z + 28 <= t); [|by read_stores].
    destruct (decide (i = pred (length l))) as [->|]; [congruence|].
    by apply (tasks_apart _ _ Ht i (pred (length l))).
Qed.

Lemma fork_other u k :
  0 < u -> u + 28 < 4294967296 -> u + 28 <= new \/ new + 28 <= u -> 0 <= k <= 24 ->
  load32 m' (u + k) = load32 m (u + k).
Proof using Hnew.
  clear Hclone Halloc Htk Hcpu Hlen Hdir Hpid Hregs Hz Hfresh Hsched.
  intros. unfold m', task_esp, task_ebp, task_eip. by read_stores.
Qed.

Lemma fork_queue :
  tasks_at m' (l ++ [new]) /\ context m' <$> (l ++ [new]) = (context (mem s2) <$> l) ++ [r] /\
  load32 m' new = next_pid (tk s) /\ load32 m' (task_page_directory new) = directory /\
  load32 m' (task_kernel_stack new) = load32 (mem s2) (task_kernel_stack new).
Proof using Hsched Hnew Hfresh Hdir Hpid Hregs Hz.
  clear Hclone Halloc Htk Hcpu Hlen. pose proof Hsched as [Ht _ _ _]. destruct fork_linked as [Hm Hctx].
  pose proof Hz as Hz'. rewrite last_lookup in Hz'. destruct (tasks_mem _ _ Ht _ _ Hz') as [Hz0 Hz1].
  pose proof (Hfresh _ _ Hz') as Hzap. split_and!.
  - constructor; [|apply Hm|apply Hm]. intros i t Hi. rewrite <- (tasks_next _ _ Hm _ _ Hi).
    unfold task_next. apply lookup_app_Some in Hi as [Hi|[_ Hi]].
    + destruct (tasks_mem _ _ Ht _ _ Hi). apply fork_other; [lia|lia|by eapply Hfresh|lia].
    + apply list_lookup_singleton_Some in Hi as [_ ->].
      unfold m', task_esp, task_ebp, task_eip. by read_stores.
  - rewrite fmap_app. f_equal.
    + apply list_eq. intros i. rewrite !list_lookup_fmap. destruct (l !! i) as [t|] eqn:Hi; [|done].
      cbn. f_equal. rewrite <- (Hctx i t Hi). destruct (tasks_mem _ _ Ht _ _ Hi).
      unfold context, task_eip, task_esp, task_ebp. by rewrite !fork_other by (eauto || lia).
    + cbn. f_equal. unfold context, r, m', task_esp, task_ebp, task_eip. destruct Hregs as (? & ? & ?).
      read_stores. by rewrite !u32_id by lia.
  - unfold m', m, m1, new_task_memory, task_esp, task_ebp, task_eip, task_next, task_page_directory. read_stores.
    apply u32_id. lia.
  - unfold m', m, m1, new_task_memory, task_esp, task_ebp, task_eip, task_next, task_page_directory. read_stores.
    apply u32_id. lia.
  - unfold m', m, m1, new_task_memory, task_esp, task_ebp, task_eip, task_next, task_page_directory, task_kernel_stack.
    by read_stores.
Qed.
End ForkQueue.

Lemma fork_spec :
  wp fork (fun pid s' => pid = next_pid (tk s) /\
    schedules (l ++ [new]) s' (RoundRobin.spawn r a) /\
    tk s' = TaskGlobals (current_task (tk s)) (ready_queue (tk s)) (next_pid (tk s) + 1) /\
    load32 (mem s') new = pid /\ load32 (mem s') (task_page_directory new) = directory /\
    load32 (mem s') (task_kernel_stack new) = load32 (mem s2) (task_kernel_stack new)) s.
Proof using Hclone Halloc Htk Hcpu Hsched Hlen Hnew Hfresh Hdir Hpid Hregs.
  pose proof Hsched as [Ht Hh Hc Hctx].
  assert (exists z, last l = Some z) as [z Hz].
  { rewrite last_lookup. apply lookup_lt_is_Some. pose proof (lookup_lt_Some _ _ _ Hh). lia. }
  pose proof (fork_queue z Hz) as Hq. cbv zeta in Hq.
  unfold fork, fork_prefix, get_current_task, get_current_directory. apply wp_bind. k_steps. cbn [pg set_trace].
  apply wp_ok. do 2 eexists. split; [exact Hclone|].
  apply wp_bind, wp_ok. do 2 eexists. split; [exact Halloc|].
  apply wp_bind. eapply wp_mono; [apply init_task_spec|]. intros [] s3 ->. rewrite Htk.
  unfold get_ready_queue. k_step. k_step. cbn [tk set_mem set_tk ready_queue].
  destruct (tasks_at_frame l (mem s2) m1 _ Ht (new_task_memory_outside new (next_pid (tk s)) directory (mem s2)
        (proj1 Hnew) (proj2 Hnew))) as [Ht1 _].
  { intros i t b Hi Hb. specialize (Hfresh i t Hi). lia. }
  apply wp_bind. rewrite Htk in Hh. eapply wp_mono; [by apply (queue_tail l 0)|].
  intros q s4 (-> & Hq'). assert (q = z) as -> by congruence.
  k_steps. cbn [fst snd]. unfold fork_from, get_current_task, get_esp, get_ebp. k_steps.
  cbn [tk set_mem set_tk set_trace current_task]. rewrite Z.eqb_refl. k_steps.
  cbn [mem set_mem set_tk set_trace cpu]. rewrite Hcpu.
  rewrite !set_mem_set_mem. unfold m1 in Hq.
  set (m' := store32 (store32 (store32 (store32 _ _ _) _ _) _ (cpu_ebp _)) _ eip_fork) in *.
  destruct Hq as (Hq1 & Hq2 & Hq3 & Hq4 & Hq5).
  rewrite Hq3. rewrite s32_id by lia. split; [done|].
  rewrite u32_id by lia.
  split; [|split; [|split; [|split]]]; [|reflexivity|done|done|done].
  constructor; cbn [mem set_mem set_tk set_trace tk ready_queue current_task RoundRobin.spawn RoundRobin.running RoundRobin.contexts].
  - exact Hq1.
  - by rewrite lookup_app_l by (eapply lookup_lt_Some; exact Hh).
  - rewrite Htk in Hc. by rewrite lookup_app_l by (eapply lookup_lt_Some; exact Hc).
  - by rewrite Hctx, Hq2.
Qed.
End Fork.

(** C15: [fork] puts a child into the queue.  The parent is returned the number of the child,
    which is a new task at the end of the queue with the clone of the parent's directory;
    the others keep their places and registers.  The child is to resume behind the
    call of [read_eip], with the parent's stack and base pointer.  Whether it gets anywhere
    is another matter: see [forked_stack_unmapped] in TaskInit.v. *)
Theorem fork_queues_child `{Linkage, Kmalloc} l s s1 s2 directory new a :
  clone_directory (current_directory (pg s)) (set_trace (Cli :: trace s) s) = Ok directory s1 ->
  kmalloc sizeof_task s1 = Ok new s2 -> tk s2 = tk s -> cpu s2 = cpu s ->
  schedules l s2 a -> Z.of_nat (length l) < 2 ^ 32 -> 0 < new /\ new + 28 < 4294967296 ->
  (forall i t, l !! i = Some t -> t + 28 <= new \/ new + 28 <= t) ->
  0 <= directory < 4294967296 -> 0 < next_pid (tk s) < 2147483648 ->
  regs_range (eip_fork, cpu_esp (cpu s), cpu_ebp (cpu s)) ->
  wp fork (fun pid s' => pid = next_pid (tk s) /\
    schedules (l ++ [new]) s' (RoundRobin.spawn (eip_fork, cpu_esp (cpu s), cpu_ebp (cpu s)) a) /\
    current_task (tk s') = current_task (tk s) /\ next_pid (tk s') = next_pid (tk s) + 1 /\
    load32 (mem s') new = pid /\ load32 (mem s') (task_page_directory new) = directory) s.
Proof.
  intros Hclone Halloc Htk Hcpu Hs Hlen Hnew Hfresh Hd Hpid Hr.
  eapply wp_mono; [by apply (fork_spec l s s1 s2 directory new a)|].
  intros pid s' (-> & Hs' & Htk' & Hid & Hdir & _). by rewrite Htk'.
Qed.

(** The member [kernel_stack] of a new task is never written: its kernel stack
    is wherever the memory of the allocated block happens to say. *)
Theorem fork_kernel_stack_stale `{Linkage, Kmalloc} l s s1 s2 directory new a :
  clone_directory (current_directory (pg s)) (set_trace (Cli :: trace s) s) = Ok directory s1 ->
  kmalloc sizeof_task s1 = Ok new s2 -> tk s2 = tk s -> cpu s2 = cpu s ->
  schedules l s2 a -> Z.of_nat (length l) < 2 ^ 32 -> 0 < new /\ new + 28 < 4294967296 ->
  (forall i t, l !! i = Some t -> t + 28 <= new \/ new + 28 <= t) ->
  0 <= directory < 4294967296 -> 0 < next_pid (tk s) < 2147483648 ->
  regs_range (eip_fork, cpu_esp (cpu s), cpu_ebp (cpu s)) ->
  wp fork (fun _ s' => load32 (mem s') (task_kernel_stack new) = load32 (mem s2) (task_kernel_stack new)) s.
Proof.
  intros. eapply wp_mono; [by apply (fork_spec l s s1 s2 directory new a)|].
  by intros pid s' (_ & _ & _ & _ & _ & Hk).
Qed.

(** ** Moving the stack *)

(** A word of the moved stack: what looks like a pointer into the old stack
    becomes a pointer into the new one. *)
Definition relocated (old_sp init offset w : Z) : Z :=
  if (old_sp <? w) && (w <? init) then u32 (w + offset) else w.

Lemma relocate_stack_spec start size old_sp offset s :
  0 <= start - size -> start + 4 <= 4294967296 -> 0 <= size -> size mod 4 = 0 ->
  wp (relocate_stack start size old_sp offset) (fun _ s' => exists m', s' = set_mem m' s /\
    (forall k, 0 <= k -> 4 * k < size -> load32 m' (start - 4 * k) =
       relocated old_sp (initial_esp (boot s)) offset (load32 (mem s) (start - 4 * k))) /\
    same_outside (start - size + 4) (start + 4) (mem s) m') s.
Proof.
  intros H0 H1 Hsz H4. set (init := initial_esp (boot s)). unfold relocate_stack. apply wp_bind.
  rewrite (u32_id (start - size)) by lia. eapply wp_mono.
  - apply (wp_mem_while _ _
      (fun i m => exists k, 0 <= k /\ 4 * k <= size /\ i = start - 4 * k /\
         (forall j, 0 <= j -> 4 * j < size -> load32 m (start - 4 * j) =
            if j <? k then relocated old_sp init offset (load32 (mem s) (start - 4 * j))
            else load32 (mem s) (start - 4 * j)) /\
         same_outside (start - size + 4) (start + 4) (mem s) m)
      (fun i => i - (start - size))
      (fun _ m => (forall j, 0 <= j -> 4 * j < size -> load32 m (start - 4 * j) =
            relocated old_sp init offset (load32 (mem s) (start - 4 * j))) /\
         same_outside (start - size + 4) (start + 4) (mem s) m)).
    + intros i m (k & ? & ? & -> & _). lia.
    + intros i m (k & Hk0 & Hk & -> & Hm & Hout). k_steps. split; [done|].
      destruct (start - size <? start - 4 * k) eqn:E; bool_hyps.
      * k_steps. cbn [mem set_mem boot]. fold init. rewrite Hm by lia.
        replace (k <? k) with false by blia. set (w := load32 (mem s) (start - 4 * k)) in *.
        apply (wp_mono _ (fun _ t => exists m', t = set_mem m' s /\
          load32 m' (start - 4 * k) = relocated old_sp init offset w /\
          same_outside (start - 4 * k) (start - 4 * k + 4) m m')).
        { unfold relocated. destruct ((old_sp <? w) && (w <? init)) eqn:Ew; cbn [when]; k_steps; cbn [mem set_mem].
          - rewrite set_mem_set_mem. eexists. split; [done|]. rewrite load32_store32_eq by (unfold region; lia).
            split; [apply u32_id, u32_range|]. apply store32_outside. unfold region; lia.
          - exists m. split; [done|]. split; [|done]. rewrite Hm by lia. by replace (k <? k) with false by blia. }
        intros [] t (m' & -> & Hw & Ho). k_steps. exists m'. split; [done|].
        assert (4 * k + 4 <= size) by dlia. rewrite u32_id by lia. split; [|lia]. exists (k + 1). split; [lia|]. split; [lia|]. split; [lia|]. split.
        { intros j Hj0 Hj. destruct (decide (j = k)) as [->|Hne].
          - replace (k <? k + 1) with true by blia. done.
          - rewrite (load32_frame (start - 4 * k) (start - 4 * k + 4) m m' Ho) by (unfold region; lia).
            rewrite Hm by lia. by replace (j <? k + 1) with (j <? k) by bool_eq_lia. }
        eapply same_outside_trans; [exact Hout|]. eapply same_outside_weaken; [..|exact Ho]; lia.
      * split; [|done]. intros j Hj0 Hj. rewrite Hm by lia. by replace (j <? k) with true by blia.
    + exists 0. split; [lia|]. split; [lia|]. split; [lia|]. split; [|done]. intros j ??.
      by replace (j <? 0) with false by blia.
    + lia.
  - intros i t (m' & -> & Hm & Hout). k_steps. eauto.
Qed.

Lemma move_stack_spec `{Linkage, Kmalloc} start size s s1 :
  map_stack start size s = Ok tt s1 -> cpu s1 = cpu s -> boot s1 = boot s ->
  let old_sp := cpu_esp (cpu s) in let init := initial_esp (boot s) in
  let used := init - old_sp in
  0 <= old_sp -> 0 <= used -> used mod 4 = 0 -> used < size -> size mod 4 = 0 ->
  init <= start - size -> start + 4 <= 4294967296 ->
  0 <= cpu_ebp (cpu s) <= init ->
  wp (move_stack start size) (fun _ s' =>
    cpu_esp (cpu s') = start - used /\ cpu_ebp (cpu s') = start - (init - cpu_ebp (cpu s)) /\
    (forall k, 0 < k -> 4 * k <= used ->
       let w := load32 (mem s1) (init - 4 * k) in
       load32 (mem s') (start - 4 * k) = if (old_sp <? w) && (w <? init) then w + (start - init) else w) /\
    same_outside (start - size + 4) (start + 4) (mem s1) (mem s') /\
    cpu_cr0 (cpu s') = cpu_cr0 (cpu s1) /\
    exists m cp tr, s' = set_mem m (set_cpu cp (set_trace tr s1))) s.
Proof.
  intros Hmap Hcpu Hboot old_sp init used Ho Hu Hu4 Hus Hs4 Hinit Hstart Hebp.
  unfold move_stack. apply wp_bind, wp_ok. exists tt, s1. split; [exact Hmap|].
  unfold load_cr3, get_esp, get_ebp. k_steps. cbn [cpu boot set_trace set_cpu set_cr3 cpu_esp cpu_ebp cpu_cr3].
  rewrite Hcpu, Hboot. fold old_sp init.
  assert (Hoff : u32 (start - init) = start - init) by (apply u32_id; lia). rewrite Hoff.
  assert (Hsp : u32 (old_sp + (start - init)) = start - used) by (unfold used; rewrite u32_id; lia).
  rewrite Hsp. rewrite (u32_id (init - old_sp)) by lia. fold used.
  eapply wp_mono; [apply memcpy_spec; [unfold region; lia..|lia]|].
  intros [] t (m1 & -> & Hout1 & Hcp). cbn [mem set_mem set_cpu set_trace] in *.
  apply wp_bind. eapply wp_mono; [apply relocate_stack_spec; lia|].
  intros [] t (m2 & -> & Hrel & Hout2). unfold load_stack. k_steps.
  cbn [mem set_mem set_cpu set_trace boot set_stack cpu cpu_esp cpu_ebp] in *. rewrite Hboot in Hrel. fold init in Hrel.
  split; [done|]. split; [rewrite u32_id; lia|]. split.
  - intros k Hk Hku. set (w := load32 (mem s1) (init - 4 * k)). rewrite Hrel by lia.
    assert (Hb : forall j, 0 <= j < used -> load8 m1 (start - used + j) = load8 (mem s1) (old_sp + j)).
    { intros j Hj.
      assert (Hl : bytes m1 (start - used) (Z.to_nat used) !! Z.to_nat j = bytes (mem s1) old_sp (Z.to_nat used) !! Z.to_nat j)
        by (by rewrite Hcp).
      rewrite !lookup_bytes, Z2Nat.id in Hl by lia. by injection Hl. }
    assert (Hw : load32 m1 (start - 4 * k) = w).
    { unfold w, load32. replace (start - 4 * k) with (start - used + (used - 4 * k)) by lia.
      replace (init - 4 * k) with (old_sp + (used - 4 * k)) by (unfold used; lia).
      rewrite <- !Z.add_assoc. by rewrite !Hb by lia. }
    rewrite Hw. unfold relocated.
    destruct ((old_sp <? w) && (w <? init)) eqn:E; [|done]. bool_hyps. rewrite u32_id; lia.
  - split; [|split; [done|by do 3 eexists]].
    eapply same_outside_trans; [|exact Hout2]. eapply same_outside_weaken; [..|exact Hout1]; dlia.
Qed.

(** C30: [move_stack] moves the used part of the stack below the new start, with the
    saved base pointers of its frames redirected into the copy, and moves the
    stack and base pointers of the processor along. *)
Theorem move_stack_relocates `{Linkage, Kmalloc} start size s s1 :
  map_stack start size s = Ok tt s1 -> cpu s1 = cpu s -> boot s1 = boot s ->
  let old_sp := cpu_esp (cpu s) in let init := initial_esp (boot s) in
  let used := init - old_sp in
  0 <= old_sp -> 0 <= used -> used mod 4 = 0 -> used < size -> size mod 4 = 0 ->
  init <= start - size -> start + 4 <= 4294967296 ->
  0 <= cpu_ebp (cpu s) <= init ->
  wp (move_stack start size) (fun _ s' =>
    cpu_esp (cpu s') = start - used /\ cpu_ebp (cpu s') = start - (init - cpu_ebp (cpu s)) /\
    (forall k, 0 < k -> 4 * k <= used ->
       let w := load32 (mem s1) (init - 4 * k) in
       load32 (mem s') (start - 4 * k) = if (old_sp <? w) && (w <? init) then w + (start - init) else w) /\
    same_outside (start - size + 4) (start + 4) (mem s1) (mem s')) s.
Proof.
  intros. eapply wp_mono; [by apply (move_stack_spec start size s s1)|].
  intros [] s' (? & ? & ? & ? & _). by split_and!.
Qed.

(** ** The first task and user mode *)

Lemma initialise_tasking_spec `{Linkage, Kmalloc} s s1 s2 task :
  move_stack 3758096384 8192 (set_trace (Cli :: trace s) s) = Ok tt s1 ->
  kmalloc sizeof_task s1 = Ok task s2 -> 0 < task -> task + 28 < 4294967296 ->
  0 < next_pid (tk s2) < 2147483647 -> 0 <= current_directory (pg s2) < 4294967296 ->
  wp initialise_tasking (fun r s' => r = EXIT_SUCCESS /\
    schedules [task] s' (RoundRobin.Scheduler [(0, 0, 0)] 0) /\
    load32 (mem s') (task_page_directory task) = current_directory (pg s2) /\
    next_pid (tk s') = next_pid (tk s2) + 1 /\
    wp getpid (fun id s'' => s'' = s' /\ id = next_pid (tk s2)) s' /\
    same_outside task (task + 28) (mem s2) (mem s') /\
    exists m tkv tr, s' = set_mem m (set_tk tkv (set_trace tr s2))) s.
Proof.
  intros Hmove Halloc Ht0 Ht1 Hpid Hdir. unfold initialise_tasking. k_step. k_step.
  apply wp_bind, wp_ok. do 2 eexists. split; [exact Hmove|].
  apply wp_bind, wp_ok. do 2 eexists. split; [exact Halloc|].
  unfold set_ready_queue, set_current_task, get_current_directory. k_steps.
  cbn [tk set_tk current_task ready_queue next_pid pg].
  eapply wp_mono; [apply init_task_spec|]. intros [] s3 ->. k_steps.
  cbn [tk set_tk current_task ready_queue next_pid pg mem]. unfold new_task_memory.
  set (m' := store32 _ (task_next task) 0). set (s' := set_trace _ _).
  assert (Hm : mem s' = m') by done. rewrite Hm.
  assert (Hid : load32 m' task = next_pid (tk s2)).
  { unfold m', task_esp, task_ebp, task_eip, task_page_directory, task_next. read_stores. apply u32_id. lia. }
  split; [done|]. split; [|split; [|split; [|split; [|split]]]].
  - constructor; [|done|done|].
    + rewrite Hm. constructor.
      * intros i t [-> ->]%list_lookup_singleton_Some. cbn. unfold m', task_next. read_stores. done.
      * intros i t [-> ->]%list_lookup_singleton_Some. done.
      * intros i j t u [-> ->]%list_lookup_singleton_Some [-> ->]%list_lookup_singleton_Some. done.
    + rewrite Hm. cbn. unfold context, m', task_esp, task_ebp, task_eip, task_page_directory, task_next.
      by read_stores.
  - unfold m', task_esp, task_ebp, task_eip, task_page_directory, task_next. read_stores. by apply u32_id.
  - change (u32 (next_pid (tk s2) + 1) = next_pid (tk s2) + 1). apply u32_id. lia.
  - unfold getpid, get_current_task. k_steps. change (current_task (tk s')) with task.
    split; [done|]. rewrite Hm, Hid. apply s32_id. lia.
  - intros b Hb Hn. unfold m', task_esp, task_ebp, task_eip, task_page_directory, task_next.
    by read_stores.
  - by do 3 eexists.
Qed.

(** [initialise_tasking] leaves one task, the running one, with the current page
    directory and the next process number. *)
Theorem initialise_tasking_correct `{Linkage, Kmalloc} s s1 s2 task :
  move_stack 3758096384 8192 (set_trace (Cli :: trace s) s) = Ok tt s1 ->
  kmalloc sizeof_task s1 = Ok task s2 -> 0 < task -> task + 28 < 4294967296 ->
  0 < next_pid (tk s2) < 2147483647 -> 0 <= current_directory (pg s2) < 4294967296 ->
  wp initialise_tasking (fun r s' => r = EXIT_SUCCESS /\
    schedules [task] s' (RoundRobin.Scheduler [(0, 0, 0)] 0) /\
    load32 (mem s') (task_page_directory task) = current_directory (pg s2) /\
    next_pid (tk s') = next_pid (tk s2) + 1 /\
    wp getpid (fun id s'' => s'' = s' /\ id = next_pid (tk s2)) s') s.
Proof.
  intros. eapply wp_mono; [by apply (initialise_tasking_spec s s1 s2 task)|].
  intros r s' (R1 & R2 & R3 & R4 & R5 & _). exact (conj R1 (conj R2 (conj R3 (conj R4 R5)))).
Qed.

(** The interrupt flag after these events, newest first; it is clear at first. *)
Fixpoint interrupts_on (tr : list event) : bool :=
  match tr with
  | [] => false
  | Cli :: _ => false
  | Sti :: _ => true
  | _ :: tr => interrupts_on tr
  end.

(** User mode is entered on the same stack, with the kernel stack of the task in
    the task state segment, and with interrupts off: the flags that [iret] pops
    were pushed after the [cli]. *)
Theorem switch_to_user_mode_interrupts_off s :
  wp switch_to_user_mode (fun _ s' =>
    head (trace s') = Some (IretToUser (cpu_esp (cpu s))) /\ interrupts_on (trace s') = false /\
    tss_esp0 (tss_entry (dt s')) =
      u32 (load32 (mem s) (task_kernel_stack (current_task (tk s))) + 2048) /\
    mem s' = mem s /\ tk s' = tk s) s.
Proof. done. Qed.

Module TaskSample.
#[local] Existing Instance sample_linkage.

(** Small blocks are at 131072, page-aligned ones at 65536. *)
#[local] Instance sample_kmalloc : Kmalloc :=
  fun _ align _ => ret (if align =? 1 then 65536 else 131072, 65536).

(** Three tasks, of which the second is running. *)
Definition tasks : list Z := [4096; 8192; 12288].
Definition tasks_state : kstate :=
  set_tk (TaskGlobals 8192 4096 4)
    (set_mem (store32 (store32 (store32 (store32 ∅ 4120 8192) 8216 12288) 12300 77) 12292 78)
       sample_state).

Lemma tasks_sample (m : memory) :
  load32 m 4120 = 8192 -> load32 m 8216 = 12288 -> load32 m 12312 = 0 -> tasks_at m tasks.
Proof.
  intros H1 H2 H3. constructor.
  - intros [|[|[|i]]] t [= <-]; assumption.
  - intros [|[|[|i]]] t [= <-]; lia.
  - intros [|[|[|i]]] [|[|[|j]]] t u [= <-] [= <-] Hne; lia.
Qed.

Lemma sample_schedules :
  schedules tasks tasks_state (RoundRobin.Scheduler [(0, 0, 0); (0, 0, 0); (77, 78, 0)] 1).
Proof. constructor; [apply tasks_sample; reflexivity|reflexivity|reflexivity|reflexivity]. Qed.

Lemma eip_sample : 0 <= eip_switch_task < 4294967296 /\ eip_switch_task <> 74565.
Proof. cbn. lia. Qed.

Lemma switch_task_refines_witness :
  wp (turn (5, 6)) (fun _ s' => in_processor (77, 78, 0) s') tasks_state.
Proof.
  eapply wp_mono.
  - apply (switch_task_refines tasks eip_sample (5, 6) tasks_state _ sample_schedules). cbn. lia.
  - intros [] s' (_ & c & Hc & Hin). vm_compute in Hc. injection Hc as <-. exact Hin.
Defined.

Lemma switch_task_round_witness :
  (exists k, (0 < k < 3)%nat /\ wp (turns (take k [(5, 6); (7, 8); (9, 10)])) (fun _ s' =>
     current_task (tk s') = 4096 /\ in_processor (context (mem tasks_state) 4096) s') tasks_state) /\
  wp (turns [(5, 6); (7, 8); (9, 10)]) (fun _ s' => current_task (tk s') = 8192 /\
    in_processor (1064960, 5, 6) s') tasks_state.
Proof.
  destruct (switch_task_round tasks eip_sample (5, 6) [(7, 8); (9, 10)] tasks_state _ sample_schedules)
    as [Hall Hround]; [reflexivity|..].
  - constructor; [cbn; lia|]. constructor; [cbn; lia|]. constructor; [cbn; lia|]. constructor.
  - split; [|exact Hround]. apply Hall; [left|vm_compute; discriminate].
Defined.

(** The same tasks with a page directory, at 16384, without tables. *)
Definition fork_state : kstate := set_pg (PagingGlobals 16384 16384 0 0) tasks_state.

Definition final {A} (r : result kstate A) : kstate :=
  match r with Ok _ s => s | _ => sample_state end.
Definition fork_s1 : kstate :=
  final (clone_directory 16384 (set_trace (Cli :: trace fork_state) fork_state)).

Lemma fork_clone :
  clone_directory (current_directory (pg fork_state)) (set_trace (Cli :: trace fork_state) fork_state) =
  Ok 65536 fork_s1.
Proof. vm_compute. reflexivity. Qed.

Lemma fork_schedules :
  schedules tasks fork_s1 (RoundRobin.Scheduler [(0, 0, 0); (0, 0, 0); (77, 78, 0)] 1).
Proof.
  constructor.
  - apply tasks_sample; vm_compute; reflexivity.
  - vm_compute. reflexivity.
  - vm_compute. reflexivity.
  - vm_compute. reflexivity.
Qed.

Lemma fork_fresh i t : tasks !! i = Some t -> t + 28 <= 131072 \/ 131072 + 28 <= t.
Proof. destruct i as [|[|[|i]]]; intros [= <-]; lia. Qed.

Lemma fork_queues_child_witness :
  wp fork (fun pid s' => pid = 4 /\ load32 (mem s') 131072 = 4 /\ load32 (mem s') 131088 = 65536)
    fork_state.
Proof.
  eapply wp_mono.
  - exact (fork_queues_child tasks fork_state fork_s1 fork_s1 65536 131072 _ fork_clone eq_refl
              ltac:(vm_compute; reflexivity) ltac:(vm_compute; reflexivity) fork_schedules
              ltac:(vm_compute; reflexivity) ltac:(lia) fork_fresh ltac:(lia) ltac:(cbn; lia)
              ltac:(cbn; lia)).
  - intros pid s' (Hp & _ & _ & _ & Hid & Hdir).
    rewrite Hp in Hid. split; [exact Hp|]. split; [exact Hid|exact Hdir].
Defined.

Lemma fork_kernel_stack_stale_witness :
  wp fork (fun _ s' => load32 (mem s') 131092 = load32 (mem fork_s1) 131092) fork_state.
Proof.
  exact (fork_kernel_stack_stale tasks fork_state fork_s1 fork_s1 65536 131072 _ fork_clone eq_refl
              ltac:(vm_compute; reflexivity) ltac:(vm_compute; reflexivity) fork_schedules
              ltac:(vm_compute; reflexivity) ltac:(lia) fork_fresh ltac:(lia) ltac:(cbn; lia)
              ltac:(cbn; lia)).
Defined.

(** A directory at 16384 with tables at 65536 and 73728, in which the three pages
    of the new stack have frames; 16 bytes of the old stack, which ends at 36864,
    are in use, and hold a base pointer. *)
Definition stack_state : kstate :=
  set_boot (BootGlobals 36864 0)
    (set_cpu (Cpu 36848 36852 0 0 0)
       (set_pg (PagingGlobals 16384 16384 0 0)
          (set_mem (foldr (fun w m => store32 m (fst w) (snd w)) ∅
             [(19964, 65536); (19968, 73728); (69624, 4103); (69628, 8199); (73728, 12295);
              (36852, 36860); (36860, 123)]) sample_state))).

Lemma stack_mapped : map_stack 3758096384 8192 stack_state = Ok tt stack_state.
Proof. vm_compute. reflexivity. Qed.

Lemma move_stack_relocates_witness :
  wp (move_stack 3758096384 8192) (fun _ s' => cpu_esp (cpu s') = 3758096368 /\
    cpu_ebp (cpu s') = 3758096372 /\ load32 (mem s') 3758096372 = 3758096380 /\
    load32 (mem s') 3758096380 = 123) stack_state.
Proof.
  eapply wp_mono.
  - apply (move_stack_relocates 3758096384 8192 stack_state stack_state stack_mapped);
      first [reflexivity | cbn; lia].
  - intros [] s' (He & Hb & Hw & _). split; [exact He|]. split; [exact Hb|]. split.
    + exact (Hw 3 ltac:(lia) ltac:(cbn; lia)).
    + exact (Hw 1 ltac:(lia) ltac:(cbn; lia)).
Defined.

Definition moved_state : kstate :=
  final (move_stack 3758096384 8192 (set_trace (Cli :: trace stack_state) stack_state)).

Lemma stack_moves :
  move_stack 3758096384 8192 (set_trace (Cli :: trace stack_state) stack_state) = Ok tt moved_state.
Proof. vm_compute. reflexivity. Qed.

Lemma initialise_tasking_correct_witness :
  wp initialise_tasking (fun r s' => r = EXIT_SUCCESS /\
    schedules [131072] s' (RoundRobin.Scheduler [(0, 0, 0)] 0)) stack_state.
Proof.
  eapply wp_mono.
  - apply (initialise_tasking_correct stack_state moved_state moved_state 131072 stack_moves eq_refl);
      vm_compute; repeat split; discriminate.
  - intros r s' (Hr & Hs & _). split; [exact Hr|exact Hs].
Defined.
End TaskSample.
