(* ===== verification/TaskInit.v ===== *)
(** * From paging to tasks and the ramdisk

    [initialise_tasking] and [initialise_initrd] run on the heap that
    [initialise_paging] leaves.  Moving the stack makes two page tables, each a
    page-aligned block of that heap; the structure of the first task is a small
    block.  This file follows the heap, the bitset of frames and the directories
    through these steps. *)

From Stdlib Require Import ZArith Lia List String.
From stdpp Require Import base list gmap.
From S2P Require Import Prelude Machine Kernel Common Monitor Isr DescriptorTables OrderedArray Kmalloc Frames Paging Kheap.
From S2P Require Import KheapSpec KheapBoot KheapAligned KheapWf PagingInit Task.

(** ** A page-aligned block of the paged kernel's heap *)

Section PagedHeap.
Context `{Linkage} (heap kd t0 t1 p : Z).
Let st := heap_area_start.
Let en := KHEAP_END.
Hypothesis Hsym : 0 < sym_header_t_less_than.
Hypothesis Hplaces : 4096 <= p /\ p + 164 <= kd /\ kd + 8196 <= t1 /\ t1 + 4096 <= t0 /\ t0 + 4096 = heap /\
  heap + 32 <= 4194304.

(** The heap is tiled by [segs], [cap] bounds its index, and the frames below
    [used] are in use. *)
Record paged (z : Prop) (m : memory) (segs : list (bool * Z)) (cap : nat) (used : Z) : Prop := Paged {
  pd_wf : exists l, (length l <= cap)%nat /\ heap_wf m heap KHEAP_START 131072 st en segs l 0;
  pd_map : kernel_map m kd t0 t1;
  pd_used : forall f, 0 <= f < 1283 -> used_in m p f = (f <? used);
  pd_clean : z -> clean m st segs
}.

(** Bytes that belong to no structure. *)
Definition plain (segs : list (bool * Z)) (b : Z) : Prop :=
  st <= b < en /\ ~ free_mem st segs b \/ en <= b \/ 4194304 <= b < KHEAP_START \/ 12 <= b < p.

Lemma consts : KHEAP_START = 3221225472 /\ st = 3221749760 /\ en = 3222274048.
Proof using. by repeat split. Qed.

(** Writes there and in the bitset keep the heap and the kernel's map. *)
Lemma paged_change z m m' segs cap used used' (W : Z -> Prop) :
  paged z m segs cap used -> same_on (fun b => ~ W b) m m' ->
  (forall b, W b -> plain segs b \/ p <= b < p + 164) ->
  (forall f, 0 <= f < 1283 -> used_in m' p f = (f <? used')) -> paged z m' segs cap used'.
Proof using Hplaces.
  intros [(l & Hl & Hwf) Hmap _ Hclean] Hout Hp Hused. pose proof consts as (Eks & Est & Een).
  pose proof (wf_tiles _ _ _ _ _ _ _ _ _ Hwf) as Ht.
  assert (Harea : 12 <= st /\ st <= en /\ en < 4294967296) by lia.
  set (s0 := set_hp (HeapGlobals 0 heap) (set_mem m sample_state)).
  assert (Hown : same_on (heap_own KHEAP_START 131072 st en s0) (mem s0) m').
  { intros b Hb Ho. apply Hout; [done|]. intros Hin. apply (own_tiles _ _ _ _ Harea s0 _ _ Ht) in Ho.
    cbn [hp s0 set_hp set_mem kheap] in Ho. destruct (Hp b Hin) as [[[Hb1 Hb2]|Hb1]|Hb1], Ho as [Ho|Ho];
      try done; try (unfold index_own in Ho; lia); pose proof (free_mem_range _ _ _ _ _ Ht Ho); lia. }
  assert (Hlow : same_on (fun b => kd <= b < heap) m m').
  { intros b Hb Hb'. apply Hout; [done|]. intros Hin. destruct (Hp b Hin) as [[[??]|?]|?]; lia. }
  constructor.
  - exists l. split; [done|]. by apply (wf_own_frame _ _ _ _ Harea s0 m' segs l 0 Hown).
  - eapply kernel_map_frame; [exact Hmap|exact Hlow|..]; unfold region; try lia.
  - exact Hused.
  - intros Hz. apply (clean_own_frame KHEAP_START 131072 st en Harea s0 m' (fs s0) Hown).
    + intros segs' Ht'. rewrite (tiles_unique _ _ _ _ _ Ht' Ht). by apply Hclean.
    + cbn [mem set_fs set_mem]. by apply (own_same_tiles KHEAP_START 131072 st en Harea s0).
Qed.

Lemma paged_write z m m' segs cap used (W : Z -> Prop) :
  paged z m segs cap used -> same_on (fun b => ~ W b) m m' -> (forall b, W b -> plain segs b) ->
  paged z m' segs cap used.
Proof using Hplaces.
  intros Hpd Hout Hp. eapply paged_change; [exact Hpd|exact Hout|by left; apply Hp|].
  pose proof consts as (Eks & Est & Een).
  intros f Hf. rewrite <- (pd_used _ _ _ _ _ Hpd f Hf). unfold used_in. f_equal.
  assert (0 <= f / 32 <= 40) by dlia. eapply load32_same_on; [exact Hout|unfold region; lia|].
  intros b Hb Hin. destruct (Hp b Hin) as [[??]|?]; lia.
Qed.

(** A page of the heap, cut from the last hole, the only one that is large enough. *)
Definition block_of (h : Z) : Z := h + gap h + 12.
Definition phys_of (a : Z) : Z := a - KHEAP_START + 4194304.

Lemma kmalloc_ap_paged z pre n h cap used s :
  paged z (mem s) (pre ++ [(true, n)]) cap used -> kheap (hp s) = heap -> kernel_directory (pg s) = kd ->
  tiles (mem s) st pre h -> Forall (fun seg => seg.1 = true -> seg.2 < 4116) pre ->
  Forall (fun seg => seg.2 mod 2 = 0) (pre ++ [(true, n)]) ->
  20 <= gap h -> gap h + 4136 <= n -> Z.of_nat cap + 3 <= 131072 ->
  wp (kmalloc_ap 4096) (fun r s' => r = (block_of h, phys_of (block_of h)) /\
    s' = set_mem (mem s') s /\
    paged z (mem s') (cut_aligned pre h n 4096 []) (S cap) used /\ 
    same_on (fun b => ~ (KHEAP_START <= b < st) /\ ~ (h <= b < en) /\ ~ (heap + 4 <= b < heap + 8)) (mem s) (mem s')) s.
Proof using Hsym Hplaces.
  intros [(l & Hl & Hwf) Hmap Hused Hclean] Hkh Hkd Hpre Honly Heven Hgap Hn Hcap.
  pose proof consts as (Eks & Est & Een).
  pose proof (wf_tiles _ _ _ _ _ _ _ _ _ Hwf) as Ht. apply tiles_app in Ht as (c & Hc & Hlast).
  assert (c = h) as -> by by eapply tiles_end. cbn [tiles] in Hlast. destruct Hlast as (_ & _ & _ & Hend).
  pose proof (tiles_le _ _ _ _ Hpre). assert (Hsym' : sym_header_t_less_than <> 0) by lia.
  unfold kmalloc_ap. rewrite kmalloc_int_kernel. unfold kmalloc_body. k_step. k_step. rewrite Hkh.
  replace (truth heap) with true by (symmetry; unfold truth; blia). change (u8 1) with 1. apply wp_bind.
  eapply wp_mono.
  { apply (alloc_aligned_wf_spec heap KHEAP_START 131072 st en _ l 0 s Hsym' Hwf 4096 pre n [] h eq_refl Hpre);
      rewrite ?app_nil_r; try done; try lia. }
  intros a s' (-> & Hs' & (l' & Hl' & Hwf') & Hfr & Hin).
  assert (Hout : same_on (fun b => ~ (KHEAP_START <= b < st) /\ ~ (h <= b < en) /\ ~ (heap + 4 <= b < heap + 8)) (mem s) (mem s')).
  { intros b Hb (?&?&?). apply Hfr; [done|]. unfold index_mem. lia. }
  assert (Hlow : same_on (fun b => 12 <= b < heap) (mem s) (mem s')).
  { intros b Hb ?. apply Hout; [done|]. lia. }
  assert (Hmap' : kernel_map (mem s') kd t0 t1).
  { eapply kernel_map_frame; [exact Hmap|exact Hlow|..]; unfold region; try lia. }
  fold (block_of h). set (a := block_of h). assert (Ha : st <= a /\ a + 4096 <= en /\ a mod 4096 = 0).
  { unfold a, block_of. assert (gap h = 4096 - h mod 4096 - 12) by done. dlia. }
  unfold get_kernel_directory. k_step. k_step.
  assert (Hpg : pg s' = pg s) by (by rewrite Hs'). rewrite Hpg, Hkd. apply wp_bind. eapply wp_mono.
  { apply (get_page_present a 0 kd t1); [|lia..]. rewrite <- (km_heap _ _ _ _ Hmap'). f_equal.
    unfold dir_table. replace (table_index a) with 768 by (unfold table_index; dlia). done. }
  intros page ? (-> & ->). k_step. k_step. set (j := (a - KHEAP_START) / 4096).
  assert (Hj : page_index a = j /\ 0 <= j < 256) by (unfold page_index, j; dlia). destruct Hj as [-> Hj].
  rewrite (km_heap_pages _ _ _ _ Hmap') by lia. replace (j <? 256) with true by blia.
  destruct (mapped_page_fields 0 0 0 (1024 + j)) as (_ & _ & _ & _ & _ & ->); [lia|].
  change (Z.land a 4095) with (Z.land a (Z.ones 12)). rewrite Z.land_ones by lia. change (2 ^ 12) with 4096.
  apply wp_ret. split; [unfold phys_of, j; f_equal; rewrite u32_id by dlia; dlia|]. split; [exact Hs'|].
  split; [|exact Hout]. constructor.
  - exists l'. split; [lia|exact Hwf'].
  - exact Hmap'.
  - intros f Hf. rewrite <- Hused by done. unfold used_in. f_equal. assert (0 <= f / 32 <= 40) by dlia.
    eapply load32_same_on; [exact Hlow|unfold region; lia|]. intros b Hb. cbv beta. lia.
  - intros Hz. eapply (cut_aligned_clean (mem s) st pre h n 4096 [] en Hpre); [done|lia|lia|lia|by apply Hclean| |exact Hin].
    intros b Hb [Hb1 Hb2]. apply Hout; [done|]. lia.
Qed.

(** ** Mapping a page of the new stack *)

Let dir := heap_area_start + 4096.

(** The frames run on, and the page gets the next one. *)
Lemma alloc_frame_paged z segs cap used page s :
  paged z (mem s) segs cap used -> 1280 <= used < 1283 -> frames (pg s) = p -> nframes (pg s) = 4096 ->
  load32 (mem s) page = 0 -> (forall b, page <= b < page + 4 -> plain segs b) -> region page (page + 4) ->
  st <= page ->
  wp (alloc_frame page 0 1) (fun _ s' => s' = set_mem (mem s') s /\
    load32 (mem s') page = mapped_page 0 0 1 used /\ paged z (mem s') segs cap (used + 1) /\
    same_on (fun b => ~ (page <= b < page + 4) /\ ~ (p + 160 <= b < p + 164)) (mem s) (mem s')) s.
Proof using Hplaces.
  intros Hpd Hu Hfr Hnf Hw Hplain [Hr1 Hr2] Hst. pose proof consts as (Eks & Est & Een).
  assert (Hbs : bitset p 128) by (split; [lia|unfold region; lia]).
  assert (Hap : page_apart page p 128) by (split; [unfold region; lia|lia]).
  pose proof (pd_used _ _ _ _ _ Hpd) as Hused.
  eapply wp_mono.
  { apply (alloc_frame_spec p 128 Hbs page Hap s Hfr ltac:(by rewrite Hnf) ltac:(lia) 0 1 used);
      [by rewrite Hw|lia|]. rewrite Hused by lia. blia. }
  intros [] s' (m' & g & -> & (Hg & Hfree & Hleast) & Hused' & Hw' & Hsame'). cbn [mem set_mem].
  assert (g = used) as ->.
  { destruct (decide (used < g)) as [Hgt|].
    - pose proof (Hleast used ltac:(lia)) as Hc. rewrite Hused in Hc by lia. bool_hyps. lia.
    - destruct (decide (g < used)); [|lia]. rewrite Hused in Hfree by lia. bool_hyps. lia. }
  rewrite Hw in Hw'. assert (Hword : word_of p used = p + 160) by (unfold word_of; dlia). rewrite Hword in Hsame'.
  assert (Hon : same_on (fun b => ~ (page <= b < page + 4 \/ p + 160 <= b < p + 164)) (mem s) m').
  { intros b Hb Hn. apply Hsame'; [done|]. lia. }
  split; [done|]. split; [exact Hw'|]. split.
  - eapply paged_change; [exact Hpd|exact Hon|intros b [Hb|Hb]; [left; by apply Hplain|right; lia]|].
    intros f Hf. rewrite Hused', Hused by lia. apply Bool.eq_iff_eq_true.
    rewrite orb_true_iff, Z.eqb_eq, !Z.ltb_lt. lia.
  - intros b Hb [??]. apply Hon; [done|]. lia.
Qed.

(** The hole in front of the directory of the first task, and its block. *)
Definition front : list (bool * Z) := [(true, 4084); (false, 8216)].

Lemma dir_plain m rest b : tiles m st (front ++ rest) en -> dir <= b < dir + 8196 -> plain (front ++ rest) b.
Proof using.
  intros Ht Hb. pose proof consts as (Eks & Est & Een). assert (dir = 3221753856) by done.
  left. split; [lia|]. cbn [front app tiles free_mem] in *. destruct Ht as (_ & _ & _ & _ & _ & _ & Ht).
  pose proof (tiles_le _ _ _ _ Ht).
  intros [[? Hf]|[[? Hf]|Hf]]; [lia|destruct Hf as [|Hf]; [done|lia]|].
  apply (free_mem_range _ _ _ _ _ Ht) in Hf. lia.
Qed.

Lemma block_plain m pre h n b :
  tiles m st pre h -> h + n = en -> 20 <= gap h -> gap h + 4136 <= n ->
  block_of h <= b < block_of h + 4096 -> plain (cut_aligned pre h n 4096 []) b.
Proof using.
  intros Hpre Hn Hg Hgn Hb. pose proof (tiles_le _ _ _ _ Hpre). unfold block_of in Hb.
  left. split; [lia|]. intros Hf. apply (cut_aligned_free m st pre h n 4096 [] Hpre) in Hf; [|lia].
  destruct Hf as [Hf|[Hf|[]]]; [|lia]. apply (free_mem_range _ _ _ _ _ Hpre) in Hf. lia.
Qed.

(** What a step leaves alone: all but the heap, its structure, one word of the
    bitset, and the words of the directory for its address. *)
Definition aside (b : Z) : Prop :=
  ~ (KHEAP_START <= b < en) /\ ~ (heap <= b < heap + 32) /\ ~ (p + 160 <= b < p + 164).
Definition dir_others (i b : Z) : Prop :=
  dir <= b < dir + 8196 /\ ~ (dir_table dir i <= b < dir_table dir i + 4) /\
  ~ (dir_table_physical dir i <= b < dir_table_physical dir i + 4).

Lemma map_new z pre n h cap used a s :
  let pre0 := front ++ pre in
  paged z (mem s) (pre0 ++ [(true, n)]) cap used -> 1280 <= used < 1283 ->
  kheap (hp s) = heap -> pg s = PagingGlobals kd dir p 4096 ->
  tiles (mem s) st pre0 h -> Forall (fun seg => seg.1 = true -> seg.2 < 4116) pre0 ->
  Forall (fun seg => seg.2 mod 2 = 0) (pre0 ++ [(true, n)]) ->
  20 <= gap h -> gap h + 4136 <= n -> Z.of_nat cap + 3 <= 131072 ->
  0 <= a < 4294967296 -> load32 (mem s) (dir_table dir (table_index a)) = 0 ->
  wp (page <- get_page a 1 dir; alloc_frame page 0 1) (fun _ s' => s' = set_mem (mem s') s /\
    paged z (mem s') (cut_aligned pre0 h n 4096 []) (S cap) (used + 1) /\
    load32 (mem s') (dir_table dir (table_index a)) = block_of h /\
    (forall j, 0 <= j < 1024 -> load32 (mem s') (block_of h + 4 * j) =
       if j =? page_index a then mapped_page 0 0 1 used else 0) /\
    same_on (fun b => aside b \/ dir_others (table_index a) b \/ dir + 8196 <= b < h) (mem s) (mem s')) s.
Proof using Hsym Hplaces.
  intros pre0 Hpd Hu Hkh Hpg Hpre Honly Heven Hgap Hn Hcap Ha H0'. pose proof consts as (Eks & Est & Een).
  assert (Edir : dir = 3221753856) by done. assert (Hdir : directory dir) by (unfold directory, region; lia).
  destruct (proj1 (wp_ok _ _ _) (kmalloc_ap_paged z pre0 n h cap used s Hpd Hkh ltac:(by rewrite Hpg) Hpre Honly
    Heven Hgap Hn Hcap)) as (r & s1 & Hkm & -> & Hs1 & Hpd1 & Hout1).
  assert (Hend : h + n = en /\ st + 12300 <= h).
  { destruct Hpd as [(l & _ & [_ _ Ht _ _ _ _]) _ _ _]. apply tiles_app in Ht as (c & Hc & Hl).
    assert (c = h) as -> by by eapply tiles_end. cbn in Hl. split; [lia|].
    cbn [pre0 front app tiles] in Hpre. destruct Hpre as (_ & _ & _ & _ & _ & _ & Hp%tiles_le). lia. }
  destruct Hend as [Hend Hh]. set (t := block_of h) in *.
  assert (Ht : t mod 4096 = 0 /\ h + 12 <= t /\ t + 4096 <= en).
  { unfold t, block_of. assert (gap h = 4096 - h mod 4096 - 12) by done. dlia. }
  apply wp_bind. eapply wp_mono.
  { apply (get_page_enters dir Hdir a t (phys_of t) s s1 Ha H0' Hkm); unfold region, phys_of; dlia. }
  intros page s2 (m2 & -> & -> & He1 & _ & He3 & He4). pose proof (table_index_range a Ha) as Hi.
  pose proof (page_index_range a) as Hj. set (i := table_index a) in *.
  assert (Hblk : forall b, t <= b < t + 4096 -> plain (cut_aligned pre0 h n 4096 []) b)
    by (intros b; by apply (block_plain (mem s))).
  assert (Hdirp : forall b, dir <= b < dir + 8196 -> plain (cut_aligned pre0 h n 4096 []) b).
  { intros b. destruct Hpd1 as [(l & _ & [_ _ Ht1 _ _ _ _]) _ _ _]. unfold pre0, cut_aligned in *.
    rewrite <- app_assoc in *. by eapply dir_plain. }
  unfold dir_table, dir_table_physical in He4.
  assert (Hpd2 : paged z m2 (cut_aligned pre0 h n 4096 []) (S cap) used).
  { eapply (paged_write z (mem s1) m2 _ _ _ (fun b => t <= b < t + 4096 \/ dir <= b < dir + 8196) Hpd1).
    - intros b Hb Hnot. apply He4; [done|]. lia.
    - intros b [Hb|Hb]; [by apply Hblk|by apply Hdirp]. }
  assert (Hpg2 : pg (set_mem m2 s1) = pg s) by (by rewrite Hs1).
  eapply wp_mono.
  { apply (alloc_frame_paged z _ _ _ (t + 4 * page_index a) (set_mem m2 s1) Hpd2); rewrite ?Hpg2, ?Hpg;
      [lia|done|done|by apply He3|intros b Hb; apply Hblk; lia|unfold region; lia|lia]. }
  cbn [mem set_mem]. intros [] s3 (Hs3 & Hw & Hpd3 & Hout3).
  split; [rewrite Hs3, Hs1; by rewrite !set_mem_set_mem|]. split; [exact Hpd3|].
  assert (Hsame : forall x, dir <= x -> x + 4 <= en -> x + 4 <= t + 4 * page_index a \/ t + 4 * page_index a + 4 <= x ->
    load32 (mem s3) x = load32 m2 x).
  { intros x ???. eapply load32_same_on; [exact Hout3|unfold region; lia|]. intros b Hb. cbv beta. lia. }
  unfold dir_table in *. split; [rewrite Hsame by lia; exact He1|]. split.
  - intros j Hjr. destruct (j =? page_index a) eqn:E; bool_hyps; [by subst j|]. rewrite Hsame by lia. by apply He3.
  - intros b Hb Hside. unfold aside, dir_others, dir_table, dir_table_physical in Hside.
    rewrite Hout3 by (try done; lia). rewrite He4 by (try done; lia). apply Hout1; [done|]. lia.
Qed.

(** A page of a table that is there. *)
Lemma map_old z segs cap used a t s :
  paged z (mem s) segs cap used -> 1280 <= used < 1283 -> pg s = PagingGlobals kd dir p 4096 ->
  0 <= a < 4294967296 -> load32 (mem s) (dir_table dir (table_index a)) = t -> st <= t -> t + 4096 <= en ->
  load32 (mem s) (t + 4 * page_index a) = 0 -> (forall b, t <= b < t + 4096 -> plain segs b) ->
  wp (page <- get_page a 1 dir; alloc_frame page 0 1) (fun _ s' => s' = set_mem (mem s') s /\
    paged z (mem s') segs cap (used + 1) /\
    load32 (mem s') (t + 4 * page_index a) = mapped_page 0 0 1 used /\
    same_on (fun b => ~ (t + 4 * page_index a <= b < t + 4 * page_index a + 4) /\ ~ (p + 160 <= b < p + 164))
      (mem s) (mem s')) s.
Proof using Hplaces.
  intros Hpd Hu Hpg Ha Htab Ht1 Ht2 Hw Hplain. pose proof consts as (Eks & Est & Een).
  pose proof (page_index_range a). apply wp_bind.
  eapply wp_mono; [apply (get_page_present a 1 dir t s Htab); unfold region; lia|].
  intros page ? (-> & ->). eapply wp_mono.
  { apply (alloc_frame_paged z segs cap used (t + 4 * page_index a) s Hpd Hu); rewrite ?Hpg;
      [done|done|done|intros b Hb; apply Hplain; lia|unfold region; lia|lia]. }
  intros [] s' (? & ? & ? & ?). by split_and!.
Qed.

(** ** The new stack *)

(** The heap after each of its two page tables has been made. *)
Definition segs1 : list (bool * Z) := front ++ [(true, 4072); (false, 4116); (true, 503800)].
Definition segs2 : list (bool * Z) :=
  front ++ [(true, 4072); (false, 4116); (true, 4076); (false, 4116); (true, 495608)].
(** The tables. *)
Definition table1 : Z := 3221766144.
Definition table2 : Z := 3221774336.

(** Also left alone are the entries for the kernel's own addresses, in the directory. *)
Definition dir_kept (b : Z) : Prop := dir + 4096 <= b < dir + 4100 \/ dir + 7168 <= b < dir + 7172.

Lemma dir_kept_others i b : 895 <= i <= 896 -> dir_kept b -> dir_others i b.
Proof using. unfold dir_kept, dir_others, dir_table, dir_table_physical. lia. Qed.

Lemma dir_kept_range b : dir_kept b -> dir <= b < dir + 8196.
Proof using. unfold dir_kept. lia. Qed.

Section NewStack.
Context (z : Prop) (s : kstate).
Hypothesis Hpd : paged z (mem s) (front ++ [(true, 511988)]) 2 1280.
Hypothesis Hkh : kheap (hp s) = heap.
Hypothesis Hpg : pg s = PagingGlobals kd dir p 4096.
Hypothesis Hdt : load32 (mem s) (dir_table dir 896) = 0 /\ load32 (mem s) (dir_table dir 895) = 0.

Definition stage1 (t : kstate) : Prop :=
  t = set_mem (mem t) s /\ paged z (mem t) segs1 3 1281 /\ load32 (mem t) (dir_table dir 895) = 0 /\
  load32 (mem t) (dir_table dir 896) = table1 /\ load32 (mem t) table1 = mapped_page 0 0 1 1280 /\
  same_on (fun b => aside b \/ dir_kept b) (mem s) (mem t).

Lemma first_stack_page :
  wp (page <- get_page 3758096384 1 dir; alloc_frame page 0 1) (fun _ t => stage1 t) s.
Proof using Hsym Hplaces Hpd Hkh Hpg Hdt.
  pose proof consts as (Eks & Est & Een). assert (Edir : dir = 3221753856) by done.
  eapply wp_mono.
  { apply (map_new z [] 511988 3221762060 2 1280 3758096384 s Hpd); try done; try lia.
    - destruct Hpd as [(l & _ & [_ _ Ht _ _ _ _]) _ _ _].
      apply (tiles_app _ _ front [(true, 511988)]) in Ht as (c & Hc & Hl). cbn [tiles] in Hl.
      by replace 3221762060 with c by lia.
    - repeat constructor; cbn; lia.
    - repeat constructor.
    - destruct Hdt as [H896 _]. exact H896. }
  intros [] t (Ht & Hpd' & Htab & Hent & Hsame). split; [exact Ht|]. split; [exact Hpd'|].
  change (block_of 3221762060) with table1 in *. change (table_index 3758096384) with 896 in *.
  split; [|split; [exact Htab|split]].
  - destruct Hdt as [_ <-]. eapply load32_same_on; [exact Hsame|unfold region, dir_table; lia|].
    intros b Hb. right. left. unfold dir_others, dir_table, dir_table_physical in *. lia.
  - apply (Hent 0). lia.
  - intros b Hb [Hside|Hk]; apply Hsame; [done|by left|done|right; left]. apply dir_kept_others; [lia|done].
Qed.

Definition stage2 (t : kstate) : Prop :=
  t = set_mem (mem t) s /\ paged z (mem t) segs2 4 1282 /\
  load32 (mem t) (dir_table dir 895) = table2 /\ load32 (mem t) (dir_table dir 896) = table1 /\
  load32 (mem t) table1 = mapped_page 0 0 1 1280 /\
  load32 (mem t) (table2 + 4 * 1023) = mapped_page 0 0 1 1281 /\ load32 (mem t) (table2 + 4 * 1022) = 0 /\
  same_on (fun b => aside b \/ dir_kept b) (mem s) (mem t).

Lemma second_stack_page t :
  stage1 t -> wp (page <- get_page 3758092288 1 dir; alloc_frame page 0 1) (fun _ t' => stage2 t') t.
Proof using Hsym Hplaces Hkh Hpg.
  intros (Ht & Hpd1 & H895 & H896 & Hw & Hsame). pose proof consts as (Eks & Est & Een).
  assert (Edir : dir = 3221753856) by done. assert (Et1 : table1 = 3221766144) by done.
  eapply wp_mono.
  { apply (map_new z [(true, 4072); (false, 4116)] 503800 3221770248 3 1281 3758092288 t Hpd1); try done; try lia.
    - by rewrite Ht.
    - by rewrite Ht.
    - destruct Hpd1 as [(l & _ & [_ _ Htl _ _ _ _]) _ _ _].
      apply (tiles_app _ _ (front ++ [(true, 4072); (false, 4116)]) [(true, 503800)]) in Htl as (c & Hc & Hl).
      cbn [tiles] in Hl. by replace 3221770248 with c by lia.
    - repeat constructor; cbn; lia.
    - repeat constructor. }
  intros [] t' (Ht' & Hpd2 & Htab & Hent & Hsame').
  change (block_of 3221770248) with table2 in *. change (table_index 3758092288) with 895 in *.
  change (page_index 3758092288) with 1023 in *.
  split; [rewrite Ht', Ht; by rewrite set_mem_set_mem|]. split; [exact Hpd2|]. split; [exact Htab|]. split; [|split; [|split; [|split]]].
  - rewrite <- H896. eapply load32_same_on; [exact Hsame'|unfold region, dir_table; lia|].
    intros b Hb. right. left. unfold dir_others, dir_table, dir_table_physical in *. lia.
  - rewrite <- Hw. eapply load32_same_on; [exact Hsame'|unfold region; lia|]. intros b Hb. right. right. lia.
  - apply (Hent 1023). lia.
  - apply (Hent 1022). lia.
  - intros b Hb Hside. rewrite Hsame'; [by apply Hsame|done|]. destruct Hside as [?|Hk]; [by left|right; left].
    apply dir_kept_others; [lia|done].
Qed.

(** The last page is in the second table. *)
Definition stack_mapped (t : kstate) : Prop :=
  t = set_mem (mem t) s /\ paged z (mem t) segs2 4 1283 /\
  load32 (mem t) (dir_table dir 896) = table1 /\ load32 (mem t) table1 = mapped_page 0 0 1 1280 /\
  load32 (mem t) (dir_table dir 895) = table2 /\
  load32 (mem t) (table2 + 4 * 1023) = mapped_page 0 0 1 1281 /\
  load32 (mem t) (table2 + 4 * 1022) = mapped_page 0 0 1 1282 /\
  same_on (fun b => aside b \/ dir_kept b) (mem s) (mem t).

Lemma third_stack_page t :
  stage2 t -> wp (page <- get_page 3758088192 1 dir; alloc_frame page 0 1) (fun _ t' => stack_mapped t') t.
Proof using Hsym Hplaces Hkh Hpg.
  clear Hdt. intros (Ht & Hpd2 & H895 & H896 & Hw & Hw1 & Hw2 & Hsame). pose proof consts as (Eks & Est & Een).
  assert (Edir : dir = 3221753856) by done. assert (Et1 : table1 = 3221766144) by done.
  assert (Et2 : table2 = 3221774336) by done.
  assert (Hplain : forall b, table2 <= b < table2 + 4096 -> plain segs2 b).
  { destruct Hpd2 as [(l & _ & [_ _ Htl _ _ _ _]) _ _ _]. intros b Hb. left. split; [lia|].
    cbn [segs2 front app free_mem]. intuition (lia || congruence). }
  eapply wp_mono.
  { apply (map_old z segs2 4 1282 3758088192 table2 t Hpd2); try done; try lia. by rewrite Ht. }
  change (page_index 3758088192) with 1022.
  intros [] t' (Ht' & Hpd3 & Hent & Hsame').
  assert (Hkeep : forall x, dir <= x -> x + 4 <= en -> x + 4 <= table2 + 4 * 1022 \/ table2 + 4 * 1022 + 4 <= x ->
    load32 (mem t') x = load32 (mem t) x).
  { intros x ???. eapply load32_same_on; [exact Hsame'|unfold region; lia|]. intros b Hb. cbv beta. lia. }
  unfold stack_mapped. unfold dir_table in H895, H896 |- *.
  split; [rewrite Ht', Ht; by rewrite set_mem_set_mem|]. split; [exact Hpd3|].
  rewrite (Hkeep (dir + 4 * 896)), (Hkeep table1), (Hkeep (dir + 4 * 895)), (Hkeep (table2 + 4 * 1023)) by lia.
  split_and!; try done. intros b Hb Hside. rewrite Hsame'; [by apply Hsame|done|]. unfold aside in Hside.
  destruct Hside as [?|Hk%dir_kept_range]; cbv beta; lia.
Qed.

Lemma stack_round a (R : kstate -> Prop) (Q : Z -> kstate -> Prop) t :
  current_directory (pg t) = dir -> wp (page <- get_page a 1 dir; alloc_frame page 0 1) (fun _ t' => R t') t ->
  (forall t', R t' -> Q (u32 (a - 4096)) t') ->
  wp (cd <- get_current_directory; page <- get_page a 1 cd; alloc_frame page 0 1 >> ret (u32 (a - 4096))) Q t.
Proof using.
  clear Hpd Hkh Hpg Hdt. intros Hcd Hstep HQ. unfold get_current_directory. k_step. k_step. rewrite Hcd.
  apply wp_bind_inv in Hstep. apply wp_bind. eapply wp_mono; [exact Hstep|]. intros page t1' H1.
  apply wp_bind. eapply wp_mono; [exact H1|]. intros [] t' Ht'. apply wp_ret. by apply HQ.
Qed.

Lemma map_stack_paged : wp (map_stack 3758096384 8192) (fun _ t => stack_mapped t) s.
Proof using Hsym Hplaces Hpd Hkh Hpg Hdt.
  unfold map_stack. apply wp_bind. change (u32 (3758096384 - 8192)) with 3758088192.
  assert (Hcur : forall m, current_directory (pg (set_mem m s)) = dir) by (intros m; cbn; by rewrite Hpg).
  apply (wp_while _ _ (fun i t => i = 3758096384 /\ t = s \/ i = 3758092288 /\ stage1 t \/
      i = 3758088192 /\ stage2 t \/ i = 3758084096 /\ stack_mapped t) (fun i _ => i)).
  - intros i t Hi. lia.
  - intros i t [[-> ->]|[[-> Hst]|[[-> Hst]|[-> Hst]]]]; k_step.
    + apply (stack_round _ stage1); [by rewrite Hpg|exact first_stack_page|]. intros t' Ht'. split; [|done].
      right. by left.
    + apply (stack_round _ stage2); [destruct Hst as [-> _]; apply Hcur|by apply second_stack_page|].
      intros t' Ht'. split; [|done]. right. right. by left.
    + apply (stack_round _ stack_mapped); [destruct Hst as [-> _]; apply Hcur|by apply third_stack_page|].
      intros t' Ht'. split; [|done]. right. right. by right.
    + by apply wp_ret.
  - by left.
  - lia.
Qed.

End NewStack.

(** ** [initialise_tasking] on the paged kernel *)

Section Tasking.
Context (z : Prop) (s : kstate).
Hypothesis Hpd : paged z (mem s) (front ++ [(true, 511988)]) 2 1280.
Hypothesis Hkh : kheap (hp s) = heap.
Hypothesis Hpg : pg s = PagingGlobals kd dir p 4096.
Hypothesis Hdt : load32 (mem s) (dir_table dir 896) = 0 /\ load32 (mem s) (dir_table dir 895) = 0.

(** The used part of the stack fits the new one, and is below it. *)
Record stack_fits : Prop := StackFits {
  sf_esp : 0 <= cpu_esp (cpu s) <= initial_esp (boot s);
  sf_used : initial_esp (boot s) - cpu_esp (cpu s) < 8192;
  sf_words : (initial_esp (boot s) - cpu_esp (cpu s)) mod 4 = 0;
  sf_ebp : 0 <= cpu_ebp (cpu s) <= initial_esp (boot s);
  sf_below : initial_esp (boot s) <= 3758088192
}.
Hypothesis Hstack : stack_fits.
Hypothesis Hpid : 0 < next_pid (tk s) < 2147483647.

(** The new stack. *)
Definition stack_mem (b : Z) : Prop := 3758088196 <= b < 3758096388.

(** What [initialise_tasking] has nothing to do with. *)
Definition tasking_keeps (t : kstate) : Prop :=
  hp t = hp s /\ pg t = pg s /\ fs t = fs s /\ mon t = mon s /\ kbd t = kbd s /\ dt t = dt s /\
  interrupt_handlers t = interrupt_handlers s /\ boot t = boot s /\ cpu_cr0 (cpu t) = cpu_cr0 (cpu s).

(** The stack has moved; the heap is ready for small blocks. *)
Definition moved (t : kstate) : Prop :=
  cpu_esp (cpu t) = 3758096384 - (initial_esp (boot s) - cpu_esp (cpu s)) /\
  paged z (mem t) segs2 4 1283 /\ same_on (fun b => (aside b \/ dir_kept b) /\ ~ stack_mem b) (mem s) (mem t) /\
  tk t = tk s /\ tasking_keeps t.

Lemma move_stack_paged :
  wp (move_stack 3758096384 8192) (fun _ t => moved t) (set_trace (Cli :: trace s) s).
Proof using Hsym Hplaces Hpd Hkh Hpg Hdt Hstack.
  pose proof consts as (Eks & Est & Een). destruct Hstack. set (sc := set_trace _ s).
  destruct (proj1 (wp_ok _ _ _) (map_stack_paged z sc Hpd Hkh Hpg Hdt)) as ([] & s1 & Hmap & Hs1 & Hpd1 & Hrest).
  destruct Hrest as (_ & _ & _ & _ & _ & Hsame1).
  assert (Hc1 : cpu s1 = cpu sc /\ boot s1 = boot sc) by (by rewrite Hs1). destruct Hc1 as [Hc1 Hb1].
  assert (Hsc : cpu sc = cpu s /\ boot sc = boot s) by done. destruct Hsc as [Hsc1 Hsc2].
  eapply wp_mono.
  { apply (move_stack_spec 3758096384 8192 sc s1 Hmap Hc1 Hb1); rewrite ?Hsc1, ?Hsc2; try lia; reflexivity. }
  intros [] t (Hesp & _ & _ & Hout & Hcr0 & m & cp & tr & Ht). split; [exact Hesp|].
  change (3758096384 - 8192 + 4) with 3758088196 in Hout. change (3758096384 + 4) with 3758096388 in Hout.
  split; [|split; [|split]].
  - eapply (paged_write z (mem s1) (mem t) _ _ _ stack_mem Hpd1 Hout).
    intros b Hb. right. left. unfold stack_mem in Hb. lia.
  - intros b Hb [Hside Hn]. rewrite Hout by (try done; exact Hn). by apply Hsame1.
  - rewrite Ht. cbn. by rewrite Hs1.
  - unfold tasking_keeps. rewrite Hcr0, Hc1. rewrite Ht. cbn. by rewrite Hs1.
Qed.

(** The first task: its structure belongs to nobody else. *)
Definition first_task (t : kstate) : Prop := exists task,
  schedules [task] t (RoundRobin.Scheduler [(0, 0, 0)] 0) /\
  load32 (mem t) (task_page_directory task) = dir /\
  wp getpid (fun id t' => t' = t /\ id = next_pid (tk s)) t /\
  st <= task /\ task + 28 <= en /\
  (forall b, task <= b < task + 28 -> ~ heap_own KHEAP_START 131072 st en t b) /\
  forall b, task <= b < task + 28 -> ~ dir_kept b.

Record tasking_started (t : kstate) : Prop := TaskingStarted {
  ts_esp : cpu_esp (cpu t) = 3758096384 - (initial_esp (boot s) - cpu_esp (cpu s));
  ts_task : first_task t;
  ts_budget : heap_budget KHEAP_START 131072 st en 495548 t;
  ts_clean : z -> heap_clean st en t;
  ts_frame : same_on (fun b => (aside b \/ dir_kept b) /\ ~ stack_mem b /\ ~ (8 <= b < 12)) (mem s) (mem t);
  ts_dir : forall b, dir_kept b -> ~ heap_own KHEAP_START 131072 st en t b;
  ts_keeps : tasking_keeps t
}.

Lemma moved_budget t : moved t -> heap_budget KHEAP_START 131072 st en 495608 t /\ (z -> heap_clean st en t).
Proof using Hplaces Hkh.
  intros (_ & [(l & Hl & Hwf) _ _ Hclean] & _ & _ & Hhp & _). rewrite <- Hkh, <- Hhp in Hwf. split.
  - split; [rewrite Hhp, Hkh; lia|]. exists segs2, l, 0%nat. split; [exact Hwf|]. split.
    + right. exists 495608. split; [|lia]. do 6 right. left.
    + change (495608 / 32) with 15487. lia.
  - intros Hz segs' Ht'. rewrite (tiles_unique _ _ _ _ _ Ht' (wf_tiles _ _ _ _ _ _ _ _ _ Hwf)). by apply Hclean.
Qed.

(** The directory is in a block. *)
Lemma moved_dir t b : moved t -> dir_kept b -> ~ heap_own KHEAP_START 131072 st en t b.
Proof using Hplaces Hkh.
  clear Hstack. intros (_ & [(l & Hl & Hwf) _ _ _] & _ & _ & Hhp & _) Hb%dir_kept_range Ho.
  pose proof consts as (Eks & Est & Een). pose proof (wf_tiles _ _ _ _ _ _ _ _ _ Hwf) as Ht.
  assert (Harea : 12 <= st /\ st <= en /\ en < 4294967296) by lia. assert (Edir : dir = 3221753856) by done.
  apply (own_tiles _ _ _ _ Harea t _ _ Ht) in Ho. destruct Ho as [Ho|Ho].
  - unfold index_own in Ho. rewrite Hhp, Hkh in Ho. lia.
  - destruct (dir_plain (mem t) _ b Ht Hb) as [[_ Hn]|Hn]; [by apply Hn|lia].
Qed.

(** So the kernel's own addresses are mapped as before, and what maps them belongs to
    nobody else. *)
Lemma tasking_maps t :
  tasking_started t -> maps_kernel (mem s) dir t0 t1 -> maps_kernel (mem t) dir t0 t1.
Proof using Hplaces.
  clear Hstack Hpd Hdt. intros Hts Hm. pose proof consts as (Eks & Est & Een). assert (Edir : dir = 3221753856) by done.
  eapply maps_kernel_frame; [exact Hm|exact (ts_frame _ Hts)|lia|].
  intros b Hb. unfold map_mem, aside, dir_kept, stack_mem, dir_table_physical in *. lia.
Qed.

Lemma initialise_tasking_paged : wp initialise_tasking (fun r t => r = EXIT_SUCCESS /\ tasking_started t) s.
Proof using Hsym Hplaces Hpd Hkh Hpg Hdt Hstack Hpid.
  pose proof consts as (Eks & Est & Een).
  destruct (proj1 (wp_ok _ _ _) move_stack_paged) as ([] & s1 & Hmove & Hmoved).
  destruct (moved_budget s1 Hmoved) as [Hbud Hcl]. pose proof (fun b => moved_dir s1 b Hmoved) as Hdown. destruct Hmoved as (Hesp & _ & Hsame1 & Htk1 & Hkeep1).
  assert (Harea : 12 <= st /\ st <= en /\ en < 4294967296) by lia. assert (Hsym' : sym_header_t_less_than <> 0) by lia.
  destruct (proj1 (wp_ok _ _ _) (heap_kmalloc KHEAP_START 131072 st en Harea Hsym' 495608 28 s1 ltac:(lia) ltac:(lia) Hbud))
    as (task & s2 & Halloc & Hs2 & Htask & Hlt & Hfresh & Hshrink & Hsame2 & Hlo & Hhi & Hbud2 & Hcl2).
  destruct Hkeep1 as (K1 & K2 & K3 & K4 & K5 & K6 & K7 & K8 & K9).
  eapply wp_mono.
  { apply (initialise_tasking_spec s s1 s2 task Hmove Halloc Htask Hlt); rewrite Hs2; cbn [tk pg set_mem];
      rewrite ?Htk1, ?K2, ?Hpg; [exact Hpid|]. cbn [current_directory]. assert (dir = 3221753856) by done. lia. }
  intros r t (Hr & Hsched & Hpd' & Hnext & Hgetpid & Hout & m & tkv & tr & Ht). split; [exact Hr|].
  assert (Hown2 : same_on (heap_own KHEAP_START 131072 st en s2) (mem s2) (mem t)).
  { intros b Hb Ho. apply Hout; [done|]. intros Hin. by destruct (Hfresh b Hin). }
  assert (Ht' : forall b, heap_own KHEAP_START 131072 st en t b <-> heap_own KHEAP_START 131072 st en s2 b).
  { intros b. rewrite <- (own_frame KHEAP_START 131072 st en Harea s2 (mem t) (fs s2) b Hown2). by rewrite Ht. }
  constructor.
  - rewrite <- Hesp, Ht, Hs2. done.
  - exists task. split; [exact Hsched|]. split; [rewrite Hpd', Hs2; cbn [pg set_mem]; by rewrite K2, Hpg|].
    split.
    { eapply wp_mono; [exact Hgetpid|]. intros id t' [-> ->]. split; [done|]. rewrite Hs2. cbn [tk set_mem]. by rewrite Htk1. }
    split; [lia|]. split; [lia|]. split; intros b Hb; [rewrite Ht'|intros Hk; apply (Hdown b Hk)]; by destruct (Hfresh b Hb).
  - pose proof (budget_frame KHEAP_START 131072 st en Harea (495608 - 28 - 32) s2 (mem t) (fs s2) Hown2 Hbud2) as Hb.
    rewrite Ht in *. exact Hb.
  - intros Hz. pose proof (clean_own_frame KHEAP_START 131072 st en Harea s2 (mem t) (fs s2) Hown2) as Hc.
    rewrite Ht in *. apply Hc. by apply Hcl2, Hcl.
  - intros b Hb (Hside & Hn & Hnull).
    assert (Hno : ~ heap_own KHEAP_START 131072 st en s1 b).
    { destruct Hside as [Hside|Hk]; [|by apply Hdown]. unfold aside in Hside. intros [Ho|[Ho _]]; [|lia].
      unfold index_own in Ho. rewrite K1, Hkh in Ho. lia. }
    rewrite Hout; [|done|intros Hin; by destruct (Hfresh b Hin)]. rewrite Hsame2 by done. by apply Hsame1.
  - intros b Hk. rewrite Ht'. intros Ho. apply (Hdown b Hk). by apply Hshrink.
  - unfold tasking_keeps. rewrite Ht, Hs2. by cbn.
Qed.
End Tasking.
End PagedHeap.

(** ** After [initialise_paging] *)

(** What memory and the stack must be like for [initialise_tasking] to follow:
    three more frames are free, in a word of the bitset that is in front of the
    directory, and the stack in use is small and below the new one. *)
Record can_start_tasks `{Linkage} (s : kstate) : Prop := CanStartTasks {
  cst_paging : can_start_paging s;
  cst_gap : placement_address (hp s) + 164 <= next_page (placement_address (hp s) + 128);
  cst_zero : forall f, 1280 <= f < 1283 -> used_in (mem s) (placement_address (hp s)) f = false;
  cst_stack : stack_fits s;
  cst_pid : 0 < next_pid (tk s) < 2147483647
}.

(** The heap's memory is zero at first. *)
Definition heap_zero (s : kstate) : Prop := forall b, heap_area_start + 12 <= b < KHEAP_END -> load8 (mem s) b = 0.

Section After.
Context `{Linkage} (s0 s : kstate).
Hypothesis Hcan : can_start_tasks s0.
Hypothesis Hps : paging_started s0 s.
Let p := placement_address (hp s0).
Let kd := next_page (p + 128).
Let t1 := next_page (kd + 8196).
Let t0 := next_page (t1 + 4096).
Let heap := t0 + 4096.

Lemma after_places : 4096 <= p /\ p + 164 <= kd /\ kd + 8196 <= t1 /\ t1 + 4096 <= t0 /\ t0 + 4096 = heap /\
  heap + 32 <= 4194304.
Proof using Hcan.
  destruct Hcan as [[_ Hp _ _ Hroom _ _] Hgap _ _ _]. pose proof (places s0 Hp) as (? & ? & ? & ? & ?).
  unfold heap, t0, t1, kd, p in *. split_and!; lia.
Qed.

(** What [initialise_tasking] relies on, in a state [t] that follows. *)
Record ready_for_tasks (t : kstate) : Prop := ReadyForTasks {
  rt_paged : paged heap kd t0 t1 p (heap_zero s0) (mem t) (front ++ [(true, 511988)]) 2 1280;
  rt_heap : kheap (hp t) = heap;
  rt_pg : pg t = PagingGlobals kd (heap_area_start + 4096) p 4096;
  rt_tables : load32 (mem t) (dir_table (heap_area_start + 4096) 896) = 0 /\
    load32 (mem t) (dir_table (heap_area_start + 4096) 895) = 0;
  rt_stack : stack_fits t;
  rt_pid : 0 < next_pid (tk t) < 2147483647
}.

Lemma ready_after_paging : ready_for_tasks s.
Proof using Hcan Hps.
  pose proof after_places as (? & ? & ? & ? & ? & ?). destruct Hps. destruct Hcan as [_ _ Hz Hst Hpid].
  destruct started_keeps as (E1 & E2 & _ & _ & _ & E3 & _ & E4). constructor.
  - constructor.
    + exact started_wf.
    + exact started_kernel.
    + intros f Hf. destruct (decide (f < 1280)); [rewrite started_used by lia; blia|].
      replace (f <? 1280) with false by blia. rewrite <- (Hz f) by lia.
      unfold used_in. f_equal. assert (f / 32 = 40) by dlia.
      eapply load32_same_on; [exact started_frame|fold p; unfold region; lia|].
      intros b Hb. right. left. fold p kd. fold p in Hb. lia.
    + exact started_clean.
  - by rewrite started_hp.
  - exact started_pg.
  - destruct (km_none _ _ _ _ started_map 896 ltac:(lia) ltac:(lia) ltac:(lia)) as [H896 _].
    destruct (km_none _ _ _ _ started_map 895 ltac:(lia) ltac:(lia) ltac:(lia)) as [H895 _].
    exact (conj H896 H895).
  - destruct Hst. constructor; rewrite ?E1, ?E2, ?E4; done.
  - by rewrite E3.
Qed.

(** Writing below the placement address does no harm. *)
Lemma ready_frame t t' :
  ready_for_tasks t -> same_on (fun b => ~ (12 <= b < p)) (mem t) (mem t') ->
  hp t' = hp t -> pg t' = pg t -> tk t' = tk t -> cpu t' = cpu t ->
  initial_esp (boot t') = initial_esp (boot t) -> ready_for_tasks t'.
Proof using Hcan.
  intros [Hpd Hh Hpg Ht [] Hpid] Hs E1 E2 E3 E4 E5. pose proof after_places as Hpl. constructor.
  - eapply paged_write; [exact Hpl|exact Hpd|exact Hs|]. intros b Hb. by right; right; right.
  - by rewrite E1.
  - by rewrite E2.
  - assert (Hd : heap_area_start + 4096 = 3221753856) by done. rewrite Hd in Ht |- *. unfold dir_table in *.
    destruct Ht as [H896 H895]. split; [rewrite <- H896|rewrite <- H895];
      (eapply load32_same_on; [exact Hs|unfold region; lia|]); intros b Hb; cbv beta; lia.
  - constructor; rewrite ?E4, ?E5; done.
  - by rewrite E3.
Qed.

(** The steps compose. *)
Lemma tasking_after_paging t :
  ready_for_tasks t ->
  wp initialise_tasking (fun r t' => r = EXIT_SUCCESS /\ tasking_started heap p (heap_zero s0) t t') t.
Proof using Hcan.
  intros []. pose proof after_places as Hpl. destruct Hcan as [[] _ _ _ _].
  assert (Hsym : 0 < sym_header_t_less_than) by lia.
  by apply (initialise_tasking_paged heap kd t0 t1 p Hsym Hpl).
Qed.
End After.

Module ForkSample.
#[local] Existing Instance sample_linkage.

(** The task at 4096 has the directory at 32768, whose only table, at 45056, is not the
    kernel's and maps the top page of the stack.  The bitset of frames is at 53248,
    and the kernel allocates from 65536 on. *)
Definition forking : kstate :=
  set_tk (TaskGlobals 4096 4096 2) (set_pg (PagingGlobals 16384 32768 53248 4096) (set_hp (HeapGlobals 65536 0)
    (set_mem (foldr (fun w m => store32 m (fst w) (snd w)) ∅
      [(4112, 32768); (dir_table 32768 895, 45056); (dir_table_physical 32768 895, 45063);
       (45056 + 4 * 1023, mapped_page 0 0 1 1280)]) sample_state))).

(** The last address of the stack, in the parent's directory and in the child's. *)
Definition stack_top : Z := 3758096380.
Definition after_fork : option (Z * option Z * option Z) :=
  match fork forking with
  | Ok pid s =>
      let child := load32 (mem s) (task_next 4096) in
      Some (pid, translate (mem s) 32768 stack_top,
        translate (mem s) (load32 (mem s) (task_page_directory child)) stack_top)
  | _ => None
  end.

(** The child has the parent's stack pointer but not its stack: [clone_table] has left out the
    page because it has a frame.  Its first access is a page fault. *)
Example forked_stack_unmapped : after_fork = Some (2, Some (1280 * 4096 + 4092), None).
Proof. vm_compute. reflexivity. Qed.
End ForkSample.
