(* ===== verification/Timer.v ===== *)
(** * The programmable interval timer of [sys/timer.c]

    The timer's interrupt is what switches tasks. *)

From Stdlib Require Import ZArith Lia List.
From stdpp Require Import base list gmap.
From S2P Require Import Prelude Machine Kernel Common Monitor Isr DescriptorTables Kmalloc Frames Paging Task.

(** ** Definitions *)

Definition init_timer (frequency : Z) : K Z :=
  register_interrupt_handler IRQ0 ptr_timer_callback >>
  if frequency =? 0 then undefined
  else
    let divisor := u32 (1193180 / frequency) in
    outb 67 54 >>
    let lower := u8 (Z.land divisor 255) in
    let upper := u8 (Z.land (Z.shiftr divisor 8) 255) in
    outb 64 lower >>
    outb 64 upper >>
    ret EXIT_SUCCESS.

Definition timer_callback `{Linkage} (reg : registers_t) : K registers_t :=
  modify (fun s => set_tick (u32 (tick s + 1)) s) >>
  switch_task >>
  ret reg.

(** ** What the chip does with the bytes

    Command 0x36 selects channel 0, low byte then high byte; the channel then
    counts down from the 16-bit value, and 0 stands for 65536. *)
Definition pit_period (tr : list event) : option Z :=
  match tr with
  | Outb 64 hi :: Outb 64 lo :: Outb 67 54 :: _ =>
      Some (if lo + 256 * hi =? 0 then 65536 else lo + 256 * hi)
  | _ => None
  end.

(** ** Properties *)

Lemma init_timer_spec f s :
  0 < f < 4294967296 ->
  init_timer f s = Ok EXIT_SUCCESS
    (set_trace ([Outb 64 (1193180 / f / 256 mod 256); Outb 64 (1193180 / f mod 256); Outb 67 54]
                ++ trace s)
       (set_handlers (<[32 := ptr_timer_callback]> (interrupt_handlers s)) s)).
Proof.
  intros Hf. unfold init_timer, register_interrupt_handler, bind, modify.
  replace (f =? 0) with false by blia.
  assert (Hd : 0 <= 1193180 / f <= 1193180).
  { split; [apply Z.div_pos; lia|]. apply Z.div_le_upper_bound; nia. }
  rewrite (u32_id (1193180 / f)) by lia.
  change (Z.land (1193180 / f) 255) with (Z.land (1193180 / f) (2 ^ 8 - 1)).
  change (Z.land (Z.shiftr (1193180 / f) 8) 255) with (Z.land (Z.shiftr (1193180 / f) 8) (2 ^ 8 - 1)).
  rewrite !land_mask, Z.shiftr_div_pow2 by lia. change (2 ^ 8) with 256.
  unfold outb, emit, modify, ret. cbn. unfold u8. rewrite !Z.mod_mod by lia. done.
Qed.

(** The timer is programmed with the divisor of its input clock for every
    frequency whose divisor fits in 16 bits: the period is the largest number of
    ticks of the 1193180 Hz clock that is not longer than asked for. *)
Theorem init_timer_period f s :
  19 <= f <= 1193180 ->
  wp (init_timer f) (fun r s' => r = EXIT_SUCCESS /\
    interrupt_handlers s' = <[32 := ptr_timer_callback]> (interrupt_handlers s) /\
    exists d, pit_period (trace s') = Some d /\ d * f <= 1193180 < (d + 1) * f) s.
Proof.
  intros Hf. apply wp_ok. rewrite init_timer_spec by lia. do 2 eexists. split; [reflexivity|].
  split; [done|]. split; [done|].
  assert (Hd : 1 <= 1193180 / f < 65536).
  { split; [apply Z.div_le_lower_bound; lia|]. apply Z.div_lt_upper_bound; lia. }
  exists (1193180 / f). split; [|pose proof (Z.div_mod 1193180 f); pose proof (Z.mod_pos_bound 1193180 f); nia].
  cbn. generalize dependent (1193180 / f). intros d Hd.
  replace (d mod 256 + 256 * (d / 256 mod 256)) with d by dlia.
  by replace (d =? 0) with false by blia.
Qed.

(** Below 19 Hz the divisor does not fit: the chip gets its low 16 bits, and the
    timer runs faster than asked for. *)
Theorem init_timer_truncates f s :
  0 < f < 19 ->
  wp (init_timer f) (fun _ s' => exists d, pit_period (trace s') = Some d /\ (d + 1) * f < 1193180) s.
Proof.
  intros Hf. apply wp_ok. rewrite init_timer_spec by lia. do 2 eexists. split; [reflexivity|].
  cbn. eexists. split; [reflexivity|].
  assert (f = 1 \/ f = 2 \/ f = 3 \/ f = 4 \/ f = 5 \/ f = 6 \/ f = 7 \/ f = 8 \/ f = 9 \/ f = 10 \/
    f = 11 \/ f = 12 \/ f = 13 \/ f = 14 \/ f = 15 \/ f = 16 \/ f = 17 \/ f = 18) as Hcase by lia.
  repeat (destruct Hcase as [->|Hcase]; [vm_compute; reflexivity|]). subst f. vm_compute. reflexivity.
Qed.

Lemma timer_callback_spec `{Linkage} l reg s a :
  let r := (eip_switch_task, cpu_esp (cpu s), cpu_ebp (cpu s)) in
  0 <= eip_switch_task < 4294967296 /\ eip_switch_task <> 74565 ->
  schedules l s a -> regs_range r ->
  wp (timer_callback reg) (fun _ s' => tick s' = u32 (tick s + 1) /\
    schedules l s' (RoundRobin.switch r a) /\
    exists c, RoundRobin.resumed (RoundRobin.switch r a) = Some c /\ in_processor c s') s.
Proof.
  intros r Heip [Ht Hh Hc Hctx] Hr. unfold timer_callback. k_steps.
  eapply wp_mono; [by apply (preempt_spec l Heip (set_tick (u32 (tick s + 1)) s) a)|].
  intros [] s' H'. by k_steps.
Qed.

(** Each interrupt of the timer counts one tick and, when there are tasks, lets
    the next one of the queue continue; the interrupted one is put aside with the
    registers it has. *)
Theorem timer_callback_preempts `{Linkage} l reg s a :
  let r := (eip_switch_task, cpu_esp (cpu s), cpu_ebp (cpu s)) in
  0 <= eip_switch_task < 4294967296 /\ eip_switch_task <> 74565 ->
  schedules l s a -> regs_range r ->
  wp (timer_callback reg) (fun _ s' => tick s' = u32 (tick s + 1) /\
    schedules l s' (RoundRobin.switch r a) /\
    exists c, RoundRobin.resumed (RoundRobin.switch r a) = Some c /\ in_processor c s') s.
Proof. apply timer_callback_spec. Qed.

(** Before there are tasks it only counts. *)
Theorem timer_callback_counts `{Linkage} reg s :
  current_task (tk s) = 0 ->
  timer_callback reg s = Ok reg (set_tick (u32 (tick s + 1)) s).
Proof.
  intros Hc. unfold timer_callback, switch_task, get_current_task, bind, modify, gets.
  cbn [tk set_tick]. by rewrite Hc.
Qed.

Module TimerSample.
#[local] Existing Instance sample_linkage.
Lemma timer_callback_preempts_witness :
  wp (timer_callback (Registers 16 0 0 0 0 0 0 0 0 32 0 0 8 514 0 16)) (fun _ s' => tick s' = 1 /\
    in_processor (77, 78, 0) s') TaskSample.tasks_state.
Proof.
  eapply wp_mono.
  - apply (timer_callback_preempts TaskSample.tasks _ TaskSample.tasks_state _ TaskSample.eip_sample
             TaskSample.sample_schedules). cbn. lia.
  - intros r s' (Ht & _ & c & Hc & Hin). vm_compute in Hc. injection Hc as <-. split; [exact Ht|exact Hin].
Defined.

Lemma init_timer_period_witness :
  wp (init_timer 50) (fun r s' => pit_period (trace s') = Some 23863) sample_state.
Proof.
  eapply wp_mono; [apply (init_timer_period 50 sample_state); lia|].
  intros r s' (_ & _ & d & Hd & Hle). rewrite Hd. f_equal. lia.
Defined.

Lemma init_timer_truncates_witness :
  wp (init_timer 10) (fun _ s' => exists d, pit_period (trace s') = Some d /\ d < 119317) sample_state.
Proof.
  eapply wp_mono; [apply (init_timer_truncates 10 sample_state); lia|].
  intros r s' (d & Hd & Hle). exists d. split; [exact Hd|lia].
Defined.
End TimerSample.
