(* ===== verification/Fs.v ===== *)
(** * The virtual file system of [sys/fs.c]

    An [fs_node_t] is 184 bytes of memory.  Its operations are called through
    the pointers in the node: the class [Vfs] says what a call through such a
    pointer does, and the file systems provide its instance. *)

From Stdlib Require Import ZArith Lia List String.
From stdpp Require Import base list gmap.
From S2P Require Import Prelude Machine Kernel.

(** ** Definitions *)

Definition FS_FILE : Z := 1.
Definition FS_DIRECTORY : Z := 2.

(** The addresses of the members of a node; [name] is at offset 0. *)
Definition sizeof_fs_node : Z := 184.
Definition node_mask (n : Z) : Z := n + 128.
Definition node_uid (n : Z) : Z := n + 132.
Definition node_gid (n : Z) : Z := n + 136.
Definition node_flags (n : Z) : Z := n + 140.
Definition node_inode (n : Z) : Z := n + 144.
Definition node_length (n : Z) : Z := n + 148.
Definition node_impl (n : Z) : Z := n + 152.
Definition node_read (n : Z) : Z := n + 156.
Definition node_write (n : Z) : Z := n + 160.
Definition node_open (n : Z) : Z := n + 164.
Definition node_close (n : Z) : Z := n + 168.
Definition node_readdir (n : Z) : Z := n + 172.
Definition node_finddir (n : Z) : Z := n + 176.
Definition node_ptr (n : Z) : Z := n + 180.

(** [struct dirent]: 128 bytes of name, then [ino]. *)
Definition dirent_ino (d : Z) : Z := d + 128.

(** Calls through the pointers of a node; the first argument is the pointer. *)
Class Vfs : Type := {
  call_read : Z -> Z -> Z -> Z -> Z -> K Z;
  call_write : Z -> Z -> Z -> Z -> Z -> K Z;
  call_open : Z -> Z -> K unit;
  call_close : Z -> Z -> K unit;
  call_readdir : Z -> Z -> Z -> K Z;
  call_finddir : Z -> Z -> charp -> K Z
}.

Section Fs.
Context `{Vfs}.

Definition read_fs (node offset size buffer : Z) : K Z :=
  f <- ld32 (node_read node);
  if truth f then call_read f node offset size buffer else ret 0.

Definition write_fs (node offset size buffer : Z) : K Z :=
  f <- ld32 (node_write node);
  if truth f then call_write f node offset size buffer else ret 0.

Definition open_fs (node read write : Z) : K unit :=
  f <- ld32 (node_open node);
  if truth f then call_open f node else ret tt.

Definition close_fs (node : Z) : K unit :=
  f <- ld32 (node_close node);
  if truth f then call_close f node else ret tt.

Definition readdir_fs (node index : Z) : K Z :=
  fl <- ld32 (node_flags node);
  f <- ld32 (node_readdir node);
  if (Z.land fl 7 =? FS_DIRECTORY) && truth f then call_readdir f node index else ret 0.

Definition finddir_fs (node : Z) (name : charp) : K Z :=
  fl <- ld32 (node_flags node);
  f <- ld32 (node_finddir node);
  if (Z.land fl 7 =? FS_DIRECTORY) && truth f then call_finddir f node name else ret 0.
End Fs.

(** ** Properties *)

(** On a node that is not a directory, mount point or not, [readdir_fs] and
    [finddir_fs] are null, whatever its pointers are; so are the operations whose
    pointer is null. *)
Theorem fs_rejects `{Vfs} node s :
  (Z.land (load32 (mem s) (node_flags node)) 7 <> FS_DIRECTORY ->
     (forall index, readdir_fs node index s = Ok 0 s) /\
     (forall name, finddir_fs node name s = Ok 0 s)) /\
  (load32 (mem s) (node_read node) = 0 ->
     forall offset size buffer, read_fs node offset size buffer s = Ok 0 s) /\
  (load32 (mem s) (node_write node) = 0 ->
     forall offset size buffer, write_fs node offset size buffer s = Ok 0 s) /\
  (load32 (mem s) (node_open node) = 0 -> forall r w, open_fs node r w s = Ok tt s) /\
  (load32 (mem s) (node_close node) = 0 -> close_fs node s = Ok tt s).
Proof.
  unfold readdir_fs, finddir_fs, read_fs, write_fs, open_fs, close_fs, bind, ld32, gets, truth.
  split; [|split; [|split; [|split]]]; intros Hn; [|intros..|]; try (by rewrite Hn).
  split; intros; by rewrite (proj2 (Z.eqb_neq _ _) Hn).
Qed.
