(* ===== verification/Initrd.v ===== *)
(** * The initial ramdisk of [sys/initrd.c]

    The image is in memory: the number of files, then 76 bytes of header for
    each file.  [initialise_initrd] makes the headers' offsets absolute and
    builds one node for each file, and the directories "initrd" and "dev". *)

From Stdlib Require Import ZArith Lia List String.
From stdpp Require Import base list gmap.
From S2P Require Import Prelude Machine Kernel Common Kmalloc Fs.

(** ** Definitions *)

(** [initrd_file_header_t]. *)
Definition sizeof_file_header : Z := 76.
Definition header_name (h : Z) : Z := h + 1.
Definition header_offset (h : Z) : Z := h + 68.
Definition header_length (h : Z) : Z := h + 72.

Definition get_fs (f : fs_globals -> Z) : K Z := gets (fun s => f (fs s)).
Definition modify_fs (f : fs_globals -> fs_globals) : K unit := modify (fun s => set_fs (f (fs s)) s).
Definition set_fs_root (v : Z) (g : fs_globals) : fs_globals :=
  FsGlobals v (initrd_header g) (file_headers g) (initrd_root g) (initrd_dev g) (root_nodes g) (nroot_nodes g).
Definition set_initrd_header (v : Z) (g : fs_globals) : fs_globals :=
  FsGlobals (fs_root g) v (file_headers g) (initrd_root g) (initrd_dev g) (root_nodes g) (nroot_nodes g).
Definition set_file_headers (v : Z) (g : fs_globals) : fs_globals :=
  FsGlobals (fs_root g) (initrd_header g) v (initrd_root g) (initrd_dev g) (root_nodes g) (nroot_nodes g).
Definition set_initrd_root (v : Z) (g : fs_globals) : fs_globals :=
  FsGlobals (fs_root g) (initrd_header g) (file_headers g) v (initrd_dev g) (root_nodes g) (nroot_nodes g).
Definition set_initrd_dev (v : Z) (g : fs_globals) : fs_globals :=
  FsGlobals (fs_root g) (initrd_header g) (file_headers g) (initrd_root g) v (root_nodes g) (nroot_nodes g).
Definition set_root_nodes (v : Z) (g : fs_globals) : fs_globals :=
  FsGlobals (fs_root g) (initrd_header g) (file_headers g) (initrd_root g) (initrd_dev g) v (nroot_nodes g).
Definition set_nroot_nodes (v : Z) (g : fs_globals) : fs_globals :=
  FsGlobals (fs_root g) (initrd_header g) (file_headers g) (initrd_root g) (initrd_dev g) (root_nodes g) v.

(** [&file_headers[i]] and [&root_nodes[i]]. *)
Definition file_header (i : Z) : K Z :=
  h <- get_fs file_headers; ret (u32 (h + sizeof_file_header * i)).
Definition root_node (i : Z) : K Z :=
  n <- get_fs root_nodes; ret (u32 (n + sizeof_fs_node * i)).

Definition initrd_read (node offset size buffer : Z) : K Z :=
  inode <- ld32 (node_inode node);
  h <- file_header inode;
  hlen <- ld32 (header_length h);
  hoff <- ld32 (header_offset h);
  if hlen <? offset then ret 0
  else
    let size := if hlen <? u32 (offset + size) then u32 (hlen - offset) else size in
    memcpy buffer (u32 (hoff + offset)) size >>
    ret size.

Section Initrd.
Context `{Linkage}.

Definition initrd_readdir (node index : Z) : K Z :=
  root <- get_fs initrd_root;
  if (node =? root) && (index =? 0) then
    strcpy sym_dirent (lit (str "dev")) >>
    st8 (sym_dirent + 3) 0 >>
    st32 (dirent_ino sym_dirent) 0 >>
    ret sym_dirent
  else
    n <- get_fs nroot_nodes;
    if u32 n <=? u32 (index - 1) then ret 0
    else
      rn <- root_node (u32 (index - 1));
      strcpy sym_dirent (ptr rn) >>
      len <- strlen (ptr rn);
      st8 (sym_dirent + len) 0 >>
      inode <- ld32 (node_inode rn);
      st32 (dirent_ino sym_dirent) inode >>
      ret sym_dirent.

Definition initrd_finddir (node : Z) (name : charp) : K Z :=
  root <- get_fs initrd_root;
  c <- (if node =? root then strcmp name (lit (str "dev")) else ret 1);
  if (node =? root) && (c =? 0) then get_fs initrd_dev
  else
    r <- loop (fun counter =>
      n <- get_fs nroot_nodes;
      if counter <? n then
        rn <- root_node counter;
        c <- strcmp name (ptr rn);
        if c =? 0 then ret (inr rn) else ret (inl (s32 (counter + 1)))
      else ret (inr 0)) 0;
    ret r.

Context `{Kmalloc}.

(** The members of a directory node, in the order of the source. *)
Definition init_directory (node : Z) : K unit :=
  st32 (node_length node) 0 >>
  st32 (node_inode node) 0 >>
  st32 (node_gid node) 0 >>
  st32 (node_uid node) 0 >>
  st32 (node_mask node) 0 >>
  st32 (node_flags node) FS_DIRECTORY >>
  st32 (node_read node) 0 >>
  st32 (node_write node) 0 >>
  st32 (node_open node) 0 >>
  st32 (node_close node) 0 >>
  st32 (node_readdir node) sym_initrd_readdir >>
  st32 (node_finddir node) sym_initrd_finddir >>
  st32 (node_ptr node) 0 >>
  st32 (node_impl node) 0.

(** One round of the loop over the files; [ptr] is not set. *)
Definition init_file (location counter : Z) : K unit :=
  h <- file_header counter;
  off <- ld32 (header_offset h);
  st32 (header_offset h) (u32 (off + location)) >>
  rn <- root_node counter;
  strcpy rn (ptr (header_name h)) >>
  st32 (node_gid rn) 0 >>
  st32 (node_uid rn) 0 >>
  st32 (node_mask rn) 0 >>
  len <- ld32 (header_length h);
  st32 (node_length rn) len >>
  st32 (node_inode rn) counter >>
  st32 (node_flags rn) FS_FILE >>
  st32 (node_read rn) sym_initrd_read >>
  st32 (node_write rn) 0 >>
  st32 (node_readdir rn) 0 >>
  st32 (node_finddir rn) 0 >>
  st32 (node_open rn) 0 >>
  st32 (node_close rn) 0 >>
  st32 (node_impl rn) 0.

Definition initialise_initrd (location : Z) : K Z :=
  modify_fs (set_initrd_header location) >>
  modify_fs (set_file_headers (u32 (location + 4))) >>
  root <- kmalloc sizeof_fs_node;
  modify_fs (set_initrd_root root) >>
  strcpy root (lit (str "initrd")) >>
  init_directory root >>
  dev <- kmalloc sizeof_fs_node;
  modify_fs (set_initrd_dev dev) >>
  strcpy dev (lit (str "dev")) >>
  init_directory dev >>
  nfiles <- ld32 location;
  nodes <- kmalloc (u32 (sizeof_fs_node * nfiles));
  modify_fs (set_root_nodes nodes) >>
  nfiles <- ld32 location;
  modify_fs (set_nroot_nodes (s32 nfiles)) >>
  while (fun counter => nfiles <- ld32 location; ret (u32 counter <? nfiles))
        (fun counter => init_file location counter >> ret (s32 (counter + 1))) 0 >>
  get_fs initrd_root.

(** Calls through the pointers that the ramdisk's nodes hold. *)
#[export] Instance initrd_vfs : Vfs := {|
  call_read f node offset size buffer :=
    if f =? sym_initrd_read then initrd_read node offset size buffer else undefined;
  call_write _ _ _ _ _ := undefined;
  call_open _ _ := undefined;
  call_close _ _ := undefined;
  call_readdir f node index :=
    if f =? sym_initrd_readdir then initrd_readdir node index else undefined;
  call_finddir f node name :=
    if f =? sym_initrd_finddir then initrd_finddir node name else undefined
|}.
End Initrd.

(** ** Ramdisks *)

Record file : Type := File { fname : list Z; contents : list Z }.

Definition valid_file (f : file) : Prop :=
  fname f <> [] /\ Z.of_nat (length (fname f)) < 64 /\ Forall (fun b => 0 < b < 256) (fname f).

Definition file_size (f : file) : Z := Z.of_nat (length (contents f)).

(** The header at [h] names [f] and says that its contents are at [base + off]. *)
Record header_of (m : memory) (h base off : Z) (f : file) : Prop := HeaderOf {
  ho_name : bytes m (header_name h) (S (length (fname f))) = fname f ++ [0];
  ho_offset : load32 m (header_offset h) = off;
  ho_length : load32 m (header_length h) = file_size f;
  ho_contents : bytes m (base + off) (length (contents f)) = contents f;
  ho_end : 0 <= off /\ base + off + file_size f < 4294967296
}.

(** An image of [size] bytes at [loc], as it comes from [mkinit]. *)
Record image_at (m : memory) (loc size : Z) (files : list file) : Prop := ImageAt {
  img_range : 0 <= loc /\ 4 <= size /\ loc + size < 4294967296;
  img_count : Z.of_nat (length files) < 65536;
  img_nfiles : load32 m loc = Z.of_nat (length files);
  img_file : forall i f, files !! i = Some f -> valid_file f /\ exists off,
    4 + 76 * Z.of_nat (length files) <= off /\ off + file_size f <= size /\
    header_of m (loc + 4 + 76 * Z.of_nat i) loc off f
}.

(** The node at [n] is that of file number [i]. *)
Record node_of `{Linkage} (m : memory) (n : Z) (i : Z) (f : file) : Prop := NodeOf {
  no_name : bytes m n (S (length (fname f))) = fname f ++ [0];
  no_length : load32 m (node_length n) = file_size f;
  no_inode : load32 m (node_inode n) = i;
  no_flags : load32 m (node_flags n) = FS_FILE;
  no_read : load32 m (node_read n) = sym_initrd_read
}.

Record directory_node `{Linkage} (m : memory) (n : Z) : Prop := DirectoryNode {
  dn_flags : load32 m (node_flags n) = FS_DIRECTORY;
  dn_readdir : load32 m (node_readdir n) = sym_initrd_readdir;
  dn_finddir : load32 m (node_finddir n) = sym_initrd_finddir;
  dn_read : load32 m (node_read n) = 0
}.

(** The ramdisk [files] is initialised. *)
Record ramdisk_at `{Linkage} (s : kstate) (files : list file) : Prop := RamdiskAt {
  rd_count : nroot_nodes (fs s) = Z.of_nat (length files);
  rd_bound : Z.of_nat (length files) < 65536;
  rd_headers : 0 <= file_headers (fs s) /\
    file_headers (fs s) + 76 * Z.of_nat (length files) < 4294967296;
  rd_nodes : 0 < root_nodes (fs s) /\
    root_nodes (fs s) + 184 * Z.of_nat (length files) < 4294967296;
  rd_file : forall i f, files !! i = Some f -> valid_file f /\
    node_of (mem s) (root_nodes (fs s) + 184 * Z.of_nat i) (Z.of_nat i) f /\
    exists off, header_of (mem s) (file_headers (fs s) + 76 * Z.of_nat i) 0 off f;
  rd_root : 0 < initrd_root (fs s) < 4294967296 /\ directory_node (mem s) (initrd_root (fs s));
  rd_dev : 0 < initrd_dev (fs s) < 4294967296 /\ directory_node (mem s) (initrd_dev (fs s))
}.

(** ** Looking a name up *)

Section Ramdisk.
Context `{Linkage} (files : list file) (s : kstate) (Hrd : ramdisk_at s files).

Lemma root_node_spec (i : nat) :
  (i < length files)%nat ->
  wp (root_node (Z.of_nat i)) (fun r s' => s' = s /\ r = root_nodes (fs s) + 184 * Z.of_nat i) s.
Proof using Hrd.
  intros Hi. destruct (rd_nodes _ _ Hrd), (rd_bound _ _ Hrd). unfold root_node, get_fs, sizeof_fs_node.
  k_steps. split; [done|]. apply u32_id. lia.
Qed.

Lemma file_header_spec (i : nat) :
  (i < length files)%nat ->
  wp (file_header (Z.of_nat i)) (fun r s' => s' = s /\ r = file_headers (fs s) + 76 * Z.of_nat i) s.
Proof using Hrd.
  intros Hi. destruct (rd_headers _ _ Hrd), (rd_bound _ _ Hrd). unfold file_header, get_fs, sizeof_file_header.
  k_steps. split; [done|]. apply u32_id. lia.
Qed.

Lemma node_name_cstring (i : nat) f :
  files !! i = Some f -> cstring (ptr (root_nodes (fs s) + 184 * Z.of_nat i)) (fname f) s.
Proof using Hrd.
  intros Hf. destruct (rd_file _ _ Hrd _ _ Hf) as ((_ & Hl & Hb) & Hn & _).
  apply ptr_cstring; [done|lia|]. apply (no_name _ _ _ _ Hn).
Qed.

(** The node of the first file with this name, or null. *)
Definition find_file (l : list Z) : Z :=
  match list_find (fun f => fname f = l) files with
  | Some (i, _) => root_nodes (fs s) + 184 * Z.of_nat i
  | None => 0
  end.

Lemma list_find_take k (l : list Z) f :
  (forall i g, (i < k)%nat -> files !! i = Some g -> fname g <> l) ->
  files !! k = Some f -> fname f = l -> find_file l = root_nodes (fs s) + 184 * Z.of_nat k.
Proof using.
  intros Hbefore Hk Hf. unfold find_file.
  replace (list_find (fun f => fname f = l) files) with (Some (k, f)); [done|].
  symmetry. apply list_find_Some. split; [done|]. split; [done|]. intros i g Hi Hlt. by apply (Hbefore i).
Qed.

Lemma initrd_finddir_spec node name l :
  cstring name l s ->
  wp (initrd_finddir node name) (fun r s' => s' = s /\
    r = if decide (node = initrd_root (fs s) /\ l = str "dev") then initrd_dev (fs s) else find_file l) s.
Proof using Hrd.
  intros Hc. unfold initrd_finddir, get_fs. k_step. k_step. apply wp_bind.
  apply (wp_mono _ (fun c s' => s' = s /\ ((node =? initrd_root (fs s)) && (c =? 0)) =
    bool_decide (node = initrd_root (fs s) /\ l = str "dev"))).
  { destruct (node =? initrd_root (fs s)) eqn:E; bool_hyps.
    - eapply wp_mono.
      { apply (strcmp_spec name (lit (str "dev")) l (str "dev")); [done|].
        apply lit_cstring; [repeat constructor|simpl; lia]. }
      intros c s' [-> ->]. split; [done|]. cbn [andb]. case_decide.
      + symmetry. by apply bool_decide_eq_true.
      + symmetry. apply bool_decide_eq_false. tauto.
    - k_steps. split; [done|]. symmetry. apply bool_decide_eq_false. tauto. }
  intros c s' (-> & ->). case_bool_decide as Hd.
  { rewrite decide_True by done. by k_steps. }
  rewrite decide_False by done. apply wp_bind.
  pose proof (rd_bound _ _ Hrd) as Hbound. pose proof (rd_count _ _ Hrd) as Hcount.
  apply (wp_loop _ (fun i t => t = s /\ exists k : nat, i = Z.of_nat k /\ (k <= length files)%nat /\
           forall j g, (j < k)%nat -> files !! j = Some g -> fname g <> l)
           (fun i _ => Z.of_nat (length files) - i)).
  - intros i t (-> & k & -> & ? & _). lia.
  - intros i t (-> & k & -> & Hk & Hbefore). k_steps. rewrite Hcount.
    destruct (Z.of_nat k <? Z.of_nat (length files)) eqn:E; bool_hyps.
    + apply wp_bind. eapply wp_mono; [apply root_node_spec; lia|]. intros rn t (-> & ->).
      destruct (lookup_lt_is_Some_2 files k ltac:(lia)) as [f Hf].
      apply wp_bind. eapply wp_mono; [apply (strcmp_spec name _ l (fname f)); [done|by apply node_name_cstring]|].
      intros c' t [-> ->]. case_decide as Heq.
      * k_steps. split; [done|]. symmetry. by apply (list_find_take k l f).
      * k_steps. rewrite s32_id by lia. split; [|lia]. split; [done|]. exists (S k).
        split; [lia|]. split; [lia|]. intros j g Hj Hg.
        destruct (decide (j = k)) as [->|]; [|by apply (Hbefore j); [lia|]].
        assert (g = f) as -> by congruence. congruence.
    + k_steps. split; [done|]. unfold find_file.
      destruct (list_find _ files) as [[i g]|] eqn:Hfind; [|done]. exfalso.
      apply list_find_Some in Hfind as (Hg & Hname & _).
      apply (Hbefore i g); [apply lookup_lt_Some in Hg; lia|done|done].
  - split; [done|]. exists 0%nat. split; [done|]. split; [lia|]. intros j g Hj. lia.
  - lia.
Qed.

(** ** Reading *)

Lemma initrd_read_spec (i : nat) f offset size buffer :
  files !! i = Some f -> 0 <= offset -> 0 <= size -> offset + size < 4294967296 ->
  (forall off, header_of (mem s) (file_headers (fs s) + 76 * Z.of_nat i) 0 off f ->
     off + file_size f <= buffer \/ buffer + size <= off) ->
  region buffer (buffer + size) ->
  let n := Z.max 0 (Z.min size (file_size f - offset)) in
  wp (initrd_read (root_nodes (fs s) + 184 * Z.of_nat i) offset size buffer) (fun r s' => r = n /\
    exists m', s' = set_mem m' s /\ same_outside buffer (buffer + n) (mem s) m' /\
    bytes m' buffer (Z.to_nat n) = take (Z.to_nat n) (drop (Z.to_nat offset) (contents f))) s.
Proof using Hrd.
  intros Hf Ho Hsz Hov Hap [Hb1 Hb2] n.
  destruct (rd_file _ _ Hrd _ _ Hf) as (_ & Hn & off & Hh). specialize (Hap _ Hh).
  pose proof (lookup_lt_Some _ _ _ Hf) as Hi. destruct Hh as [_ Hoff Hlen Hcon [Hoff0 Hend]].
  unfold initrd_read. k_step. k_step. rewrite (no_inode _ _ _ _ Hn). apply wp_bind.
  eapply wp_mono; [by apply file_header_spec|]. intros h s' (-> & ->). k_steps. rewrite Hoff, Hlen.
  assert (0 <= file_size f) by (unfold file_size; lia).
  destruct (file_size f <? offset) eqn:E; bool_hyps.
  - assert (Hn0 : n = 0) by lia. rewrite Hn0. k_steps. split; [done|]. exists (mem s).
    split; [by rewrite set_mem_id|]. done.
  - rewrite (u32_id (offset + size)), (u32_id (off + offset)), (u32_id (file_size f - offset)) by lia.
    assert (Hnn : (if file_size f <? offset + size then file_size f - offset else size) = n).
    { destruct (file_size f <? offset + size) eqn:E2; bool_hyps; lia. }
    assert (Hn0 : 0 <= n <= size /\ n <= file_size f - offset) by (unfold n; lia).
    cbv zeta. rewrite Hnn. clearbody n. apply wp_bind.
    eapply wp_mono; [apply memcpy_spec; [unfold region; lia|unfold region; lia|lia|lia]|].
    intros [] t (m' & -> & Hout & Hcp). k_steps. split; [done|]. exists m'. split; [done|]. split; [done|].
    rewrite Hcp. apply (list_eq_lookup_total _ _ (Z.to_nat n)); [by rewrite length_bytes| |].
    + rewrite length_take, length_drop. unfold file_size in *. lia.
    + intros j x Hj Hx. rewrite lookup_bytes by done.
      rewrite lookup_take_lt, lookup_drop in Hx by done. rewrite <- Hcon in Hx.
      rewrite lookup_bytes in Hx by (unfold file_size in *; lia).
      rewrite <- Hx. do 2 f_equal. lia.
Qed.

(** ** Listing *)

(** The directory entry [dirent] holds this name and inode. *)
Definition dirent_is (m : memory) (name : list Z) (ino : Z) : Prop :=
  bytes m sym_dirent (S (length name)) = name ++ [0] /\ load32 m (dirent_ino sym_dirent) = ino.

Lemma bytes_snoc m a l : bytes m a (length l) = l -> load8 m (a + Z.of_nat (length l)) = 0 ->
  bytes m a (S (length l)) = l ++ [0].
Proof using. intros Hl H0. unfold bytes in *. rewrite seq_S, fmap_app, Hl. simpl. by rewrite H0. Qed.

(** Terminating a copied name and setting the inode. *)
Lemma dirent_written m l ino :
  region sym_dirent (sym_dirent + 132) -> Z.of_nat (length l) < 128 -> 0 <= ino < 4294967296 ->
  bytes m sym_dirent (length l) = l ->
  dirent_is (store32 (store8 m (sym_dirent + Z.of_nat (length l)) 0) (dirent_ino sym_dirent) ino) l ino.
Proof using.
  intros [Hr1 Hr2] Hl Hino Hb. unfold dirent_is, dirent_ino. split.
  - apply bytes_snoc; [|by read_stores].
    etransitivity; [|exact Hb]. apply bytes_ext. intros i Hi. by read_stores.
  - read_stores. by apply u32_id.
Qed.

Hypothesis Hdirent : region sym_dirent (sym_dirent + 132).

(** Reading the entries of the root: "dev", then the files in their order, then
    null.  The entry is in the variable [dirent], which does not overlap the
    nodes. *)
Lemma initrd_readdir_dev :
  wp (initrd_readdir (initrd_root (fs s)) 0) (fun r s' => r = sym_dirent /\ exists m', s' = set_mem m' s /\
    dirent_is m' (str "dev") 0 /\ same_outside sym_dirent (sym_dirent + 132) (mem s) m') s.
Proof using Hdirent.
  clear Hrd. destruct Hdirent as [Hr1 Hr2].
  unfold initrd_readdir, get_fs. k_step. k_step. rewrite Z.eqb_refl. cbn [andb Z.eqb]. apply wp_bind.
  eapply wp_mono.
  { apply (strcpy_spec _ _ (str "dev")); [done|unfold region; simpl; lia|].
    apply lit_source_apart; [repeat constructor|simpl; lia]. }
  intros [] t (m1 & -> & Hout & Hb). k_steps. split; [done|]. eexists. rewrite !set_mem_set_mem. split; [done|].
  cbn [mem set_mem].
  split; [by apply (dirent_written m1 (str "dev") 0); [..|lia|]|].
  intros b Hb' Hn. unfold dirent_ino. read_stores. apply Hout; simpl; lia.
Qed.

Lemma initrd_readdir_file (i : nat) f node :
  files !! i = Some f ->
  sym_dirent + 132 <= root_nodes (fs s) \/
    root_nodes (fs s) + 184 * Z.of_nat (length files) <= sym_dirent ->
  wp (initrd_readdir node (Z.of_nat i + 1)) (fun r s' => r = sym_dirent /\ exists m', s' = set_mem m' s /\
    dirent_is m' (fname f) (Z.of_nat i) /\ same_outside sym_dirent (sym_dirent + 132) (mem s) m') s.
Proof using Hrd Hdirent.
  intros Hf Hap. destruct Hdirent as [Hr1 Hr2]. pose proof (lookup_lt_Some _ _ _ Hf) as Hi.
  pose proof (rd_bound _ _ Hrd) as Hbound. destruct (rd_nodes _ _ Hrd) as [Hn0 Hn1].
  destruct (rd_file _ _ Hrd _ _ Hf) as ((Hne & Hl & Hby) & Hnode & _).
  unfold initrd_readdir, get_fs. k_step. k_step.
  replace (Z.of_nat i + 1 =? 0) with false by blia. rewrite andb_false_r. k_step. k_step.
  rewrite (rd_count _ _ Hrd). replace (Z.of_nat i + 1 - 1) with (Z.of_nat i) by lia.
  rewrite !u32_id by lia. replace (Z.of_nat (length files) <=? Z.of_nat i) with false by blia.
  apply wp_bind. eapply wp_mono; [by apply root_node_spec|]. intros rn t (-> & ->).
  set (rn := root_nodes (fs s) + 184 * Z.of_nat i) in *. apply wp_bind.
  assert (Hrn : rn + 184 <= root_nodes (fs s) + 184 * Z.of_nat (length files)) by lia.
  eapply wp_mono.
  { apply (strcpy_spec sym_dirent (ptr rn) (fname f)); [done|unfold region; lia|].
    apply ptr_source_apart; [done|lia|unfold region; lia|lia|]. apply (no_name _ _ _ _ Hnode). }
  intros [] t (m1 & -> & Hout & Hb). apply wp_bind.
  eapply wp_mono.
  { apply (strlen_spec (ptr rn) (fname f)). apply ptr_cstring; [done|lia|].
    rewrite <- (no_name _ _ _ _ Hnode). eapply bytes_frame; [exact Hout|unfold region; lia|lia]. }
  intros len t (-> & ->). k_steps. cbn [mem set_mem]. split; [done|]. eexists. rewrite !set_mem_set_mem.
  split; [done|].
  assert (Hino : load32 (store8 m1 (sym_dirent + Z.of_nat (length (fname f))) 0) (node_inode rn) = Z.of_nat i).
  { rewrite <- (no_inode _ _ _ _ Hnode). unfold node_inode. read_stores.
    eapply load32_frame; [exact Hout|unfold region; lia|lia]. }
  rewrite Hino. split; [apply dirent_written; [done|lia|lia|done]|].
  intros b Hb' Hn. unfold dirent_ino. read_stores. apply Hout; lia.
Qed.

Lemma initrd_readdir_end node index :
  Z.of_nat (length files) < index < 4294967296 ->
  wp (initrd_readdir node index) (fun r s' => r = 0 /\ s' = s) s.
Proof using Hrd.
  clear Hdirent. intros Hi. pose proof (rd_bound _ _ Hrd). unfold initrd_readdir, get_fs. k_step. k_step.
  replace (index =? 0) with false by blia. rewrite andb_false_r. k_step. k_step.
  rewrite (rd_count _ _ Hrd), !u32_id by lia.
  replace (Z.of_nat (length files) <=? index - 1) with true by blia. by k_steps.
Qed.
End Ramdisk.

(** ** Properties *)

(** The name "dev" in the root is the device directory; any other name, or "dev"
    in another node, is looked for among the files, and the first match counts.
    Nothing changes. *)
Theorem initrd_finddir_finds `{Linkage} files s node name l :
  ramdisk_at s files -> cstring name l s ->
  wp (initrd_finddir node name) (fun r s' => s' = s /\
    ((node = initrd_root (fs s) /\ l = str "dev" /\ r = initrd_dev (fs s)) \/
     (~ (node = initrd_root (fs s) /\ l = str "dev") /\
      ((exists i f, files !! i = Some f /\ fname f = l /\ r = root_nodes (fs s) + 184 * Z.of_nat i /\
          forall j g, (j < i)%nat -> files !! j = Some g -> fname g <> l) \/
       (r = 0 /\ forall f, f ∈ files -> fname f <> l))))) s.
Proof.
  intros Hrd Hc. eapply wp_mono; [by apply (initrd_finddir_spec files s Hrd)|].
  intros r s' [-> ->]. split; [done|]. case_decide as Hd; [left; tauto|]. right. split; [done|].
  unfold find_file. destruct (list_find _ files) as [[i f]|] eqn:E.
  - left. apply list_find_Some in E as (Hi & Hn & Hb). exists i, f. split; [done|]. split; [done|].
    split; [done|]. intros j g Hj Hg. by apply (Hb j).
  - right. split; [done|]. apply list_find_None in E. by rewrite Forall_forall in E.
Qed.

(** C31: Counting up from 0, the root's entries are "dev", then the files in their
    order, then null.  Only the variable [dirent] is written. *)
Theorem initrd_readdir_lists `{Linkage} files s index :
  ramdisk_at s files -> region sym_dirent (sym_dirent + 132) ->
  sym_dirent + 132 <= root_nodes (fs s) \/
    root_nodes (fs s) + 184 * Z.of_nat (length files) <= sym_dirent ->
  0 <= index < 4294967296 ->
  wp (initrd_readdir (initrd_root (fs s)) index) (fun r s' =>
    match ((str "dev", 0) :: imap (fun i f => (fname f, Z.of_nat i)) files) !! Z.to_nat index with
    | Some (name, ino) => r = sym_dirent /\ dirent_is (mem s') name ino /\
        same_outside sym_dirent (sym_dirent + 132) (mem s) (mem s')
    | None => r = 0 /\ s' = s
    end) s.
Proof.
  intros Hrd Hd Hap Hi. destruct (Z.to_nat index) as [|k] eqn:Ek.
  - assert (index = 0) as -> by lia. cbn. eapply wp_mono; [by apply initrd_readdir_dev|].
    intros r s' (-> & m' & -> & H1 & H2). done.
  - assert (index = Z.of_nat k + 1) as -> by lia.
    set (F := fun (i : nat) (f : file) => (fname f, Z.of_nat i)).
    assert (Hlk : ((str "dev", 0) :: imap F files) !! S k = F k <$> files !! k).
    { change (imap F files !! k = F k <$> files !! k). apply list_lookup_imap. }
    destruct (files !! k) as [f|] eqn:Hf.
    + eapply wp_mono; [by apply (initrd_readdir_file files s Hrd Hd k f)|].
      intros r s' (-> & m' & -> & H1 & H2). rewrite Hlk. cbn. done.
    + pose proof Hf as Hf'. apply lookup_ge_None in Hf'.
      eapply wp_mono; [apply (initrd_readdir_end files s Hrd); lia|].
      intros r s' [-> ->]. rewrite Hlk. done.
Qed.

(** C32: Reading a file, with an offset and a size whose sum does not wrap around and a
    buffer away from the file, gives the bytes there are from the offset on, at most as
    many as asked for, and writes nothing but them. *)
Theorem initrd_read_reads `{Linkage} files s i f offset size buffer :
  ramdisk_at s files -> files !! i = Some f ->
  0 <= offset -> 0 <= size -> offset + size < 4294967296 ->
  (forall off, header_of (mem s) (file_headers (fs s) + 76 * Z.of_nat i) 0 off f ->
     off + file_size f <= buffer \/ buffer + size <= off) ->
  region buffer (buffer + size) ->
  let n := Z.max 0 (Z.min size (file_size f - offset)) in
  wp (initrd_read (root_nodes (fs s) + 184 * Z.of_nat i) offset size buffer) (fun r s' => r = n /\
    same_outside buffer (buffer + n) (mem s) (mem s') /\
    bytes (mem s') buffer (Z.to_nat n) = take (Z.to_nat n) (drop (Z.to_nat offset) (contents f))) s.
Proof.
  intros. eapply wp_mono; [by apply (initrd_read_spec files)|]. by intros r s' (-> & m' & -> & ? & ?).
Qed.

(** C33: The end of the range asked for is computed in 32 bits: when it wraps around to
    an offset inside the file, the size is not cut, and the copy goes on beyond the
    file. *)
Theorem initrd_read_overflow `{Linkage} files s i f offset size buffer :
  ramdisk_at s files -> files !! i = Some f ->
  0 <= offset <= file_size f -> 0 <= size < 4294967296 ->
  4294967296 <= offset + size <= 4294967296 + file_size f ->
  exists off, header_of (mem s) (file_headers (fs s) + 76 * Z.of_nat i) 0 off f /\
    file_size f - offset < size /\
    initrd_read (root_nodes (fs s) + 184 * Z.of_nat i) offset size buffer s =
      (memcpy buffer (off + offset) size >> ret size) s.
Proof.
  intros Hrd Hf Ho Hsz Hov. destruct (rd_file _ _ Hrd _ _ Hf) as (_ & Hn & off & Hh).
  exists off. split; [done|]. destruct Hh as [_ Hoff Hlen _ [Hoff0 Hend]].
  destruct (rd_bound _ _ Hrd), (rd_headers _ _ Hrd). pose proof (lookup_lt_Some _ _ _ Hf).
  split; [lia|]. unfold initrd_read, file_header, get_fs, bind, ld32, gets, ret.
  rewrite (no_inode _ _ _ _ Hn). unfold sizeof_file_header. rewrite (u32_id (_ + _ * _)) by lia.
  rewrite Hlen, Hoff. replace (file_size f <? offset) with false by blia.
  assert (Hu : u32 (offset + size) = offset + size - 4294967296) by (unfold u32; dlia).
  rewrite Hu. replace (file_size f <? offset + size - 4294967296) with false by blia.
  by rewrite (u32_id (off + offset)) by lia.
Qed.

(** ** Initialisation *)

Section Init.
Context `{Linkage}.
Hypothesis Hsyms : 0 <= sym_initrd_read < 4294967296 /\ 0 <= sym_initrd_readdir < 4294967296 /\
  0 <= sym_initrd_finddir < 4294967296.

Lemma init_directory_spec node s :
  0 <= node -> node + 184 < 4294967296 ->
  wp (init_directory node) (fun _ s' => exists m', s' = set_mem m' s /\ directory_node m' node /\
    same_outside (node + 128) (node + 184) (mem s) m') s.
Proof using Hsyms.
  intros H0 H1. unfold init_directory, node_length, node_inode, node_gid, node_uid, node_mask, node_flags,
    node_read, node_write, node_open, node_close, node_readdir, node_finddir, node_ptr, node_impl.
  k_steps. cbn [mem set_mem]. rewrite !set_mem_set_mem. eexists. split; [reflexivity|]. split.
  - constructor; unfold node_flags, node_readdir, node_finddir, node_read; read_stores; apply u32_id;
      unfold FS_DIRECTORY; lia.
  - intros b Hb Hn. by read_stores.
Qed.

Section File.
Context (s : kstate) (loc size n : Z) (i : nat) (f : file) (off : Z).
Let h : Z := loc + 4 + 76 * Z.of_nat i.
Let rn : Z := root_nodes (fs s) + 184 * Z.of_nat i.
Hypothesis Hloc : 0 <= loc /\ loc + size < 4294967296.
Hypothesis Hi : 0 <= Z.of_nat i < n /\ n < 65536.
Hypothesis Hheaders : file_headers (fs s) = loc + 4.
Hypothesis Hnodes : 0 < root_nodes (fs s) /\ root_nodes (fs s) + 184 * n < 4294967296.
Hypothesis Hapart : root_nodes (fs s) + 184 * n <= loc \/ loc + size <= root_nodes (fs s).
Hypothesis Hoff : 4 + 76 * n <= off /\ off + file_size f <= size.
Hypothesis Hvalid : valid_file f.
Hypothesis Hheader : header_of (mem s) h loc off f.
Hypothesis Hzero : forall b, rn <= b < rn + 184 -> load8 (mem s) b = 0.

(** The addresses of the header's offset and of the node. *)
Definition written (b : Z) : Prop := h + 68 <= b < h + 72 \/ rn <= b < rn + 184.

Lemma file_places :
  loc + 4 <= h /\ h + 76 <= loc + 4 + 76 * n /\ h + 76 <= loc + size /\
  root_nodes (fs s) <= rn /\ rn + 184 <= root_nodes (fs s) + 184 * n /\ 0 <= file_size f < 4294967296.
Proof using Hi Hloc Hoff Hvalid. unfold h, rn. unfold file_size in *. lia. Qed.

Lemma header_moved m :
  same_on (fun b => ~ written b) (mem s) m -> load32 m (h + 68) = off + loc -> header_of m h 0 (loc + off) f.
Proof using Hloc Hi Hnodes Hapart Hoff Hvalid Hheader.
  intros Hs Ho. pose proof file_places as (? & ? & ? & ? & ? & ?).
  destruct Hheader as [Hname _ Hlen Hcon [Hoff0 Hend]]. destruct Hvalid as (Hne & Hl64 & Hby).
  unfold written in Hs. clearbody h rn. constructor; [| | | |lia].
  - rewrite <- Hname. apply bytes_ext. intros j Hj. unfold header_name. apply Hs; lia.
  - unfold header_offset. lia.
  - rewrite <- Hlen. unfold header_length. eapply load32_same_on; [exact Hs|unfold region; lia|].
    intros b Hb. cbv beta; lia.
  - rewrite <- Hcon at 2. apply bytes_ext. intros j Hj. unfold file_size in *. rewrite Hs by lia. done.
Qed.

Lemma init_file_spec :
  wp (init_file loc (Z.of_nat i)) (fun _ s' => exists m', s' = set_mem m' s /\
    header_of m' h 0 (loc + off) f /\ node_of m' rn (Z.of_nat i) f /\
    same_on (fun b => ~ written b) (mem s) m') s.
Proof using Hsyms Hloc Hi Hheaders Hnodes Hapart Hoff Hvalid Hheader Hzero.
  pose proof header_moved as Hmoved. pose proof file_places as (Hh0 & Hh1 & Hh2 & Hr0 & Hr1 & Hfs).
  destruct Hheader as [Hname Ho Hlen _ _]. destruct Hvalid as (Hne & Hl64 & Hby).
  unfold init_file, file_header, root_node, get_fs, sizeof_file_header, sizeof_fs_node. k_step. k_step. k_step.
  rewrite Hheaders. replace (loc + 4 + 76 * Z.of_nat i) with h by done. rewrite (u32_id h) by lia.
  k_step. k_step. k_step. rewrite Ho, (u32_id (off + loc)) by lia. k_steps.
  cbn [fs mem set_mem]. replace (root_nodes (fs s) + 184 * Z.of_nat i) with rn by done.
  rewrite (u32_id rn) by lia. set (m1 := store32 (mem s) (header_offset h) (off + loc)).
  assert (Hm1 : same_outside (h + 68) (h + 72) (mem s) m1).
  { eapply same_outside_weaken; [..|apply store32_outside]; unfold header_offset, region; lia. }
  unfold written in *. clearbody h rn. eapply wp_mono.
  { apply (strcpy_spec rn (ptr (header_name h)) (fname f)); [done|unfold region; lia|].
    unfold header_name in *.
    apply ptr_source_apart; [done|lia|unfold region; lia|lia|].
    rewrite <- Hname. eapply bytes_frame; [exact Hm1|unfold region; lia|lia]. }
  intros [] t (m2 & -> & Hm2 & Hb2). cbn [mem set_mem] in Hm2.
  unfold node_length, node_inode, node_gid, node_uid, node_mask, node_flags,
    node_read, node_write, node_open, node_close, node_readdir, node_finddir, node_impl.
  k_steps. cbn [mem set_mem]. rewrite !set_mem_set_mem. unfold header_offset, header_length in *.
  assert (Hlen' : load32 (store32 (store32 (store32 m2 (rn + 136) 0) (rn + 132) 0) (rn + 128) 0) (h + 72)
    = file_size f).
  { rewrite <- Hlen. read_stores. rewrite (load32_frame _ _ _ _ Hm2 (h + 72)) by (unfold region; lia).
    eapply load32_frame; [exact Hm1|unfold region; lia|lia]. }
  rewrite Hlen'. eexists. split; [reflexivity|]. set (m3 := store32 _ (rn + 152) 0).
  assert (Hm3 : same_outside (rn + 128) (rn + 184) m2 m3) by (intros b Hb Hn; unfold m3; by read_stores).
  assert (Hm : same_on (fun b => ~ (h + 68 <= b < h + 72 \/ rn <= b < rn + 184)) (mem s) m3).
  { intros b Hb Hn. rewrite Hm3, Hm2, Hm1 by lia. done. }
  split; [|split; [|exact Hm]].
  - apply Hmoved; [exact Hm|].
    rewrite (load32_frame _ _ _ _ Hm3 (h + 68)), (load32_frame _ _ _ _ Hm2 (h + 68)) by (unfold region; lia).
    unfold m1. read_stores. rewrite u32_id; lia.
  - constructor; unfold node_length, node_inode, node_flags, node_read, m3;
      [|read_stores; rewrite ?u32_id by lia; reflexivity..]. fold m3. apply bytes_snoc.
    + rewrite (bytes_frame _ _ _ _ Hm3) by (unfold region; lia). exact Hb2.
    + rewrite Hm3, Hm2, Hm1 by lia. apply Hzero. lia.
Qed.
End File.

(** What a header or a node says depends on its own bytes and on the file's. *)
Lemma bytes_same_on (P : Z -> Prop) m m' a k :
  same_on P m m' -> 0 <= a -> a + Z.of_nat k <= 4294967296 ->
  (forall b, a <= b < a + Z.of_nat k -> P b) -> bytes m' a k = bytes m a k.
Proof using. intros Hs ?? HP. apply bytes_ext. intros j Hj. apply Hs; [lia|]. apply HP. lia. Qed.

Lemma header_of_frame (P : Z -> Prop) m m' h base off f :
  header_of m h base off f -> same_on P m m' -> valid_file f ->
  0 <= h -> h + 76 < 4294967296 -> 0 <= base ->
  (forall b, h <= b < h + 76 -> P b) ->
  (forall b, base + off <= b < base + off + file_size f -> P b) -> header_of m' h base off f.
Proof using.
  intros [Hn Ho Hl Hc [He1 He2]] Hs (_ & Hl64 & _) ? ? ? HPh HPc.
  unfold header_name, header_offset, header_length, file_size in *. constructor.
  - rewrite <- Hn. eapply bytes_same_on; [exact Hs|lia|lia|]. intros b Hb. apply HPh. lia.
  - rewrite <- Ho. eapply load32_same_on; [exact Hs|unfold region, header_offset; lia|].
    unfold header_offset. intros b Hb. apply HPh. lia.
  - etransitivity; [|exact Hl]. eapply load32_same_on; [exact Hs|unfold region, header_length; lia|].
    unfold header_length. intros b Hb. apply HPh. lia.
  - etransitivity; [|exact Hc]. eapply bytes_same_on; [exact Hs|lia|lia|]. intros b Hb. apply HPc. lia.
  - unfold file_size. lia.
Qed.

Lemma node_of_frame (P : Z -> Prop) m m' n i f :
  node_of m n i f -> same_on P m m' -> valid_file f -> 0 <= n -> n + 184 < 4294967296 ->
  (forall b, n <= b < n + 184 -> P b) -> node_of m' n i f.
Proof using.
  intros [Hn H1 H2 H3 H4] Hs (_ & Hl64 & _) ? ? HP.
  assert (Hw : forall k, 0 <= k <= 180 -> load32 m' (n + k) = load32 m (n + k)).
  { intros k Hk. eapply load32_same_on; [exact Hs|unfold region; lia|]. intros b Hb. apply HP. lia. }
  unfold node_length, node_inode, node_flags, node_read in *.
  constructor; unfold node_length, node_inode, node_flags, node_read; [|by rewrite Hw by lia..].
  rewrite <- Hn. eapply bytes_same_on; [exact Hs|lia|lia|]. intros b Hb. apply HP. lia.
Qed.

Lemma directory_node_frame (P : Z -> Prop) m m' n :
  directory_node m n -> same_on P m m' -> 0 <= n -> n + 184 < 4294967296 ->
  (forall b, n + 128 <= b < n + 184 -> P b) -> directory_node m' n.
Proof using.
  intros [H1 H2 H3 H4] Hs ? ? HP.
  assert (Hw : forall k, 128 <= k <= 180 -> load32 m' (n + k) = load32 m (n + k)).
  { intros k Hk. eapply load32_same_on; [exact Hs|unfold region; lia|]. intros b Hb. apply HP. lia. }
  unfold node_flags, node_readdir, node_finddir, node_read in *.
  constructor; unfold node_flags, node_readdir, node_finddir, node_read; by rewrite Hw by lia.
Qed.

(** The headers of an image with a file are inside it. *)
Lemma image_headers m loc size files i :
  image_at m loc size files -> (i < length files)%nat ->
  4 + 76 * Z.of_nat (length files) <= size.
Proof using.
  intros Himg Hi. destruct (lookup_lt_is_Some_2 files i Hi) as [g Hg].
  destruct (img_file _ _ _ _ Himg _ _ Hg) as (_ & o & ? & ? & _). unfold file_size in *. lia.
Qed.

(** *** The loop over the files *)

Section Files.
Context (loc size : Z) (files : list file) (s : kstate).
Let n : Z := Z.of_nat (length files).
Hypothesis Himg : image_at (mem s) loc size files.
Hypothesis Hheaders : file_headers (fs s) = loc + 4.
Hypothesis Hnodes : 0 < root_nodes (fs s) /\ root_nodes (fs s) + 184 * n < 4294967296.
Hypothesis Hapart : root_nodes (fs s) + 184 * n <= loc \/ loc + size <= root_nodes (fs s).
Hypothesis Hzero : forall b, root_nodes (fs s) <= b < root_nodes (fs s) + 184 * n -> load8 (mem s) b = 0.

Definition header_at (i : nat) : Z := loc + 4 + 76 * Z.of_nat i.
Definition node_at (i : nat) : Z := root_nodes (fs s) + 184 * Z.of_nat i.

Definition raw (m : memory) (i : nat) (f : file) : Prop :=
  (exists off, 4 + 76 * n <= off /\ off + file_size f <= size /\ header_of m (header_at i) loc off f) /\
  (forall b, node_at i <= b < node_at i + 184 -> load8 m b = 0).

Definition ready (m : memory) (i : nat) (f : file) : Prop :=
  (exists off, loc + 4 + 76 * n <= off /\ off + file_size f <= loc + size /\ header_of m (header_at i) 0 off f) /\
  node_of m (node_at i) (Z.of_nat i) f.

(** The addresses that [init_file] leaves alone. *)
Definition elsewhere (i : nat) (b : Z) : Prop :=
  ~ (header_at i + 68 <= b < header_at i + 72 \/ node_at i <= b < node_at i + 184).

Lemma other_file m m' i j f :
  same_on (elsewhere i) m m' -> i <> j -> valid_file f ->
  (i < length files)%nat -> (j < length files)%nat ->
  (raw m j f -> raw m' j f) /\ (ready m j f -> ready m' j f).
Proof using Himg Hnodes Hapart.
  intros Hs Hne Hv Hi Hj. destruct (img_range _ _ _ _ Himg).
  pose proof (image_headers _ _ _ _ _ Himg Hj) as Hsize. fold n in Hsize.
  assert (Hin : Z.of_nat i < n /\ Z.of_nat j < n) by (unfold n; lia).
  assert (Hhead : forall b, header_at j <= b < header_at j + 76 -> elsewhere i b).
  { intros b Hb. unfold elsewhere, header_at, node_at in *. lia. }
  assert (Hnode : forall b, node_at j <= b < node_at j + 184 -> elsewhere i b).
  { intros b Hb. unfold elsewhere, header_at, node_at in *. lia. }
  assert (Hdata : forall b, loc + 4 + 76 * n <= b < loc + size -> elsewhere i b).
  { intros b Hb. unfold elsewhere, header_at, node_at. lia. }
  assert (Hr : 0 <= header_at j /\ header_at j + 76 < 4294967296 /\ 0 <= node_at j /\ node_at j + 184 < 4294967296).
  { unfold header_at, node_at. lia. }
  split.
  - intros [(off & Ho1 & Ho2 & Hh) Hz]. split.
    + exists off. split; [done|]. split; [done|].
      eapply header_of_frame; [exact Hh|exact Hs|done|lia|lia|lia|done|]. intros b Hb. apply Hdata. lia.
    + intros b Hb. rewrite Hs by (lia || by apply Hnode). by apply Hz.
  - intros [(off & Ho1 & Ho2 & Hh) Hnd]. split.
    + exists off. split; [done|]. split; [done|].
      eapply header_of_frame; [exact Hh|exact Hs|done|lia|lia|lia|done|]. intros b Hb. apply Hdata. lia.
    + eapply node_of_frame; [exact Hnd|exact Hs|done|lia|lia|done].
Qed.

(** The headers and the nodes; the loop writes nothing else. *)
Definition tables (b : Z) : Prop :=
  loc + 4 <= b < loc + 4 + 76 * n \/ root_nodes (fs s) <= b < root_nodes (fs s) + 184 * n.

(** Before round [k] the first [k] files are ready and the others as they were. *)
Record files_done (k : nat) (m : memory) : Prop := FilesDone {
  fd_range : (k <= length files)%nat;
  fd_ready : forall i f, files !! i = Some f -> (i < k)%nat -> ready m i f;
  fd_raw : forall i f, files !! i = Some f -> (k <= i)%nat -> raw m i f;
  fd_keeps : same_on (fun b => ~ tables b) (mem s) m
}.

Lemma files_start : files_done 0 (mem s).
Proof using Himg Hzero.
  constructor; [lia|intros; lia| |done]. intros i f Hf _. pose proof (lookup_lt_Some _ _ _ Hf).
  destruct (img_file _ _ _ _ Himg _ _ Hf) as (_ & off & Ho1 & Ho2 & Hh). split; [by exists off|].
  intros b Hb. apply Hzero. unfold node_at, n in *. lia.
Qed.

(** The loop reads the number of files, which it does not write. *)
Lemma files_count k m : files_done k m -> load32 m loc = n.
Proof using Himg Hapart Hnodes.
  intros [_ _ _ Hout]. transitivity (load32 (mem s) loc); [|exact (img_nfiles _ _ _ _ Himg)].
  pose proof (img_range _ _ _ _ Himg). pose proof (img_count _ _ _ _ Himg).
  eapply load32_same_on; [exact Hout|unfold region; lia|]. intros b Hb. unfold tables.
  destruct (decide (n = 0)); [unfold n in *; lia|].
  pose proof (image_headers _ _ _ _ 0%nat Himg ltac:(unfold n in *; lia)). unfold n in *. lia.
Qed.

Lemma files_step k f m :
  files_done k m -> files !! k = Some f ->
  wp (init_file loc (Z.of_nat k)) (fun _ t => exists m', t = set_mem m' s /\ files_done (S k) m') (set_mem m s).
Proof using Hsyms Himg Hheaders Hnodes Hapart.
  intros [Hk Hdone Hraw Hout] Hf. pose proof (lookup_lt_Some _ _ _ Hf) as Hlt.
  pose proof (img_range _ _ _ _ Himg). pose proof (img_count _ _ _ _ Himg).
  destruct (img_file _ _ _ _ Himg _ _ Hf) as (Hv & _).
  destruct (Hraw k f Hf ltac:(lia)) as [(off & Ho1 & Ho2 & Hh) Hz]. unfold n in *.
  eapply wp_mono; [apply (init_file_spec (set_mem m s) loc size n k f off); unfold n; done || lia|].
  intros [] t (m' & -> & Hh' & Hn' & Hs'). rewrite set_mem_set_mem. exists m'. split; [done|].
  change (same_on (elsewhere k) m m') in Hs'.
  assert (Hother : forall i g, files !! i = Some g -> k <> i ->
    (raw m i g -> raw m' i g) /\ (ready m i g -> ready m' i g)).
  { intros i g Hg Hne. pose proof (lookup_lt_Some _ _ _ Hg).
    apply (other_file m m' k i g); [done|done|by destruct (img_file _ _ _ _ Himg _ _ Hg)|done|done]. }
  constructor; [lia| | |].
  - intros i g Hg Hik. destruct (decide (i = k)) as [->|Hne].
    + assert (g = f) as -> by congruence. split; [|exact Hn'].
      exists (loc + off). split; [unfold n; lia|]. split; [lia|exact Hh'].
    + apply (proj2 (Hother i g Hg ltac:(done))). apply Hdone; [done|lia].
  - intros i g Hg Hik. apply (proj1 (Hother i g Hg ltac:(lia))). apply Hraw; [done|lia].
  - eapply same_on_trans; [exact Hout|]. intros b Hb Ht. apply Hs'; [done|].
    unfold elsewhere, header_at, node_at, tables, n in *. lia.
Qed.

Lemma init_files_spec :
  wp (while (fun counter => nfiles <- ld32 loc; ret (u32 counter <? nfiles))
        (fun counter => init_file loc counter >> ret (s32 (counter + 1))) 0)
    (fun _ s' => exists m', s' = set_mem m' s /\
       (forall i f, files !! i = Some f -> ready m' i f) /\
       same_on (fun b => ~ tables b) (mem s) m') s.
Proof using Hsyms Himg Hheaders Hnodes Hapart Hzero.
  pose proof (img_range _ _ _ _ Himg) as Hrange. pose proof (img_count _ _ _ _ Himg) as Hcount. fold n in Hcount.
  apply (wp_mem_while _ _
    (fun c m => exists k : nat, c = Z.of_nat k /\ files_done k m) (fun c => n - c)).
  - intros c m (k & -> & [Hk _ _ _]). unfold n. lia.
  - intros c m (k & -> & Hfd). pose proof (fd_range _ _ Hfd) as Hk. k_steps. cbn [mem set_mem].
    assert (Hkn : 0 <= Z.of_nat k <= n) by (unfold n; lia).
    rewrite (files_count _ _ Hfd), u32_id by lia. split; [done|].
    destruct (Z.of_nat k <? n) eqn:E; bool_hyps.
    + destruct (lookup_lt_is_Some_2 files k ltac:(unfold n in E; lia)) as [f Hf].
      apply wp_bind. eapply wp_mono; [by apply (files_step k f m)|].
      intros [] t (m' & -> & Hfd'). k_steps. exists m'. split; [done|].
      rewrite s32_id by lia. split; [|lia]. exists (S k). split; [lia|done].
    + split; [|by apply (fd_keeps k)]. intros i f Hf. apply (fd_ready _ _ Hfd); [done|].
      pose proof (lookup_lt_Some _ _ _ Hf). unfold n in E. lia.
  - exists 0%nat. split; [done|exact files_start].
  - lia.
Qed.
End Files.

(** *** The nodes of the directories *)

(** [s'] is [s] after a block of [sz] bytes at [p] has been allocated and perhaps
    written: nothing but allocator's and the block's bytes changed. *)
Record allocated `{Hal : AllocatorLaws} (p sz : Z) (s s' : kstate) : Prop := Allocated {
  al_addr : 0 < p /\ p + sz < 4294967296;
  al_fresh : forall b, p <= b < p + sz -> al_own s b /\ ~ al_own s' b;
  al_shrinks : forall b, al_own s' b -> al_own s b;
  al_keeps : same_on (fun b => ~ al_own s b) (mem s) (mem s');
  al_rest : exists m h g, s' = set_mem m (set_hp h (set_fs g s))
}.

Lemma make_directory `{Hal : AllocatorLaws} (g : Z -> fs_globals -> fs_globals) l (k : Z -> K Z) B Q s :
  l <> [] -> Z.of_nat (length l) < 128 -> Forall (fun b => 0 < b < 256) l ->
  216 <= B -> al_budget B s -> al_clean s ->
  (forall p s', allocated p 184 s s' -> fs s' = g p (fs s) -> directory_node (mem s') p ->
     al_budget (B - 216) s' -> al_clean s' -> wp (k p) Q s') ->
  wp (p <- kmalloc sizeof_fs_node; modify_fs (g p) >> strcpy p (lit l) >> init_directory p >> k p) Q s.
Proof using Hsyms.
  intros Hne Hl Hby HB Hbud Hclean Hk. apply wp_bind.
  eapply wp_mono; [apply (al_block B); [unfold sizeof_fs_node; lia|unfold sizeof_fs_node; lia|done]|].
  unfold sizeof_fs_node. intros p s1 (Hp0 & Hp1 & Hfresh & Hshrink & Hkeep & (m0 & h0 & Hst) & Hbud1 & Hcl).
  assert (Hfs : fs s1 = fs s) by (by rewrite Hst).
  destruct (Hcl Hclean) as [Hclean1 _]. unfold modify_fs. k_steps. set (s2 := set_fs _ s1).
  eapply wp_mono.
  { apply (strcpy_spec p (lit l) l s2); [done|unfold region; lia|]. apply lit_source_apart; [done|lia]. }
  intros [] t (m1 & -> & Hm1 & _). apply wp_bind.
  eapply wp_mono; [apply (init_directory_spec p); lia|].
  intros [] t (m2 & -> & Hdn & Hm2). cbn [mem set_mem] in Hm2. rewrite set_mem_set_mem.
  assert (Hm : same_outside p (p + 184) (mem s1) m2).
  { intros b Hb Hn. rewrite Hm2, Hm1 by lia. done. }
  assert (Hown : same_on (al_own s1) (mem s1) m2).
  { intros b Hb Ho. apply Hm; [done|]. intros Hin. by destruct (Hfresh b Hin). }
  destruct (al_stable m2 (g p (fs s1)) s1 Hown) as (Hb' & Hc' & Ho').
  change (set_mem m2 s2) with (set_fs (g p (fs s1)) (set_mem m2 s1)).
  apply Hk; [|cbn; by rewrite Hfs|done|apply Hb'; by replace (B - 216) with (B - 184 - 32) by lia|by apply Hc'].
  constructor; [done| | | |].
  - intros b Hb. destruct (Hfresh b Hb) as [H1 H2]. split; [done|]. intros H3. by apply Ho' in H3.
  - intros b H3. apply Ho' in H3. by apply Hshrink.
  - intros b Hb Ho. cbn [mem set_fs set_mem]. rewrite Hm.
    + by apply Hkeep.
    + done.
    + intros Hin. by destruct (Hfresh b Hin).
  - rewrite Hst. by eexists _, _, _.
Qed.

Lemma image_at_frame (P : Z -> Prop) m m' loc size files :
  image_at m loc size files -> same_on P m m' -> (forall b, loc <= b < loc + size -> P b) ->
  image_at m' loc size files.
Proof using.
  intros [Hr Hc Hn Hf] Hs HP. constructor; [done|done| |].
  - rewrite <- Hn. eapply load32_same_on; [exact Hs|unfold region; lia|]. intros b Hb. apply HP. lia.
  - intros i f Hi. destruct (Hf i f Hi) as (Hv & off & H1 & H2 & Hh). split; [done|]. exists off.
    split; [done|]. split; [done|]. pose proof (lookup_lt_Some _ _ _ Hi). unfold file_size in *.
    eapply header_of_frame; [exact Hh|exact Hs|done|lia|lia|lia| |].
    + intros b Hb. apply HP. lia.
    + intros b Hb. apply HP. unfold file_size in *. lia.
Qed.

(** The memory of the nodes. *)
Definition nodes_mem (g : fs_globals) (n b : Z) : Prop :=
  initrd_root g <= b < initrd_root g + 184 \/ initrd_dev g <= b < initrd_dev g + 184 \/
  root_nodes g <= b < root_nodes g + 184 * n.

(** A ramdisk is its nodes and its image. *)
Lemma ramdisk_frame (P : Z -> Prop) loc size files s s' :
  ramdisk_at s files -> same_on P (mem s) (mem s') ->
  initrd_root (fs s') = initrd_root (fs s) -> initrd_dev (fs s') = initrd_dev (fs s) ->
  root_nodes (fs s') = root_nodes (fs s) -> nroot_nodes (fs s') = nroot_nodes (fs s) ->
  file_headers (fs s') = file_headers (fs s) -> file_headers (fs s) = loc + 4 ->
  initrd_root (fs s) + 184 < 4294967296 -> initrd_dev (fs s) + 184 < 4294967296 ->
  4 + 76 * Z.of_nat (length files) <= size ->
  (forall i f off, files !! i = Some f -> header_of (mem s) (loc + 4 + 76 * Z.of_nat i) 0 off f ->
     loc <= off /\ off + file_size f <= loc + size) ->
  (forall b, nodes_mem (fs s) (Z.of_nat (length files)) b \/ loc <= b < loc + size -> P b) ->
  ramdisk_at s' files.
Proof using.
  intros [Hc Hb Hh Hn Hf [Hr1 Hr2] [Hd1 Hd2]] Hs E1 E2 E3 E4 E5 Eh Hrr Hdd Hsize Hoff HP. unfold nodes_mem in HP.
  constructor; rewrite ?E1, ?E2, ?E3, ?E4, ?E5; try done.
  - intros i f Hi. destruct (Hf i f Hi) as (Hv & Hnode & off & Hhd). split; [done|].
    pose proof (lookup_lt_Some _ _ _ Hi). split.
    + eapply node_of_frame; [exact Hnode|exact Hs|done|lia|lia|]. intros b Hbb. apply HP. left. right. right. lia.
    + exists off. rewrite Eh in Hhd |- *. destruct (Hoff i f off Hi Hhd) as [Ho1 Ho2].
      eapply header_of_frame; [exact Hhd|exact Hs|done|lia|lia|lia| |]; intros b Hbb; apply HP; right; lia.
  - split; [done|]. eapply directory_node_frame; [exact Hr2|exact Hs|lia|lia|]. intros b Hbb. apply HP. left. left. lia.
  - split; [done|]. eapply directory_node_frame; [exact Hd2|exact Hs|lia|lia|]. intros b Hbb. apply HP. left. right. left. lia.
Qed.

(** A directory's node survives what leaves other memory than the allocator's. *)
Lemma directory_kept `{Hal : AllocatorLaws} p m s1 s2 :
  directory_node (mem s1) p -> 0 < p -> p + 184 < 4294967296 ->
  (forall b, p <= b < p + 184 -> ~ al_own s1 b) ->
  same_on (fun b => ~ al_own s1 b) (mem s1) m -> mem s2 = m -> directory_node (mem s2) p.
Proof using.
  intros Hd ?? Hf Hs ->. eapply directory_node_frame; [exact Hd|exact Hs|lia|lia|]. intros b Hb. apply Hf. lia.
Qed.

Section Start.
Context `{Hal : AllocatorLaws} (loc size : Z) (files : list file) (s : kstate) (B : Z).
Let n : Z := Z.of_nat (length files).
Hypothesis Hfiles : files <> [].
Hypothesis Himg : image_at (mem s) loc size files.
Hypothesis Hown : forall b, loc <= b < loc + size -> ~ al_own s b.
Hypothesis Hbudget : al_budget B s /\ 464 + 184 * n <= B.
Hypothesis Hclean : al_clean s.

Lemma start_bounds : 0 < n < 65536 /\ 0 <= loc /\ loc + size < 4294967296 /\ 4 + 76 * n <= size.
Proof using Hfiles Himg.
  clear Hbudget. pose proof (img_range _ _ _ _ Himg). pose proof (img_count _ _ _ _ Himg).
  assert (0 < n) by (unfold n; destruct files; [done|cbn; lia]).
  pose proof (image_headers _ _ _ _ 0%nat Himg ltac:(unfold n in *; lia)). unfold n in *. lia.
Qed.

(** The state in which the loop over the files begins: the nodes are allocated,
    those of the directories are filled in, those of the files are zero. *)
Record laid_out (root dev nodes : Z) (s4 : kstate) : Prop := LaidOut {
  lo_fields : fs s4 = FsGlobals (fs_root (fs s)) loc (loc + 4) root dev nodes n;
  lo_addrs : (0 < root /\ root + 184 < 4294967296) /\ (0 < dev /\ dev + 184 < 4294967296) /\
    (0 < nodes /\ nodes + 184 * n < 4294967296);
  lo_keeps : same_on (fun b => ~ al_own s b) (mem s) (mem s4);
  lo_shrinks : forall b, al_own s4 b -> al_own s b;
  lo_fresh : forall b, nodes_mem (fs s4) n b -> al_own s b /\ ~ al_own s4 b;
  lo_apart : forall b, root <= b < root + 184 \/ dev <= b < dev + 184 -> ~ (nodes <= b < nodes + 184 * n);
  lo_root : directory_node (mem s4) root;
  lo_dev : directory_node (mem s4) dev;
  lo_zero : forall b, nodes <= b < nodes + 184 * n -> load8 (mem s4) b = 0;
  lo_rest : exists m h g, s4 = set_mem m (set_hp h (set_fs g s))
}.

Lemma lay_out (k : K Z) Q :
  (forall root dev nodes s4, laid_out root dev nodes s4 -> wp k Q s4) ->
  wp (modify_fs (set_initrd_header loc) >>
      modify_fs (set_file_headers (u32 (loc + 4))) >>
      root <- kmalloc sizeof_fs_node;
      modify_fs (set_initrd_root root) >>
      strcpy root (lit (str "initrd")) >>
      init_directory root >>
      dev <- kmalloc sizeof_fs_node;
      modify_fs (set_initrd_dev dev) >>
      strcpy dev (lit (str "dev")) >>
      init_directory dev >>
      nfiles <- ld32 loc;
      nodes <- kmalloc (u32 (sizeof_fs_node * nfiles));
      modify_fs (set_root_nodes nodes) >>
      nfiles <- ld32 loc;
      modify_fs (set_nroot_nodes (s32 nfiles)) >> k) Q s.
Proof using Hsyms Hfiles Himg Hown Hbudget Hclean.
  intros Hk. pose proof start_bounds as (Hn & Hloc & Hend & Hsize).
  destruct Hbudget as [Hbud HB]. unfold modify_fs at 1 2. do 4 k_step.
  set (s0 := set_fs _ _).
  assert (Hs0 : s0 = set_fs (fs s0) (set_mem (mem s) s)) by (by rewrite set_mem_id).
  destruct (al_stable (mem s) (fs s0) s (same_on_refl _ _)) as (Hb0 & Hc0 & Ho0). rewrite <- Hs0 in Hb0, Hc0, Ho0.
  apply (make_directory set_initrd_root (str "initrd") _ B); [done|simpl; lia|repeat constructor|lia|auto|auto|].
  intros root s1 [Hr0 Hrf Hrs Hrk Hrr] Hfs1 Hrd Hb1 Hc1.
  apply (make_directory set_initrd_dev (str "dev") _ (B - 216)); [done|simpl; lia|repeat constructor|lia|done|done|].
  intros dev s2 [Hd0 Hdf Hds Hdk Hdr] Hfs2 Hdd Hb2 Hc2.
  assert (H02 : same_on (fun b => ~ al_own s b) (mem s) (mem s2)).
  { intros b Hb Ho. rewrite Hdk, Hrk; [done|done|by rewrite Ho0|done|].
    intros Ho1. apply Ho, Ho0. by apply Hrs. }
  pose proof (image_at_frame _ _ _ _ _ _ Himg H02 Hown) as Himg2.
  unfold sizeof_fs_node. k_step. k_step. rewrite (img_nfiles _ _ _ _ Himg2). fold n. rewrite u32_id by lia.
  apply wp_bind. eapply wp_mono; [apply (al_block (B - 216 - 216)); [lia|lia|done]|].
  intros nodes s3 (Hn0 & Hn1 & Hnf & Hns & Hnk & (mn & hn & Hst3) & _ & Hcl). destruct (Hcl Hc2) as [_ Hz].
  assert (Hfs3 : fs s3 = fs s2) by (by rewrite Hst3).
  assert (H03 : same_on (fun b => ~ al_own s b) (mem s) (mem s3)).
  { intros b Hb Ho. rewrite Hnk; [by apply H02|done|]. intros Ho1. apply Ho, Ho0. by apply Hrs, Hds. }
  pose proof (image_at_frame _ _ _ _ _ _ Himg H03 Hown) as Himg3.
  unfold modify_fs. do 4 k_step. cbn [mem set_fs]. rewrite (img_nfiles _ _ _ _ Himg3). fold n.
  rewrite s32_id by lia. do 2 k_step. set (s4 := set_fs _ _).
  destruct (al_stable (mem s3) (fs s4) s3 (same_on_refl _ _)) as (_ & _ & Ho4).
  assert (Hs4 : set_fs (fs s4) (set_mem (mem s3) s3) = s4) by (by rewrite set_mem_id).
  cbv zeta in Ho4. rewrite Hs4 in Ho4.
  assert (Hfields : fs s4 = FsGlobals (fs_root (fs s)) loc (loc + 4) root dev nodes n).
  { cbn [s4 fs set_fs]. rewrite Hfs3, Hfs2, Hfs1. cbn. by rewrite u32_id by lia. }
  apply (Hk root dev nodes). constructor; rewrite ?Hfields; try done.
  - intros b Hb. by apply Ho0, Hrs, Hds, Hns, Ho4.
  - unfold nodes_mem. cbn [initrd_root initrd_dev root_nodes]. intros b. rewrite Ho4. intros [Hb|[Hb|Hb]].
    + destruct (Hrf b Hb) as [H1 H2]. split; [by apply Ho0|]. intros H3. by apply H2, Hds, Hns.
    + destruct (Hdf b Hb) as [H1 H2]. split; [by apply Ho0, Hrs|]. intros H3. by apply H2, Hns.
    + destruct (Hnf b Hb) as [H1 H2]. split; [by apply Ho0, Hrs, Hds|done].
  - intros b Hb Hin. destruct (Hnf b Hin) as [H1 _]. destruct Hb as [Hb|Hb].
    + destruct (Hrf b Hb) as [_ H2]. by apply H2, Hds.
    + by destruct (Hdf b Hb).
  - apply (directory_kept root (mem s3) s2); [|lia|lia| |done|done].
    + apply (directory_kept root (mem s2) s1); [done|lia|lia| |done|done]. intros b Hb. by destruct (Hrf b Hb).
    + intros b Hb Ho. destruct (Hrf b Hb) as [_ H2]. by apply H2, Hds.
  - apply (directory_kept dev (mem s3) s2); [done|lia|lia| |done|done]. intros b Hb. by destruct (Hdf b Hb).
  - destruct Hrr as (? & ? & ? & ->), Hdr as (? & ? & ? & Hdr). rewrite Hdr in Hst3.
    unfold s4. rewrite Hst3. by eexists _, _, _.
Qed.

Section Filled.
Context (root dev nodes : Z) (s4 : kstate).
Hypothesis Hlo : laid_out root dev nodes s4.

Lemma laid_image : image_at (mem s4) loc size files.
Proof using Himg Hown Hlo. destruct Hlo. eapply image_at_frame; [exact Himg|eassumption|exact Hown]. Qed.

Lemma laid_apart : nodes + 184 * n <= loc \/ loc + size <= nodes.
Proof using Hfiles Himg Hown Hlo.
  pose proof start_bounds as (Hn & Hloc & Hend & Hsize).
  destruct (decide (nodes + 184 * n <= loc)); [by left|]. destruct (decide (loc + size <= nodes)); [by right|].
  exfalso. apply (Hown (Z.max nodes loc)); [lia|]. destruct Hlo. apply lo_fresh0. rewrite lo_fields0.
  right. right. cbn [root_nodes]. lia.
Qed.

Context (m : memory).
Hypothesis Hready : forall i f, files !! i = Some f -> ready loc size files s4 m i f.
Hypothesis Hm : same_on (fun b => ~ tables loc files s4 b) (mem s4) m.

Lemma laid_tables b : tables loc files s4 b <-> loc + 4 <= b < loc + 4 + 76 * n \/ nodes <= b < nodes + 184 * n.
Proof using Hlo. unfold tables. by rewrite (lo_fields _ _ _ _ Hlo). Qed.

(** A directory's node is in neither table. *)
Lemma laid_directory p :
  p = root \/ p = dev -> directory_node (mem s4) p -> directory_node m p.
Proof using Hfiles Himg Hown Hlo Hm.
  intros Hp Hd. pose proof start_bounds as (Hn & Hloc & Hend & Hsize). pose proof Hlo as [].
  eapply directory_node_frame; [exact Hd|exact Hm|destruct Hp; lia|destruct Hp; lia|].
  intros b Hb. cbv beta. rewrite laid_tables. intros [Hin|Hin].
  - apply (Hown b); [lia|]. apply lo_fresh0. rewrite lo_fields0. unfold nodes_mem. cbn [initrd_root initrd_dev].
    destruct Hp as [-> | ->]; [left; lia|right; left; lia].
  - apply (lo_apart0 b); [|done]. destruct Hp as [-> | ->]; [left; lia|right; lia].
Qed.

Lemma filled_ramdisk : ramdisk_at (set_mem m s4) files.
Proof using Hfiles Himg Hown Hlo Hready Hm.
  pose proof start_bounds as (Hn & Hloc & Hend & Hsize). pose proof Hlo as [].
  constructor; cbn [fs mem set_mem]; rewrite ?lo_fields0;
    cbn [nroot_nodes file_headers root_nodes initrd_root initrd_dev]; try fold n; try lia.
  - intros i f Hi. destruct (img_file _ _ _ _ Himg _ _ Hi) as (Hv & _).
    destruct (Hready i f Hi) as [(off & _ & _ & Hh) Hnode]. split; [done|].
    unfold node_at in Hnode. rewrite lo_fields0 in Hnode. split; [exact Hnode|]. by exists off.
  - split; [lia|]. apply laid_directory; [by left|done].
  - split; [lia|]. apply laid_directory; [by right|done].
Qed.

(** The loop does not write what the allocator still owns. *)
Lemma filled_own b : al_own (set_mem m s4) b -> al_own s4 b.
Proof using Hfiles Himg Hown Hlo Hm.
  pose proof start_bounds as (Hn & Hloc & Hend & Hsize). pose proof Hlo as [].
  destruct (al_stable m (fs s4) s4) as (_ & _ & Ho).
  { intros b' Hb' Ho'. apply Hm; [done|]. cbv beta. rewrite laid_tables. intros [Hin|Hin].
    - apply (Hown b'); [lia|]. by apply lo_shrinks0.
    - destruct (lo_fresh0 b') as [_ H2]; [|done]. rewrite lo_fields0. right. right. done. }
  apply Ho.
Qed.
End Filled.

Lemma initialise_initrd_spec :
  wp (initialise_initrd loc) (fun r s' => r = initrd_root (fs s') /\ ramdisk_at s' files /\
    file_headers (fs s') = loc + 4 /\
    (forall i f off, files !! i = Some f -> header_of (mem s') (loc + 4 + 76 * Z.of_nat i) 0 off f ->
       loc <= off /\ off + file_size f <= loc + size) /\
    (forall b, al_own s' b -> al_own s b) /\
    same_on (fun b => ~ al_own s b /\ ~ (loc + 4 <= b < loc + 4 + 76 * n)) (mem s) (mem s') /\
    (forall b, nodes_mem (fs s') n b -> al_own s b) /\
    exists m h g, s' = set_mem m (set_hp h (set_fs g s))) s.
Proof using Hsyms Hfiles Himg Hown Hbudget Hclean.
  apply lay_out. intros root dev nodes s4 Hlo. pose proof (laid_image _ _ _ _ Hlo) as Himg4.
  pose proof start_bounds as (Hn & Hloc & Hend & Hsize).
  pose proof Hlo as [Hfields ? Hkeeps Hshrinks Hfresh _ _ _ Hz (m0 & h0 & g0 & Hst)].
  apply wp_bind. eapply wp_mono; [apply (init_files_spec loc size files s4); rewrite ?Hfields; try done|].
  - cbn [root_nodes]. fold n. lia.
  - by apply (laid_apart root dev nodes s4).
  - intros c t (m & -> & Hready & Hm). unfold get_fs. k_steps. cbn [fs mem set_mem].
    split; [done|]. split; [by apply (filled_ramdisk root dev nodes)|]. split; [by rewrite Hfields|].
    split; [|split; [|split; [|split; [|]]]].
    + intros i f off Hi Hh. destruct (Hready i f Hi) as [(off' & H1 & H2 & Hh') _].
      pose proof (ho_offset _ _ _ _ _ Hh). pose proof (ho_offset _ _ _ _ _ Hh'). unfold header_at in *. lia.
    + intros b Hb. by apply Hshrinks, (filled_own root dev nodes s4 Hlo m Hm).
    + intros b Hb [Ho Hin]. rewrite Hm; [by apply Hkeeps|done|]. cbv beta.
      rewrite (laid_tables root dev nodes s4 Hlo). intros [?|?]; [done|].
      apply Ho, Hfresh. rewrite Hfields. right. by right.
    + intros b Hb. by apply Hfresh.
    + rewrite Hst. by eexists _, _, _.
Qed.
End Start.
End Init.
