(* ===== verification/Mkinit.v ===== *)
(** * The image builder [utils/mkinit.c]

    A program of the host that writes the ramdisk image the kernel reads: the
    number of files, 64 headers, and the contents.  The host's files are a
    function from paths to bytes, and the initial bytes of the automatic array
    [headers] are an argument. *)

From Stdlib Require Import ZArith Lia List String.
From stdpp Require Import base list gmap.
From S2P Require Import Prelude Machine Kernel Common Monitor OrderedArray Kmalloc Frames Paging Kheap KheapBoot Fs Initrd.

(** ** Definitions *)

Inductive mk_result : Type :=
  | Written (image : list Z)    (** returns 0; "initrd.img" holds [image] *)
  | NotFound                    (** returns 1 *)
  | Overrun.                    (** a write outside [headers]: undefined *)

(** The bytes [bs] written over [l] at [pos]. *)
Definition put (l : list Z) (pos : nat) (bs : list Z) : list Z :=
  take pos l ++ bs ++ drop (pos + length bs) l.

Definition le32 (v : Z) : list Z := [u8 v; u8 (v / 256); u8 (v / 65536); u8 (v / 16777216)].

(** [argv[i*2+1]] and [argv[i*2+2]], for [i] from 0: one argument may be left over. *)
Fixpoint pairs {A} (argv : list A) : list (A * A) :=
  match argv with
  | path :: name :: argv => (path, name) :: pairs argv
  | _ => []
  end.

Section Mkinit.
Context (host : list Z -> option (list Z)).

(** The first loop: [args] are the remaining pairs of path and name, [i] the
    next header. *)
Fixpoint write_headers (args : list (list Z * list Z)) (i : nat) (off : Z) (headers : list Z)
    : list Z + mk_result :=
  match args with
  | [] => inl headers
  | (path, name) :: args =>
      if decide (76 * i + 1 + S (length name) <= length headers)%nat then
        let headers := put headers (76 * i + 1) (name ++ [0]) in
        let headers := put headers (76 * i + 68) (le32 off) in
        match host path with
        | None => inr NotFound
        | Some data =>
            let len := u32 (Z.of_nat (length data)) in
            let headers := put headers (76 * i + 72) (le32 len) in
            let headers := put headers (76 * i) [191] in
            write_headers args (S i) (u32 (off + len)) headers
        end
      else inr Overrun
  end.

(** The second loop: as many bytes of each file as its header says. *)
Fixpoint write_contents (args : list (list Z * list Z)) : list Z :=
  match args with
  | [] => []
  | (path, _) :: args =>
      let data := default [] (host path) in
      let len := u32 (Z.of_nat (length data)) in
      take (Z.to_nat len) data ++ write_contents args
  end.

(** [argv] are the arguments behind the name of the program; [argc] is declared
    [char]. *)
Definition mkinit (garbage : list Z) (argv : list (list Z)) : mk_result :=
  let argc := s8 (1 + Z.of_nat (length argv)) in
  let nheaders := Z.quot (argc - 1) 2 in
  let args := take (Z.to_nat nheaders) (pairs argv) in
  match write_headers args 0 4868 garbage with
  | inl headers => Written (le32 nheaders ++ headers ++ write_contents args)
  | inr r => r
  end.
End Mkinit.

(** ** Properties *)

(** [n] elements of [l] from [pos]. *)
Definition slice {A} (pos n : nat) (l : list A) : list A := take n (drop pos l).

Lemma length_put l pos bs : (pos + length bs <= length l)%nat -> length (put l pos bs) = length l.
Proof. intros. unfold put. rewrite !length_app, length_take, length_drop. lia. Qed.

(** Writing a header does not change the length of the array. *)
Lemma length_header h i name v w :
  (76 * (i + 1) <= length h)%nat -> Z.of_nat (length name) < 64 ->
  length (put (put (put (put h (76 * i + 1) (name ++ [0])) (76 * i + 68) (le32 v)) (76 * i + 72) (le32 w))
            (76 * i) [191]) = length h.
Proof.
  intros Hh Hn. assert (length (name ++ [0]) = S (length name)) by (rewrite length_app; simpl; lia).
  assert (H1 : length (put h (76 * i + 1) (name ++ [0])) = length h) by (apply length_put; lia).
  assert (H2 : length (put (put h (76 * i + 1) (name ++ [0])) (76 * i + 68) (le32 v)) = length h)
    by (rewrite <- H1; apply length_put; cbn [length le32]; lia).
  rewrite length_put; rewrite length_put; cbn [length le32]; lia.
Qed.

Lemma slice_put_eq l pos bs :
  (pos + length bs <= length l)%nat -> slice pos (length bs) (put l pos bs) = bs.
Proof.
  intros. unfold slice, put. rewrite drop_app_ge by (rewrite length_take; lia).
  rewrite length_take, Nat.min_l, Nat.sub_diag, drop_0 by lia. by rewrite take_app_length.
Qed.

Lemma lookup_put_ne l pos bs i :
  (pos + length bs <= length l)%nat -> (i < pos \/ pos + length bs <= i)%nat ->
  put l pos bs !! i = l !! i.
Proof.
  intros Hl Hi. unfold put. destruct (decide (i < pos)%nat).
  - rewrite lookup_app_l by (rewrite length_take; lia). by rewrite lookup_take_lt.
  - rewrite lookup_app_r by (rewrite length_take; lia). rewrite length_take, Nat.min_l by lia.
    rewrite lookup_app_r by lia. rewrite lookup_drop. f_equal. lia.
Qed.

Lemma slice_ext {A} pos n (l l' : list A) :
  (forall i, (pos <= i < pos + n)%nat -> l !! i = l' !! i) -> slice pos n l = slice pos n l'.
Proof.
  intros H. unfold slice. apply list_eq. intros i. destruct (decide (i < n)%nat).
  - rewrite !lookup_take_lt, !lookup_drop by done. apply H. lia.
  - by rewrite !lookup_take_ge by lia.
Qed.

Lemma slice_put_ne l pos bs p n :
  (pos + length bs <= length l)%nat -> (p + n <= pos \/ pos + length bs <= p)%nat ->
  slice p n (put l pos bs) = slice p n l.
Proof. intros Hl Hp. apply slice_ext. intros i Hi. apply lookup_put_ne; [done|lia]. Qed.

(** Reading an image in memory. *)
Lemma bytes_slice m a l pos n :
  bytes m a (length l) = l -> (pos + n <= length l)%nat ->
  bytes m (a + Z.of_nat pos) n = slice pos n l.
Proof.
  intros Hl Hn. apply (list_eq_lookup_total _ _ n); [apply length_bytes| |].
  - unfold slice. rewrite length_take, length_drop. lia.
  - intros i x Hi Hx. unfold slice in Hx. rewrite lookup_take_lt, lookup_drop in Hx by done.
    rewrite <- Hl in Hx. rewrite lookup_bytes in Hx by lia. rewrite lookup_bytes by done.
    rewrite <- Hx. do 2 f_equal. lia.
Qed.

Lemma load32_le32 m a v : bytes m a 4 = le32 v -> load32 m a = u32 v.
Proof.
  intros H. unfold bytes, le32 in H. cbn [seq fmap list_fmap] in H. rewrite Z.add_0_r in H.
  injection H as H0 H1 H2 H3. unfold load32.
  change (load8 m (a + Z.of_nat 1)) with (load8 m (a + 1)) in *.
  change (load8 m (a + Z.of_nat 2)) with (load8 m (a + 2)) in *.
  change (load8 m (a + Z.of_nat 3)) with (load8 m (a + 3)) in *.
  rewrite H0, H1, H2, H3. apply u8_div_sum.
Qed.

(** What the headers say of [files] whose contents follow each other from [off]. *)
Fixpoint headers_say (headers : list Z) (i : nat) (off : Z) (files : list file) : Prop :=
  match files with
  | [] => True
  | f :: files =>
      slice (76 * i + 1) (S (length (fname f))) headers = fname f ++ [0] /\
      slice (76 * i + 68) 4 headers = le32 off /\
      slice (76 * i + 72) 4 headers = le32 (file_size f) /\
      headers_say headers (S i) (off + file_size f) files
  end.

Lemma headers_say_ext h h' i off files :
  (forall j, (76 * i <= j)%nat -> h !! j = h' !! j) -> headers_say h i off files -> headers_say h' i off files.
Proof.
  revert i off. induction files as [|f files IH]; intros i off Hh; [done|].
  intros (H1 & H2 & H3 & H4). cbn [headers_say].
  rewrite <- !(slice_ext _ _ h h') by (intros; apply Hh; lia).
  split; [done|]. split; [done|]. split; [done|]. apply IH; [intros; apply Hh; lia|done].
Qed.

Section Image.
Context (host : list Z -> option (list Z)).

Definition total_size (files : list file) : Z := foldr (fun f n => file_size f + n) 0 files.

Lemma total_size_nonneg files : 0 <= total_size files.
Proof. induction files as [|f files IH]; cbn [total_size foldr]; [lia|]. fold (total_size files). unfold file_size. lia. Qed.

(** The arguments name these files. *)
Definition names (args : list (list Z * list Z)) (files : list file) : Prop :=
  Forall2 (fun a f => host (fst a) = Some (contents f) /\ snd a = fname f /\ valid_file f) args files.

Lemma write_headers_spec args files i off headers :
  names args files -> (76 * (i + length files) <= length headers)%nat ->
  0 <= off -> off + total_size files < 4294967296 ->
  exists h, write_headers host args i off headers = inl h /\ length h = length headers /\
    headers_say h i off files /\ (forall j, (j < 76 * i)%nat -> h !! j = headers !! j).
Proof.
  intros Hn. revert i off headers. induction Hn as [|[path name] f args files (Hhost & Hname & Hv) Hn IH];
    intros i off headers Hl Ho Ht.
  { by exists headers. }
  cbn [fst snd length total_size foldr] in *. fold (total_size files) in Ht. subst name.
  destruct Hv as (Hne & Hl64 & Hby). assert (0 <= file_size f) by (unfold file_size; lia).
  pose proof (total_size_nonneg files).
  cbn [write_headers]. rewrite decide_True by lia. rewrite Hhost. fold (file_size f).
  rewrite (u32_id (file_size f)), (u32_id (off + file_size f)) by lia.
  set (h1 := put headers (76 * i + 1) (fname f ++ [0])).
  assert (Hl1 : length h1 = length headers) by (apply length_put; rewrite length_app; simpl; lia).
  set (h2 := put h1 (76 * i + 68) (le32 off)).
  assert (Hl2 : length h2 = length headers) by (rewrite <- Hl1; apply length_put; simpl; lia).
  set (h3 := put h2 (76 * i + 72) (le32 (file_size f))).
  assert (Hl3 : length h3 = length headers) by (rewrite <- Hl2; apply length_put; simpl; lia).
  set (h4 := put h3 (76 * i) [191]).
  assert (Hl4 : length h4 = length headers) by (rewrite <- Hl3; apply length_put; simpl; lia).
  destruct (IH (S i) (off + file_size f) h4) as (h & Hw & Hlh & Hsay & Hbefore); [lia|lia|lia|].
  exists h. split; [done|]. split; [lia|].
  assert (Hname1 : length (fname f ++ [0]) = S (length (fname f))) by (rewrite length_app; simpl; lia).
  split; [|].
  - cbn [headers_say]. rewrite !(slice_ext _ _ h h4) by (intros; apply Hbefore; lia).
    split; [|split; [|split; [|done]]].
    + etransitivity; [apply (slice_put_ne h3); cbn [length]; lia|].
      etransitivity; [apply (slice_put_ne h2); cbn [length le32]; lia|].
      etransitivity; [apply (slice_put_ne h1); cbn [length le32]; lia|].
      rewrite <- Hname1. apply slice_put_eq. lia.
    + etransitivity; [apply (slice_put_ne h3); cbn [length]; lia|].
      etransitivity; [apply (slice_put_ne h2); cbn [length le32]; lia|].
      apply (slice_put_eq h1 _ (le32 off)). cbn [length le32]. lia.
    + etransitivity; [apply (slice_put_ne h3); cbn [length]; lia|].
      apply (slice_put_eq h2 _ (le32 (file_size f))). cbn [length le32]. lia.
  - intros j Hj. rewrite Hbefore by lia.
    etransitivity; [apply (lookup_put_ne h3); cbn [length]; lia|].
    etransitivity; [apply (lookup_put_ne h2); cbn [length le32]; lia|].
    etransitivity; [apply (lookup_put_ne h1); cbn [length le32]; lia|].
    apply lookup_put_ne; lia.
Qed.

(** The header and the contents of file number [i + k]. *)
Lemma headers_say_file h off i files k f :
  headers_say h i off files -> files !! k = Some f ->
  slice (76 * (i + k) + 1) (S (length (fname f))) h = fname f ++ [0] /\
  slice (76 * (i + k) + 68) 4 h = le32 (off + total_size (take k files)) /\
  slice (76 * (i + k) + 72) 4 h = le32 (file_size f).
Proof.
  revert i off k. induction files as [|g files IH]; intros i off k; [done|].
  intros (H1 & H2 & H3 & H4) Hk. destruct k as [|k]; cbn in Hk.
  - injection Hk as ->. rewrite Nat.add_0_r. cbn [take total_size foldr]. by rewrite Z.add_0_r.
  - replace (i + S k)%nat with (S i + k)%nat by lia. cbn [take total_size foldr]. fold (total_size (take k files)).
    rewrite Z.add_assoc. by apply IH.
Qed.

Lemma write_contents_cons path name args f files :
  host path = Some (contents f) -> total_size (f :: files) < 4294967296 ->
  write_contents host ((path, name) :: args) = contents f ++ write_contents host args.
Proof.
  intros Hhost. cbn [total_size foldr]. fold (total_size files). pose proof (total_size_nonneg files).
  intros Ht. unfold file_size in Ht. cbn [write_contents]. rewrite Hhost. cbn [default]. change (id (contents f)) with (contents f).
  by rewrite u32_id, Nat2Z.id, firstn_all by lia.
Qed.

Lemma write_contents_file args files k f :
  names args files -> total_size files < 4294967296 -> files !! k = Some f ->
  slice (Z.to_nat (total_size (take k files))) (length (contents f)) (write_contents host args) = contents f /\
  total_size (take k files) + file_size f <= Z.of_nat (length (write_contents host args)) /\
  0 <= total_size (take k files).
Proof.
  intros Hn. revert k. induction Hn as [|[path name] g args files (Hhost & _ & _) Hn IH]; intros k; [done|].
  intros Ht. rewrite (write_contents_cons path name args g files Hhost Ht), length_app.
  cbn [total_size foldr] in Ht. fold (total_size files) in Ht. unfold file_size in Ht.
  destruct k as [|k]; cbn [take total_size foldr]; intros Hk; cbn in Hk.
  - injection Hk as ->. cbn [Z.to_nat]. unfold slice, file_size. rewrite drop_0, take_app_length. split; [done|]. lia.
  - destruct (IH k ltac:(lia) Hk) as (H1 & H2 & H3). fold (total_size (take k files)). unfold file_size in *.
    split; [|lia]. rewrite Z2Nat.inj_add, Nat2Z.id by lia. unfold slice in *. by rewrite drop_app_add.
Qed.

Lemma write_contents_length args files :
  names args files -> total_size files < 4294967296 ->
  Z.of_nat (length (write_contents host args)) = total_size files.
Proof.
  intros Hn. induction Hn as [|[path name] g args files (Hhost & _ & _) Hn IH]; intros Ht; [done|].
  rewrite (write_contents_cons path name args g files Hhost Ht), length_app.
  cbn [total_size foldr] in *. fold (total_size files) in *. unfold file_size in *. lia.
Qed.

Lemma length_pairs {A} : forall argv : list A, length (pairs argv) = (length argv / 2)%nat.
Proof using.
  fix IH 1. intros [|path [|name argv]]; [done..|]. cbn [pairs length]. rewrite IH.
  replace (S (S (length argv))) with (length argv + 1 * 2)%nat by lia. rewrite Nat.div_add by lia. lia.
Qed.

Lemma pairs_few {A} (argv : list A) : (length argv < 127)%nat -> (length (pairs argv) < 64)%nat.
Proof using. intros. rewrite length_pairs. apply Nat.Div0.div_lt_upper_bound. lia. Qed.

Lemma nheaders_small (argv : list (list Z)) :
  (length argv < 127)%nat ->
  Z.quot (s8 (1 + Z.of_nat (length argv)) - 1) 2 = Z.of_nat (length (pairs argv)).
Proof using.
  intros. rewrite s8_id, length_pairs, Nat2Z.inj_div by lia.
  replace (1 + Z.of_nat (length argv) - 1) with (Z.of_nat (length argv)) by lia. apply Z.quot_div_nonneg; lia.
Qed.

(** The header and the contents of a file, where the image [le32 n ++ h ++ ...] is
    in memory. *)
Section File.
Context (args : list (list Z * list Z)) (files : list file) (h img : list Z) (n loc : Z) (m : memory).
Hypothesis Hn : names args files.
Hypothesis Himg : img = le32 n ++ h ++ write_contents host args.
Hypothesis Hh : length h = 4864%nat /\ headers_say h 0 4868 files /\ (length files < 64)%nat.
Hypothesis Hsize : Z.of_nat (length img) = 4868 + total_size files /\ 4868 + total_size files < 4294967296.
Hypothesis Hloc : 0 <= loc /\ loc + Z.of_nat (length img) < 4294967296.
Hypothesis Hm : bytes m loc (length img) = img.

Lemma image_header p k : (p + k <= 4864)%nat -> bytes m (loc + 4 + Z.of_nat p) k = slice p k h.
Proof using Himg Hh Hm.
  destruct Hh as [Hl _]. clear Hn. intros Hp.
  replace (loc + 4 + Z.of_nat p) with (loc + Z.of_nat (4 + p)) by lia.
  assert (length img >= 4868)%nat by (rewrite Himg, !length_app, Hl; cbn [length le32]; lia).
  rewrite (bytes_slice m loc img) by (done || lia). rewrite Himg.
  unfold slice. rewrite (drop_app_add (le32 _)). rewrite drop_app_le by lia.
  by rewrite take_app_le by (rewrite length_drop; lia).
Qed.

Lemma image_file k f :
  files !! k = Some f -> valid_file f /\ exists off,
    4 + 76 * Z.of_nat (length files) <= off /\ off + file_size f <= Z.of_nat (length img) /\
    header_of m (loc + 4 + 76 * Z.of_nat k) loc off f.
Proof using Hn Himg Hh Hsize Hloc Hm.
  intros Hf. pose proof image_header as Hb. destruct Hh as (Hl & Hsay & Hlen).
  pose proof (lookup_lt_Some _ _ _ Hf) as Hk.
  destruct (headers_say_file h 4868 0 files k f Hsay Hf) as (H1 & H2 & H3).
  destruct (write_contents_file args files k f Hn ltac:(lia) Hf) as (H4 & H5 & H6).
  pose proof (write_contents_length args files Hn ltac:(lia)) as Hwl.
  destruct (Forall2_lookup_r _ _ _ _ _ Hn Hf) as (a & _ & _ & _ & Hv).
  split; [exact Hv|]. destruct Hv as (_ & Hl64 & _). rewrite Nat.add_0_l in *.
  set (off := 4868 + total_size (take k files)) in *. exists off. unfold file_size in *.
  split; [lia|]. split; [lia|]. constructor; unfold header_name, header_offset, header_length, file_size.
  - rewrite <- H1. rewrite <- Hb by lia. f_equal. lia.
  - rewrite (load32_le32 m _ off); [rewrite u32_id; lia|]. rewrite <- H2, <- Hb by lia. f_equal. lia.
  - rewrite (load32_le32 m _ (Z.of_nat (length (contents f)))); [apply u32_id; lia|].
    rewrite <- H3, <- Hb by lia. f_equal. lia.
  - rewrite <- H4 at 2.
    replace (loc + off) with (loc + Z.of_nat (4868 + Z.to_nat (total_size (take k files)))) by lia.
    rewrite (bytes_slice m loc img) by (done || lia). rewrite Himg. unfold slice. rewrite app_assoc.
    replace 4868%nat with (length (le32 n ++ h)) by (rewrite length_app, Hl; done).
    by rewrite drop_app_add.
  - lia.
Qed.
End File.

Lemma mkinit_spec garbage argv files :
  names (pairs argv) files -> length garbage = 4864%nat -> (length argv < 127)%nat ->
  4868 + total_size files < 4294967296 ->
  exists img, mkinit host garbage argv = Written img /\
    Z.of_nat (length img) = 4868 + total_size files /\
    forall m loc, 0 <= loc -> loc + Z.of_nat (length img) < 4294967296 ->
      bytes m loc (length img) = img -> image_at m loc (Z.of_nat (length img)) files.
Proof.
  intros Hn Hg Hlen Htot. pose proof (Forall2_length _ _ _ Hn) as Hargs.
  pose proof (pairs_few argv Hlen) as Hfew. rewrite Hargs in Hfew.
  unfold mkinit. rewrite nheaders_small by lia. rewrite Nat2Z.id, firstn_all.
  destruct (write_headers_spec (pairs argv) files 0 4868 garbage Hn) as (h & Hw & Hlh & Hsay & _); [lia|lia|lia|].
  rewrite Hw. set (img := le32 _ ++ h ++ _).
  pose proof (total_size_nonneg files) as Hpos.
  assert (Hli : Z.of_nat (length img) = 4868 + total_size files).
  { unfold img. rewrite !length_app, Hlh, Hg. cbn [length le32].
    pose proof (write_contents_length (pairs argv) files Hn ltac:(lia)). lia. }
  exists img. split; [done|]. split; [exact Hli|]. intros m loc Hloc Hend Hm. constructor; [lia|lia| |].
  - rewrite (load32_le32 m loc (Z.of_nat (length (pairs argv)))); [rewrite u32_id; lia|].
    rewrite <- (Z.add_0_r loc). change 0 with (Z.of_nat 0). by rewrite (bytes_slice m loc img) by (done || lia).
  - apply (image_file (pairs argv) files h img (Z.of_nat (length (pairs argv))) loc m Hn eq_refl); [|lia|lia|done].
    split; [lia|]. by split.
Qed.
End Image.

(** [argc] is a [char]: from 127 arguments on it is negative, the number of files in the
    image is too, and the image has neither headers nor contents. *)
Theorem mkinit_argc_wraps host garbage argv :
  (127 <= length argv < 256)%nat ->
  mkinit host garbage argv = Written (le32 (Z.quot (Z.of_nat (length argv) - 256) 2) ++ garbage).
Proof.
  intros Hl. unfold mkinit.
  assert (Hn : s8 (1 + Z.of_nat (length argv)) - 1 = Z.of_nat (length argv) - 256) by (unfold s8; dlia).
  rewrite Hn. set (n := Z.quot _ 2). assert (n <= 0) by (unfold n; Z.to_euclidean_division_equations; lia).
  replace (Z.to_nat n) with 0%nat by lia. rewrite take_0. cbn [write_headers write_contents]. by rewrite app_nil_r.
Qed.

(** A missing file is reported, and no image is written. *)
Theorem mkinit_not_found host garbage argv args path name rest :
  length garbage = 4864%nat -> (length argv < 127)%nat -> pairs argv = args ++ (path, name) :: rest ->
  (forall a, a ∈ args -> is_Some (host (fst a)) /\ Z.of_nat (length (snd a)) < 64) ->
  host path = None -> Z.of_nat (length name) < 64 ->
  mkinit host garbage argv = NotFound.
Proof.
  intros Hg Hl Heq Hargs Hpath Hname. unfold mkinit.
  rewrite nheaders_small by lia. rewrite Nat2Z.id, firstn_all.
  pose proof (pairs_few argv Hl) as Hfew.
  rewrite Heq, length_app in Hfew. rewrite Heq. cbn [length] in Hfew.
  assert (Hloop : forall i off h, (76 * (i + S (length args)) <= length h)%nat ->
    write_headers host (args ++ (path, name) :: rest) i off h = inr NotFound); [|by rewrite Hloop by lia].
  clear Hg Hl Heq Hfew. induction args as [|[p n] args IH]; intros i off h Hh; cbn [app write_headers length] in *.
  - by rewrite decide_True, Hpath by lia.
  - destruct (Hargs (p, n) ltac:(left)) as [[data Hd] Hn]. cbn [fst snd] in *.
    rewrite decide_True by lia. rewrite Hd. apply IH; [intros a Ha; apply Hargs; by right|].
    rewrite length_header by lia. lia.
Qed.

(** Once the ramdisk is the file system, a file is found by its name and read. *)
Lemma read_by_name `{Linkage} files loc size buffer k f s :
  0 < sym_initrd_read -> 0 < sym_initrd_finddir ->
  ramdisk_at s files -> file_headers (fs s) = loc + 4 ->
  (forall i f off, files !! i = Some f -> header_of (mem s) (loc + 4 + 76 * Z.of_nat i) 0 off f ->
     loc <= off /\ off + file_size f <= loc + size) ->
  NoDup (fname <$> files) -> files !! k = Some f -> fname f <> str "dev" ->
  0 <= buffer -> buffer + file_size f < 4294967296 -> loc + size <= buffer \/ buffer + file_size f <= loc ->
  wp (node <- finddir_fs (initrd_root (fs s)) (lit (fname f)); read_fs node 0 (file_size f) buffer)
    (fun n s' => n = file_size f /\ bytes (mem s') buffer (length (contents f)) = contents f) s.
Proof.
  intros Hr1 Hr3 Hrd Hfh Hin Hdup Hf Hdev Hb0 Hb1 Hap. destruct (rd_root _ _ Hrd) as [Hroot [Hfl Hfr Hff _]].
  apply wp_bind. unfold finddir_fs. k_step. k_step. k_step. k_step. rewrite Hfl, Hff.
  change (Z.land FS_DIRECTORY 7 =? FS_DIRECTORY) with true. unfold truth.
  replace (sym_initrd_finddir =? 0) with false by blia. cbn [negb andb call_finddir initrd_vfs].
  rewrite Z.eqb_refl. destruct (rd_file _ _ Hrd _ _ Hf) as ((Hn1 & Hn2 & Hn3) & Hnode & _).
  eapply wp_mono.
  { apply (initrd_finddir_spec files s Hrd _ (lit (fname f)) (fname f)). apply lit_cstring; [done|lia]. }
  intros node s2 [-> ->]. rewrite decide_False by tauto.
  assert (Hfind : find_file files s (fname f) = root_nodes (fs s) + 184 * Z.of_nat k).
  { apply (list_find_take files s k (fname f) f); [|done|done]. intros i g Hi Hg' Heq.
    assert (i = k); [|lia]. eapply NoDup_lookup; [exact Hdup| |]; rewrite list_lookup_fmap, ?Hg', ?Hf; cbn; by rewrite ?Heq. }
  rewrite Hfind. unfold read_fs. k_step. k_step. rewrite (no_read _ _ _ _ Hnode). unfold truth.
  replace (sym_initrd_read =? 0) with false by blia. cbn [negb call_read initrd_vfs]. rewrite Z.eqb_refl.
  assert (0 <= file_size f) by (unfold file_size; lia).
  eapply wp_mono.
  { apply (initrd_read_spec files s Hrd k f 0 (file_size f) buffer Hf); [lia|lia|lia| |unfold region; lia].
    intros off Hh. rewrite Hfh in Hh. destruct (Hin k f off Hf Hh). lia. }
  intros n s2 (-> & m' & -> & _ & Hb). replace (Z.max 0 (Z.min (file_size f) (file_size f - 0))) with (file_size f) in * by lia.
  split; [done|]. cbn [mem set_mem]. unfold file_size in Hb. rewrite Nat2Z.id in Hb. rewrite Hb.
  cbn [Z.to_nat]. by rewrite drop_0, firstn_all.
Qed.

(** C8: From the host's files to the kernel's: an image of [files] is built, put in
    memory by the boot loader, and initialised; then each of the files is found by
    its name in the root directory, and reading it gives its contents.  The names are
    distinct, none that is looked up is dev, there are at most 62 files, and the memory that
    the allocator gives out is zeroed ([al_clean]), since [initialise_initrd]
    does not clear the nodes. *)
Theorem ramdisk_roundtrip `{Linkage} `{Hal : AllocatorLaws} host garbage argv files loc B buffer k f s :
  0 < sym_initrd_read < 4294967296 -> 0 <= sym_initrd_readdir < 4294967296 ->
  0 < sym_initrd_finddir < 4294967296 ->
  names host (pairs argv) files -> length garbage = 4864%nat -> (2 <= length argv < 127)%nat ->
  4868 + total_size files < 4294967296 -> NoDup (fname <$> files) ->
  files !! k = Some f -> fname f <> str "dev" ->
  exists img, mkinit host garbage argv = Written img /\
    let size := Z.of_nat (length img) in
    (0 <= loc -> loc + size < 4294967296 -> bytes (mem s) loc (length img) = img ->
     (forall b, loc <= b < loc + size -> ~ al_own s b) -> al_budget B s ->
     464 + 184 * Z.of_nat (length files) <= B -> al_clean s ->
     0 <= buffer -> buffer + file_size f < 4294967296 ->
     loc + size <= buffer \/ buffer + file_size f <= loc ->
     wp (root <- initialise_initrd loc; node <- finddir_fs root (lit (fname f));
         read_fs node 0 (file_size f) buffer)
       (fun n s' => n = file_size f /\ bytes (mem s') buffer (length (contents f)) = contents f) s).
Proof.
  intros Hr1 Hr2 Hr3 Hnames Hg Hlen Htot Hdup Hf Hdev.
  destruct (mkinit_spec host garbage argv files Hnames Hg ltac:(lia) Htot) as (img & Himg & Hsize & Hat).
  exists img. split; [exact Himg|]. intros size Hloc Hend Hmem Hown Hbud HB Hclean Hb0 Hb1 Hap.
  specialize (Hat (mem s) loc Hloc Hend Hmem). fold size in Hat.
  assert (Hne : files <> []) by (by intros ->).
  assert (Hsyms : 0 <= sym_initrd_read < 4294967296 /\ 0 <= sym_initrd_readdir < 4294967296 /\
    0 <= sym_initrd_finddir < 4294967296) by lia.
  apply wp_bind. eapply wp_mono.
  { apply (initialise_initrd_spec Hsyms loc size files s B Hne Hat Hown (conj Hbud HB) Hclean). }
  intros root s1 (-> & Hrd & Hfh & Hin & _). apply (read_by_name files loc size buffer k f s1); done || lia.
Qed.

Module RamdiskSample.
#[local] Existing Instance sample_linkage.

(** Two files of the host. *)
Definition sample_files : list file := [File (str "motd") [72; 105]; File (str "empty") []].
Definition sample_host (path : list Z) : option (list Z) :=
  if decide (path = str "a") then Some [72; 105] else if decide (path = str "b") then Some [] else None.
Definition sample_args : list (list Z) := [str "a"; str "motd"; str "b"; str "empty"].

Lemma sample_names : names sample_host (pairs sample_args) sample_files.
Proof.
  assert (Forall (fun b => 0 < b < 256) (str "motd")) by (repeat constructor).
  assert (Forall (fun b => 0 < b < 256) (str "empty")) by (repeat constructor).
  constructor; [|constructor; [|constructor]]; (split; [vm_compute; reflexivity|]);
    (split; [reflexivity|]); (split; [discriminate|]); (split; [cbn; lia|assumption]).
Qed.

Definition garbage : list Z := replicate 4864 170.
Definition image : list Z :=
  match mkinit sample_host garbage sample_args with Written img => img | _ => [] end.

(** The image is at 8192, below the placement address. *)
Fixpoint store_bytes (m : memory) (a : Z) (l : list Z) : memory :=
  match l with [] => m | b :: l => store_bytes (store8 m a b) (a + 1) l end.

Lemma store_bytes_above l m a b :
  0 <= a -> a + Z.of_nat (length l) <= b < 4294967296 -> load8 (store_bytes m a l) b = load8 m b.
Proof.
  revert m a. induction l as [|x l IH]; intros m a Ha Hb; cbn [store_bytes length] in *; [done|].
  rewrite IH by lia. by rewrite load8_store8_ne by lia.
Qed.

Definition image_state : kstate := set_mem (store_bytes ∅ 8192 image) sample_state.

Lemma image_clean : al_clean image_state.
Proof.
  intros b Hb Hp. change (placement_address (hp image_state)) with 1142784 in Hp.
  cbn [mem set_mem image_state]. rewrite store_bytes_above; [reflexivity|lia|].
  replace (Z.of_nat (length image)) with 4870 by (vm_compute; reflexivity). lia.
Qed.

Lemma ramdisk_roundtrip_witness :
  wp (root <- initialise_initrd 8192; node <- finddir_fs root (lit (str "motd")); read_fs node 0 2 65536)
    (fun n s' => n = 2 /\ bytes (mem s') 65536 2 = [72; 105]) image_state.
Proof.
  assert (H1 : 0 < sym_initrd_read < 4294967296) by (cbn; lia).
  assert (H2 : 0 <= sym_initrd_readdir < 4294967296) by (cbn; lia).
  assert (H3 : 0 < sym_initrd_finddir < 4294967296) by (cbn; lia).
  destruct (ramdisk_roundtrip sample_host garbage sample_args sample_files 8192 1000000 65536 0
    (File (str "motd") [72; 105]) image_state H1 H2 H3
    sample_names ltac:(apply length_replicate) ltac:(cbn; lia) ltac:(vm_compute; reflexivity)
    ltac:(apply (bool_decide_unpack _); vm_compute; reflexivity) eq_refl ltac:(vm_compute; discriminate))
    as (img & Himg & H).
  assert (img = image) as -> by (unfold image; rewrite Himg; reflexivity).
  assert (Hlen : Z.of_nat (length image) = 4870) by (vm_compute; reflexivity).
  cbv zeta in H. rewrite Hlen in H. apply H.
  - lia.
  - lia.
  - vm_compute. reflexivity.
  - intros b Hb. cbn. lia.
  - cbn. lia.
  - cbn. lia.
  - exact image_clean.
  - lia.
  - unfold file_size; cbn; lia.
  - unfold file_size; cbn; lia.
Defined.

Lemma mkinit_argc_wraps_witness :
  mkinit sample_host garbage (replicate 128 (str "a")) = Written (le32 (-64) ++ garbage).
Proof. apply (mkinit_argc_wraps sample_host garbage (replicate 128 (str "a"))). rewrite length_replicate. lia. Defined.

Lemma mkinit_not_found_witness :
  mkinit sample_host garbage (sample_args ++ [str "c"; str "c"; str "odd"]) = NotFound.
Proof.
  apply (mkinit_not_found _ _ _ (pairs sample_args) (str "c") (str "c") []).
  - apply length_replicate.
  - cbn. lia.
  - reflexivity.
  - intros a Ha. unfold sample_args in Ha. cbn [pairs] in Ha. rewrite !elem_of_cons, elem_of_nil in Ha.
    destruct Ha as [-> | [-> | []]]; (split; [vm_compute; eexists; reflexivity|cbn; lia]).
  - vm_compute. reflexivity.
  - cbn. lia.
Defined.

Lemma wp_final {A} (c : K A) Q s d :
  wp c Q s -> exists a, Q a (match c s with Ok _ s' => s' | _ => d end).
Proof. unfold wp. destruct (c s); [eauto|done..]. Qed.

(** The state after the start of the ramdisk. *)
Definition ready_state : kstate :=
  match initialise_initrd 8192 image_state with Ok _ s => s | _ => sample_state end.

Lemma ready_ramdisk : ramdisk_at ready_state sample_files.
Proof.
  destruct (mkinit_spec sample_host garbage sample_args sample_files sample_names
              ltac:(apply length_replicate) ltac:(cbn; lia) ltac:(vm_compute; reflexivity)) as (img & Himg & Hl & Hat).
  assert (img = image) as -> by (unfold image; rewrite Himg; reflexivity).
  assert (Hlen : Z.of_nat (length image) = 4870) by (vm_compute; reflexivity).
  specialize (Hat (mem image_state) 8192 ltac:(lia) ltac:(lia) ltac:(vm_compute; reflexivity)).
  rewrite Hlen in Hat.
  assert (Hsyms : 0 <= sym_initrd_read < 4294967296 /\ 0 <= sym_initrd_readdir < 4294967296 /\
    0 <= sym_initrd_finddir < 4294967296) by (cbn; lia).
  pose proof (initialise_initrd_spec Hsyms 8192 4870 sample_files image_state 1000000
                ltac:(discriminate) Hat ltac:(intros b Hb; cbn; lia) ltac:(cbn; lia) image_clean) as H.
  unfold ready_state. destruct (wp_final _ _ _ sample_state H) as (r & _ & Hrd & _). exact Hrd.
Qed.

Lemma initrd_finddir_finds_witness :
  wp (initrd_finddir 0 (lit (str "empty"))) (fun r s' => s' = ready_state /\ r <> 0) ready_state.
Proof.
  eapply wp_mono.
  - apply (initrd_finddir_finds sample_files ready_state 0 (lit (str "empty")) (str "empty") ready_ramdisk).
    apply lit_cstring; [repeat constructor|cbn; lia].
  - intros r s' (Hs & Hcase). split; [exact Hs|]. pose proof ready_ramdisk as Hrd.
    destruct (rd_nodes _ _ Hrd) as [Hn _]. destruct Hcase as [(_ & Hc & _)|(_ & [(i & f & _ & _ & Hr & _)|(_ & Hno)])].
    + vm_compute in Hc. discriminate Hc.
    + lia.
    + exfalso. apply (Hno (File (str "empty") [])); [right; left|reflexivity].
Defined.

Lemma sample_dirent : region sym_dirent (sym_dirent + 132).
Proof. cbn. unfold region. lia. Qed.

Lemma sample_dirent_apart :
  sym_dirent + 132 <= root_nodes (fs ready_state) \/
    root_nodes (fs ready_state) + 184 * Z.of_nat (length sample_files) <= sym_dirent.
Proof. left. vm_compute. discriminate. Qed.

Lemma initrd_readdir_lists_witness :
  wp (initrd_readdir (initrd_root (fs ready_state)) 1) (fun r s' =>
    r = 1125376 /\ dirent_is (mem s') (str "motd") 0) ready_state /\
  wp (initrd_readdir (initrd_root (fs ready_state)) 3) (fun r s' => r = 0 /\ s' = ready_state) ready_state.
Proof.
  split.
  - eapply wp_mono.
    + apply (initrd_readdir_lists sample_files ready_state 1 ready_ramdisk sample_dirent sample_dirent_apart). lia.
    + intros r s' (Hr & Hd & _). split; [exact Hr|exact Hd].
  - apply (initrd_readdir_lists sample_files ready_state 3 ready_ramdisk sample_dirent sample_dirent_apart). lia.
Defined.

Lemma initrd_read_reads_witness :
  wp (initrd_read (root_nodes (fs ready_state)) 1 10 65536) (fun r s' => r = 1 /\
    bytes (mem s') 65536 1 = [105]) ready_state.
Proof.
  replace (root_nodes (fs ready_state)) with (root_nodes (fs ready_state) + 184 * Z.of_nat 0) by (cbn [Z.of_nat]; lia).
  eapply wp_mono.
  - apply (initrd_read_reads sample_files ready_state 0 (File (str "motd") [72; 105]) 1 10 65536 ready_ramdisk);
      [reflexivity|lia|lia|lia| |unfold region; lia].
    intros off Hh. left. pose proof (ho_offset _ _ _ _ _ Hh) as Ho. vm_compute in Ho. rewrite <- Ho. unfold file_size. cbn. lia.
  - intros r s' (Hr & _ & Hb). split; [exact Hr|exact Hb].
Defined.

Lemma initrd_read_overflow_witness :
  exists off, initrd_read (root_nodes (fs ready_state) + 184 * Z.of_nat 0) 1 4294967295 65536 ready_state =
    (memcpy 65536 (off + 1) 4294967295 >> ret 4294967295) ready_state.
Proof.
  destruct (initrd_read_overflow sample_files ready_state 0 (File (str "motd") [72; 105]) 1 4294967295 65536
              ready_ramdisk) as (off & _ & _ & H);
    [reflexivity|unfold file_size; cbn; lia|lia|unfold file_size; cbn; lia|].
  exists off. exact H.
Defined.
End RamdiskSample.
