(* ===== verification/Syscall.v ===== *)
(** * System calls ([sys/syscall.c], [include/syscall.h]) and the handlers of the
    kernel

    A system call is the interrupt 0x80 with its number in [eax] and its
    arguments in the other registers.  This file also says which function each
    registered handler is. *)

From Stdlib Require Import ZArith Lia List String.
From stdpp Require Import base list gmap.
From S2P Require Import Prelude Machine Kernel Common Monitor Isr DescriptorTables Keyboard Kmalloc Frames Paging Task Timer.
Import Terminal.

(** ** Definitions *)

(** The array [syscalls]. *)
Inductive syscall_fn : Type := fn_monitor_write | fn_monitor_write_hex | fn_monitor_write_dec.

Definition syscalls : list syscall_fn :=
  [fn_monitor_write; fn_monitor_write_hex; fn_monitor_write_dec].
Definition num_syscalls : Z := 3.

(** The five registers are pushed, [ebx] last: each of the functions finds its
    one argument in it. *)
Definition call_syscall (location : syscall_fn) (edi esi edx ecx ebx : Z) : K unit :=
  match location with
  | fn_monitor_write => monitor_write (ptr ebx)
  | fn_monitor_write_hex => monitor_write_hex ebx
  | fn_monitor_write_dec => monitor_write_dec ebx
  end.

Definition initialise_syscalls : K Z :=
  register_interrupt_handler 128 ptr_syscall_handler >>
  ret EXIT_SUCCESS.

(** The functions return nothing: what is in [eax] after the call, and becomes
    the result of the system call, is whatever they leave there. *)
Class LeftInEax : Type := left_in_eax : syscall_fn -> kstate -> Z.

Definition syscall_handler `{LeftInEax} (regs : registers_t) : K registers_t :=
  if num_syscalls <=? reg_eax regs then ret regs
  else
    match syscalls !! Z.to_nat (reg_eax regs) with
    | None => undefined
    | Some location =>
        call_syscall location (reg_edi regs) (reg_esi regs) (reg_edx regs) (reg_ecx regs) (reg_ebx regs) >>
        r <- gets (left_in_eax location);
        ret (set_eax r regs)
    end.

(** The functions behind the handlers that the kernel registers. *)
#[export] Instance kernel_handlers `{Linkage, LeftInEax} : Handlers := fun h regs =>
  match h with
  | ptr_timer_callback => timer_callback regs
  | ptr_keyboard_handler => keyboard_handler regs
  | ptr_page_fault => page_fault regs
  | ptr_syscall_handler => syscall_handler regs
  end.

(** ** The user's side

    [int $0x80] in a program whose registers are [frame]: the stub of vector 128
    builds the frame of registers, and leaves what the handler makes of it. *)

Definition set_ebx (v : Z) (r : registers_t) : registers_t :=
  Registers (reg_ds r) (reg_edi r) (reg_esi r) (reg_ebp r) (reg_esp r) v
    (reg_edx r) (reg_ecx r) (reg_eax r) (reg_int_no r) (reg_err_code r) (reg_eip r) (reg_cs r)
    (reg_eflags r) (reg_useresp r) (reg_ss r).
Definition set_ecx_edx (c d : Z) (r : registers_t) : registers_t :=
  Registers (reg_ds r) (reg_edi r) (reg_esi r) (reg_ebp r) (reg_esp r) (reg_ebx r)
    d c (reg_eax r) (reg_int_no r) (reg_err_code r) (reg_eip r) (reg_cs r)
    (reg_eflags r) (reg_useresp r) (reg_ss r).
Definition set_esi (v : Z) (r : registers_t) : registers_t :=
  Registers (reg_ds r) (reg_edi r) v (reg_ebp r) (reg_esp r) (reg_ebx r)
    (reg_edx r) (reg_ecx r) (reg_eax r) (reg_int_no r) (reg_err_code r) (reg_eip r) (reg_cs r)
    (reg_eflags r) (reg_useresp r) (reg_ss r).

Section User.
Context `{Handlers} (frame : registers_t).

Definition int_0x80 (regs : registers_t) : K Z :=
  r <- isr_handler (set_int_no (pushed_int_no 128) regs); ret (s32 (reg_eax r)).

(** The bodies that the macros [DEFN_SYSCALL0] to [DEFN_SYSCALL4] define, other
    than [DEFN_SYSCALL2], which is not assembly of the processor. *)
Definition DEFN_SYSCALL0 (num : Z) : K Z := int_0x80 (set_eax num frame).
Definition DEFN_SYSCALL1 (num p1 : Z) : K Z := int_0x80 (set_ebx p1 (set_eax num frame)).
Definition DEFN_SYSCALL3 (num p1 p2 p3 : Z) : K Z :=
  int_0x80 (set_ecx_edx p2 p3 (set_ebx p1 (set_eax num frame))).
Definition DEFN_SYSCALL4 (num p1 p2 p3 p4 : Z) : K Z :=
  int_0x80 (set_esi p4 (set_ecx_edx p2 p3 (set_ebx p1 (set_eax num frame)))).

Definition syscall_monitor_write (p1 : Z) : K Z := DEFN_SYSCALL1 0 p1.
Definition syscall_monitor_write_hex (p1 : Z) : K Z := DEFN_SYSCALL1 1 p1.
Definition syscall_monitor_write_dec (p1 : Z) : K Z := DEFN_SYSCALL1 2 p1.
End User.

(** ** Properties *)

Section Syscalls.
Context `{Linkage, LeftInEax}.

(** Entering the kernel with [eax] set to [num] once the handler is registered. *)
Lemma int_0x80_enters regs s :
  interrupt_handlers s !! 128 = Some ptr_syscall_handler ->
  int_0x80 regs s = (r <- syscall_handler (set_int_no (pushed_int_no 128) regs); ret (s32 (reg_eax r))) s.
Proof.
  intros Hh. unfold int_0x80, isr_handler, bind at 1, gets.
  cbn [reg_int_no set_int_no]. rewrite u8_pushed by lia. unfold bind at 1. rewrite Hh. done.
Qed.

Lemma syscall1_spec frame num p1 location (Q : Z -> kstate -> Prop) s :
  interrupt_handlers s !! 128 = Some ptr_syscall_handler -> 0 <= num < 3 ->
  syscalls !! Z.to_nat num = Some location ->
  wp (call_syscall location (reg_edi frame) (reg_esi frame) (reg_edx frame) (reg_ecx frame) p1)
    (fun _ s' => Q (s32 (left_in_eax location s')) s') s ->
  wp (DEFN_SYSCALL1 frame num p1) Q s.
Proof.
  intros Hh Hnum Hloc Hcall. unfold DEFN_SYSCALL1, wp. rewrite int_0x80_enters by done.
  change (wp (r <- syscall_handler (set_int_no (pushed_int_no 128) (set_ebx p1 (set_eax num frame)));
    ret (s32 (reg_eax r))) Q s).
  apply wp_bind. unfold syscall_handler, num_syscalls. cbn [reg_eax reg_ebx reg_edi reg_esi reg_edx reg_ecx set_int_no set_ebx set_eax].
  replace (3 <=? num) with false by blia. rewrite Hloc. apply wp_bind.
  eapply wp_mono; [exact Hcall|]. intros [] s' HQ. k_steps. exact HQ.
Qed.

(** A string in memory, away from the video memory, stays while it is printed. *)
Lemma ptr_console_string p l s :
  Forall (fun b => 0 < b < 256) l -> Z.of_nat (length l) < 2147483647 ->
  bytes (mem s) p (S (length l)) = l ++ [0] -> region p (p + Z.of_nat (S (length l))) ->
  p + Z.of_nat (S (length l)) <= video_memory \/ video_memory + 4000 <= p ->
  console_string (ptr p) l s.
Proof.
  intros Hl Hn Hb Hr Hout s' [(m & tr & g & -> & Hm) _]. apply ptr_cstring; [done|done|].
  rewrite <- Hb. by apply (bytes_frame _ _ _ _ Hm).
Qed.

Lemma syscall_monitor_write_spec frame p1 l t s :
  interrupt_handlers s !! 128 = Some ptr_syscall_handler -> shows s t ->
  Forall (fun b => 0 < b < 256) l -> Z.of_nat (length l) < 2147483647 ->
  bytes (mem s) p1 (S (length l)) = l ++ [0] -> region p1 (p1 + Z.of_nat (S (length l))) ->
  p1 + Z.of_nat (S (length l)) <= video_memory \/ video_memory + 4000 <= p1 ->
  wp (syscall_monitor_write frame p1) (fun _ s' => console_frame s s' /\ shows s' (write (s8 <$> l) t)) s.
Proof.
  intros Hh Hs Hl Hn Hb Hr Hout. apply (syscall1_spec _ 0 _ fn_monitor_write); [done|lia|done|].
  apply monitor_write_spec; [done|]. by apply ptr_console_string.
Qed.

(** C23: [syscall_monitor_write], in a program in user mode, prints the string at
    the address it is given: the interrupt is dispatched by its vector, the call
    by its number, and the argument arrives in [ebx]. *)
Theorem syscall_monitor_write_prints frame p1 l t s :
  interrupt_handlers s !! 128 = Some ptr_syscall_handler -> shows s t ->
  Forall (fun b => 0 < b < 256) l -> Z.of_nat (length l) < 2147483647 ->
  bytes (mem s) p1 (S (length l)) = l ++ [0] -> region p1 (p1 + Z.of_nat (S (length l))) ->
  p1 + Z.of_nat (S (length l)) <= video_memory \/ video_memory + 4000 <= p1 ->
  wp (syscall_monitor_write frame p1) (fun _ s' => console_frame s s' /\ shows s' (write (s8 <$> l) t)) s.
Proof. apply syscall_monitor_write_spec. Qed.

(** The other two print numerals. *)
Theorem syscall_numbers_print frame n t s :
  interrupt_handlers s !! 128 = Some ptr_syscall_handler -> shows s t -> 0 <= n < 2147483648 ->
  wp (syscall_monitor_write_hex frame n) (fun _ s' => exists l, console_frame s s' /\
    shows s' (write (str "0x" ++ l) t) /\ number_of 16 hex_value l = n) s /\
  wp (syscall_monitor_write_dec frame n) (fun _ s' => exists l, console_frame s s' /\
    shows s' (write l t) /\ number_of 10 dec_value l = n) s.
Proof.
  intros Hh Hs Hn. split.
  - apply (syscall1_spec _ 1 _ fn_monitor_write_hex); [done|lia|done|].
    eapply wp_mono; [apply write_hex_spec; [done|lia]|]. intros [] s' (l & H1 & H2 & _ & H3 & _). by exists l.
  - apply (syscall1_spec _ 2 _ fn_monitor_write_dec); [done|lia|done|].
    eapply wp_mono; [by apply write_dec_spec|]. intros [] s' (l & H1 & H2 & _ & H3 & _). by exists l.
Qed.

(** A number that is no system call's changes nothing, and comes back as the
    result. *)
Theorem syscall_rejects regs s :
  interrupt_handlers s !! 128 = Some ptr_syscall_handler -> 3 <= reg_eax regs ->
  int_0x80 regs s = Ok (s32 (reg_eax regs)) s.
Proof.
  intros Hh Hn. rewrite int_0x80_enters by done. unfold syscall_handler, num_syscalls, bind.
  cbn [reg_eax set_int_no]. replace (3 <=? reg_eax regs) with true by blia. done.
Qed.

(** After [initialise_syscalls] the interrupt of the system calls is served, by
    the gate that user mode may use, and the other interrupts are as before. *)
Theorem initialise_syscalls_correct s :
  wp initialise_syscalls (fun r s' => r = EXIT_SUCCESS /\
    interrupt_handlers s' !! 128 = Some ptr_syscall_handler /\
    (forall k, k <> 128 -> interrupt_handlers s' !! k = interrupt_handlers s !! k) /\
    mem s' = mem s /\ trace s' = trace s) s.
Proof.
  unfold initialise_syscalls, register_interrupt_handler. k_steps. cbn [interrupt_handlers set_handlers].
  change (u8 128) with 128. split; [done|]. split; [apply lookup_insert_eq|]. split; [|done].
  intros k Hk. by apply lookup_insert_ne.
Qed.

(** A tick of the timer reaches the scheduler through its interrupt: the master
    controller is told the end of the interrupt before the switch. *)
Theorem timer_interrupt_preempts l regs r s a :
  r = (eip_switch_task, cpu_esp (cpu s), cpu_ebp (cpu s)) ->
  0 <= eip_switch_task < 4294967296 /\ eip_switch_task <> 74565 -> regs_range r ->
  interrupt_handlers s !! 32 = Some ptr_timer_callback -> reg_int_no regs = 32 ->
  schedules l s a ->
  wp (@irq_handler kernel_handlers regs) (fun _ s' => tick s' = u32 (tick s + 1) /\
    schedules l s' (RoundRobin.switch r a) /\
    exists c, RoundRobin.resumed (RoundRobin.switch r a) = Some c /\ in_processor c s') s.
Proof.
  intros -> Heip Hr Hh Hno [Ht Hhd Hc Hctx]. unfold irq_handler. rewrite Hno.
  change (40 <=? 32) with false. change (256 <=? 32) with false. cbn [when]. k_steps.
  cbn [interrupt_handlers set_trace]. rewrite Hh.
  apply (timer_callback_spec l regs (set_trace _ s) a Heip); [by split|done].
Qed.
End Syscalls.

Module SyscallSample.
#[local] Existing Instance sample_linkage.
#[local] Instance sample_eax : LeftInEax := fun _ _ => 0.

Definition frame : registers_t := Registers 35 0 0 0 0 0 0 0 0 0 0 4096 27 514 8192 35.

(** The string of a program at address 4096. *)
Definition user_state : kstate :=
  set_mem (store8 (store8 ∅ 4096 72) 4097 105)
    (set_handlers {[128 := ptr_syscall_handler]} sample_state).

Lemma user_shows : shows user_state ConsoleSample.blank_terminal.
Proof. split; [vm_compute; done|]. split; [done|]. split; [done|]. simpl. lia. Defined.

Lemma syscall_monitor_write_prints_witness :
  wp (syscall_monitor_write frame 4096) (fun _ s' => console_frame user_state s' /\
    shows s' (write (str "Hi") ConsoleSample.blank_terminal)) user_state.
Proof.
  apply (syscall_monitor_write_prints frame 4096 (str "Hi") ConsoleSample.blank_terminal user_state);
    [reflexivity|exact user_shows|by repeat constructor|simpl; lia|reflexivity|..].
  - unfold region. simpl. lia.
  - left. unfold video_memory. simpl. lia.
Defined.

Lemma syscall_numbers_print_witness :
  wp (syscall_monitor_write_dec frame 1204) (fun _ s' => exists l, console_frame user_state s' /\
    shows s' (write l ConsoleSample.blank_terminal) /\ number_of 10 dec_value l = 1204) user_state.
Proof.
  apply (syscall_numbers_print frame 1204 ConsoleSample.blank_terminal user_state);
    [reflexivity|exact user_shows|lia].
Defined.

Lemma syscall_rejects_witness :
  int_0x80 (set_eax 3 frame) user_state = Ok 3 user_state.
Proof. apply (syscall_rejects (set_eax 3 frame) user_state); [reflexivity|simpl; lia]. Defined.

Lemma timer_interrupt_preempts_witness :
  wp (irq_handler (set_int_no 32 frame)) (fun _ s' => tick s' = 1 /\ in_processor (77, 78, 0) s')
    (set_handlers {[32 := ptr_timer_callback]} TaskSample.tasks_state).
Proof.
  eapply wp_mono.
  - apply (timer_interrupt_preempts TaskSample.tasks _ _
             (set_handlers {[32 := ptr_timer_callback]} TaskSample.tasks_state)
             (RoundRobin.Scheduler [(0, 0, 0); (0, 0, 0); (77, 78, 0)] 1) eq_refl TaskSample.eip_sample);
      [cbn; lia|reflexivity|reflexivity|].
    destruct TaskSample.sample_schedules as [H1 H2 H3 H4]. constructor; assumption.
  - intros r s' (Ht & _ & c & Hc & Hin). vm_compute in Hc. injection Hc as <-. split; [exact Ht|exact Hin].
Defined.
End SyscallSample.
