(* ===== verification/Main.v ===== *)
(** * The kernel's entry ([sys/main.c])

    [kernel_start] initialises every component in turn and then, in a loop, echoes what
    is typed: [kernel_boot] is what it does before the loop, [kernel_idle] one round
    of the loop, as the C code reads.  That the loop runs in user mode, where it may not
    store what it means to, is the subject of System.v. *)

From Stdlib Require Import ZArith Lia List String.
From stdpp Require Import base list gmap.
From S2P Require Import Prelude Machine Kernel Common Monitor Isr DescriptorTables Keyboard Kmalloc Frames Paging.
From S2P Require Import Kheap PagingInit Task Timer Initrd Syscall.
Import Terminal.

(** ** Definitions *)

(** Members of [struct multiboot]. *)
Definition mboot_mods_count (m : Z) : Z := m + 20.
Definition mboot_mods_addr (m : Z) : Z := m + 24.

Definition set_initial_esp (v : Z) : K unit := modify (fun s => set_boot (BootGlobals v (failure (boot s))) s).
Definition set_failure (v : Z) : K unit :=
  modify (fun s => set_boot (BootGlobals (initial_esp (boot s)) (u8 v)) s).
Definition set_placement_address (v : Z) : K unit :=
  modify (fun s => set_hp (HeapGlobals v (kheap (hp s))) s).

Section Boot.
Context `{Linkage, LeftInEax}.

(** What is on the stack behind the local array of [monitor_write_padded]; the
    registers of the program in user mode; and the address of the literal
    that it prints. *)
Context (stack : kstate -> list Z) (frame : registers_t) (hello : Z).

Definition padded (message : string) (success : Z) : K unit :=
  below <- gets stack; monitor_write_padded below (lit (str message)) success.

(** The verdict on a step of the start. *)
Definition report (message : string) : K unit :=
  f <- gets (fun s => failure (boot s));
  if negb (truth f) then padded message 1 else padded message 0.

(** [kernel_start] up to the loop, in five parts: the console, the descriptor tables
    and the timer; what the boot loader left; memory and tasks; the ramdisk; and
    user mode. *)
Definition boot_early (initial_stack : Z) : K unit :=
  set_initial_esp initial_stack >>
  monitor_clear >>
  monitor_write (lit (str "Fotix v0.1" ++ [10])) >>
  monitor_write (lit (str "Copyright (c) 2016 Fotis Koutoulakis" ++ [10])) >>
  monitor_write (lit (str "http://www.fotiskoutoulakis.com" ++ [10])) >>
  monitor_put 10 >>
  r <- init_descriptor_tables;
  set_failure r >>
  report "Initializing descriptor tables" >>
  emit Sti >>
  r <- init_timer 50;
  set_failure r >>
  report "Initializing timer".

Definition boot_modules (mboot_ptr : Z) : K Z :=
  mods_count <- ld32 (mboot_mods_count mboot_ptr);
  ASSERT (0 <? mods_count) "sys/main.c" 72 "mboot_ptr->mods_count > 0" >>
  mods_addr <- ld32 (mboot_mods_addr mboot_ptr);
  initrd_location <- ld32 mods_addr;
  mods_addr <- ld32 (mboot_mods_addr mboot_ptr);
  initrd_end <- ld32 (u32 (mods_addr + 4));
  padded "Looking for initial ramdisk" 1 >>
  set_placement_address initrd_end >>
  ret initrd_location.

Definition boot_memory : K unit :=
  r <- initialise_paging;
  set_failure r >>
  report "Initializing paging" >>
  r <- initialise_tasking;
  set_failure r >>
  report "Initializing scheduling".

Definition boot_ramdisk (initrd_location : Z) : K unit :=
  root <- initialise_initrd initrd_location;
  modify_fs (set_fs_root root) >>
  root <- get_fs fs_root;
  (if negb (truth root) then set_failure 1 else set_failure 0) >>
  report "Initializing ramdisk".

Definition boot_user : K unit :=
  r <- initialise_syscalls;
  set_failure r >>
  report "Initializing kernel system call interface" >>
  init_keyboard_driver >>
  switch_to_user_mode >>
  _ <- syscall_monitor_write frame hello;
  ret tt.

Definition kernel_boot (mboot_ptr initial_stack : Z) : K unit :=
  boot_early initial_stack >>
  initrd_location <- boot_modules mboot_ptr;
  boot_memory >>
  boot_ramdisk initrd_location >>
  boot_user.

(** The same, but the keyboard interrupts with the scancodes [scs] after its handler has
    been registered, when interrupts are still on: [switch_to_user_mode] turns
    them off. *)
Definition boot_user_typed (regs : registers_t) (scs : list Z) : K unit :=
  r <- initialise_syscalls;
  set_failure r >>
  report "Initializing kernel system call interface" >>
  init_keyboard_driver >>
  press_all regs scs >>
  switch_to_user_mode >>
  _ <- syscall_monitor_write frame hello;
  ret tt.

Definition kernel_boot_typed (regs : registers_t) (scs : list Z) (mboot_ptr initial_stack : Z) : K unit :=
  boot_early initial_stack >>
  initrd_location <- boot_modules mboot_ptr;
  boot_memory >>
  boot_ramdisk initrd_location >>
  boot_user_typed regs scs.

Definition kernel_idle : K unit :=
  c <- keyboard_getchar;
  let c := s8 c in
  when (truth c) (monitor_put c).

(** The first [n] rounds of the loop. *)
Fixpoint kernel_loop (n : nat) : K unit :=
  match n with O => ret tt | S n => kernel_idle >> kernel_loop n end.
End Boot.

(** When no key is pressed it is [kernel_boot]. *)
Lemma boot_user_untyped `{Linkage, LeftInEax} stack frame hello regs s :
  boot_user_typed stack frame hello regs [] s = boot_user stack frame hello s.
Proof.
  unfold boot_user_typed, boot_user, press_all, bind, ret. cbn [foldr].
  repeat (case_match; try done).
Qed.

(** ** The loop

    The lemmas of this section are about the loop where nothing forbids it to store to the
    kernel's memory.  In the kernel that has started something does: System.v. *)

Lemma kbd_console km s s' g :
  console_frame (set_kbd g s) s' -> kbd_wf g km -> kbd_wf (kbd s') km /\ kbd s' = g.
Proof. by intros [(m & tr & mo & -> & _) _] H. Qed.

(** What a reader makes of the queue: the character 0 is not printed. *)
Definition printed (q : list Z) : list Z := filter (fun c => c <> 0) (s8 <$> q).

Lemma idle_spec km t s :
  kbd_wf (kbd s) km -> shows s t ->
  wp kernel_idle (fun _ s' => kbd_wf (kbd s') km /\ queue (kbd s') = tl (queue (kbd s)) /\
    shows s' (write (printed (take 1 (queue (kbd s)))) t)) s.
Proof.
  intros Hwf Hs. unfold kernel_idle. apply wp_bind.
  eapply wp_mono; [by apply (getchar_spec km)|]. intros c s1 (g & -> & Hg & _ & Hq).
  assert (Hs1 : shows (set_kbd g s) t) by exact Hs.
  assert (Hc : c = hd 0 (queue (kbd s)) /\ queue g = tl (queue (kbd s))) by (destruct (queue (kbd s)); by destruct Hq as (-> & -> & _)).
  destruct Hc as [-> Hq']. clear Hq. destruct (truth (s8 (hd 0 (queue (kbd s))))) eqn:E; cbn [when].
  - eapply wp_mono; [apply monitor_put_spec; [exact Hs1|apply s8_lt]|].
    intros [] s2 (Hfr & Hsh & _). destruct (kbd_console km s s2 g Hfr Hg) as [Hw Hk].
    split; [exact Hw|]. split; [by rewrite Hk|]. destruct (queue (kbd s)) as [|x q]; [done|].
    unfold printed. cbn [hd take fmap list_fmap] in *. rewrite filter_cons, decide_True; [exact Hsh|].
    intros Hx. unfold truth in E. by rewrite Hx in E.
  - apply wp_ret. split; [exact Hg|]. split; [exact Hq'|]. destruct (queue (kbd s)) as [|x q]; [exact Hs|].
    unfold printed. cbn [hd take fmap list_fmap] in *. rewrite filter_cons, decide_False; [exact Hs|].
    intros Hx. unfold truth in E. by replace (s8 x =? 0) with false in E by (symmetry; by apply Z.eqb_neq).
Qed.

Lemma printed_app q1 q2 : printed (q1 ++ q2) = printed q1 ++ printed q2.
Proof. unfold printed. by rewrite fmap_app, filter_app. Qed.

Lemma printed_plain q : Forall (fun c => 0 < c < 128) q -> printed q = q.
Proof.
  intros Hq. unfold printed. rewrite s8_fmap_id by done.
  induction Hq as [|c q Hc _ IH]; [done|]. rewrite filter_cons, decide_True by lia. by rewrite IH.
Qed.

Lemma loop_spec km n t s :
  kbd_wf (kbd s) km -> shows s t ->
  wp (kernel_loop n) (fun _ s' => kbd_wf (kbd s') km /\ queue (kbd s') = drop n (queue (kbd s)) /\
    shows s' (write (printed (take n (queue (kbd s)))) t)) s.
Proof.
  revert t s. induction n as [|n IH]; intros t s Hwf Hs; [by apply wp_ret|].
  cbn [kernel_loop]. apply wp_bind. eapply wp_mono; [by apply idle_spec|].
  intros [] s1 (Hw1 & Hq1 & Hs1). eapply wp_mono; [by apply IH|].
  intros [] s2 (Hw2 & Hq2 & Hs2). split; [exact Hw2|]. rewrite Hq1 in *.
  destruct (queue (kbd s)) as [|x q].
  - rewrite Hq2. split; [by destruct n|]. cbn [tl take] in *. by rewrite take_nil in Hs2.
  - split; [exact Hq2|]. cbn [tl take] in *. rewrite take_0 in Hs1.
    change (x :: take n q) with ([x] ++ take n q). by rewrite printed_app, write_app.
Qed.

(** The loop prints the waiting characters in the order in which they came, and
    only waits when there are none. *)
Theorem kernel_loop_echoes km n t s :
  kbd_wf (kbd s) km -> shows s t ->
  wp (kernel_loop n) (fun _ s' => queue (kbd s') = drop n (queue (kbd s)) /\
    shows s' (write (filter (fun c => c <> 0) (s8 <$> take n (queue (kbd s)))) t)) s.
Proof. intros Hwf Hs. eapply wp_mono; [by apply (loop_spec km n t)|]. by intros [] s' (_ & ? & ?). Qed.

Lemma typed_spec km regs scs t s :
  kbd_wf (kbd s) km -> NoDup (control_map km) -> Forall (plain_key km) scs ->
  queue (kbd s) = [] -> (length scs <= 255)%nat -> shows s t ->
  Forall (fun c => 0 < c < 128) (KeySpec.char_of km <$> scs) ->
  wp (press_all regs scs >> kernel_loop (length scs))
    (fun _ s' => queue (kbd s') = [] /\ shows s' (write (KeySpec.char_of km <$> scs) t)) s.
Proof.
  intros Hwf Hdup Hp Hq Hl Hs Hch. apply wp_bind.
  eapply wp_mono; [apply (press_all_spec km); [done..|by rewrite Hq]|].
  intros [] s1 (Hwf1 & Hq1 & Hm & Hmo). rewrite Hq in Hq1. cbn [app] in Hq1.
  assert (Hs1 : shows s1 t) by (destruct Hs as (Hs1 & Hs2 & Hs3); unfold shows; by rewrite Hm, Hmo).
  eapply wp_mono; [by apply (loop_spec km (length scs) t)|]. intros [] s2 (_ & -> & Hs2).
  rewrite Hq1 in *. rewrite drop_ge, take_ge in * by (by rewrite length_fmap). split; [done|].
  by rewrite printed_plain in Hs2 by done.
Qed.

(** What is typed is what is shown: the characters of up to 255 keys that are
    pressed while nothing waits appear on the console, in order, after as many
    rounds of the loop. *)
Theorem typed_is_shown km regs scs t s :
  kbd_wf (kbd s) km -> NoDup (control_map km) -> Forall (plain_key km) scs ->
  queue (kbd s) = [] -> (length scs <= 255)%nat -> shows s t ->
  Forall (fun c => 0 < c < 128) (KeySpec.char_of km <$> scs) ->
  wp (press_all regs scs >> kernel_loop (length scs))
    (fun _ s' => queue (kbd s') = [] /\ shows s' (write (KeySpec.char_of km <$> scs) t)) s.
Proof. apply typed_spec. Qed.

Module MainSample.
#[local] Existing Instance sample_linkage.

(** The keys e, c, h and o of the layout [us]. *)
Definition echo_keys : list Z := [18; 46; 35; 24].
Definition echo_state : kstate := KeyboardSample.state 0 7 0 0.

Lemma echo_shows : shows echo_state ConsoleSample.blank_terminal.
Proof. split; [vm_compute; done|]. split; [done|]. split; [done|]. simpl. lia. Defined.

Lemma typed_is_shown_witness :
  wp (press_all KeyboardSample.regs echo_keys >> kernel_loop (length echo_keys))
    (fun _ s' => queue (kbd s') = [] /\
       shows s' (write (KeySpec.char_of (set_controls 0 us) <$> echo_keys) ConsoleSample.blank_terminal)) echo_state.
Proof.
  apply (typed_is_shown (set_controls 0 us) KeyboardSample.regs echo_keys ConsoleSample.blank_terminal echo_state).
  - apply KeyboardSample.keyboard_wf; lia.
  - apply us_nodup.
  - apply (bool_decide_unpack (Forall _ _)). vm_compute. done.
  - reflexivity.
  - simpl. lia.
  - exact echo_shows.
  - apply (bool_decide_unpack (Forall _ _)). vm_compute. done.
Defined.

(** Three characters wait; two rounds print two of them. *)
Lemma kernel_loop_echoes_witness :
  wp (kernel_loop 2) (fun _ s' => queue (kbd s') = [65] /\
    shows s' (write [65; 65] ConsoleSample.blank_terminal)) (KeyboardSample.state 0 255 3 0).
Proof.
  apply (kernel_loop_echoes (set_controls 0 us) 2 ConsoleSample.blank_terminal (KeyboardSample.state 0 255 3 0)).
  - apply KeyboardSample.keyboard_wf; lia.
  - exact echo_shows.
Defined.
End MainSample.
