(* ===== verification/Boot.v ===== *)
(** * The start of the kernel, put together

    [kernel_boot] runs the initialisation of every component on the state that the
    ones before it leave.  This file follows that state from the boot loader to user
    mode; [kernel_boot_typed] is the same with keys pressed before interrupts are turned
    off. *)

From Stdlib Require Import ZArith Lia List String.
From stdpp Require Import base list gmap.
From S2P Require Import Prelude Machine Kernel Common Monitor Isr DescriptorTables Keyboard KeyboardRace Kmalloc Frames Paging Kheap.
From S2P Require Import KheapSpec KheapBoot KheapAligned KheapWf PagingInit Task TaskInit Timer Fs Initrd Mkinit Syscall Main.
Import Terminal.

(** ** Steps on the console *)

(** Output to ports leaves the mode of the processor as it is. *)
Lemma mode_of_output es tr : Forall port_output es -> mode_of (es ++ tr) = mode_of tr.
Proof. induction 1 as [|[] es He _ IH]; by destruct He || done. Qed.

(** Between [s] and [s'] the kernel has only printed and recorded verdicts. *)
Definition quiet (s s' : kstate) : Prop := exists m tr g f,
  s' = set_mem m (set_trace tr (set_mon g (set_boot (BootGlobals (initial_esp (boot s)) f) s))) /\
  same_outside video_memory (video_memory + 4000) (mem s) m.

Definition on_screen (s : kstate) : Prop := exists t, shows s t.

#[export] Instance quiet_preorder : PreOrder quiet.
Proof.
  split.
  - intros s. exists (mem s), (trace s), (mon s), (failure (boot s)). split; [|by intros ???].
    destruct s as [? ? ? ? ? ? ? ? ? ? ? ? ? []]. reflexivity.
  - intros s1 s2 s3 (m2 & tr2 & g2 & f2 & -> & H2) (m3 & tr3 & g3 & f3 & -> & H3).
    exists m3, tr3, g3, f3. split; [reflexivity|]. by eapply same_outside_trans.
Qed.

Lemma quiet_screen s s' : screen_frame s s' -> quiet s s'.
Proof.
  intros (m & tr & g & -> & Hm). exists m, tr, g, (failure (boot s)). split; [|exact Hm].
  destruct s as [? ? ? ? ? ? ? ? ? ? ? ? ? []]. reflexivity.
Qed.

Lemma quiet_console s s' : console_frame s s' -> quiet s s'.
Proof. intros [Hs _]. by apply quiet_screen. Qed.

Lemma quiet_failure f s : quiet s (set_boot (BootGlobals (initial_esp (boot s)) f) s).
Proof. exists (mem s), (trace s), (mon s), f. by split; [destruct s|intros ???]. Qed.

Lemma quiet_trace tr s : quiet s (set_trace tr s).
Proof. apply quiet_screen, screen_frame_trace. Qed.

Lemma quiet_mem s s' : quiet s s' -> same_outside video_memory (video_memory + 4000) (mem s) (mem s').
Proof. by intros (m & tr & g & f & -> & Hm). Qed.

(** A console survives what leaves its memory and its globals alone. *)
Lemma shows_frame (P : Z -> Prop) s s' t :
  shows s t -> same_on P (mem s) (mem s') -> (forall b, video_memory <= b < video_memory + 4000 -> P b) ->
  mon s' = mon s -> shows s' t.
Proof.
  intros (Hs & Hm & Ht) Hon HP Hmon. split; [|by rewrite Hmon].
  apply screen_intro; [by destruct Ht|]. intros j Hj. rewrite (screen_lookup _ _ _ Hs Hj). f_equal.
  unfold load16, vga, video_memory in *. by rewrite !Hon by (try apply HP; lia).
Qed.

Lemma on_screen_frame (P : Z -> Prop) s s' :
  on_screen s -> same_on P (mem s) (mem s') -> (forall b, video_memory <= b < video_memory + 4000 -> P b) ->
  mon s' = mon s -> on_screen s'.
Proof. intros [t Hs] ???. exists t. by eapply shows_frame. Qed.

Section Console.
Context `{Linkage, LeftInEax} (stack : kstate -> list Z).

(** The array of [monitor_write_padded] is followed, before long, by a zero. *)
Hypothesis Hstack : forall s, exists junk rest, stack s = junk ++ 0 :: rest /\
  Forall (fun b => 0 < b < 256) junk /\ Z.of_nat (length junk) < 2147483000.

Lemma padded_spec message success t s :
  shows s t -> Forall (fun b => 0 < b < 128) (str message) -> (length (str message) <= 75)%nat ->
  wp (padded stack message success) (fun _ s' => console_frame s s' /\ on_screen s') s.
Proof using Hstack.
  intros Hs Hm Hl. unfold padded. k_steps. destruct (Hstack s) as (junk & rest & -> & Hj & Hn).
  eapply wp_mono; [by apply (write_padded_spec (str message) success junk rest t)|].
  intros [] s' [Hfr Hsh]. split; [done|]. by eexists.
Qed.

(** A step of the start that prints. *)
Definition prints (c : K unit) : Prop :=
  forall s, on_screen s -> wp c (fun _ s' => quiet s s' /\ on_screen s') s.

Lemma prints_then {A} (c : K unit) (k : K A) Q s0 s :
  prints c -> quiet s0 s /\ on_screen s -> (forall s', quiet s0 s' /\ on_screen s' -> wp k Q s') -> wp (c >> k) Q s.
Proof using.
  intros Hc [Hq Hs] Hk. apply wp_bind. eapply wp_mono; [by apply Hc|]. intros [] s' [Hq' Hs']. apply Hk.
  split; [by etransitivity|done].
Qed.

Lemma prints_write l :
  Forall (fun b => 0 < b < 128) l -> Z.of_nat (length l) < 2147483647 -> prints (monitor_write (lit l)).
Proof using.
  intros Hl Hn s [t Hs]. eapply wp_mono; [by apply monitor_write_lit|]. intros [] s' [Hf Ht].
  split; [by apply quiet_console|by eexists].
Qed.

Lemma prints_newline : prints (monitor_put 10).
Proof using.
  intros s [t Hs]. eapply wp_mono; [apply monitor_put_spec; [exact Hs|lia]|]. intros [] s' (Hf & Ht & _).
  split; [by apply quiet_console|by eexists].
Qed.

Lemma prints_padded message success :
  Forall (fun b => 0 < b < 128) (str message) -> (length (str message) <= 75)%nat ->
  prints (padded stack message success).
Proof using Hstack.
  intros Hm Hl s [t Hs]. eapply wp_mono; [by apply (padded_spec message success t)|]. intros [] s' [Hf Ht].
  split; [by apply quiet_console|done].
Qed.

Lemma prints_report message :
  Forall (fun b => 0 < b < 128) (str message) -> (length (str message) <= 75)%nat -> prints (report stack message).
Proof using Hstack. intros Hm Hl s Hs. unfold report. k_steps. case_match; by apply prints_padded. Qed.

Lemma prints_failure r : prints (set_failure r).
Proof using. intros s Hs. unfold set_failure. k_step. split; [apply quiet_failure|exact Hs]. Qed.
End Console.

(** ** The console, the descriptor tables, the timer *)

Section Early.
Context `{Linkage, LeftInEax} (stack : kstate -> list Z) (initial_stack : Z).
Hypothesis Hstack : forall s, exists junk rest, stack s = junk ++ 0 :: rest /\
  Forall (fun b => 0 < b < 256) junk /\ Z.of_nat (length junk) < 2147483000.

(** The handlers, the descriptor tables and the console are all that has changed. *)
Definition early_done (s s' : kstate) : Prop := on_screen s' /\ exists m tr g d f,
  s' = set_mem m (set_trace tr (set_mon g (set_dt d (set_handlers (<[32 := ptr_timer_callback]> ∅)
         (set_boot (BootGlobals initial_stack f) s))))) /\
  same_outside video_memory (video_memory + 4000) (mem s) m.

Lemma boot_early_spec s :
  length (gdt_entries (dt s)) = 6%nat -> wp (boot_early stack initial_stack) (fun _ s' => early_done s s') s.
Proof using Hstack.
  intros Hdt. unfold boot_early. apply wp_bind, wp_modify. set (s0 := set_boot _ s).
  apply wp_bind. eapply wp_mono; [apply clear_spec|]. intros [] s1 (F1 & S1 & _).
  assert (C1 : quiet s0 s1 /\ on_screen s1) by (split; [by apply quiet_console|by eexists]). clear F1 S1.
  eapply prints_then; [apply prints_write; [by repeat constructor|simpl; lia]|exact C1|]. clear s1 C1. intros s1 C1.
  eapply prints_then; [apply prints_write; [by repeat constructor|simpl; lia]|exact C1|]. clear s1 C1. intros s1 C1.
  eapply prints_then; [apply prints_write; [by repeat constructor|simpl; lia]|exact C1|]. clear s1 C1. intros s1 C1.
  eapply prints_then; [apply prints_newline|exact C1|]. clear s1 C1. intros s1 [Q1 S1].
  assert (Hd1 : length (gdt_entries (dt s1)) = 6%nat) by (by destruct Q1 as (? & ? & ? & ? & -> & _)).
  destruct (init_descriptor_tables_eq s1 Hd1) as (tr & d & Hd & Hi).
  apply wp_bind, wp_ok. do 2 eexists. split; [exact Hi|]. clear Hi.
  set (s2 := set_handlers ∅ _). assert (C2 : quiet s2 s2 /\ on_screen s2) by (by split).
  eapply prints_then; [apply prints_failure|exact C2|]. clear C2. intros s3 C3.
  eapply prints_then; [apply (prints_report stack Hstack); [by repeat constructor|simpl; lia]|exact C3|]. clear s3 C3. intros s3 C3.
  apply wp_bind, wp_emit. set (s4 := set_trace _ s3).
  assert (C4 : quiet s2 s4 /\ on_screen s4).
  { destruct C3 as [Q3 S3]. split; [etransitivity; [exact Q3|apply quiet_trace]|exact S3]. }
  clearbody s4. clear s3 C3. destruct C4 as [Q4 S4].
  apply wp_bind, wp_ok. do 2 eexists. split; [apply init_timer_spec; lia|].
  set (s5 := set_trace _ _). assert (C5 : quiet s5 s5 /\ on_screen s5) by (by split).
  eapply prints_then; [apply prints_failure|exact C5|]. clear C5. intros s6 [Q6 S6].
  eapply wp_mono; [apply (prints_report stack Hstack); [by repeat constructor|simpl; lia|exact S6]|].
  intros [] s7 [Q7 S7]. split; [exact S7|].
  destruct Q1 as (m1 & tr1 & g1 & f1 & -> & H1), Q4 as (m4 & tr4 & g4 & f4 & -> & H4).
  destruct Q6 as (m6 & tr6 & g6 & f6 & -> & H6), Q7 as (m7 & tr7 & g7 & f7 & -> & H7).
  exists m7, tr7, g7, d, f7. split; [reflexivity|].
  eapply same_outside_trans; [exact H1|]. eapply same_outside_trans; [exact H4|].
  by eapply same_outside_trans.
Qed.
End Early.

(** ** What the boot loader left *)

(** The multiboot structure at [mboot_ptr] lists a module, which is at [loc] and ends
    at [iend]. *)
Record modules_at (m : memory) (mboot_ptr loc iend : Z) : Prop := ModulesAt {
  mo_struct : region mboot_ptr (mboot_ptr + 88) /\
    (mboot_ptr + 88 <= video_memory \/ video_memory + 4000 <= mboot_ptr);
  mo_count : 0 < load32 m (mboot_mods_count mboot_ptr);
  mo_list : load32 m (mboot_mods_addr mboot_ptr) + 8 < 4294967296 /\
    (load32 m (mboot_mods_addr mboot_ptr) + 8 <= video_memory \/
     video_memory + 4000 <= load32 m (mboot_mods_addr mboot_ptr));
  mo_loc : load32 m (load32 m (mboot_mods_addr mboot_ptr)) = loc;
  mo_end : load32 m (load32 m (mboot_mods_addr mboot_ptr) + 4) = iend
}.

Lemma modules_at_frame m m' mboot_ptr loc iend :
  modules_at m mboot_ptr loc iend -> same_outside video_memory (video_memory + 4000) m m' ->
  modules_at m' mboot_ptr loc iend.
Proof.
  intros [[[Hr1 Hr2] Hs] Hc [Hl1 Hl2] Hloc Hend] Hm.
  pose proof (load32_range m (mboot_mods_addr mboot_ptr)).
  assert (Hw : load32 m' (mboot_mods_addr mboot_ptr) = load32 m (mboot_mods_addr mboot_ptr)).
  { unfold mboot_mods_addr. eapply load32_frame; [exact Hm|unfold region; lia|lia]. }
  constructor; rewrite ?Hw; try done.
  - unfold mboot_mods_count in *. erewrite load32_frame; [exact Hc|exact Hm|unfold region; lia|lia].
  - rewrite <- Hloc. eapply load32_frame; [exact Hm|unfold region; lia|lia].
  - rewrite <- Hend. eapply load32_frame; [exact Hm|unfold region; lia|lia].
Qed.

Section Modules.
Context `{Linkage, LeftInEax} (stack : kstate -> list Z) (mboot_ptr : Z).
Hypothesis Hstack : forall s, exists junk rest, stack s = junk ++ 0 :: rest /\
  Forall (fun b => 0 < b < 256) junk /\ Z.of_nat (length junk) < 2147483000.

Lemma boot_modules_spec loc iend s :
  modules_at (mem s) mboot_ptr loc iend -> on_screen s ->
  wp (boot_modules stack mboot_ptr) (fun r s' => r = loc /\ exists s1, quiet s s1 /\ on_screen s1 /\
    s' = set_hp (HeapGlobals iend (kheap (hp s1))) s1) s.
Proof using Hstack.
  intros [_ Hc [Hl _] <- <-] Hs. unfold boot_modules, ASSERT.
  set (a := load32 (mem s) (mboot_mods_addr mboot_ptr)) in *.
  assert (0 <= a) by apply load32_range.
  do 2 k_step. replace (0 <? _) with true by blia. do 10 k_step. fold a. rewrite (u32_id (a + 4)) by lia.
  eapply prints_then; [apply (prints_padded stack Hstack); [by repeat constructor|simpl; lia]|by split|].
  intros s1 [Q1 S1]. unfold set_placement_address. k_steps. split; [done|]. by exists s1.
Qed.
End Modules.

(** Up to there nothing but the console, the descriptor tables, the handlers and the
    verdicts changes. *)
Definition early (s s' : kstate) : Prop :=
  same_outside video_memory (video_memory + 4000) (mem s) (mem s') /\
  hp s' = hp s /\ pg s' = pg s /\ tk s' = tk s /\ fs s' = fs s.

(** C37: Without a module to take for the ramdisk the kernel stops with an assertion,
    before it touches any memory but the console's and before there is paging, a
    heap, a task or a file system. *)
Theorem boot_without_module_halts `{Linkage, LeftInEax} stack frame hello mboot_ptr initial_stack s :
  (forall s, exists junk rest, stack s = junk ++ 0 :: rest /\
     Forall (fun b => 0 < b < 256) junk /\ Z.of_nat (length junk) < 2147483000) ->
  length (gdt_entries (dt s)) = 6%nat -> region mboot_ptr (mboot_ptr + 88) ->
  mboot_ptr + 88 <= video_memory \/ video_memory + 4000 <= mboot_ptr ->
  load32 (mem s) (mboot_mods_count mboot_ptr) = 0 ->
  halts (kernel_boot stack frame hello mboot_ptr initial_stack)
    (fun s' => head (trace s') = Some Hlt /\ early s s') s.
Proof.
  intros Hstack Hdt [Hr1 Hr2] Hout Hcount. unfold kernel_boot, boot_modules, ASSERT.
  apply halts_bind. eapply wp_mono; [by apply (boot_early_spec stack initial_stack Hstack)|].
  intros [] s1 ([t S1] & m & tr & g & d & f & Hs1 & Hm).
  assert (Hm1 : mem s1 = m) by (by rewrite Hs1).
  apply halts_bind_now, halts_bind, wp_ld32. rewrite Hm1. unfold mboot_mods_count in *.
  rewrite (load32_frame _ _ _ _ Hm) by (unfold region; lia). rewrite Hcount. apply halts_bind_now.
  eapply halts_mono; [eapply panic_assert_halts; [exact S1|..]; try (by repeat constructor); simpl; lia|].
  intros s2 [Hh (m2 & tr2 & g2 & -> & Hm2)]. split; [exact Hh|]. rewrite Hm1 in Hm2.
  unfold early. rewrite Hs1. cbn. split; [|done]. by eapply same_outside_trans.
Qed.

(** ** Memory and the first task *)

(** The ends of the heap: the index in front of the managed addresses. *)
Lemma heap_ends : KHEAP_START = 3221225472 /\ heap_area_start = 3221749760 /\ KHEAP_END = 3222274048.
Proof. by repeat split. Qed.

Lemma heap_area_fits : 12 <= heap_area_start /\ heap_area_start <= KHEAP_END /\ KHEAP_END < 4294967296.
Proof. pose proof heap_ends. lia. Qed.

(** What the heap of [s] owns. *)
Definition owned (s : kstate) (b : Z) : Prop := heap_own KHEAP_START 131072 heap_area_start KHEAP_END s b.

Lemma owned_range s b : owned s b ->
  8 <= b < 12 \/ kheap (hp s) <= b < kheap (hp s) + 32 \/ KHEAP_START <= b < KHEAP_END.
Proof. pose proof heap_ends. unfold owned, heap_own, index_own. intros [Hb|[Hb _]]; lia. Qed.

(** The directory of the first task, in the first block of the heap. *)
Definition first_directory : Z := heap_area_start + 4096.

(** It is the current one, and maps the kernel's addresses as [initialise_paging] does,
    through tables between [lo] and [hi]. *)
Definition kernel_mapped (lo hi : Z) (s : kstate) : Prop :=
  current_directory (pg s) = first_directory /\ exists t0 t1, maps_kernel (mem s) first_directory t0 t1 /\
    lo <= t0 /\ t0 + 4096 <= hi /\ lo <= t1 /\ t1 + 4096 <= hi.

Lemma kernel_mapped_frame (P : Z -> Prop) lo hi s s' :
  kernel_mapped lo hi s -> pg s' = pg s -> same_on P (mem s) (mem s') ->
  (forall b, lo <= b < hi \/ dir_kept b -> P b) -> kernel_mapped lo hi s'.
Proof.
  intros (Hd & t0 & t1 & Hm & Ht) Hpg Hs HP. split; [by rewrite Hpg|]. exists t0, t1. split; [|exact Ht].
  pose proof heap_ends. eapply maps_kernel_frame; [exact Hm|exact Hs|unfold first_directory; lia|].
  intros b Hb. apply HP. unfold map_mem, dir_table_physical, dir_kept, first_directory in *. lia.
Qed.

Lemma kernel_mapped_weaken lo hi lo' hi' s :
  kernel_mapped lo hi s -> lo' <= lo -> hi <= hi' -> kernel_mapped lo' hi' s.
Proof. intros (Hd & t0 & t1 & Hm & Ht) ??. split; [done|]. exists t0, t1. split; [done|lia]. Qed.

(** The console's memory. *)
Definition video (b : Z) : Prop := video_memory <= b < video_memory + 4000.

(** [task] is the only task; its structure is apart from what maps the kernel. *)
Definition sole_task (s : kstate) (task : Z) : Prop :=
  schedules [task] s (RoundRobin.Scheduler [(0, 0, 0)] 0) /\
  load32 (mem s) (task_page_directory task) = first_directory /\
  heap_area_start <= task /\ task + 28 <= KHEAP_END /\ forall b, task <= b < task + 28 -> ~ dir_kept b.

(** There is one, and its structure belongs to nobody else. *)
Definition one_task (s : kstate) : Prop := exists task,
  sole_task s task /\ forall b, task <= b < task + 28 -> ~ owned s b.

Lemma schedules_one_frame (P : Z -> Prop) task s s' a :
  schedules [task] s a -> tk s' = tk s -> same_on P (mem s) (mem s') ->
  (forall b, task <= b < task + 28 -> P b) -> schedules [task] s' a.
Proof.
  intros Hsch Htk Hs HP. apply (schedules_frame [task] P s); [done..|].
  intros [|i] t b Hi Hb; [|done]. injection Hi as <-. by apply HP.
Qed.

Lemma sole_task_frame (P : Z -> Prop) task s s' :
  sole_task s task -> tk s' = tk s -> same_on P (mem s) (mem s') -> (forall b, task <= b < task + 28 -> P b) ->
  sole_task s' task.
Proof.
  intros (Hsch & Hd & H1 & H2 & H3) Htk Hs HP. pose proof heap_ends. split; [by eapply schedules_one_frame|].
  split; [|by split_and!]. rewrite <- Hd. unfold task_page_directory.
  eapply load32_same_on; [exact Hs|unfold region; lia|]. intros b Hb. apply HP. lia.
Qed.

(** The state when paging is on and there is a task: [b] is the state before. *)
Record memory_started `{Linkage} (b s : kstate) : Prop := MemoryStarted {
  ms_screen : on_screen s;
  ms_cr0 : Z.testbit (cpu_cr0 (cpu s)) 31 = true;
  ms_handlers : interrupt_handlers s = <[14 := ptr_page_fault]> (interrupt_handlers b);
  ms_kept : kbd s = kbd b /\ dt s = dt b /\ fs s = fs b;
  ms_task : one_task s;
  ms_mapped : kernel_mapped (placement_address (hp b)) (kheap (hp s)) s;
  ms_dir : forall a, dir_kept a -> ~ owned s a;
  ms_heap : placement_address (hp b) < kheap (hp s) < 4194304;
  ms_budget : heap_budget KHEAP_START 131072 heap_area_start KHEAP_END 495548 s;
  ms_clean : heap_zero b -> heap_clean heap_area_start KHEAP_END s;
  ms_below : same_on (fun a => 12 <= a < placement_address (hp b) /\ ~ video a) (mem b) (mem s)
}.

(** The heap does not care for what others write. *)
Lemma heap_step `{Linkage} s s' :
  hp s' = hp s -> same_on (owned s) (mem s) (mem s') ->
  (forall b, owned s' b <-> owned s b) /\
  (forall n, heap_budget KHEAP_START 131072 heap_area_start KHEAP_END n s ->
     heap_budget KHEAP_START 131072 heap_area_start KHEAP_END n s') /\
  (heap_clean heap_area_start KHEAP_END s -> heap_clean heap_area_start KHEAP_END s').
Proof.
  intros Hhp Hs. pose proof heap_area_fits as Ha.
  pose proof (fun b => own_frame KHEAP_START 131072 _ _ Ha s (mem s') (fs s) b Hs) as H1.
  pose proof (fun n => budget_frame KHEAP_START 131072 _ _ Ha n s (mem s') (fs s) Hs) as H2.
  pose proof (clean_own_frame KHEAP_START 131072 _ _ Ha s (mem s') (fs s) Hs) as H3.
  unfold owned, heap_own, heap_budget, heap_clean in *. cbn [hp mem set_fs set_mem] in *.
  rewrite Hhp. split; [exact H1|]. split; [exact H2|exact H3].
Qed.

Lemma memory_quiet `{Linkage} b s s' :
  757664 <= placement_address (hp b) -> memory_started b s -> quiet s s' -> on_screen s' -> memory_started b s'.
Proof.
  intros Hp [_ Hcr Hh (K1 & K2 & K3) (task & Htask & Htown) Hmap Hdir Hheap Hbud Hcl Hbelow] Hq Hscr.
  pose proof (quiet_mem s s' Hq) as Hm. pose proof heap_ends as (E1 & E2 & E3). unfold video_memory in Hm.
  assert (Hown : same_on (owned s) (mem s) (mem s')).
  { intros a Ha Ho. apply Hm; [done|]. apply owned_range in Ho. lia. }
  assert (Hhp : hp s' = hp s) by (by destruct Hq as (? & ? & ? & ? & -> & _)).
  destruct (heap_step s s' Hhp Hown) as (Ho & Hb & Hc).
  constructor.
  - exact Hscr.
  - by destruct Hq as (? & ? & ? & ? & -> & _).
  - by destruct Hq as (? & ? & ? & ? & -> & _).
  - by destruct Hq as (? & ? & ? & ? & -> & _).
  - exists task. split.
    + eapply sole_task_frame; [exact Htask|by destruct Hq as (? & ? & ? & ? & -> & _)|exact Hm|].
      destruct Htask as (_ & _ & ? & _). intros a Ha. cbv beta. lia.
    + intros a Ha. rewrite Ho. by apply Htown.
  - rewrite Hhp. eapply kernel_mapped_frame; [exact Hmap|by destruct Hq as (? & ? & ? & ? & -> & _)|exact Hm|].
    intros a [Ha|Ha%dir_kept_range]; cbv beta; lia.
  - intros a Ha. rewrite Ho. by apply Hdir.
  - by rewrite Hhp.
  - by apply Hb.
  - intros Hz. by apply Hc, Hcl.
  - intros a Ha [Ha1 Ha2]. unfold video, video_memory in Ha2. rewrite Hm by lia. by apply Hbelow.
Qed.

Lemma can_start_tasks_frame `{Linkage} b s :
  can_start_tasks b -> hp s = hp b -> tk s = tk b -> cpu s = cpu b -> initial_esp (boot s) = initial_esp (boot b) ->
  same_outside video_memory (video_memory + 4000) (mem b) (mem s) -> 757664 <= placement_address (hp b) ->
  can_start_tasks s.
Proof.
  intros [[C1 C2 C3 C4 C5 C6 C7] D1 D2 [] D4] Hhp Htk Hcpu Hboot Hm Hp. unfold video_memory in Hm.
  pose proof (next_page_bounds (placement_address (hp b) + 128) ltac:(lia)) as [? _].
  pose proof (next_page_bounds (next_page (placement_address (hp b) + 128) + 8196) ltac:(lia)) as [? _].
  pose proof (next_page_bounds (next_page (next_page (placement_address (hp b) + 128) + 8196) + 4096) ltac:(lia)) as [? _].
  assert (Hused : forall f, 0 <= f < 1283 ->
    used_in (mem s) (placement_address (hp b)) f = used_in (mem b) (placement_address (hp b)) f).
  { intros f Hf. unfold used_in. f_equal. assert (0 <= f / 32 < 41) by dlia.
    eapply load32_frame; [exact Hm|unfold region; lia|lia]. }
  constructor; [constructor|..]; rewrite ?Hhp, ?Htk; try done.
  - intros f Hf. rewrite Hused by lia. by apply C4.
  - rewrite (load32_frame _ _ _ _ Hm 8); [done|unfold region; lia|lia].
  - intros f Hf. rewrite Hused by lia. by apply D2.
  - constructor; rewrite ?Hcpu, ?Hboot; done.
Qed.

Section Memory.
Context `{Linkage, LeftInEax} (stack : kstate -> list Z) (b : kstate).
Hypothesis Hstack : forall s, exists junk rest, stack s = junk ++ 0 :: rest /\
  Forall (fun b => 0 < b < 256) junk /\ Z.of_nat (length junk) < 2147483000.
Hypothesis Hcan : can_start_tasks b.
Hypothesis Hplace : 757664 <= placement_address (hp b).
Let p := placement_address (hp b).
Let heap := next_page (next_page (next_page (p + 128) + 8196) + 4096) + 4096.

Lemma heap_place : p < heap /\ heap + 32 <= 4194304.
Proof using Hcan. pose proof (after_places b Hcan). unfold heap, p. lia. Qed.

(** Printing leaves paging as it is. *)
Lemma ready_quiet s1 s2 : ready_for_tasks b s1 -> quiet s1 s2 -> ready_for_tasks b s2.
Proof using Hcan Hplace.
  intros Hr Hq. pose proof (quiet_mem s1 s2 Hq) as Hm.
  apply (ready_frame b Hcan s1 s2 Hr); try (by destruct Hq as (? & ? & ? & ? & -> & _)).
  intros a Ha Hn. apply Hm; [done|]. unfold video_memory. lia.
Qed.

(** The kernel's addresses stay mapped. *)
Lemma kernel_mapped_tasks s1 s2 s3 :
  paging_started b s1 -> quiet s1 s2 -> tasking_started heap p (heap_zero b) s2 s3 -> kernel_mapped p heap s3.
Proof using Hcan Hplace.
  intros Hps Hq Hts. pose proof (after_places b Hcan) as Hpl. pose proof heap_ends.
  pose proof (quiet_mem s1 s2 Hq) as Hm. unfold video_memory in Hm.
  pose proof (cst_paging b Hcan) as [_ Hp4 _ _ Hroom _ _].
  pose proof (maps_started b Hp4 Hroom (mem s1) (started_map _ _ Hps)) as Hmaps.
  pose proof (started_pg _ _ Hps) as Hpg.
  assert (Hpg2 : pg s2 = pg s1) by (by destruct Hq as (? & ? & ? & ? & -> & _)).
  destruct (ts_keeps _ _ _ _ _ Hts) as (_ & Hpg3 & _).
  split; [by rewrite Hpg3, Hpg2, Hpg|]. 
  exists (next_page (next_page (next_page (p + 128) + 8196) + 4096)), (next_page (next_page (p + 128) + 8196)).
  split; [|unfold heap; subst p; lia].
  apply (tasking_maps heap _ _ _ p Hpl (heap_zero b) s2 s3 Hts).
  eapply maps_kernel_frame; [exact Hmaps|exact Hm|unfold heap_area_start in *; lia|].
  intros a Ha. unfold map_mem, dir_table_physical in *. cbv beta. lia.
Qed.

(** The last step, with what the first one has left below the placement address. *)
Lemma tasks_memory s1 s2 s3 :
  paging_started b s1 -> quiet s1 s2 -> on_screen s2 -> tasking_started heap p (heap_zero b) s2 s3 ->
  memory_started b s3.
Proof using Hcan Hplace.
  intros Hps Hq Hscr Hts. pose proof heap_place as [Hh1 Hh2].
  pose proof (rt_heap b s2 (ready_quiet s1 s2 (ready_after_paging b s1 Hcan Hps) Hq)) as Hkh.
  change (kheap (hp s2) = heap) in Hkh. pose proof (quiet_mem s1 s2 Hq) as Hm. pose proof Hps as Hps0. pose proof Hts as Hts0.
  destruct Hps, Hts.
  destruct ts_keeps as (T1 & T2 & T3 & T4 & T5 & T6 & T7 & T8 & T9).
  destruct started_keeps as (_ & _ & K1 & K2 & K3 & K4 & K5 & _).
  pose proof heap_ends as (E1 & E2 & E3).
  assert (Q : cpu_cr0 (cpu s2) = cpu_cr0 (cpu s1) /\ interrupt_handlers s2 = interrupt_handlers s1 /\
    kbd s2 = kbd s1 /\ dt s2 = dt s1 /\ fs s2 = fs s1) by (by destruct Hq as (? & ? & ? & ? & -> & _)).
  destruct Q as (Q1 & Q2 & Q3 & Q4 & Q5).
  assert (Hlow : same_on (fun a => 12 <= a < p) (mem s2) (mem s3)).
  { intros a Ha Hap. apply ts_frame; [done|]. unfold aside, stack_mem. lia. }
  constructor.
  - apply (on_screen_frame _ s2 s3 Hscr Hlow); [|done]. unfold video_memory, p. lia.
  - by rewrite T9, Q1.
  - by rewrite T7, Q2, started_handlers.
  - by rewrite T5, T6, T3, Q3, Q4, Q5, K2, K3, K5.
  - destruct ts_task as (task & Hsch & Hd & _ & H1 & H2 & H3 & H4). exists task. split; [|exact H3]. by split_and!.
  - rewrite T1, Hkh. apply (kernel_mapped_tasks s1 s2 s3 Hps0 Hq Hts0).
  - exact ts_dir.
  - rewrite T1, Hkh. fold p. lia.
  - exact ts_budget.
  - exact ts_clean.
  - intros a Ha [Ha1 Ha2]. unfold video in Ha2. rewrite Hlow by done. rewrite Hm by done.
    apply started_frame; [done|]. left. apply Ha1.
Qed.

Lemma boot_memory_spec : on_screen b -> wp (boot_memory stack) (fun _ s' => memory_started b s') b.
Proof using Hstack Hcan Hplace.
  intros Hs. unfold boot_memory. apply wp_bind. eapply wp_mono; [apply start_spec, Hcan|].
  intros r s1 [-> Hps].
  assert (S1 : on_screen s1).
  { eapply (on_screen_frame _ b s1 Hs (started_frame _ _ Hps)); [|by destruct (started_keeps _ _ Hps) as (_ & _ & ? & _)].
    intros a Ha. left. unfold video_memory in Ha. lia. }
  assert (C1 : quiet s1 s1 /\ on_screen s1) by by split.
  eapply prints_then; [apply prints_failure|exact C1|]. intros s2 C2.
  eapply prints_then; [apply (prints_report stack Hstack); [by repeat constructor|simpl; lia]|exact C2|].
  clear s2 C1 C2. intros s2 [Q2 S2].
  pose proof (ready_quiet s1 s2 (ready_after_paging b s1 Hcan Hps) Q2) as Hready.
  apply wp_bind. eapply wp_mono; [by apply (tasking_after_paging b Hcan)|]. intros r s3 [-> Hts].
  pose proof (tasks_memory s1 s2 s3 Hps Q2 S2 Hts) as Hms.
  assert (C3 : quiet s3 s3 /\ on_screen s3) by (split; [done|by destruct Hms]).
  eapply prints_then; [apply prints_failure|exact C3|]. intros s4 [Q4 S4].
  eapply wp_mono; [apply (prints_report stack Hstack); [by repeat constructor|simpl; lia|exact S4]|].
  intros [] s5 [Q5 S5]. apply (memory_quiet b s3 s5 Hplace Hms); [by etransitivity|done].
Qed.
End Memory.

(** ** The ramdisk *)

Section Ramdisk.
Context `{Linkage, LeftInEax} (b : kstate) (loc size : Z) (files : list file).
Hypothesis Hsym : sym_header_t_less_than <> 0.
Hypothesis Hsyms : 0 <= sym_initrd_read < 4294967296 /\ 0 <= sym_initrd_readdir < 4294967296 /\
  0 <= sym_initrd_finddir < 4294967296.
Hypothesis Hplace : 757664 <= loc /\ loc + size <= placement_address (hp b).
Hypothesis Hsize : 4 + 76 * Z.of_nat (length files) <= size.

(** The files are open: their nodes are in the heap, and their contents in the image,
    whose headers have been rewritten. *)
Record files_open (s : kstate) : Prop := FilesOpen {
  fo_ramdisk : ramdisk_at s files;
  fo_headers : file_headers (fs s) = loc + 4;
  fo_contents : forall i f off, files !! i = Some f ->
    header_of (mem s) (loc + 4 + 76 * Z.of_nat i) 0 off f -> loc <= off /\ off + file_size f <= loc + size;
  fo_nodes : forall a, nodes_mem (fs s) (Z.of_nat (length files)) a -> a < 4294967295 /\ ~ video a
}.

Lemma files_open_frame s s' :
  files_open s -> same_outside video_memory (video_memory + 4000) (mem s) (mem s') ->
  (exists r, fs s' = set_fs_root r (fs s)) -> files_open s'.
Proof using Hplace Hsize.
  intros [Hrd Hh Hc Hn] Hm [r Hfs]. pose proof (rd_root _ _ Hrd) as [[Hr _] _]. pose proof (rd_dev _ _ Hrd) as [[Hd _] _].
  pose proof (rd_headers _ _ Hrd).
  assert (Hfields : initrd_root (fs s') = initrd_root (fs s) /\ initrd_dev (fs s') = initrd_dev (fs s) /\
    root_nodes (fs s') = root_nodes (fs s) /\ nroot_nodes (fs s') = nroot_nodes (fs s) /\
    file_headers (fs s') = file_headers (fs s)) by (by rewrite Hfs).
  destruct Hfields as (E1 & E2 & E3 & E4 & E5).
  assert (Hon : same_on (fun a => ~ video a) (mem s) (mem s')) by (intros a Ha Hv; by apply Hm).
  assert (Hvid : forall a, loc <= a < loc + size -> ~ video a) by (unfold video, video_memory; lia).
  constructor.
  - apply (ramdisk_frame (fun a => ~ video a) loc size files s s' Hrd Hon E1 E2 E3 E4 E5 Hh); [| |lia|exact Hc|].
    + destruct (Hn (initrd_root (fs s) + 183)) as [? _]; [left; lia|]. lia.
    + destruct (Hn (initrd_dev (fs s) + 183)) as [? _]; [right; left; lia|]. lia.
    + intros a [Ha|Ha]; [by apply Hn|by apply Hvid].
  - by rewrite E5.
  - intros i f off Hi Hhd. apply (Hc i f off Hi). pose proof (lookup_lt_Some _ _ _ Hi).
    pose proof (ho_end _ _ _ _ _ Hhd). 
    destruct (rd_file _ _ Hrd i f Hi) as (Hv & _ & off' & Hhd'). rewrite Hh in Hhd'.
    assert (off' = off) as <-; [|done]. destruct (Hc i f off' Hi Hhd') as [??].
    assert (Hhd'' : header_of (mem s') (loc + 4 + 76 * Z.of_nat i) 0 off' f).
    { eapply header_of_frame; [exact Hhd'|exact Hon|done|lia|lia|lia| |]; intros a Ha; apply Hvid; lia. }
    pose proof (ho_offset _ _ _ _ _ Hhd). pose proof (ho_offset _ _ _ _ _ Hhd''). lia.
  - intros a. unfold nodes_mem. rewrite E1, E2, E3. apply Hn.
Qed.

Hypothesis Himg : image_at (mem b) loc size files.
Hypothesis Hfiles : files <> [].
Hypothesis Hcount : 464 + 184 * Z.of_nat (length files) <= 495548.
Hypothesis Hzero : heap_zero b.

(** The state when the ramdisk is the root of the file system. *)
Record ramdisk_started (s : kstate) : Prop := RamdiskStarted {
  rs_screen : on_screen s;
  rs_cr0 : Z.testbit (cpu_cr0 (cpu s)) 31 = true;
  rs_handlers : interrupt_handlers s = <[14 := ptr_page_fault]> (interrupt_handlers b);
  rs_kept : kbd s = kbd b /\ dt s = dt b;
  rs_task : exists task, sole_task s task;
  rs_mapped : kernel_mapped (placement_address (hp b)) 4194304 s;
  rs_files : files_open s;
  rs_root : fs_root (fs s) = initrd_root (fs s);
  rs_below : same_on (fun a => 12 <= a < placement_address (hp b) /\ ~ video a /\ ~ (loc <= a < loc + size))
    (mem b) (mem s)
}.

Lemma initrd_memory s s1 :
  memory_started b s -> files_open s1 ->
  same_on (fun a => ~ owned s a /\ ~ (loc + 4 <= a < loc + 4 + 76 * Z.of_nat (length files))) (mem s) (mem s1) ->
  (exists m h g, s1 = set_mem m (set_hp h (set_fs g s))) ->
  ramdisk_started (set_fs (set_fs_root (initrd_root (fs s1)) (fs s1)) s1).
Proof using Hplace Hsize.
  intros [Hs Hcr Hh (K1 & K2 & K3) (task & Htask & Htown) Hmap Hdir Hheap _ _ Hbelow] Ho1 Hsame (m & h & g & Hs1).
  pose proof heap_ends as (E1 & E2 & E3). assert (Hroom : 757664 <= loc) by lia.
  assert (Hnot : forall a, 12 <= a < placement_address (hp b) -> ~ owned s a).
  { intros a Ha Ho. apply owned_range in Ho. lia. }
  assert (Hfr : same_on (fun a => 12 <= a < placement_address (hp b) /\ ~ (loc <= a < loc + size)) (mem s) (mem s1)).
  { intros a Ha [Ha1 Ha2]. apply Hsame; [done|]. split; [by apply Hnot|lia]. }
  assert (Q : cpu s1 = cpu s /\ mon s1 = mon s /\ interrupt_handlers s1 = interrupt_handlers s /\ kbd s1 = kbd s /\
    dt s1 = dt s /\ tk s1 = tk s /\ pg s1 = pg s) by (by rewrite Hs1).
  destruct Q as (Q1 & Q2 & Q3 & Q4 & Q5 & Q6 & Q7).
  constructor; cbn [cpu interrupt_handlers kbd dt fs mem set_fs].
  - eapply (on_screen_frame _ s); [exact Hs|exact Hfr| |done]. intros a Ha. unfold video_memory in Ha. cbv beta. lia.
  - by rewrite Q1.
  - by rewrite Q3.
  - by rewrite Q4, Q5, K1, K2.
  - exists task. eapply (sole_task_frame _ task s); [exact Htask|done|exact Hsame|].
    destruct Htask as (_ & _ & ? & _). intros a Ha. cbv beta. split; [by apply Htown|]. lia.
  - apply (kernel_mapped_weaken (placement_address (hp b)) (kheap (hp s))); [|lia|lia].
    eapply kernel_mapped_frame; [exact Hmap|done|exact Hsame|]. intros a Ha. cbv beta. split.
    + destruct Ha as [Ha|Ha]; [|by apply Hdir]. intros Ho. apply owned_range in Ho. lia.
    + destruct Ha as [Ha|Ha%dir_kept_range]; lia.
  - apply (files_open_frame s1); [done|by intros ???|by eexists].
  - done.
  - intros a Ha (Ha1 & Ha2 & Ha3). cbn [mem set_fs]. rewrite Hfr by done. by apply Hbelow.
Qed.

Lemma initrd_spec s :
  memory_started b s ->
  wp (initialise_initrd loc) (fun r s1 => r = initrd_root (fs s1) /\ 0 < r /\
    ramdisk_started (set_fs (set_fs_root r (fs s1)) s1)) s.
Proof using Hsym Hsyms Hplace Hsize Himg Hfiles Hcount Hzero.
  intros Hms. pose proof (ms_heap _ _ Hms) as Hheap. pose proof (ms_below _ _ Hms) as Hbelow.
  pose proof heap_ends as (E1 & E2 & E3).
  assert (Hout : forall a, loc <= a < loc + size -> ~ owned s a).
  { intros a Ha Ho. apply owned_range in Ho. lia. }
  assert (Himg' : image_at (mem s) loc size files).
  { eapply image_at_frame; [exact Himg|exact Hbelow|]. unfold video, video_memory. lia. }
  eapply wp_mono.
  { apply (initialise_initrd_spec (Hal := heap_allocator_laws KHEAP_START 131072 _ _ heap_area_fits Hsym)
      Hsyms loc size files s 495548 Hfiles Himg' Hout (conj (ms_budget _ _ Hms) Hcount) (ms_clean _ _ Hms Hzero)). }
  intros r s1 (-> & Hrd & Hh & Hc & _ & Hsame & Hn & Hs1). split; [done|]. split; [apply (rd_root _ _ Hrd)|].
  apply (initrd_memory s s1 Hms); [|exact Hsame|exact Hs1]. constructor; [exact Hrd|exact Hh|exact Hc|].
  intros a Ha. apply Hn in Ha. pose proof (owned_range s a Ha). unfold video, video_memory. lia.
Qed.

Lemma ramdisk_quiet s s' : ramdisk_started s -> quiet s s' -> on_screen s' -> ramdisk_started s'.
Proof using Hplace Hsize.
  intros [_ Hcr Hh Hk (task & Htask) Hmap Hfo Hroot Hbelow] Hq Hs. pose proof (quiet_mem s s' Hq) as Hm.
  pose proof heap_ends as (E1 & E2 & E3).
  assert (Q : cpu s' = cpu s /\ interrupt_handlers s' = interrupt_handlers s /\ kbd s' = kbd s /\
    dt s' = dt s /\ tk s' = tk s /\ fs s' = fs s /\ pg s' = pg s) by (by destruct Hq as (? & ? & ? & ? & -> & _)).
  destruct Q as (Q1 & Q2 & Q3 & Q4 & Q5 & Q6 & Q7).
  constructor; rewrite ?Q1, ?Q2, ?Q3, ?Q4, ?Q6; try done.
  - exists task. eapply (sole_task_frame _ task s); [exact Htask|done|exact Hm|].
    destruct Htask as (_ & _ & ? & _). unfold video_memory. intros a Ha. cbv beta. lia.
  - eapply kernel_mapped_frame; [exact Hmap|done|exact Hm|]. unfold video_memory.
    intros a [Ha|Ha%dir_kept_range]; cbv beta; lia.
  - apply (files_open_frame s); [exact Hfo|exact Hm|]. exists (fs_root (fs s)). rewrite Q6. by destruct (fs s).
  - intros a Ha (Ha1 & Ha2 & Ha3). rewrite Hm by done. by apply Hbelow.
Qed.

Context (stack : kstate -> list Z).
Hypothesis Hstack : forall s, exists junk rest, stack s = junk ++ 0 :: rest /\
  Forall (fun b => 0 < b < 256) junk /\ Z.of_nat (length junk) < 2147483000.

Lemma boot_ramdisk_spec s :
  memory_started b s -> wp (boot_ramdisk stack loc) (fun _ s' => ramdisk_started s') s.
Proof using Hsym Hsyms Hplace Hsize Himg Hfiles Hcount Hzero Hstack.
  intros Hms. unfold boot_ramdisk, modify_fs, get_fs. apply wp_bind.
  eapply wp_mono; [by apply initrd_spec|]. intros r s1 (_ & Hr & Hrs). do 4 k_step. cbn [fs set_fs set_fs_root fs_root].
  unfold truth at 1. replace (r =? 0) with false by blia. cbn [negb].
  set (s2 := set_fs _ s1) in *. assert (C2 : quiet s2 s2 /\ on_screen s2) by (split; [done|by destruct Hrs]).
  eapply prints_then; [apply prints_failure|exact C2|]. intros s3 [Q3 S3].
  eapply wp_mono; [apply (prints_report stack Hstack); [by repeat constructor|simpl; lia|exact S3]|].
  intros [] s4 [Q4 S4]. apply (ramdisk_quiet s2 s4 Hrs); [by etransitivity|done].
Qed.
End Ramdisk.

(** ** System calls, the keyboard, and user mode *)

(** What the last steps leave alone. *)
Definition kernel_kept (s s' : kstate) : Prop :=
  same_outside video_memory (video_memory + 4000) (mem s) (mem s') /\
  cpu_cr0 (cpu s') = cpu_cr0 (cpu s) /\ tk s' = tk s /\ fs s' = fs s /\ pg s' = pg s.

#[export] Instance kernel_kept_preorder : PreOrder kernel_kept.
Proof.
  split.
  - intros s. by repeat split.
  - intros s1 s2 s3 (Ha & ? & ? & ? & ?) (Hb & ? & ? & ? & ?).
    split; [by eapply same_outside_trans|]. repeat split; congruence.
Qed.

Lemma quiet_kept s s' : quiet s s' -> kernel_kept s s'.
Proof. by intros (m & tr & g & f & -> & Hm). Qed.

(** The text that the program in user mode prints. *)
Definition hello_text : list Z := str "Hello, user world!" ++ [10].

Section Booted.
Context `{Linkage, LeftInEax} (loc size : Z) (files : list file) (hello : Z).

(** The kernel when it reaches its loop, in user mode and with interrupts off; [q] waits in
    the keyboard's buffer, whose layout is [km]. *)
Record booted (q : list Z) (km : keymap_t) (s : kstate) : Prop := Booted {
  bt_paging : Z.testbit (cpu_cr0 (cpu s)) 31 = true;
  bt_mode : mode_of (trace s) = Mode true false;
  bt_handlers : interrupt_handlers s =
    <[33 := ptr_keyboard_handler]> (<[128 := ptr_syscall_handler]>
      (<[14 := ptr_page_fault]> (<[32 := ptr_timer_callback]> ∅)));
  bt_task : exists task, sole_task s task;
  bt_mapped : kernel_mapped (loc + size) 4194304 s;
  bt_files : files_open loc size files s;
  bt_root : fs_root (fs s) = initrd_root (fs s);
  bt_keyboard : kbd_wf (kbd s) km /\ queue (kbd s) = q;
  bt_screen : exists t, shows s (write hello_text t);
  bt_text : bytes (mem s) hello 20 = hello_text ++ [0]
}.

Context (b : kstate) (stack : kstate -> list Z) (frame : registers_t).
Hypothesis Hstack : forall s, exists junk rest, stack s = junk ++ 0 :: rest /\
  Forall (fun b => 0 < b < 256) junk /\ Z.of_nat (length junk) < 2147483000.
Hypothesis Hplace : 757664 <= loc /\ loc + size <= placement_address (hp b).
Hypothesis Hsize : 4 + 76 * Z.of_nat (length files) <= size.
Hypothesis Hhandlers : interrupt_handlers b = <[32 := ptr_timer_callback]> ∅.
Hypothesis Hkbd : keymaps (kbd b) !! sym_us = Some us /\ length (keyboard_buffer (kbd b)) = 256%nat.
Hypothesis Hhello : 757664 <= hello /\ hello + 20 <= loc < 4294967296.
Hypothesis Htext : bytes (mem b) hello 20 = hello_text ++ [0].

(** The program's text is where the linker has put it. *)
Lemma text_kept s s' :
  ramdisk_started b loc size files s -> kernel_kept s s' -> bytes (mem s') hello 20 = hello_text ++ [0].
Proof using Hplace Hsize Hhello Htext.
  clear Hstack Hkbd Hhandlers. intros Hrs (Hm & _). rewrite <- Htext.
  pose proof (rs_below _ _ _ _ _ Hrs) as Hb. rewrite (bytes_frame _ _ _ _ Hm).
  - eapply bytes_same_on; [exact Hb|lia|cbn; lia|]. unfold video, video_memory. cbn. lia.
  - unfold region. cbn. lia.
  - unfold video_memory. cbn. lia.
Qed.

Lemma booted_kept q km s s' :
  ramdisk_started b loc size files s -> kernel_kept s s' -> mode_of (trace s') = Mode true false ->
  interrupt_handlers s' = <[33 := ptr_keyboard_handler]> (<[128 := ptr_syscall_handler]> (interrupt_handlers s)) ->
  kbd_wf (kbd s') km /\ queue (kbd s') = q -> (exists t, shows s' (write hello_text t)) -> booted q km s'.
Proof using Hplace Hsize Hhandlers Hhello Htext.
  clear Hstack Hkbd. intros Hrs Hkept Hmode. pose proof (text_kept s s' Hrs Hkept) as Htx. revert Hrs Hkept.
  intros [_ Hcr Hh _ (task & Htask) Hmap Hfo Hroot _] (Hm & Kc & Kt & Kf & Kp) Hh' Hk Hs.
  pose proof heap_ends as (E1 & E2 & E3). constructor; try done.
  - by rewrite Kc.
  - by rewrite Hh', Hh, Hhandlers.
  - exists task. eapply (sole_task_frame _ task s); [exact Htask|exact Kt|exact Hm|].
    destruct Htask as (_ & _ & ? & _). unfold video_memory. intros a Ha. cbv beta. lia.
  - apply (kernel_mapped_weaken (placement_address (hp b)) 4194304); [|lia|lia].
    eapply kernel_mapped_frame; [exact Hmap|exact Kp|exact Hm|]. unfold video_memory.
    intros a [Ha|Ha%dir_kept_range]; cbv beta; lia.
  - apply (files_open_frame b loc size files) with s; [done|done|exact Hfo|exact Hm|].
    exists (fs_root (fs s)). rewrite Kf. by destruct (fs s).
  - by rewrite Kf.
Qed.

(** The keys that are pressed before interrupts are turned off go into the buffer. *)
Lemma keys_enter regs scs s :
  kbd_wf (kbd s) us -> queue (kbd s) = [] -> (length scs <= 255)%nat ->
  wp (press_all regs scs) (fun _ s' => kbd_wf (kbd s') (snd (key_chars scs us)) /\
    queue (kbd s') = fst (key_chars scs us) /\ keyboard_frame s s') s.
Proof using.
  clear. intros Hk Hq Hl. pose proof (kbd_start _ _ Hk) as Hst. eapply wp_mono.
  { apply (press_room regs scs us); [by apply kbd_wf_mid; [|exact us_nodup]|]. rewrite settled_id, Hq by done. cbn. lia. }
  intros [] s' ([Hw _ _] & Hs & Hq' & Hf). rewrite settled_id in Hw, Hq' by (by rewrite Hs).
  rewrite settled_id, Hq in Hq' by done. by split_and!.
Qed.

(** The keyboard is ready, with nothing in its buffer. *)
Lemma keyboard_starts s :
  keymaps (kbd s) !! sym_us = Some us -> length (keyboard_buffer (kbd s)) = 256%nat ->
  wp init_keyboard_driver (fun _ s' => kernel_kept s s' /\ (on_screen s -> on_screen s') /\
    interrupt_handlers s' = <[33 := ptr_keyboard_handler]> (interrupt_handlers s) /\
    kbd_wf (kbd s') us /\ queue (kbd s') = []) s.
Proof using.
  clear. intros Hk1 Hk2. unfold init_keyboard_driver, register_interrupt_handler, switch_layout, modify_kbd. k_steps.
  change (u8 IRQ1) with 33. split; [by repeat split|]. split; [done|]. split; [done|]. split; [|done].
  constructor; cbn; try done; lia.
Qed.

(** The processor enters user mode and takes no more interrupts. *)
Lemma user_mode_starts s :
  wp switch_to_user_mode (fun _ s' => kernel_kept s s' /\ (on_screen s -> on_screen s') /\
    interrupt_handlers s' = interrupt_handlers s /\ kbd s' = kbd s /\ mode_of (trace s') = Mode true false) s.
Proof using.
  clear. unfold switch_to_user_mode, get_current_task, set_kernel_stack, modify_dt, get_esp. k_steps.
  split; [by repeat split|]. split; [done|]. by split.
Qed.

Lemma boot_user_typed_spec regs scs s :
  ramdisk_started b loc size files s -> (length scs <= 255)%nat ->
  wp (boot_user_typed stack frame hello regs scs)
    (fun _ s' => booted (fst (key_chars scs us)) (snd (key_chars scs us)) s') s.
Proof using Hstack Hplace Hsize Hhandlers Hkbd Hhello Htext.
  intros Hrs Hl. unfold boot_user_typed, initialise_syscalls, register_interrupt_handler. do 4 k_step.
  change (u8 128) with 128. set (s1 := set_handlers _ s).
  assert (C1 : quiet s1 s1 /\ on_screen s1) by (split; [done|exact (rs_screen _ _ _ _ _ Hrs)]).
  eapply prints_then; [apply prints_failure|exact C1|]. intros s2 C2.
  eapply prints_then; [apply (prints_report stack Hstack); [by repeat constructor|simpl; lia]|exact C2|].
  clear s2 C1 C2. intros s2 [Q2 S2].
  assert (E2 : interrupt_handlers s2 = <[128 := ptr_syscall_handler]> (interrupt_handlers s) /\ kbd s2 = kbd s).
  { by destruct Q2 as (? & ? & ? & ? & -> & _). }
  assert (K2 : kernel_kept s s2) by (etransitivity; [|by apply quiet_kept]; by repeat split). clear Q2.
  destruct E2 as [Eh2 Ek2]. pose proof (rs_kept _ _ _ _ _ Hrs) as [Ek _].
  rewrite <- Ek, <- Ek2 in Hkbd. destruct Hkbd as [Hk1 Hk2].
  apply wp_bind. eapply wp_mono; [by apply keyboard_starts|].
  intros [] s3 (K3 & S3 & Eh3 & Hk3 & Hq3). apply S3 in S2 as S3'. clear S3 S2.
  assert (K3' : kernel_kept s s3) by by etransitivity. clear K2 K3.
  apply wp_bind. eapply wp_mono; [by apply (keys_enter regs scs)|]. intros [] s4 (Hk & Hq & pt & g & Hs4).
  assert (K4 : kernel_kept s s4) by (etransitivity; [exact K3'|rewrite Hs4; by repeat split]).
  assert (E4 : interrupt_handlers s4 = interrupt_handlers s3) by (by rewrite Hs4).
  assert (S4 : on_screen s4) by (rewrite Hs4; exact S3'). clear Hs4 K3' S3' Hk3 Hq3.
  apply wp_bind. eapply wp_mono; [apply user_mode_starts|]. intros [] s5 (K5 & S5 & Eh5 & Ek5 & M5).
  destruct (S5 S4) as [t S5']. assert (K5' : kernel_kept s s5) by by etransitivity. clear K4 K5 S4 S5.
  pose proof (text_kept s s5 Hrs K5') as Hh5. apply wp_bind.
  eapply wp_mono.
  { apply (syscall_monitor_write_spec frame hello hello_text t s5); [|exact S5'|by repeat constructor|cbn; lia|exact Hh5|..].
    - by rewrite Eh5, E4, Eh3, lookup_insert_ne, Eh2, lookup_insert_eq by done.
    - unfold region. cbn. lia.
    - unfold video_memory. cbn. lia. }
  intros r s6 [F6 S6]. apply wp_ret. pose proof (quiet_console _ _ F6) as Q6.
  apply (booted_kept _ _ s s6 Hrs).
  - etransitivity; [exact K5'|by apply quiet_kept].
  - destruct F6 as [_ (es & -> & Hes)]. by rewrite mode_of_output.
  - destruct F6 as [(? & ? & ? & -> & _) _]. cbn. by rewrite Eh5, E4, Eh3, Eh2.
  - destruct F6 as [(? & ? & ? & -> & _) _]. cbn. by rewrite Ek5.
  - exists t. rewrite s8_fmap_id in S6 by (by repeat constructor). exact S6.
Qed.

Lemma boot_user_spec s :
  ramdisk_started b loc size files s -> wp (boot_user stack frame hello) (fun _ s' => booted [] us s') s.
Proof using Hstack Hplace Hsize Hhandlers Hkbd Hhello Htext.
  intros Hrs. pose proof (boot_user_typed_spec frame [] s Hrs ltac:(cbn; lia)) as Hw.
  cbn [key_chars fst snd] in Hw. apply wp_ok in Hw as (r & s' & Hr & Hbt). rewrite boot_user_untyped in Hr.
  apply wp_ok. by exists r, s'.
Qed.
End Booted.

(** ** The whole start *)

Section Start.
Context `{Linkage, LeftInEax} (stack : kstate -> list Z) (frame : registers_t).
Context (mboot_ptr initial_stack hello loc iend : Z).

(** What the start needs of the boot loader, the linker and the machine: a module behind the
    kernel, whose end has room for paging and the heap ([can_start_tasks]); a stack
    below the new one; and zero memory where the heap will be. *)
Record can_boot (s : kstate) : Prop := CanBoot {
  cb_tables : length (gdt_entries (dt s)) = 6%nat;
  cb_modules : modules_at (mem s) mboot_ptr loc iend;
  cb_memory : can_start_tasks
    (set_hp (HeapGlobals iend (kheap (hp s))) (set_boot (BootGlobals initial_stack (failure (boot s))) s));
  cb_zero : heap_zero s;
  cb_keyboard : keymaps (kbd s) !! sym_us = Some us /\ length (keyboard_buffer (kbd s)) = 256%nat;
  cb_hello : video_memory + 4000 <= hello /\ hello + 20 <= loc <= iend;
  cb_text : bytes (mem s) hello 20 = hello_text ++ [0]
}.

(** The module is a ramdisk, small enough for its nodes to fit the heap. *)
Record can_open (s : kstate) (size : Z) (files : list file) : Prop := CanOpen {
  co_image : image_at (mem s) loc size files;
  co_place : loc + size <= iend;
  co_files : files <> [] /\ Z.of_nat (length files) <= 2690;
  co_syms : 0 < sym_initrd_read < 4294967296 /\ 0 <= sym_initrd_readdir < 4294967296 /\
    0 < sym_initrd_finddir < 4294967296
}.

Hypothesis Hstack : forall s, exists junk rest, stack s = junk ++ 0 :: rest /\
  Forall (fun b => 0 < b < 256) junk /\ Z.of_nat (length junk) < 2147483000.

Lemma image_size m size files : image_at m loc size files -> files <> [] ->
  4 + 76 * Z.of_nat (length files) <= size.
Proof using.
  intros Himg Hne. destruct files as [|f rest]; [done|].
  destruct (img_file _ _ _ _ Himg 0%nat f eq_refl) as (_ & o & ? & ? & _). unfold file_size in *. lia.
Qed.

(** The state before [initialise_paging]. *)
Lemma boot_loader_spec s :
  can_boot s ->
  wp (boot_early stack initial_stack >> boot_modules stack mboot_ptr) (fun r b => r = loc /\
    on_screen b /\ can_start_tasks b /\ heap_zero b /\ placement_address (hp b) = iend /\
    interrupt_handlers b = <[32 := ptr_timer_callback]> ∅ /\ kbd b = kbd s /\
    same_outside video_memory (video_memory + 4000) (mem s) (mem b)) s.
Proof using Hstack.
  intros [Hdt Hmod Hmem Hzero _ Hhello _]. apply wp_bind.
  eapply wp_mono; [by apply (boot_early_spec stack initial_stack Hstack)|].
  intros [] s1 (S1 & m & tr & g & d & f & Hs1 & Hm). assert (Hm1 : mem s1 = m) by (by rewrite Hs1). rewrite <- Hm1 in Hm.
  eapply wp_mono.
  { apply (boot_modules_spec stack mboot_ptr Hstack loc iend s1); [|exact S1]. by eapply modules_at_frame. }
  intros r b (-> & s2 & (m2 & tr2 & g2 & f2 & -> & Hm2) & S2 & ->). split; [done|]. split; [exact S2|].
  cbn [hp mem set_hp set_mem set_trace set_mon set_boot placement_address kheap interrupt_handlers kbd].
  assert (Hout : same_outside video_memory (video_memory + 4000) (mem s) m2) by by eapply same_outside_trans.
  pose proof (can_room _ (cst_paging _ Hmem)) as Hroom. cbn [hp set_hp placement_address] in Hroom.
  split; [|split; [|split; [done|split; [|split; [|exact Hout]]]]].
  - eapply can_start_tasks_frame; [exact Hmem|..]; try (by rewrite Hs1).
    cbn [hp set_hp placement_address]. unfold video_memory in Hhello. lia.
  - intros a Ha. pose proof heap_ends. cbn [mem set_hp set_mem]. rewrite Hout; [by apply Hzero|lia|]. unfold video_memory. lia.
  - by rewrite Hs1.
  - by rewrite Hs1.
Qed.

(** Up to [boot_user]. *)
Lemma before_user size files (c : K unit) Q s :
  can_boot s -> can_open s size files ->
  (forall b s3, ramdisk_started b loc size files s3 -> 757664 <= loc /\ loc + size <= placement_address (hp b) ->
     4 + 76 * Z.of_nat (length files) <= size -> interrupt_handlers b = <[32 := ptr_timer_callback]> ∅ ->
     keymaps (kbd b) !! sym_us = Some us /\ length (keyboard_buffer (kbd b)) = 256%nat ->
     757664 <= hello /\ hello + 20 <= loc < 4294967296 -> bytes (mem b) hello 20 = hello_text ++ [0] -> wp c Q s3) ->
  wp (boot_early stack initial_stack >> (initrd_location <- boot_modules stack mboot_ptr;
      boot_memory stack >> boot_ramdisk stack initrd_location >> c)) Q s.
Proof using Hstack.
  intros Hb [Himg Hplace [Hne Hn] Hsyms] Hc. pose proof (boot_loader_spec s Hb) as Hload.
  destruct Hb as [_ _ Hmem _ Hk Hhello Htext]. unfold video_memory in Hhello.
  pose proof (image_size _ _ _ Himg Hne) as Hsize. pose proof (can_sym _ (cst_paging _ Hmem)) as Hsym.
  apply wp_bind_inv in Hload. apply wp_bind. eapply wp_mono; [exact Hload|].
  intros [] s1 Hmods. apply wp_bind. eapply wp_mono; [exact Hmods|]. clear Hload Hmods s1.
  intros r b (-> & Hscr & Hcan & Hz & Hp & Hh & Hkb & Hm). clear Hmem.
  assert (Himg' : image_at (mem b) loc size files).
  { eapply image_at_frame; [exact Himg|exact Hm|]. unfold video_memory. cbv beta. lia. }
  assert (Htext' : bytes (mem b) hello 20 = hello_text ++ [0]).
  { rewrite <- Htext. pose proof (img_range _ _ _ _ Himg). apply (bytes_frame _ _ _ _ Hm);
      [unfold region; lia|unfold video_memory; lia]. }
  apply wp_bind. eapply wp_mono; [apply (boot_memory_spec stack b Hstack Hcan ltac:(lia) Hscr)|].
  intros [] s2 Hms. apply wp_bind. eapply wp_mono.
  { assert (Hsym' : sym_header_t_less_than <> 0) by lia.
    assert (Hsyms' : 0 <= sym_initrd_read < 4294967296 /\ 0 <= sym_initrd_readdir < 4294967296 /\
      0 <= sym_initrd_finddir < 4294967296) by lia.
    apply (boot_ramdisk_spec b loc size files Hsym' Hsyms' ltac:(lia) Hsize Himg' Hne ltac:(lia) Hz
      stack Hstack s2 Hms). }
  intros [] s3 Hrs. pose proof (img_range _ _ _ _ Himg). apply (Hc b); rewrite ?Hkb; done || lia.
Qed.

Lemma kernel_boot_spec size files s :
  can_boot s -> can_open s size files ->
  wp (kernel_boot stack frame hello mboot_ptr initial_stack)
    (fun _ s' => booted loc size files hello [] us s') s.
Proof using Hstack.
  intros Hb Ho. apply (before_user size files); [done..|]. intros b s3 Hrs ??????.
  by apply (boot_user_spec loc size files hello b stack frame).
Qed.

Lemma kernel_boot_typed_spec regs scs size files s :
  can_boot s -> can_open s size files -> (length scs <= 255)%nat ->
  wp (kernel_boot_typed stack frame hello regs scs mboot_ptr initial_stack)
    (fun _ s' => booted loc size files hello (fst (key_chars scs us)) (snd (key_chars scs us)) s') s.
Proof using Hstack.
  intros Hb Ho Hl. apply (before_user size files); [done..|]. intros b s3 Hrs ??????.
  by apply (boot_user_typed_spec loc size files hello b stack frame).
Qed.

(** The first four megabytes are mapped to themselves. *)
Lemma booted_low size files q km s a :
  booted loc size files hello q km s -> 0 <= a < 4194304 ->
  translate (mem s) (current_directory (pg s)) a = Some a.
Proof using. intros [_ _ _ _ (-> & t0 & t1 & Hm & _)] Ha. by apply (translate_low _ _ _ _ Hm). Qed.

(** C2: The kernel starts.  When there is a module that is a ramdisk, and memory is as
    [can_boot] and [can_open] say, [kernel_boot] returns: paging is on and the first
    four megabytes are mapped to themselves, the four handlers are registered,
    one task is scheduled, the files of the ramdisk are open below the root of the
    file system, the keyboard's buffer is empty, the greeting of the program is on
    the screen, and the processor is in user mode with interrupts off.

    No boot loader promises all of [can_boot].  It asks for a module with a list that is
    away from the console, behind the kernel and the text of the program, and for initialised
    globals; for a stack in use of less than 8192 bytes, in whole words, below the
    new one; for zero memory where the heap will be; for room: everything up to the heap's structure
    fits four megabytes, and the 164 bytes behind the module end in front of the
    page directory, which comes at the page boundary behind the first 128 of them, all
    that is cleared of the bitset; for the frames from 1024 to 1282 to be free in the other
    36; and for a word at address 8 that is below 20 or above 524288, as the interrupt
    vector is that a PC has there, since the heap takes it for the size of a header at
    address 0.  [can_open] asks for at most 2690 files and at least one.  The timer does
    not fire during the start. *)
Theorem kernel_boots size files s :
  can_boot s -> can_open s size files ->
  wp (kernel_boot stack frame hello mboot_ptr initial_stack) (fun _ s' =>
    Z.testbit (cpu_cr0 (cpu s')) 31 = true /\
    (forall a, 0 <= a < 4194304 -> translate (mem s') (current_directory (pg s')) a = Some a) /\
    interrupt_handlers s' = {[14 := ptr_page_fault; 32 := ptr_timer_callback; 33 := ptr_keyboard_handler;
                              128 := ptr_syscall_handler]} /\
    (exists task, schedules [task] s' (RoundRobin.Scheduler [(0, 0, 0)] 0)) /\
    ramdisk_at s' files /\ fs_root (fs s') = initrd_root (fs s') /\
    kbd_wf (kbd s') us /\ queue (kbd s') = [] /\
    (exists t, shows s' (write hello_text t)) /\ mode_of (trace s') = Mode true false) s.
Proof using Hstack.
  intros Hb Ho. eapply wp_mono; [by apply (kernel_boot_spec size files)|].
  intros [] s' Hbt. pose proof (fun a => booted_low _ _ _ _ s' a Hbt) as Hlow.
  destruct Hbt as [Hcr Hmd Hh (task & Ht & _) _ [Hrd _ _ _] Hroot [Hk Hq] Hs _].
  split_and!; try done. by exists task.
Qed.

End Start.

Module BootSample.
#[local] Existing Instance sample_linkage.
#[local] Instance sample_eax : LeftInEax := fun _ _ => 0.

(** At 8 is an interrupt vector of the BIOS.  The multiboot structure is at 65536, its list of modules behind it, the literal at
    1100000, and the image of [RamdiskSample] at 1146880. *)
Definition boot_words : memory :=
  KheapSample.words_at [(8, 4026589891); (65556, 1); (65560, 65664); (65664, 1146880); (65668, 1155072)] ∅.
Definition boot_memory0 : memory :=
  RamdiskSample.store_bytes (RamdiskSample.store_bytes boot_words 1100000 (hello_text ++ [0]))
    1146880 RamdiskSample.image.
Definition boot_state : kstate :=
  initial_state boot_memory0 (fun _ => 0) (Cpu 61440 61440 0 0 0) {[sym_us := us]}.
Definition boot_stack (_ : kstate) : list Z := [0].

Lemma image_length : Z.of_nat (length RamdiskSample.image) = 4870.
Proof. vm_compute. reflexivity. Qed.

Lemma high_zero b : 1155072 <= b < 4294967296 -> load8 boot_memory0 b = 0.
Proof.
  intros Hb. unfold boot_memory0. rewrite RamdiskSample.store_bytes_above by (rewrite ?image_length; lia).
  rewrite RamdiskSample.store_bytes_above by (cbn; lia). unfold boot_words, KheapSample.words_at. cbn [foldl fst snd].
  rewrite !load8_store32_ne by (unfold region; lia). reflexivity.
Qed.

Lemma high_word a : 1155072 <= a -> a + 4 <= 4294967296 -> load32 boot_memory0 a = 0.
Proof. intros ??. unfold load32. by rewrite !high_zero by lia. Qed.

Lemma boot_stack_ok s : exists junk rest, boot_stack s = junk ++ 0 :: rest /\
  Forall (fun b => 0 < b < 256) junk /\ Z.of_nat (length junk) < 2147483000.
Proof. exists [], []. split; [done|]. split; [constructor|]. cbn. lia. Qed.

Lemma sample_can_boot : can_boot 65536 65536 1100000 1146880 1155072 boot_state.
Proof.
  constructor.
  - reflexivity.
  - constructor; [split; [unfold region; lia|left; unfold video_memory; lia]|vm_compute; reflexivity| |vm_compute; reflexivity..].
    replace (load32 _ (mboot_mods_addr 65536)) with 65664 by (vm_compute; reflexivity). unfold video_memory. lia.
  - assert (Hused : forall f, 0 <= f < 1283 -> used_in boot_memory0 1155072 f = false).
    { intros f Hf. unfold used_in. assert (0 <= f / 32 < 41) by dlia. rewrite high_word by lia. apply Z.testbit_0_l. }
    constructor; [constructor| | | |]; cbn [hp set_hp placement_address kheap mem set_boot boot_state initial_state tk next_pid].
    + reflexivity.
    + lia.
    + vm_compute. discriminate.
    + intros f Hf. apply Hused. lia.
    + vm_compute. discriminate.
    + cbn. lia.
    + right. vm_compute. reflexivity.
    + vm_compute. discriminate.
    + intros f Hf. apply Hused. lia.
    + constructor; cbn; try lia; reflexivity.
    + lia.
  - intros b Hb. pose proof heap_ends. apply high_zero. lia.
  - split; reflexivity.
  - unfold video_memory. lia.
  - vm_compute. reflexivity.
Qed.

Lemma sample_image : bytes (mem boot_state) 1146880 (length RamdiskSample.image) = RamdiskSample.image.
Proof. vm_compute. reflexivity. Qed.

Lemma sample_mkinit :
  mkinit RamdiskSample.sample_host RamdiskSample.garbage RamdiskSample.sample_args = Written RamdiskSample.image.
Proof. vm_compute. reflexivity. Qed.

Lemma sample_can_open : can_open 1146880 1155072 boot_state 4870 RamdiskSample.sample_files.
Proof.
  destruct (mkinit_spec _ RamdiskSample.garbage _ _ RamdiskSample.sample_names
              ltac:(apply length_replicate) ltac:(cbn; lia) ltac:(vm_compute; reflexivity)) as (img & Himg & Hl & Hat).
  rewrite sample_mkinit in Himg. injection Himg as <-.
  specialize (Hat (mem boot_state) 1146880 ltac:(lia) ltac:(rewrite image_length; lia) sample_image).
  rewrite image_length in Hat. constructor; [exact Hat|lia|split; [discriminate|cbn; lia]|cbn; lia].
Qed.

Lemma kernel_boots_witness :
  wp (kernel_boot boot_stack SyscallSample.frame 1100000 65536 65536) (fun _ s' =>
    ramdisk_at s' RamdiskSample.sample_files /\ mode_of (trace s') = Mode true false) boot_state.
Proof.
  eapply wp_mono.
  - exact (kernel_boots boot_stack SyscallSample.frame 65536 65536 1100000 1146880 1155072 boot_stack_ok 4870
      RamdiskSample.sample_files boot_state sample_can_boot sample_can_open).
  - intros r s' (_ & _ & _ & _ & Hrd & _ & _ & _ & _ & Hmd). split; [exact Hrd|exact Hmd].
Defined.


Lemma boot_without_module_halts_witness :
  halts (kernel_boot boot_stack SyscallSample.frame 1118000 4096 65536)
    (fun s' => head (trace s') = Some Hlt /\ early sample_state s') sample_state.
Proof.
  apply (boot_without_module_halts boot_stack SyscallSample.frame 1118000 4096 65536 sample_state boot_stack_ok).
  - reflexivity.
  - unfold region. lia.
  - left. unfold video_memory. lia.
  - reflexivity.
Defined.
End BootSample.
