(* ===== verification/System.v ===== *)
(** * The running kernel

    At its loop the kernel reacts: the keyboard and the timer interrupt, the task runs
    the loop, and programs call the system.  The actions are a step relation
    on the state of the kernel and the place in the loop; [system] below is what a user may
    know of it, and the relation implements it action by action, in every order.

    What happens depends on the mode of the processor, which the trace determines
    ([mode_of]).  Interrupts are delivered when the flag is set; in user mode every access
    of the loop to the kernel's variables passes the page tables ([user_load],
    [user_store]).  [kernel_start] enters its loop in user mode with interrupts off: the
    theorems at the end say what becomes of it then.  With more than one task
    ([implements] allows it) only keys inside [keyboard_getchar] are considered: a forked
    task does not run (README.md, known bugs; [forked_stack_unmapped] in TaskInit.v). *)

From Stdlib Require Import ZArith Lia List String.
From stdpp Require Import base list gmap.
From S2P Require Import Prelude Machine Kernel Common Monitor Isr DescriptorTables Keyboard KeyboardRace Kmalloc Frames Paging.
From S2P Require Import Kheap KheapSpec KheapWf PagingInit Task TaskInit Timer Fs Initrd Mkinit Syscall Main Boot.
Import Terminal.

(** ** The machine *)

(** Where a task is in the loop of [kernel_start] ([c] is the loop's variable):
    before it reads the buffer, or between reading a character and printing it. *)
Inductive point : Type := Polls | Prints (c : Z).

(** The loop prints the character, or reads again. *)
Definition after_poll (c : Z) : point :=
  let c := s8 c in if truth c then Prints c else Polls.

(** The character is a [char]. *)
Definition char_point (p : point) : Prop := match p with Polls => True | Prints c => -128 <= c < 128 end.

Lemma after_poll_char c : char_point (after_poll c).
Proof. unfold after_poll. case_match; [apply s8_range|done]. Qed.

(** Each task, by the address of its structure, is at a point of the loop. *)
Record machine : Type := Machine { threads : gmap Z point; kernel : kstate }.

(** The controller presents a scancode; the timer fires while the running task has
    these stack and base pointers; the running task gets to its next point; the
    program of the running task prints its text by a system call. *)
Inductive action : Type := Key (sc : Z) | Tick (esp ebp : Z) | Proceed | Call.

#[export] Instance action_eq_dec : EqDecision action.
Proof. solve_decision. Defined.

(** *** The loop in user mode

    There the page tables decide about every access.  When they forbid one, the processor
    leaves the address in [cr2], pushes an error code (1: the page is present, 2: a
    write, 4: in user mode) and enters the stub of vector 14.  Were the handler to
    return, the instruction would start again; it does not. *)

Definition set_cr2 (v : Z) (c : cpu_t) : cpu_t := Cpu (cpu_esp c) (cpu_ebp c) (cpu_cr0 c) v (cpu_cr3 c).

Definition set_err_code (v : Z) (r : registers_t) : registers_t :=
  Registers (reg_ds r) (reg_edi r) (reg_esi r) (reg_ebp r) (reg_esp r) (reg_ebx r)
    (reg_edx r) (reg_ecx r) (reg_eax r) (reg_int_no r) v (reg_eip r) (reg_cs r)
    (reg_eflags r) (reg_useresp r) (reg_ss r).

Section UserMode.
Context `{Linkage, LeftInEax} (frame : registers_t).

Definition refuse (a write : Z) : K unit :=
  present <- gets (fun s => match translate (mem s) (current_directory (pg s)) a with Some _ => 1 | None => 0 end);
  modify (fun s => set_cpu (set_cr2 a (cpu s)) s) >>
  isr_handler (set_err_code (present + write + 4) (set_int_no (pushed_int_no 14) frame)) >>
  undefined.

Definition user_load (a : Z) : K unit :=
  allowed <- gets (fun s => user_reads (mem s) (current_directory (pg s)) a);
  if allowed then ret tt else refuse a 0.
Definition user_store (a : Z) : K unit :=
  allowed <- gets (fun s => user_writes (mem s) (current_directory (pg s)) a);
  if allowed then ret tt else refuse a 2.

(** The accesses of [keyboard_getchar], by the points between which it makes them: it reads
    the two indices and compares them; where they differ it reads the character,
    and stores the start index twice. *)
Definition getchar_access (n : nat) : K unit :=
  match n with
  | 0%nat => user_load sym_keyboard_buffer_start
  | 1%nat => user_load sym_keyboard_buffer_end
  | 3%nat => start <- gets (fun s => keyboard_buffer_start (kbd s)); user_load (u32 (sym_keyboard_buffer + start))
  | 4%nat | 5%nat => user_store sym_keyboard_buffer_start
  | _ => ret tt
  end.

Definition user_getchar : K Z := getchar_interrupted getchar_access.

(** The loop reads the buffer, at the privilege that the processor has. *)
Definition poll : K Z :=
  md <- gets (fun s => mode_of (trace s));
  if in_user md then user_getchar else keyboard_getchar.
End UserMode.

Section Steps.
Context `{Linkage, LeftInEax} (hello : Z).

(** Registers have 32 bits. *)
Definition frame_range (frame : registers_t) : Prop := 0 <= reg_eip frame < 4294967296.

(** The keyboard and the timer interrupt when the flag is set; else nothing hears them.  In
    user mode no rule is needed for printing: the loop does not get there, since
    reading a character is refused. *)
Inductive step : machine -> action -> machine -> Prop :=
  | step_key th s sc regs r s' :
      if_set (mode_of (trace s)) = true ->
      reg_int_no regs = 33 -> irq_handler regs (present sc s) = Ok r s' ->
      step (Machine th s) (Key sc) (Machine th s')
  | step_tick th s esp ebp regs r s' :
      if_set (mode_of (trace s)) = true ->
      reg_int_no regs = 32 -> (load_stack esp ebp >> irq_handler regs) s = Ok r s' ->
      step (Machine th s) (Tick esp ebp) (Machine th s')
  | step_masked th s e :
      if_set (mode_of (trace s)) = false -> match e with Key _ | Tick _ _ => True | _ => False end ->
      step (Machine th s) e (Machine th s)
  | step_poll th s frame c s' :
      th !! current_task (tk s) = Some Polls -> frame_range frame -> poll frame s = Ok c s' ->
      step (Machine th s) Proceed (Machine (<[current_task (tk s) := after_poll c]> th) s')
  | step_print th s c s' :
      th !! current_task (tk s) = Some (Prints c) -> in_user (mode_of (trace s)) = false ->
      monitor_put c s = Ok tt s' ->
      step (Machine th s) Proceed (Machine (<[current_task (tk s) := Polls]> th) s')
  | step_call th s frame r s' :
      syscall_monitor_write frame hello s = Ok r s' ->
      step (Machine th s) Call (Machine th s').

(** Or the action stops the processor. *)
Inductive stops : machine -> action -> kstate -> Prop :=
  | stops_poll th s frame s' :
      th !! current_task (tk s) = Some Polls -> frame_range frame -> poll frame s = Halted s' ->
      stops (Machine th s) Proceed s'.

Inductive runs : machine -> list action -> machine -> Prop :=
  | runs_nil x : runs x [] x
  | runs_cons x e y es z : step x e y -> runs y es z -> runs x (e :: es) z.
End Steps.

(** ** What a user knows *)

Record system : Type := System {
  points : list point;               (** where each task is *)
  schedule : RoundRobin.scheduler;   (** whose turn it is *)
  waiting : list Z;                  (** characters typed and not read *)
  keys : keymap_t;                   (** the layout and its control keys *)
  oldest : Z;                        (** where in the buffer the first of them is *)
  display : terminal;
  ticks : Z
}.

Section Reactions.
Context `{Linkage} (text : list Z).

Definition proceed (m : system) : system :=
  match points m !! RoundRobin.running (schedule m) with
  | Some Polls =>
      match waiting m with
      | [] => m
      | c :: q =>
          System (<[RoundRobin.running (schedule m) := after_poll c]> (points m)) (schedule m)
            q (keys m) ((oldest m + 1) mod 256) (display m) (ticks m)
      end
  | Some (Prints c) =>
      System (<[RoundRobin.running (schedule m) := Polls]> (points m)) (schedule m)
        (waiting m) (keys m) (oldest m) (put c (display m)) (ticks m)
  | None => m
  end.

Definition react (m : system) (e : action) : system :=
  match e with
  | Key sc =>
      let '(q, km) := KeySpec.handle (oldest m) (u8 sc) (waiting m) (keys m) in
      System (points m) (schedule m) q km (oldest m) (display m) (ticks m)
  | Tick esp ebp =>
      System (points m) (RoundRobin.switch (eip_switch_task, esp, ebp) (schedule m))
        (waiting m) (keys m) (oldest m) (display m) (u32 (ticks m + 1))
  | Proceed => proceed m
  | Call =>
      System (points m) (schedule m) (waiting m) (keys m) (oldest m) (write text (display m)) (ticks m)
  end.

Definition react_all (es : list action) (m : system) : system := foldl react m es.
(** What of it happens in the mode [md]: keys and ticks are heard when the flag is set,
    and in user mode the loop can only wait; it does not survive a character. *)
Definition react_in (md : mode) (m : system) (e : action) : option system :=
  match e with
  | Key _ | Tick _ _ => Some (if if_set md then react m e else m)
  | Proceed =>
      if in_user md then match waiting m with [] => Some m | _ :: _ => None end else Some (proceed m)
  | Call => Some (react m Call)
  end.

Fixpoint run_in (md : mode) (es : list action) (m : system) : option system :=
  match es with
  | [] => Some m
  | e :: es => match react_in md m e with Some m' => run_in md es m' | None => None end
  end.
End Reactions.

(** Pointers have 32 bits. *)
Definition possible (e : action) : Prop :=
  match e with Tick esp ebp => 0 <= esp < 4294967296 /\ 0 <= ebp < 4294967296 | _ => True end.

(** ** The kernel implements it *)

Section Refinement.
Context `{Linkage, LeftInEax} (hello : Z) (text : list Z) (l : list Z).
Hypothesis Heip : 0 <= eip_switch_task < 4294967296 /\ eip_switch_task <> 74565.
Hypothesis Htext : Forall (fun b => 0 < b < 128) text /\ Z.of_nat (length text) < 2147483647.
Hypothesis Hhello : 0 <= hello /\ hello + Z.of_nat (S (length text)) <= 4294967296 /\
  (hello + Z.of_nat (S (length text)) <= video_memory \/ video_memory + 4000 <= hello).

(** The structures of the tasks are apart from the console and from the text. *)
Hypothesis Haway : Forall (fun t => (t + 28 <= video_memory \/ video_memory + 4000 <= t) /\
  (t + 28 <= hello \/ hello + Z.of_nat (S (length text)) <= t)) l.

(** The state of the kernel and the tasks' places in the loop are those of [m]. *)
Record implements (x : machine) (m : system) : Prop := Implements {
  im_handlers : interrupt_handlers (kernel x) !! 32 = Some ptr_timer_callback /\
    interrupt_handlers (kernel x) !! 33 = Some ptr_keyboard_handler /\
    interrupt_handlers (kernel x) !! 128 = Some ptr_syscall_handler;
  im_schedule : schedules l (kernel x) (schedule m);
  im_points : length (points m) = length l /\ Forall char_point (points m);
  im_threads : forall i t, l !! i = Some t -> threads x !! t = points m !! i;
  im_keyboard : kbd_wf (kbd (kernel x)) (keys m) /\ NoDup (control_map (keys m));
  im_waiting : queue (kbd (kernel x)) = waiting m;
  im_oldest : keyboard_buffer_start (kbd (kernel x)) = oldest m;
  im_display : shows (kernel x) (display m);
  im_ticks : tick (kernel x) = ticks m;
  im_text : bytes (mem (kernel x)) hello (S (length text)) = text ++ [0]
}.

Lemma handle_keeps_map st sc q km :
  control_map (snd (KeySpec.handle st sc q km)) = control_map km.
Proof using. unfold KeySpec.handle. by repeat case_match. Qed.

Section Step.
Context (th : gmap Z point) (s : kstate) (m : system) (Him : implements (Machine th s) m).

Lemma key_reacts sc regs :
  reg_int_no regs = 33 ->
  wp (irq_handler regs) (fun _ s' => implements (Machine th s') (react text m (Key sc))) (present sc s).
Proof using Him.
  intros Hno. destruct Him as [(Ht & Hk & Hc) Hsch Hpts Hth [Hwf Hdup] Hq Hold Hdis Htick Htx].
  cbn [kernel threads] in *. unfold irq_handler. rewrite Hno. change (40 <=? 33) with false.
  change (256 <=? 33) with false. cbn [when]. k_steps. cbn [interrupt_handlers set_trace present]. rewrite Hk.
  change (run_handler ptr_keyboard_handler regs) with (keyboard_handler regs).
  eapply wp_mono; [by apply (handler_spec (keys m))|]. intros r s' (g & km & _ & -> & Hg & Hst & Heq).
  cbn [kbd port_in set_trace present] in Hst, Heq. change (96 =? 96) with true in Heq. cbv iota in Heq.
  cbn [react]. rewrite Hq, Hold in Heq. pose proof (handle_keeps_map (oldest m) (u8 sc) (waiting m) (keys m)) as Hmap.
  rewrite <- Heq in Hmap |- *. constructor; cbn [kernel threads schedule points keys waiting oldest display ticks]; try done.
  - by apply (schedules_same l s).
  - split; [exact Hg|]. cbn [snd] in Hmap. by rewrite Hmap.
  - by rewrite <- Hold.
Qed.

Lemma console_reacts pts th' s' t' :
  console_frame s s' -> shows s' t' -> length pts = length l /\ Forall char_point pts ->
  (forall i t, l !! i = Some t -> th' !! t = pts !! i) ->
  implements (Machine th' s') (System pts (schedule m) (waiting m) (keys m) (oldest m) t' (ticks m)).
Proof using Him Haway Hhello.
  intros [(mm & tr & g & -> & Hm) _] Hs Hl Hth'. destruct Him as [Hh Hsch Hpts Hth Hwf Hq Hold Hdis Htick Htx].
  constructor; cbn [kernel threads schedule points keys waiting oldest display ticks]; try done.
  - apply (schedules_frame l (fun b => ~ (video_memory <= b < video_memory + 4000)) s); [exact Hsch|done|exact Hm|].
    intros i t b Hi Hb. apply (Forall_lookup_1 _ _ _ _ Haway) in Hi. cbv beta. lia.
  - rewrite <- Htx. cbn [mem set_mem kernel]. apply (bytes_frame _ _ _ _ Hm); [unfold region|]; lia.
Qed.

Lemma call_reacts frame :
  wp (syscall_monitor_write frame hello) (fun _ s' => implements (Machine th s') (react text m Call)) s.
Proof using Him Haway Hhello Htext.
  pose proof Him as [(_ & _ & Hc) _ Hpts Hth _ _ _ Hdis _ Htx]. destruct Htext as [Ht Hn]. eapply wp_mono.
  { apply (syscall_monitor_write_spec frame hello text (display m) s); try done.
    - eapply Forall_impl; [exact Ht|]. cbv beta. lia.
    - unfold region. lia.
    - lia. }
  intros r s' [Hfr Hsh]. rewrite s8_fmap_id in Hsh by done. cbn [react]. by apply console_reacts.
Qed.

(** The running task moves to another point of the loop. *)
Lemma threads_move i t p :
  l !! i = Some t -> forall j u, l !! j = Some u -> <[t := p]> th !! u = <[i := p]> (points m) !! j.
Proof using Him.
  clear Hhello. intros Hi j u Hj. pose proof Him as [_ [Ht _ _ _] [Hpts _] Hth _ _ _ _ _ _].
  pose proof (lookup_lt_Some _ _ _ Hi). destruct (decide (i = j)) as [->|Hne].
  - assert (u = t) as -> by congruence. by rewrite lookup_insert_eq, list_lookup_insert_eq by lia.
  - assert (t <> u). { intros ->. destruct (tasks_apart _ _ Ht _ _ _ _ Hi Hj Hne); lia. }
    rewrite lookup_insert_ne, list_lookup_insert_ne by done. by apply Hth.
Qed.

Lemma print_reacts c :
  th !! current_task (tk s) = Some (Prints c) ->
  wp (monitor_put c) (fun _ s' =>
    implements (Machine (<[current_task (tk s) := Polls]> th) s') (react text m Proceed)) s.
Proof using Him Haway Hhello.
  intros Hc. pose proof Him as [_ [_ _ Hcur _] [Hpts Hch] Hth _ _ _ Hdis _ _]. cbn [kernel threads] in *.
  assert (Hc8 : char_point (Prints c)) by (eapply (Forall_lookup_1 _ _ _ _ Hch); rewrite <- (Hth _ _ Hcur); exact Hc).
  eapply wp_mono; [apply monitor_put_spec; [exact Hdis|apply Hc8]|]. intros [] s' (Hfr & Hsh & _).
  cbn [react]. unfold proceed. rewrite <- (Hth _ _ Hcur), Hc.
  apply console_reacts; [done|done| |by apply threads_move].
  split; [by rewrite length_insert|by apply Forall_insert].
Qed.

Lemma poll_reacts :
  th !! current_task (tk s) = Some Polls ->
  wp keyboard_getchar (fun c s' =>
    implements (Machine (<[current_task (tk s) := after_poll c]> th) s') (react text m Proceed)) s.
Proof using Him.
  intros Hc. pose proof Him as [Hh Hsch Hpts Hth [Hwf Hdup] Hq Hold Hdis Htick Htx]. cbn [kernel threads] in *.
  pose proof (sched_current _ _ _ Hsch) as Hcur.
  eapply wp_mono; [by apply (getchar_spec (keys m))|]. intros c s' (g & -> & Hg & _ & Hr).
  cbn [react]. unfold proceed. rewrite <- (Hth _ _ Hcur), Hc. rewrite Hq in Hr.
  destruct (waiting m) as [|x q] eqn:Ew; destruct Hr as (-> & Hg1 & Hg2).
  - replace (<[current_task (tk s) := after_poll 0]> th) with th by (symmetry; by apply insert_id).
    constructor; cbn [kernel threads]; try done; [by apply (schedules_same l s)|..];
      cbn [kbd set_kbd]; congruence.
  - constructor; cbn [kernel threads schedule points keys waiting oldest display ticks]; try done.
    + by apply (schedules_same l s).
    + destruct Hpts. split; [by rewrite length_insert|]. apply Forall_insert; [done|apply after_poll_char].
    + by apply threads_move.
    + by rewrite <- Hold.
Qed.

Lemma tick_reacts regs esp ebp :
  reg_int_no regs = 32 -> 0 <= esp < 4294967296 /\ 0 <= ebp < 4294967296 ->
  wp (load_stack esp ebp >> irq_handler regs)
    (fun _ s' => implements (Machine th s') (react text m (Tick esp ebp))) s.
Proof using Him Haway Hhello Heip.
  intros Hno Hr. destruct Him as [(Ht & Hk & Hc) Hsch [Hpts Hch] Hth Hwf Hq Hold Hdis Htick Htx].
  cbn [kernel threads] in *. unfold load_stack, irq_handler. k_steps. rewrite Hno. change (40 <=? 32) with false.
  change (256 <=? 32) with false. cbn [when]. k_steps. cbn [interrupt_handlers set_trace set_cpu]. rewrite Ht.
  change (run_handler ptr_timer_callback regs) with (timer_callback regs). set (s1 := set_trace _ _).
  assert (Hs1 : schedules l s1 (schedule m)) by (by apply (schedules_same l s)).
  eapply wp_mono; [apply wp_and; [apply (timer_callback_spec l regs s1 _ Heip Hs1); unfold regs_range; cbn; lia|]|].
  { unfold timer_callback. k_steps.
    eapply wp_mono; [apply (preempt_keeps l Heip _ (schedule m)); by apply (schedules_same l s)|].
    intros [] s' Hs'. k_steps. exact Hs'. }
  intros r s' [(Htk & Hsch' & _) [(Km & Kk & Kh) Hm]].
  cbn [set_tick set_trace set_cpu mem tk mon kbd interrupt_handlers s1 tick] in *.
  pose proof (sched_current _ _ _ Hsch) as Hcur. apply (Forall_lookup_1 _ _ _ _ Haway) in Hcur as [Hv Hx].
  constructor; cbn [kernel threads react schedule points keys waiting oldest display ticks]; rewrite ?Kk, ?Kh; try done.
  - eapply (shows_frame _ s); [exact Hdis|exact Hm| |exact Km]. cbv beta. lia.
  - by rewrite Htk, Htick.
  - rewrite <- Htx. apply (bytes_frame _ _ _ _ Hm); [unfold region|]; lia.
Qed.
End Step.

(** *** Keys inside [keyboard_getchar] *)

(** What keys do where there is room. *)
Lemma keys_react scs m :
  (length (waiting m) + length scs <= 255)%nat ->
  react_all text (Key <$> scs) m =
  System (points m) (schedule m) (waiting m ++ fst (key_chars scs (keys m))) (snd (key_chars scs (keys m)))
    (oldest m) (display m) (ticks m).
Proof using.
  clear Heip Haway Htext Hhello. revert m. induction scs as [|sc scs IH]; intros m Hl; cbn [fmap list_fmap react_all foldl length key_chars] in *.
  - cbn [fst snd]. rewrite app_nil_r. by destruct m.
  - fold (react_all text (Key <$> scs) (react text m (Key sc))). cbn [react]. rewrite handle_room by lia.
    pose proof (handle_length (u8 sc) (keys m)) as Hle.
    destruct (KeySpec.handle 1 (u8 sc) [] (keys m)) as [t km1]. cbn [fst snd] in *.
    rewrite IH by (cbn [waiting]; rewrite length_app; lia). cbn [points schedule waiting keys oldest display ticks].
    destruct (key_chars scs km1) as [t' km2]. cbn [fst snd]. by rewrite app_assoc.
Qed.

Section Interrupted.
Context (th : gmap Z point) (s : kstate) (m : system) (Him : implements (Machine th s) m).
Context (regs : registers_t) (scs : nat -> list Z).
Hypothesis Hroom : (length (waiting m) + length (keys_before scs 6) <= 255)%nat.
Hypothesis Hpolls : th !! current_task (tk s) = Some Polls.

Lemma keyboard_reacts th' s' pts q km o :
  keyboard_frame s s' -> kbd_wf (kbd s') km -> control_map km = control_map (keys m) ->
  queue (kbd s') = q -> keyboard_buffer_start (kbd s') = o ->
  length pts = length l /\ Forall char_point pts ->
  (forall i t, l !! i = Some t -> th' !! t = pts !! i) ->
  implements (Machine th' s') (System pts (schedule m) q km o (display m) (ticks m)).
Proof using Him.
  clear Hpolls Hroom. intros (p & g & ->) Hwf Hmap Hq Ho Hpts Hth.
  destruct Him as [Hh Hsch _ _ [_ Hdup] _ _ Hdis Htick Htx].
  constructor; cbn [kernel threads schedule points keys waiting oldest display ticks]; try done.
  - by apply (schedules_same l s).
  - split; [exact Hwf|by rewrite Hmap].
Qed.

(** C13: That keys arrive between the steps of the loop is no restriction: when they arrive
    inside [keyboard_getchar], at whatever points, and there is room for them, what
    happens is what happens when all come first, or, where nothing waits and 0 is
    returned, when those after the reading of the indices come behind. *)
Theorem interrupted_poll_serialises :
  wp (getchar_interrupted (fun n => press_all regs (scs n))) (fun c s' =>
    implements (Machine (<[current_task (tk s) := after_poll c]> th) s')
      (react_all text ((Key <$> keys_before scs 6) ++ [Proceed]) m) \/
    c = 0 /\ implements (Machine (<[current_task (tk s) := after_poll c]> th) s')
      (react_all text ((Key <$> keys_before scs 2) ++ Proceed :: (Key <$> scs 2%nat)) m)) s.
Proof using Him Hroom Hpolls.
  clear Heip Haway Htext Hhello. pose proof Him as [_ Hsch [Hpts Hch] Hth [Hwf Hdup] Hq Hold _ _ _]. cbn [kernel threads] in *.
  pose proof (sched_current _ _ _ Hsch) as Hcur. pose proof (Hth _ _ Hcur) as Hp. rewrite Hpolls in Hp. symmetry in Hp.
  pose proof (keys_before_le scs 2 ltac:(lia)) as H2. pose proof (keys_before_le scs 3 ltac:(lia)) as H3.
  rewrite keys_before_S, length_app in H3.
  eapply wp_mono; [by apply (getchar_keys_atomic regs scs (waiting m) (keys m))|].
  intros c s' [F [(W & Hc & Ho)|(W & -> & Hempty & Hq3 & Ho)]]; rewrite Hold in Ho.
  - left. unfold react_all. rewrite foldl_app. fold (react_all text (Key <$> keys_before scs 6) m).
    rewrite keys_react by lia. cbn [foldl react]. unfold proceed. cbn [points schedule waiting keys oldest display ticks].
    rewrite Hp, <- Hc. apply keyboard_reacts; try done; [apply key_chars_keeps_map| |by apply (threads_move th s m Him)].
    split; [by rewrite length_insert|]. apply Forall_insert; [done|apply after_poll_char].
  - right. split; [done|]. unfold react_all. rewrite foldl_app. fold (react_all text (Key <$> keys_before scs 2) m).
    rewrite keys_react by lia. cbn [foldl react]. unfold proceed. cbn [points schedule waiting keys oldest display ticks].
    rewrite Hp, Hempty. fold (react_all text (Key <$> scs 2%nat)).
    match goal with |- implements _ (foldl _ ?x _) => fold (react_all text (Key <$> scs 2%nat) x) end.
    rewrite keys_react by (cbn [waiting length]; lia). cbn [points schedule waiting keys oldest display ticks].
    rewrite (insert_id th) by exact Hpolls. rewrite keys_before_S, key_chars_app in W, Hq3.
    apply app_nil in Hempty as [_ Hempty]. pose proof (key_chars_keeps_map (keys_before scs 2) (keys m)) as Hmap.
    destruct (key_chars (keys_before scs 2) (keys m)) as [t2 km2]. cbn [fst snd] in *. subst t2.
    pose proof (key_chars_keeps_map (scs 2%nat) km2). destruct (key_chars (scs 2%nat) km2) as [t3 km3]. cbn [fst snd app] in *.
    apply keyboard_reacts; try done. congruence.
Qed.
End Interrupted.

End Refinement.

(** ** One task, in either mode *)

Section Modes.
Context `{Linkage, LeftInEax} (hello : Z) (text : list Z) (task : Z) (md : mode).
Hypothesis Heip : 0 <= eip_switch_task < 4294967296 /\ eip_switch_task <> 74565.
Hypothesis Htext : Forall (fun b => 0 < b < 128) text /\ Z.of_nat (length text) < 2147483647.
Hypothesis Hhello : 0 <= hello /\ hello + Z.of_nat (S (length text)) <= 4294967296 /\
  (hello + Z.of_nat (S (length text)) <= video_memory \/ video_memory + 4000 <= hello).
Hypothesis Haway : Forall (fun t => (t + 28 <= video_memory \/ video_memory + 4000 <= t) /\
  (t + 28 <= hello \/ hello + Z.of_nat (S (length text)) <= t)) [task].

(** The linker has put the keyboard's variables into the first four megabytes. *)
Hypothesis Hsyms : (0 <= sym_keyboard_buffer /\ sym_keyboard_buffer + 256 <= 4194304) /\
  0 <= sym_keyboard_buffer_start < 4194304 /\ 0 <= sym_keyboard_buffer_end < 4194304.

(** What does not change while the kernel runs: the mode [md], and the mapping of the
    kernel's addresses, which the task's directory has too. *)
Record steady (s : kstate) : Prop := Steady {
  sy_mode : mode_of (trace s) = md;
  sy_fault : interrupt_handlers s !! 14 = Some ptr_page_fault;
  sy_directory : load32 (mem s) (task_page_directory task) = current_directory (pg s);
  sy_task : 0 <= task /\ task + 28 <= 4294967296 /\
    0 <= current_directory (pg s) /\ current_directory (pg s) + 8196 <= 4294967296;
  sy_maps : exists t0 t1, maps_kernel (mem s) (current_directory (pg s)) t0 t1 /\
    forall b, map_mem (current_directory (pg s)) t0 t1 b -> ~ video b /\ ~ (task <= b < task + 28)
}.

(** In user mode the loop is about to read the buffer. *)
Definition lone (m : system) : Prop := in_user md = true -> points m = [Polls].

Lemma steady_frame s s' :
  steady s -> same_on (fun b => ~ video b /\ ~ (task + 4 <= b < task + 16)) (mem s) (mem s') ->
  current_directory (pg s') = current_directory (pg s) -> interrupt_handlers s' = interrupt_handlers s ->
  mode_of (trace s') = mode_of (trace s) -> steady s'.
Proof using All.
  intros [Hmd Hf Hd Ht (t0 & t1 & Hm & Hap)] Hs Hpg Hih Htr. apply Forall_inv in Haway as [Hv _].
  constructor; rewrite ?Hpg, ?Hih, ?Htr; try done.
  - rewrite <- Hd. unfold task_page_directory. eapply load32_same_on; [exact Hs|unfold region; lia|].
    unfold video, video_memory in *. intros b Hb. cbv beta. lia.
  - exists t0, t1. split; [|exact Hap]. eapply maps_kernel_frame; [exact Hm|exact Hs|lia|].
    intros b Hb. destruct (Hap b Hb) as [??]. cbv beta. split; [done|lia].
Qed.

Lemma steady_same s s' :
  steady s -> mem s' = mem s -> current_directory (pg s') = current_directory (pg s) ->
  interrupt_handlers s' = interrupt_handlers s -> mode_of (trace s') = mode_of (trace s) -> steady s'.
Proof using All. intros Hs Hm ???. apply (steady_frame s s' Hs); [by rewrite Hm|done..]. Qed.

Lemma steady_console s s' : steady s -> console_frame s s' -> steady s'.
Proof using All.
  intros Hs [(m & tr & g & -> & Hm) (es & Htr & Hes)]. cbn [trace set_mem set_trace set_mon] in Htr.
  apply (steady_frame s _ Hs); try done.
  - intros b Hb [Hv _]. by apply Hm.
  - cbn [trace set_mem set_trace set_mon]. rewrite Htr. by apply mode_of_output.
Qed.

Section Step.
Context (th : gmap Z point) (s : kstate) (m : system).
Context (Him : implements hello text [task] (Machine th s) m) (Hs : steady s).

Lemma key_steady regs sc : reg_int_no regs = 33 -> wp (irq_handler regs) (fun _ s' => steady s') (present sc s).
Proof using All.
  intros Hno. destruct Him as [(_ & Hk & _) _ _ _ [Hwf Hdup] _ _ _ _ _]. cbn [kernel] in *.
  unfold irq_handler. rewrite Hno. change (40 <=? 33) with false. change (256 <=? 33) with false. cbn [when]. k_steps.
  cbn [interrupt_handlers set_trace present]. rewrite Hk.
  change (run_handler ptr_keyboard_handler regs) with (keyboard_handler regs).
  eapply wp_mono; [by apply (handler_spec (keys m))|]. intros r s' (g & km & _ & -> & _).
  by apply (steady_same s).
Qed.

Lemma tick_steady regs esp ebp :
  if_set md = true -> reg_int_no regs = 32 ->
  wp (load_stack esp ebp >> irq_handler regs) (fun _ s' => steady s') s.
Proof using All.
  intros Hif Hno. destruct Him as [(Ht & _) Hsch _ _ _ _ _ _ _ _]. cbn [kernel] in *.
  unfold load_stack, irq_handler. k_steps. rewrite Hno. change (40 <=? 32) with false.
  change (256 <=? 32) with false. cbn [when]. k_steps. cbn [interrupt_handlers set_trace set_cpu]. rewrite Ht.
  change (run_handler ptr_timer_callback regs) with (timer_callback regs). unfold timer_callback. k_steps.
  match goal with |- wp _ _ ?t => set (s1 := t) end.
  assert (Hs1 : schedules [task] s1 (schedule m)) by (by apply (schedules_same [task] s)).
  eapply wp_mono; [apply wp_and; [exact (preempt_keeps [task] Heip s1 _ Hs1)|exact (preempt_enters [task] Heip s1 _ Hs1)]|].
  intros [] s' ([(Km & Kk & Kh) Hm] & u & Hu & He). k_steps. apply list_elem_of_singleton in Hu as ->.
  pose proof (sched_current _ _ _ Hs1) as Hc. pose proof (lookup_lt_Some _ _ _ Hc) as Hr. cbn [length] in Hr.
  replace (RoundRobin.running (schedule m)) with 0%nat in Hc by lia. injection Hc as Hc. change (mem s1) with (mem s) in Hm.
  change (tk s1) with (tk s) in *. rewrite <- Hc in Hm.
  assert (Hd : load32 (mem s') (task_page_directory task) = load32 (mem s) (task_page_directory task)).
  { unfold task_page_directory. pose proof (sy_task _ Hs). eapply load32_frame; [exact Hm|unfold region; lia|lia]. }
  unfold enters in He. destruct (context (mem s') task) as [[eip esp'] ebp'].
  destruct He as (_ & _ & _ & _ & Hpg & _ & Htr & _).
  apply (steady_frame s s' Hs); [|by rewrite Hpg, Hd, sy_directory|exact Kh|].
  - intros b Hb [_ Hn]. apply Hm; [done|lia].
  - rewrite Htr. cbn [mode_of foldr mode_after]. rewrite <- (sy_mode _ Hs) in Hif.
    change (Mode (in_user (mode_of (trace s))) true = mode_of (trace s)). rewrite <- Hif. by destruct (mode_of (trace s)).
Qed.

Lemma call_steady frame : wp (syscall_monitor_write frame hello) (fun _ s' => steady s') s.
Proof using All.
  destruct Him as [(_ & _ & Hc) _ _ _ _ _ _ Hdis _ Htx]. destruct Htext as [Ht Hn]. eapply wp_mono.
  { apply (syscall_monitor_write_spec frame hello text (display m) s); try done.
    - eapply Forall_impl; [exact Ht|]. cbv beta. lia.
    - unfold region. lia.
    - lia. }
  intros r s' [Hfr _]. by apply (steady_console s).
Qed.

Lemma print_steady c :
  th !! current_task (tk s) = Some (Prints c) -> wp (monitor_put c) (fun _ s' => steady s') s.
Proof using All.
  intros Hc. pose proof Him as [_ [_ _ Hcur _] [_ Hch] Hth _ _ _ Hdis _ _]. cbn [kernel threads] in *.
  assert (Hc8 : char_point (Prints c)) by (eapply (Forall_lookup_1 _ _ _ _ Hch); rewrite <- (Hth _ _ Hcur); exact Hc).
  eapply wp_mono; [apply monitor_put_spec; [exact Hdis|apply Hc8]|]. intros [] s' (Hfr & _).
  by apply (steady_console s).
Qed.

Lemma getchar_steady : wp keyboard_getchar (fun _ s' => steady s') s.
Proof using All.
  destruct Him as [_ _ _ _ [Hwf _] _ _ _ _ _]. cbn [kernel] in *.
  eapply wp_mono; [by apply (getchar_spec (keys m))|]. intros c s' (g & -> & _). by apply (steady_same s).
Qed.

(** Where the kernel is mapped a program may read and not write. *)
Lemma kernel_rights a : 0 <= a < 4194304 ->
  user_reads (mem s) (current_directory (pg s)) a = true /\ user_writes (mem s) (current_directory (pg s)) a = false /\
  translate (mem s) (current_directory (pg s)) a = Some a.
Proof using All.
  destruct Hs as [_ _ _ _ (t0 & t1 & Hm & _)]. intros Ha. destruct (user_low _ _ _ _ Hm a Ha) as [Hr Hw].
  split; [exact Hr|]. split; [exact Hw|]. by apply (translate_low _ _ _ _ Hm).
Qed.

Lemma load_allowed frame a : 0 <= a < 4194304 -> user_load frame a s = Ok tt s.
Proof using All.
  intros Ha. destruct (kernel_rights a Ha) as [Hr _]. unfold user_load, bind, gets. by rewrite Hr.
Qed.

(** Nothing waits: the loop reads the indices, and that is all. *)
Lemma user_waits frame : waiting m = [] -> user_getchar frame s = Ok 0 s.
Proof using All.
  intros Hq. destruct Him as [_ _ _ _ [Hwf _] Hw _ _ _ _]. cbn [kernel] in *. rewrite <- Hw in Hq.
  apply (queue_empty _ _ Hwf) in Hq. unfold user_getchar, getchar_interrupted, getchar_access, bind, gets.
  rewrite !load_allowed by tauto. by rewrite Hq, Z.eqb_refl.
Qed.

(** What is on the screen, behind [t], when the loop has been refused its store. *)
Definition store_refused (t : terminal) (s' : kstate) : Prop := exists address eip line,
  hexadecimal sym_keyboard_buffer_start address /\ number_of 10 dec_value line = 252 /\
  shows s' (write (fault_text 7 address eip line) t) /\ head (trace s') = Some Hlt.

Lemma store_stops frame :
  frame_range frame -> halts (user_store frame sym_keyboard_buffer_start) (store_refused (display m)) s.
Proof using All.
  intros Hfr. destruct Hsyms as (_ & Ha & _). destruct (kernel_rights _ Ha) as (_ & Hw & Ht).
  unfold user_store, refuse. apply halts_bind, wp_gets. rewrite Hw. apply halts_bind, wp_gets. rewrite Ht.
  apply halts_bind, wp_modify. apply halts_bind_now. unfold isr_handler.
  set (r := set_err_code _ _). apply halts_bind, wp_gets.
  change (reg_int_no r) with (pushed_int_no 14). rewrite u8_pushed by lia.
  cbn [interrupt_handlers set_cpu]. rewrite (sy_fault _ Hs). change (run_handler ptr_page_fault r) with (page_fault r).
  eapply halts_mono; [apply (page_fault_spec r (display m)); [apply (im_display _ _ _ _ _ Him)|cbn; lia|exact Hfr]|].
  intros s' (address & eip & line & H1 & _ & H2 & H3 & H4). by exists address, eip, line.
Qed.

(** Something waits: the increment of the start index is refused. *)
Lemma user_stops frame :
  frame_range frame -> waiting m <> [] -> halts (user_getchar frame) (store_refused (display m)) s.
Proof using All.
  intros Hfr Hq. destruct Him as [_ _ _ _ [Hwf _] Hw _ _ _ _]. cbn [kernel] in *. rewrite <- Hw in Hq.
  assert (Hne : keyboard_buffer_start (kbd s) <> keyboard_buffer_end (kbd s)) by (by intros E%(queue_empty _ _ Hwf)).
  pose proof (kbd_start _ _ Hwf) as Hst. pose proof (kbd_buffer _ _ Hwf) as Hlen.
  pose proof (store_stops frame Hfr) as Hstop. destruct (lookup_lt_is_Some_2 (keyboard_buffer (kbd s))
    (Z.to_nat (keyboard_buffer_start (kbd s))) ltac:(lia)) as [c Hc].
  unfold halts, user_getchar, getchar_interrupted, take_interrupted, getchar_access, element, bind, gets, ret in *.
  rewrite !load_allowed by tauto. replace (_ =? _) with false by blia. cbn [negb].
  rewrite load_allowed by (rewrite u32_id; lia). rewrite Hc. replace (_ <? 0) with false by blia.
  by destruct (user_store _ _ s).
Qed.

Lemma running_first : RoundRobin.running (schedule m) = 0%nat.
Proof using All.
  pose proof (sched_current _ _ _ (im_schedule _ _ _ _ _ Him)) as Hc. apply lookup_lt_Some in Hc. cbn in Hc. lia.
Qed.

Lemma poll_kernel frame : in_user md = false -> poll frame s = keyboard_getchar s.
Proof using All. intros Hu. unfold poll, bind, gets. by rewrite (sy_mode _ Hs), Hu. Qed.

Lemma poll_user frame : in_user md = true -> poll frame s = user_getchar frame s.
Proof using All. intros Hu. unfold poll, bind, gets. by rewrite (sy_mode _ Hs), Hu. Qed.
End Step.

(** The machine is in the mode [md] and what the user knows of it is [m]. *)
Definition runs_as (x : machine) (m : system) : Prop :=
  implements hello text [task] x m /\ steady (kernel x) /\ lone m.

Lemma lone_react m e : lone m -> e <> Proceed -> lone (react text m e).
Proof using All.
  intros Hl He Hu. specialize (Hl Hu). destruct e; cbn [react]; try done. by destruct (KeySpec.handle _ _ _ _).
Qed.

Definition zero_frame : registers_t := Registers 0 0 0 0 0 0 0 0 0 0 0 0 0 0 0 0.

(** What [react_in] allows can happen. *)
Lemma action_happens x m e m' :
  runs_as x m -> possible e -> react_in text md m e = Some m' -> exists x', step hello x e x'.
Proof using All.
  destruct x as [th s]. intros (Him & Hs & Hl) He Hm. cbn [kernel] in Hs. pose proof (sy_mode _ Hs) as Hmd.
  destruct e as [sc|esp ebp| |]; cbn [react_in] in Hm.
  - destruct (if_set md) eqn:Hif; [|eexists; apply step_masked; [by rewrite Hmd|done]].
    pose proof (key_reacts hello text [task] th s m Him sc (set_int_no 33 zero_frame) eq_refl) as Hw.
    apply wp_ok in Hw as (r & s' & Hr & _). eexists. eapply step_key; [by rewrite Hmd| |exact Hr]. done.
  - destruct (if_set md) eqn:Hif; [|eexists; apply step_masked; [by rewrite Hmd|done]].
    pose proof (tick_reacts hello text [task] Heip Hhello Haway th s m Him (set_int_no 32 zero_frame) esp ebp eq_refl He) as Hw.
    apply wp_ok in Hw as (r & s' & Hr & _). eexists. eapply step_tick; [by rewrite Hmd| |exact Hr]. done.
  - pose proof (sched_current _ _ _ (im_schedule _ _ _ _ _ Him)) as Hcur. cbn [kernel] in Hcur.
    pose proof (im_threads _ _ _ _ _ Him _ _ Hcur) as Hth. rewrite (running_first th s m Him Hs) in Hth. cbn [threads] in Hth.
    destruct (im_points _ _ _ _ _ Him) as [Hpts _]. assert (Hz : frame_range zero_frame) by (unfold frame_range; cbn; lia).
    destruct (in_user md) eqn:Hu.
    + rewrite (Hl Hu) in Hth. destruct (waiting m) eqn:Hq; [|done].
      eexists. eapply step_poll; [exact Hth|exact Hz|]. rewrite (poll_user th s m Him Hs) by done.
      by apply (user_waits th s m Him Hs).
    + destruct (points m) as [|[|c] pts] eqn:Hp; [done|..]; cbn [lookup list_lookup] in Hth.
      * pose proof (poll_reacts hello text [task] th s m Him Hth) as Hw. apply wp_ok in Hw as (c & s' & Hr & _).
        eexists. eapply step_poll; [exact Hth|exact Hz|]. rewrite (poll_kernel th s m Him Hs) by done. exact Hr.
      * pose proof (print_reacts hello text [task] Hhello Haway th s m Him c Hth) as Hw.
        apply wp_ok in Hw as ([] & s' & Hr & _). eexists. eapply step_print; [exact Hth|by rewrite Hmd|exact Hr].
  - pose proof (call_reacts hello text [task] Htext Hhello Haway th s m Him zero_frame) as Hw.
    apply wp_ok in Hw as (r & s' & Hr & _). eexists. by eapply step_call.
Qed.

(** And then the machine is what it says. *)
Lemma action_reacts x m e m' x' :
  runs_as x m -> possible e -> react_in text md m e = Some m' -> step hello x e x' -> runs_as x' m'.
Proof using All.
  intros (Him & Hs & Hl) He Hm Hst. pose proof (sy_mode _ Hs) as Hmd.
  destruct Hst as [th s sc regs r s' Hif Hno Hr|th s esp ebp regs r s' Hif Hno Hr|th s e Hif He'|th s frame c s' Hc Hfr Hr|
    th s c s' Hc Hu Hr|th s frame r s' Hr]; cbn [kernel react_in] in *; rewrite ?Hmd in *.
  - rewrite Hif in Hm. apply (inj Some) in Hm as <-. split; [|split; [|by apply lone_react]].
    + exact (wp_result _ _ _ _ _ Hr (key_reacts hello text [task] th s m Him sc regs Hno)).
    + exact (wp_result _ _ _ _ _ Hr (key_steady th s m Him Hs regs sc Hno)).
  - rewrite Hif in Hm. apply (inj Some) in Hm as <-. split; [|split; [|by apply lone_react]].
    + exact (wp_result _ _ _ _ _ Hr (tick_reacts hello text [task] Heip Hhello Haway th s m Him regs esp ebp Hno He)).
    + exact (wp_result _ _ _ _ _ Hr (tick_steady th s m Him Hs regs esp ebp Hif Hno)).
  - assert (m' = m) as -> by (destruct e; try done; cbn [react_in] in Hm; rewrite Hif in Hm; congruence). done.
  - destruct (in_user md) eqn:Hu.
    + destruct (waiting m) eqn:Hq; [|done]. apply (inj Some) in Hm as <-. rewrite (poll_user th s m Him Hs) in Hr by done.
      rewrite (user_waits th s m Him Hs) in Hr by done. injection Hr as <- <-.
      change (after_poll 0) with Polls. rewrite insert_id by done. done.
    + apply (inj Some) in Hm as <-. rewrite (poll_kernel th s m Him Hs) in Hr by done. split; [|split].
      * exact (wp_result _ _ _ _ _ Hr (poll_reacts hello text [task] th s m Him Hc)).
      * exact (wp_result _ _ _ _ _ Hr (getchar_steady th s m Him Hs)).
      * intros Hu'. congruence.
  - rewrite Hu in Hm. apply (inj Some) in Hm as <-. split; [|split].
    + exact (wp_result _ _ _ _ _ Hr (print_reacts hello text [task] Hhello Haway th s m Him c Hc)).
    + exact (wp_result _ _ _ _ _ Hr (print_steady th s m Him Hs c Hc)).
    + intros Hu'. congruence.
  - apply (inj Some) in Hm as <-. split; [|split; [|by apply lone_react]].
    + exact (wp_result _ _ _ _ _ Hr (call_reacts hello text [task] Htext Hhello Haway th s m Him frame)).
    + exact (wp_result _ _ _ _ _ Hr (call_steady th s m Him Hs frame)).
Qed.

(** What it does not allow is the end. *)
Lemma action_stops x m e :
  runs_as x m -> react_in text md m e = None ->
  e = Proceed /\ (exists s', stops x e s') /\ (forall s', stops x e s' -> store_refused (display m) s') /\
  forall x', ~ step hello x e x'.
Proof using All.
  destruct x as [th s]. intros (Him & Hs & Hl) Hm. destruct e; try done. split; [done|]. cbn [react_in kernel] in *.
  destruct (in_user md) eqn:Hu; [|done]. assert (Hq : waiting m <> []) by (intros E; by rewrite E in Hm).
  pose proof (sched_current _ _ _ (im_schedule _ _ _ _ _ Him)) as Hcur. cbn [kernel] in Hcur.
  pose proof (im_threads _ _ _ _ _ Him _ _ Hcur) as Hth. rewrite (running_first th s m Him Hs), (Hl Hu) in Hth. cbn in Hth.
  assert (Hend : forall frame, frame_range frame -> halts (poll frame) (store_refused (display m)) s).
  { intros frame Hfr. unfold halts. rewrite (poll_user th s m Him Hs) by done. by apply (user_stops th s m Him Hs). }
  split; [|split].
  - assert (Hz : frame_range zero_frame) by (unfold frame_range; cbn; lia). specialize (Hend _ Hz). unfold halts in Hend.
    destruct (poll zero_frame s) as [|s'| |] eqn:Hp; try done. exists s'. by eapply stops_poll.
  - intros s' Hst. inversion Hst as [? ? frame ? _ Hfr Hp]; subst. specialize (Hend _ Hfr). unfold halts in Hend.
    by rewrite Hp in Hend.
  - intros x' Hst. inversion Hst as [| |? ? ? Hno|? ? frame ? ? _ Hfr Hp|? ? ? ? Hc|]; subst; [done| |].
    + specialize (Hend _ Hfr). unfold halts in Hend. by rewrite Hp in Hend.
    + congruence.
Qed.

Lemma runs_happen es x m m' :
  runs_as x m -> Forall possible es -> run_in text md es m = Some m' ->
  (exists x', runs hello x es x') /\ forall x', runs hello x es x' -> runs_as x' m'.
Proof using All.
  intros Hx Hes. revert x m Hx. induction Hes as [|e es He _ IH]; intros x m Hx Hm; cbn [run_in] in Hm.
  - injection Hm as <-. split; [exists x; constructor|]. intros x' Hr. by inversion Hr; subst.
  - destruct (react_in text md m e) as [m1|] eqn:Hm1; [|done].
    pose proof (fun y => action_reacts x m e m1 y Hx He Hm1) as Hall. split.
    + destruct (action_happens x m e m1 Hx He Hm1) as [y Hy]. destruct (IH y m1 (Hall y Hy) Hm) as [[z Hz] _].
      exists z. by econstructor.
    + intros x' Hr. inversion Hr as [|? ? y ? ? Hy Hz]; subst. by apply (IH y m1 (Hall y Hy) Hm).
Qed.

(** A list of actions that [run_in] does not allow has a first one that stops the processor. *)
Lemma run_stops es m :
  run_in text md es m = None -> exists es1 e es2 m1,
    es = es1 ++ e :: es2 /\ run_in text md es1 m = Some m1 /\ react_in text md m1 e = None.
Proof using.
  clear. revert m. induction es as [|e es IH]; intros m Hm; [done|]. cbn [run_in] in Hm.
  destruct (react_in text md m e) as [m1|] eqn:He.
  - destruct (IH m1 Hm) as (es1 & e' & es2 & m2 & -> & Hr & Hn). exists (e :: es1), e', es2, m2.
    cbn [run_in]. by rewrite He.
  - by exists [], e, es, m.
Qed.

Lemma runs_stop es x m m1 :
  runs_as x m -> Forall possible es -> run_in text md es m = Some m1 -> react_in text md m1 Proceed = None ->
  (exists x1, runs hello x es x1) /\ forall x1, runs hello x es x1 ->
    (exists s', stops x1 Proceed s') /\ (forall s', stops x1 Proceed s' -> store_refused (display m1) s') /\
    forall x2, ~ step hello x1 Proceed x2.
Proof using All.
  intros Hx Hes Hm Hn. destruct (runs_happen es x m m1 Hx Hes Hm) as [Hex Hall]. split; [exact Hex|].
  intros x1 Hr. by apply (action_stops x1 m1 Proceed (Hall x1 Hr) Hn).
Qed.

(** C10: The kernel with its one task is the system that [react] describes, as far as its
    mode lets it.  Key presses, ticks of the timer, steps of the loop and system
    calls happen in every order; those that come while the flag is clear are not
    heard.  At the privilege of the kernel they never stop it.  In user mode they do not
    either as long as nothing waits in the buffer; then the step of the loop that would take
    the first character is refused its store: it ends in the message of [page_fault]. *)
Theorem kernel_refines_system es x m :
  implements hello text [task] x m -> steady (kernel x) -> lone m -> Forall possible es ->
  match run_in text md es m with
  | Some m' => (exists x', runs hello x es x') /\ forall x', runs hello x es x' -> implements hello text [task] x' m'
  | None => in_user md = true /\ exists es1 es2 m1,
      es = es1 ++ Proceed :: es2 /\ run_in text md es1 m = Some m1 /\ waiting m1 <> [] /\
      (exists x1, runs hello x es1 x1) /\ forall x1, runs hello x es1 x1 -> implements hello text [task] x1 m1 /\
        (exists s', stops x1 Proceed s') /\ (forall s', stops x1 Proceed s' -> store_refused (display m1) s') /\
        forall x2, ~ step hello x1 Proceed x2
  end.
Proof using All.
  intros Him Hs Hl Hes. assert (Hx : runs_as x m) by done. destruct (run_in text md es m) as [m'|] eqn:Hm.
  - destruct (runs_happen es x m m' Hx Hes Hm) as [Hex Hall]. split; [exact Hex|]. intros x' Hr. by apply Hall.
  - destruct (run_stops es m Hm) as (es1 & e & es2 & m1 & -> & Hm1 & Hn). apply Forall_app in Hes as [Hes1 _].
    destruct (runs_happen es1 x m m1 Hx Hes1 Hm1) as [[y Hy] Hall].
    assert (e = Proceed) as -> by by eapply action_stops; [exact (Hall y Hy)|].
    pose proof Hn as Hn'. cbn [react_in] in Hn'. destruct (in_user md); [|done]. split; [done|].
    exists es1, es2, m1. split; [done|]. split; [done|]. split; [by destruct (waiting m1)|].
    split; [by exists y|]. intros x1 Hr. split; [by apply Hall|]. by apply (action_stops x1 m1 Proceed (Hall x1 Hr) Hn).
Qed.
End Modes.

(** One round of [kernel_idle] is a step from [Polls], and one from [Prints] when there
    is a character. *)
Lemma idle_points s :
  kernel_idle s =
  (c <- keyboard_getchar; match after_poll c with Polls => ret tt | Prints c => monitor_put c end) s.
Proof.
  unfold kernel_idle, bind, after_poll. destruct (keyboard_getchar s) as [c s'| | |]; try done.
  by destruct (truth (s8 c)).
Qed.

(** ** The kernel that has started *)

Section Running.
Context `{Linkage, LeftInEax} (stack : kstate -> list Z) (frame : registers_t).
Context (mboot_ptr initial_stack hello loc iend : Z).
Hypothesis Hstack : forall s, exists junk rest, stack s = junk ++ 0 :: rest /\
  Forall (fun b => 0 < b < 256) junk /\ Z.of_nat (length junk) < 2147483000.
Hypothesis Heip : 0 <= eip_switch_task < 4294967296 /\ eip_switch_task <> 74565.
Hypothesis Hsyms : (0 <= sym_keyboard_buffer /\ sym_keyboard_buffer + 256 <= 4194304) /\
  0 <= sym_keyboard_buffer_start < 4194304 /\ 0 <= sym_keyboard_buffer_end < 4194304.

Definition user_mode : mode := Mode true false.

(** What a user knows when the loop begins, [t] being the screen before the greeting, and
    what waits in the buffer [q]; and the machine at that time: one task, about to
    read the buffer. *)
Definition started (q : list Z) (km : keymap_t) (s : kstate) (t : terminal) : system :=
  System [Polls] (RoundRobin.Scheduler [(0, 0, 0)] 0) q km (keyboard_buffer_start (kbd s))
    (write hello_text t) (tick s).

Definition entered (s : kstate) : machine := Machine {[current_task (tk s) := Polls]} s.

(** Where the greeting and the first task are. *)
Definition apart (task : Z) : Prop := Forall (fun u => (u + 28 <= video_memory \/ video_memory + 4000 <= u) /\
  (u + 28 <= hello \/ hello + Z.of_nat (S (length hello_text)) <= u)) [task].

Lemma booted_implements size files q km s :
  video_memory + 4000 <= hello /\ hello + 20 <= heap_area_start -> 757664 <= loc + size ->
  NoDup (control_map km) -> booted loc size files hello q km s ->
  exists t task, apart task /\ runs_as hello hello_text task user_mode (entered s) (started q km s t).
Proof using.
  clear Hstack Heip Hsyms. intros Hp Hloc Hdup [_ Hmd Hh (task & Hsch & Hdir & Ht1 & Ht2 & Htd) (Hcd & t0 & t1 & Hm & Hlo) _ _ [Hk Hq] [t Hs] Htx].
  exists t, task. pose proof heap_ends as (E1 & E2 & E3). split.
  { repeat constructor; unfold video_memory in *; cbn; lia. }
  pose proof (sched_current _ _ _ Hsch) as Hcur. injection Hcur as Hcur. split; [|split; [|by intros _]].
  - constructor; cbn [kernel threads entered started schedule points keys waiting oldest display ticks]; try done.
    + rewrite Hh. by split_and!.
    + split; [done|]. by repeat constructor.
    + intros [|i] u Hu; [|done]. injection Hu as <-. rewrite <- Hcur. by rewrite lookup_singleton_eq.
  - cbn [kernel entered]. constructor; rewrite ?Hcd; try done.
    + by rewrite Hh.
    + unfold first_directory. lia.
    + exists t0, t1. split; [exact Hm|]. intros b Hb. unfold video, video_memory.
      assert (Hb' : loc + size <= b < 4194304 \/ dir_kept b).
      { unfold map_mem, dir_table_physical, dir_kept, first_directory in *. lia. }
      destruct Hb' as [?|Hk']; [lia|]. split; [apply dir_kept_range in Hk'; lia|]. intros Hn. by apply (Htd b).
Qed.

Lemma text_place s :
  can_boot mboot_ptr initial_stack hello loc iend s ->
  video_memory + 4000 <= hello /\ hello + 20 <= loc /\ hello + 20 <= heap_area_start.
Proof using.
  clear Hstack Heip Hsyms. intros Hb. pose proof (cb_hello _ _ _ _ _ _ Hb) as Hplace. pose proof heap_ends.
  pose proof (can_room _ (cst_paging _ (cb_memory _ _ _ _ _ _ Hb))) as Hroom. cbn [hp set_hp placement_address] in Hroom.
  unfold video_memory in *.
  pose proof (next_page_bounds (iend + 128) ltac:(lia)) as [? _].
  pose proof (next_page_bounds (next_page (iend + 128) + 8196) ltac:(lia)) as [? _].
  pose proof (next_page_bounds (next_page (next_page (iend + 128) + 8196) + 4096) ltac:(lia)) as [? _]. lia.
Qed.

(** What calls print. *)
Fixpoint said (text : list Z) (es : list action) : list Z :=
  match es with
  | [] => []
  | Call :: es => text ++ said text es
  | _ :: es => said text es
  end.

(** In user mode nothing else happens. *)
Lemma user_run text es m :
  waiting m = [] \/ Proceed ∉ es ->
  run_in text user_mode es m = Some (System (points m) (schedule m) (waiting m) (keys m) (oldest m)
    (write (said text es) (display m)) (ticks m)).
Proof using.
  clear. revert m. induction es as [|e es IH]; intros m Hm; [by destruct m|]. cbn [run_in].
  assert (Hm' : waiting m = [] \/ Proceed ∉ es /\ e <> Proceed).
  { destruct Hm as [?|Hn]; [by left|]. apply not_elem_of_cons in Hn as [??]. by right. }
  destruct e as [sc|esp ebp| |]; cbn [react_in user_mode in_user if_set said]; [apply IH; tauto..| |].
  - destruct Hm' as [Hq|[_ ?]]; [|done]. transitivity (run_in text user_mode es m); [by rewrite Hq|]. apply IH. tauto.
  - cbn [react]. rewrite IH by (cbn [waiting]; tauto). cbn [points schedule waiting keys oldest display ticks].
    by rewrite write_app.
Qed.

Lemma started_run q km s t es :
  q = [] \/ Proceed ∉ es ->
  run_in hello_text user_mode es (started q km s t) = Some (System [Polls] (RoundRobin.Scheduler [(0, 0, 0)] 0) q km
    (keyboard_buffer_start (kbd s)) (write (hello_text ++ said hello_text es) t) (tick s)).
Proof using.
  clear. intros Hq. unfold started. generalize hello_text at 2 3. intros greeting.
  rewrite user_run by exact Hq. by rewrite write_app.
Qed.

(** The premises of [Modes], for the greeting. *)
Lemma greeting_ascii : Forall (fun b => 0 < b < 128) hello_text /\ Z.of_nat (length hello_text) < 2147483647.
Proof using. clear. split; [by repeat constructor|cbn; lia]. Qed.

Lemma greeting_place s :
  can_boot mboot_ptr initial_stack hello loc iend s ->
  0 <= hello /\ hello + Z.of_nat (S (length hello_text)) <= 4294967296 /\
  (hello + Z.of_nat (S (length hello_text)) <= video_memory \/ video_memory + 4000 <= hello).
Proof using.
  clear Hstack Heip Hsyms. intros Hb. pose proof (text_place s Hb). pose proof heap_ends.
  unfold video_memory in *. cbn. lia.
Qed.

(** The machine that [boot_user] leaves is what a user knows of it. *)
Lemma booted_runs size files q km s s' :
  can_boot mboot_ptr initial_stack hello loc iend s -> can_open loc iend s size files ->
  NoDup (control_map km) -> booted loc size files hello q km s' ->
  exists t task, apart task /\ runs_as hello hello_text task user_mode (entered s') (started q km s' t).
Proof using.
  clear Hstack Heip Hsyms. intros Hb Ho Hdup Hbt. pose proof (text_place s Hb) as (H1 & H2 & H3).
  pose proof (img_range _ _ _ _ (co_image _ _ _ _ _ Ho)). unfold video_memory in *.
  by apply (booted_implements size files q km s'); [unfold video_memory; lia|lia|..].
Qed.

(** C11: The kernel that has started hears nothing.  It is in user mode with interrupts off,
    and stays there: whatever keys are pressed, however often the timer fires and the
    loop goes round, nothing typed gets into the buffer or onto the screen and
    no tick is counted.  The screen has the greeting and what system calls print. *)
Theorem kernel_is_deaf size files s :
  can_boot mboot_ptr initial_stack hello loc iend s -> can_open loc iend s size files ->
  wp (kernel_boot stack frame hello mboot_ptr initial_stack) (fun _ s' => exists t, forall es, Forall possible es ->
    (exists x, runs hello (entered s') es x) /\
    forall x, runs hello (entered s') es x ->
      shows (kernel x) (write (hello_text ++ said hello_text es) t) /\ queue (kbd (kernel x)) = [] /\
      tick (kernel x) = tick s' /\ mode_of (trace (kernel x)) = user_mode) s.
Proof using Hstack Heip Hsyms.
  intros Hb Ho. eapply wp_mono; [by apply (kernel_boot_spec stack frame mboot_ptr initial_stack hello loc iend Hstack size files)|].
  intros [] s' Hbt. destruct (booted_runs size files [] us s s' Hb Ho us_nodup Hbt) as (t & task & Hap & Hrun).
  exists t. intros es Hes. pose proof (started_run [] us s' t es (or_introl eq_refl)) as Hm.
  destruct (runs_happen hello hello_text task user_mode Heip greeting_ascii (greeting_place s Hb) Hap Hsyms
    es _ _ _ Hrun Hes Hm) as [Hex Hall].
  split; [exact Hex|]. intros x Hr. destruct (Hall x Hr) as (Him & Hs & _).
  pose proof (im_display _ _ _ _ _ Him) as Hd. pose proof (im_waiting _ _ _ _ _ Him) as Hq.
  pose proof (im_ticks _ _ _ _ _ Him) as Ht. cbn [display waiting ticks] in Hd, Hq, Ht.
  split; [exact Hd|]. split; [exact Hq|]. split; [exact Ht|exact (sy_mode _ _ _ Hs)].
Qed.

(** C12: And it does not survive a character.  Keys that are pressed after the handler of the
    keyboard has been registered and before interrupts are turned off get into the
    buffer; then, whatever happens in between, the first step of the loop is
    refused the store to the start index: it prints the message of [page_fault] behind
    the greeting, with the error code of a write in user mode to a page that is present,
    and stops the processor. *)
Theorem kernel_faults_on_typing regs scs size files s :
  can_boot mboot_ptr initial_stack hello loc iend s -> can_open loc iend s size files ->
  (length scs <= 255)%nat -> fst (key_chars scs us) <> [] ->
  wp (kernel_boot_typed stack frame hello regs scs mboot_ptr initial_stack) (fun _ s' =>
    queue (kbd s') = fst (key_chars scs us) /\ exists t, forall es, Forall possible es -> Proceed ∉ es ->
    (exists x, runs hello (entered s') es x) /\
    forall x, runs hello (entered s') es x ->
      (exists s2, stops x Proceed s2) /\
      (forall s2, stops x Proceed s2 -> store_refused (write (hello_text ++ said hello_text es) t) s2) /\
      forall x2, ~ step hello x Proceed x2) s.
Proof using Hstack Heip Hsyms.
  intros Hb Ho Hl Hne.
  eapply wp_mono; [by apply (kernel_boot_typed_spec stack frame mboot_ptr initial_stack hello loc iend Hstack regs scs size files)|].
  intros [] s' Hbt. split; [by destruct (bt_keyboard _ _ _ _ _ _ _ Hbt)|].
  assert (Hdup : NoDup (control_map (snd (key_chars scs us)))) by (rewrite key_chars_keeps_map; exact us_nodup).
  destruct (booted_runs size files _ _ s s' Hb Ho Hdup Hbt) as (t & task & Hap & Hrun).
  exists t. intros es Hes Hno.
  pose proof (runs_stop hello hello_text task user_mode Heip greeting_ascii (greeting_place s Hb) Hap Hsyms
    es _ _ _ Hrun Hes (started_run _ _ s' t es (or_intror Hno))) as Hstop.
  cbn [display] in Hstop. apply Hstop.
  cbn [react_in user_mode in_user waiting started]. by destruct (fst (key_chars scs us)).
Qed.
End Running.

Module SystemSample.
#[local] Existing Instance sample_linkage.
#[local] Instance sample_eax : LeftInEax := fun _ _ => 0.

(** Three tasks, the second about to read the buffer and the others in the middle of
    printing; the text is at 16384. *)
Definition state : kstate :=
  set_kbd (kbd (KeyboardSample.state 0 0 0 0))
    (set_handlers {[32 := ptr_timer_callback; 33 := ptr_keyboard_handler; 128 := ptr_syscall_handler]}
      (set_mem (RamdiskSample.store_bytes (mem TaskSample.tasks_state) 16384 (str "Hi")) TaskSample.tasks_state)).
Definition sample : machine := Machine {[4096 := Prints 65; 8192 := Polls; 12288 := Prints 66]} state.
Definition known : system :=
  System [Prints 65; Polls; Prints 66] (RoundRobin.Scheduler [(0, 0, 0); (0, 0, 0); (77, 78, 0)] 1)
    [] us 0 ConsoleSample.blank_terminal 0.

(** With whatever waits in the keyboard's buffer. *)
Lemma sample_keyboard g :
  kbd_wf g us ->
  implements 16384 (str "Hi") TaskSample.tasks (Machine (threads sample) (set_kbd g state))
    (System (points known) (schedule known) (queue g) us (keyboard_buffer_start g) (display known) 0).
Proof.
  intros Hg. constructor; cbn [kernel sample known threads schedule points keys waiting oldest display ticks].
  - by split_and!.
  - constructor; [apply TaskSample.tasks_sample; reflexivity|reflexivity|reflexivity|vm_compute; reflexivity].
  - split; [done|]. repeat constructor; cbn; lia.
  - intros [|[|[|i]]] t [= <-]; reflexivity.
  - split; [exact Hg|exact us_nodup].
  - reflexivity.
  - reflexivity.
  - split; [vm_compute; reflexivity|]. split; [reflexivity|]. split; [reflexivity|]. cbn. lia.
  - reflexivity.
  - vm_compute. reflexivity.
Qed.

(** An e waits in the buffer's last place. *)
Definition waiting_keyboard : keyboard_globals :=
  set_buffer (<[255%nat := 101]> (replicate 256 65)) (kbd (KeyboardSample.state 0 255 1 0)).

Lemma waiting_implements :
  implements 16384 (str "Hi") TaskSample.tasks (Machine (threads sample) (set_kbd waiting_keyboard state))
    (System (points known) (schedule known) [101] us 255 (display known) 0).
Proof. apply (sample_keyboard waiting_keyboard). constructor; cbn; done || lia. Qed.

(** The second task polls; f and o are typed inside [keyboard_getchar], the o when the start
    index has been incremented and not wrapped.  It gets the e that was waiting. *)
Lemma interrupted_poll_serialises_witness :
  wp (getchar_interrupted (fun n => press_all KeyboardSample.regs (nth n [[]; [33]; []; []; []; [24]] [])))
    (fun c s' => c = 101 /\ queue (kbd s') = str "fo") (set_kbd waiting_keyboard state).
Proof.
  eapply wp_mono; [eapply (wp_and _ _ (fun c _ => c = 101))|].
  - apply (interrupted_poll_serialises 16384 (str "Hi") TaskSample.tasks _ _ _ waiting_implements
      KeyboardSample.regs); [cbn; lia|reflexivity].
  - vm_compute. reflexivity.
  - intros c s' [[H|[-> H]] Hc]; [|discriminate Hc]. split; [exact Hc|].
    pose proof (im_waiting _ _ _ _ _ H) as Hq. cbn [kernel] in Hq. rewrite Hq. vm_compute. reflexivity.
Defined.

(** *** One task, with page tables

    Its structure is at 4096 and its directory at 8192; the tables for the first four
    megabytes and for the heap are at 20480 and 24576, the text at 28672. *)
Definition paged_memory : memory :=
  foldr (fun j m => store32 m (20480 + 4 * j) (mapped_page 0 0 0 j))
    (foldr (fun j m => store32 m (24576 + 4 * j) (mapped_page 0 0 0 (1024 + j)))
      (RamdiskSample.store_bytes
        (KheapSample.words_at [(4112, 8192); (8192 + 4096, 20487); (8192 + 4096 + 3072, 24583)] ∅)
        28672 (str "Hi")) (seqZ 0 256)) (seqZ 0 1024).

(** The trace says in which mode the processor is. *)
Definition alone (tr : list event) (g : keyboard_globals) : kstate :=
  set_kbd g (set_trace tr (set_handlers
    {[14 := ptr_page_fault; 32 := ptr_timer_callback; 33 := ptr_keyboard_handler; 128 := ptr_syscall_handler]}
    (set_tk (TaskGlobals 4096 4096 2) (set_pg (PagingGlobals 8192 8192 0 0) (set_mem paged_memory sample_state))))).
Definition one_loop (tr : list event) (g : keyboard_globals) : machine := Machine {[4096 := Polls]} (alone tr g).
Definition one_known (g : keyboard_globals) : system :=
  System [Polls] (RoundRobin.Scheduler [(0, 0, 0)] 0) (queue g) us (keyboard_buffer_start g)
    ConsoleSample.blank_terminal 0.

Lemma paged_maps : maps_kernel paged_memory 8192 20480 24576.
Proof.
  assert (Hall : forallb (fun j => (load32 paged_memory (20480 + 4 * j) =? mapped_page 0 0 0 j) &&
    (load32 paged_memory (24576 + 4 * j) =? if j <? 256 then mapped_page 0 0 0 (1024 + j) else 0))
    (seqZ 0 1024) = true) by (vm_compute; reflexivity).
  assert (Hj : forall j, 0 <= j < 1024 -> load32 paged_memory (20480 + 4 * j) = mapped_page 0 0 0 j /\
    load32 paged_memory (24576 + 4 * j) = if j <? 256 then mapped_page 0 0 0 (1024 + j) else 0).
  { intros j Hj. rewrite forallb_forall in Hall. specialize (Hall j). rewrite andb_true_iff, !Z.eqb_eq in Hall.
    apply Hall, list_elem_of_In, elem_of_seqZ. lia. }
  constructor; [vm_compute; reflexivity|vm_compute; reflexivity|intros j H; exact (proj1 (Hj j H))|
    intros j H; exact (proj2 (Hj j H))|].
  split_and!; reflexivity || lia.
Qed.

Lemma one_loop_implements tr g :
  kbd_wf g us -> implements 28672 (str "Hi") [4096] (one_loop tr g) (one_known g).
Proof.
  intros Hg. unfold one_loop, one_known. constructor; cbn [kernel threads schedule points keys waiting oldest display ticks].
  - by split_and!.
  - constructor; [|reflexivity|reflexivity|vm_compute; reflexivity]. constructor.
    + intros [|i] t [= <-]. vm_compute. reflexivity.
    + intros [|i] t [= <-]. lia.
    + intros [|i] [|j] t u [= <-] [= <-] Hne. by destruct Hne.
  - split; [done|]. by repeat constructor.
  - by intros [|i] t [= <-].
  - split; [exact Hg|exact us_nodup].
  - reflexivity.
  - reflexivity.
  - split; [vm_compute; reflexivity|]. split; [reflexivity|]. split; [reflexivity|]. cbn. lia.
  - reflexivity.
  - vm_compute. reflexivity.
Qed.

Lemma one_loop_steady tr g : steady 4096 (mode_of tr) (alone tr g).
Proof.
  assert (Hd : current_directory (pg (alone tr g)) = 8192) by reflexivity.
  constructor; rewrite ?Hd.
  - reflexivity.
  - reflexivity.
  - vm_compute. reflexivity.
  - lia.
  - exists 20480, 24576. split; [exact paged_maps|]. unfold map_mem, dir_table_physical, video, video_memory. lia.
Qed.

Lemma one_loop_away : Forall (fun t => (t + 28 <= video_memory \/ video_memory + 4000 <= t) /\
  (t + 28 <= 28672 \/ 28672 + Z.of_nat (S (length (str "Hi"))) <= t)) [4096].
Proof. repeat constructor; unfold video_memory; cbn; lia. Qed.

Lemma hi_ascii : Forall (fun b => 0 < b < 128) (str "Hi") /\ Z.of_nat (length (str "Hi")) < 2147483647.
Proof. split; [by repeat constructor|cbn; lia]. Qed.

Lemma hi_place : 0 <= 28672 /\ 28672 + Z.of_nat (S (length (str "Hi"))) <= 4294967296 /\
  (28672 + Z.of_nat (S (length (str "Hi"))) <= video_memory \/ video_memory + 4000 <= 28672).
Proof. unfold video_memory. cbn. lia. Qed.

Lemma keyboard_place : (0 <= sym_keyboard_buffer /\ sym_keyboard_buffer + 256 <= 4194304) /\
  0 <= sym_keyboard_buffer_start < 4194304 /\ 0 <= sym_keyboard_buffer_end < 4194304.
Proof. cbn. lia. Qed.

Definition empty_keyboard : keyboard_globals := kbd (KeyboardSample.state 0 0 0 0).

Lemma empty_keyboard_wf : kbd_wf empty_keyboard us.
Proof. apply (KeyboardSample.keyboard_wf 0 0 0 0); lia. Qed.

Lemma waiting_keyboard_wf : kbd_wf waiting_keyboard us.
Proof. constructor; cbn; done || lia. Qed.

(** At the privilege of the kernel, interrupts on, the task reads the key e and is interrupted,
    before it prints. *)
Definition events : list action := [Key 18; Tick 5 6; Proceed; Tick 7 8; Call; Proceed].

(** In user mode with interrupts off the e that waits is the end of the loop. *)
Definition user_trace : list event := [IretToUser 0; Cli; Sti].

Lemma kernel_refines_system_witness :
  ((exists x', runs 28672 (one_loop [Sti] empty_keyboard) events x') /\
   forall x', runs 28672 (one_loop [Sti] empty_keyboard) events x' ->
     shows (kernel x') (write (str "Hie") ConsoleSample.blank_terminal)) /\
  exists x1 s', runs 28672 (one_loop user_trace waiting_keyboard) [Key 18; Tick 7 8; Call] x1 /\
    stops x1 Proceed s' /\ head (trace s') = Some Hlt.
Proof.
  split.
  - destruct (kernel_refines_system 28672 (str "Hi") 4096 (mode_of [Sti]) TaskSample.eip_sample hi_ascii hi_place
      one_loop_away keyboard_place events (one_loop [Sti] empty_keyboard) (one_known empty_keyboard)) as [Hex Hall].
    + apply one_loop_implements, empty_keyboard_wf.
    + apply one_loop_steady.
    + discriminate.
    + repeat constructor; cbn; lia.
    + split; [exact Hex|]. intros x' Hr. pose proof (im_display _ _ _ _ _ (Hall x' Hr)) as Hd.
      eassert (He : _ = write (str "Hie") ConsoleSample.blank_terminal) by (vm_compute; reflexivity).
      rewrite <- He. exact Hd.
  - destruct (kernel_refines_system 28672 (str "Hi") 4096 (mode_of user_trace) TaskSample.eip_sample hi_ascii hi_place
      one_loop_away keyboard_place [Key 18; Tick 7 8; Call; Proceed] (one_loop user_trace waiting_keyboard)
      (one_known waiting_keyboard)) as (_ & es1 & es2 & m1 & He & Hm1 & Hw & (x1 & Hr) & Hall).
    + apply one_loop_implements, waiting_keyboard_wf.
    + apply one_loop_steady.
    + by intros _.
    + repeat constructor; cbn; lia.
    + destruct (Hall x1 Hr) as (_ & [s' Hs] & Hend & _). exists x1, s'.
      destruct es1 as [|? [|? [|? [|? es1]]]]; try discriminate He.
      * injection He as <- <- <- _. split; [exact Hr|]. split; [exact Hs|]. by destruct (Hend s' Hs) as (? & ? & ? & _ & _ & _ & H).
      * destruct es1; discriminate He.
Defined.

(** The keys e and c are pressed, the timer fires, the loop goes round, a call prints. *)
Lemma kernel_is_deaf_witness :
  wp (kernel_boot BootSample.boot_stack SyscallSample.frame 1100000 65536 65536) (fun _ s' => exists t,
    (exists x, runs 1100000 (entered s') [Key 18; Tick 4096 4096; Proceed; Key 46; Call; Proceed] x) /\
    forall x, runs 1100000 (entered s') [Key 18; Tick 4096 4096; Proceed; Key 46; Call; Proceed] x ->
      shows (kernel x) (write (hello_text ++ hello_text) t) /\ queue (kbd (kernel x)) = []) BootSample.boot_state.
Proof.
  eapply wp_mono.
  - exact (kernel_is_deaf BootSample.boot_stack SyscallSample.frame 65536 65536 1100000 1146880 1155072
      BootSample.boot_stack_ok TaskSample.eip_sample keyboard_place 4870 RamdiskSample.sample_files
      BootSample.boot_state BootSample.sample_can_boot BootSample.sample_can_open).
  - intros r s' (t & Hall). exists t. destruct (Hall [Key 18; Tick 4096 4096; Proceed; Key 46; Call; Proceed]) as [Hex Hx].
    + repeat constructor; cbn; lia.
    + split; [exact Hex|]. intros x Hr. destruct (Hx x Hr) as (Hd & Hq & _). split; [exact Hd|exact Hq].
Defined.

(** The key e is pressed during the start. *)
Lemma kernel_faults_on_typing_witness :
  wp (kernel_boot_typed BootSample.boot_stack SyscallSample.frame 1100000 KeyboardSample.regs [18] 65536 65536)
    (fun _ s' => queue (kbd s') = str "e" /\ exists t, forall s2, stops (entered s') Proceed s2 ->
       exists rest, shows s2 (write (str "Page fault! ( read-only user-mode ) at 0x0x" ++ rest) (write hello_text t)))
    BootSample.boot_state.
Proof.
  eapply wp_mono.
  - apply (kernel_faults_on_typing BootSample.boot_stack SyscallSample.frame 65536 65536 1100000 1146880 1155072
      BootSample.boot_stack_ok TaskSample.eip_sample keyboard_place KeyboardSample.regs [18] 4870
      RamdiskSample.sample_files BootSample.boot_state BootSample.sample_can_boot BootSample.sample_can_open).
    + cbn. lia.
    + vm_compute. discriminate.
  - intros r s' [Hq (t & Hall)]. split; [exact Hq|]. exists t. intros s2 Hs2.
    destruct (Hall []) as [_ Hx]; [constructor|apply not_elem_of_nil|].
    destruct (Hx (entered s') (runs_nil 1100000 (entered s'))) as (_ & Hend & _).
    destruct (Hend s2 Hs2) as (address & eip & line & _ & _ & Hs & _).
    cbn [said] in Hs. rewrite app_nil_r in Hs. eexists. exact Hs.
Defined.
End SystemSample.
